(* ===== verification/_CoqProject ===== *)
-Q . S2P
Prelude.v
VirtAddr.v
Storage.v
Str.v
DemoVolume.v
Fat32.v
Fat32Geometry.v
Fat32Chain.v
Fat32Dir.v
Fat32Files.v
Fat32Demo.v
FatTypes.v
Ring.v
Ports.v
Keyboard.v
KeyboardQueue.v
QueueSteps.v
KeyboardDecode.v
KeyboardController.v
Console.v
Allocator.v
Memory.v
History.v
Timer.v
Pic.v
Serial.v
Pci.v
Shell.v
ShellEditor.v
ShellScreen.v
ShellCommands.v
ShellDemo.v
Framebuffer.v
FramebufferPixels.v
FramebufferText.v
FramebufferShell.v
Terminal.v
Interrupts.v
Gdt.v
Faults.v
Kernel.v
Boot.v
KernelDemo.v
Loader.v
Launcher.v
HostFs.v
ImageBuilder.v
BootImage.v
ImageBoot.v
ImageDemo.v
HostTree.v
DataVolume.v
FatFormat.v
DataDemo.v
DiskImage.v
BuildScript.v
BuildDemo.v
BootLoader.v
LoaderHandover.v
BootStart.v
EndToEnd.v
EndToEndDemo.v
