(* ===== verification/Prelude.v ===== *)
(** * Sol OS: a verification library for the kernel and its build

    Sol OS is a small x86_64 operating system in Rust.  A build script ([build.rs])
    puts a host directory into a FAT32 volume and the volume into a disk image; a
    launcher ([src/main.rs]) boots the image in QEMU.  A boot loader (a fork of
    rust-osdev's, under [vendor/bootloader]) reads the FAT32 partition named
    sol-data into memory and starts the kernel (under [kernel/src]), which brings up
    the screen, interrupts, the heap and the file system and then runs a shell fed
    by the keyboard interrupt.  This library models that code as executable
    functions and step relations and proves what makes it correct.  File names
    below are relative to [src/].

    ** Conventions

    A w-bit unsigned integer is a [Z] in range; sizes and indices bounded by a
    buffer are [nat].  The kernel is built with overflow checks, so an unchecked
    [+], [-] or [*] of the source is a checked operation, and a slice or array
    access is one that may fail.  Failure of either is a panic: [None] where the
    function has no error of its own, [Panic] of [outcome] where it returns a
    [Result], whose [Err] is then [Err].  Loops with [return] or [?] inside are
    [for_in] and [for_n], whose body either continues or leaves with a result.
    Code that touches I/O ports runs in the [IO] monad of [Ports.v], over any
    device with a [Hardware] instance, and logs every access.  What is printed is
    a list of [action]s, which [Terminal.v] carries out on the serial port and the
    screen.  Text is a list of code points, bytes are a list of [Z].
    Host programs run in the [Build] monad of [HostFs.v] over files, printed lines
    and a function that says which system calls fail; [runs], [prints], [attempts]
    and [delivers] are the judgements their theorems are proved with.  The boot
    loader runs in the [Efi] monad of [BootLoader.v], over the firmware's state and
    memory; it is built without overflow checks, so its arithmetic wraps.

    ** The files

    - [Prelude]: integers, [outcome], loops, slices, tactics ([inv_ok], [inv_some],
      [to_prop], [zlia], [decide_tests]), the hint database [sol].
    - [VirtAddr]: virtual addresses of the [x86_64] crate, as a class.
    - [Storage] ([kernel/src/storage.rs]): the trait [BlockDevice] as a class, the
      contract [BlockDeviceSpec] the file system is verified against, and the RAM
      disk, which discharges it.
    - [Str]: the functions of [str] and [char] the kernel uses, UTF-8 included.
    - [Fat32] ([kernel/src/fat32.rs]): the whole driver.  [Fat32Geometry] (mounting,
      the FAT, the invariant [fs_wf] of a mounted volume), [Fat32Chain] (cluster
      chains as the relations [path] and [walk]), [Fat32Dir] (records and
      directories), [Fat32Files] (paths and files), [FatTypes] (machine types) hold
      its theorems, [DemoVolume] and [Fat32Demo] a volume they are instantiated on.
      [FatFormat]: the FAT32 format, byte by byte and independent of the driver, and
      that the driver reads it.
    - [Ring]: circular buffers, shared by the keyboard queue and the history.
    - [Ports]: port input and output.
    - [Keyboard] ([kernel/src/keyboard.rs]): queue, decoder and controller set-up,
      with [KeyboardQueue] (the queue as a FIFO), [QueueSteps] (the queue with the
      accesses of both sides interleaved), [KeyboardDecode] (a reference decoder)
      and [KeyboardController] (the conversation with the 8042).
    - [Allocator] ([kernel/src/allocator.rs]) and [Memory] ([kernel/src/memory.rs]):
      the bump allocator, physical frames, the mapping of the heap.
    - [Console] ([kernel/src/console.rs]), [Serial], [Timer], [Pic], [Pci],
      [Interrupts] (the files of those names): output and formatting, and the
      devices, each interpreted by a small model of the hardware it programs.
    - [History], [Shell] ([kernel/src/shell.rs]): command history, line editor and
      commands, with [ShellEditor] (refinement of an abstract text editor),
      [ShellScreen] (what the row shows), [ShellCommands] (what commands print) and
      [ShellDemo].
    - [Framebuffer] ([kernel/src/framebuffer.rs]): the text console, pixel by pixel,
      with [FramebufferPixels], [FramebufferText] and [FramebufferShell] (the
      command line on a real screen).  [Terminal] (the functions of [console.rs],
      [serial.rs] and [framebuffer.rs] that print): actions run on both sinks.
    - [Gdt] ([kernel/src/gdt.rs]): segments and the double-fault stack.  [Faults]
      (the handlers of [interrupts.rs], the panic handler and the fault tests of
      [main.rs], the locks of [serial.rs] and [framebuffer.rs]): how the machine
      reports an error and stops.
    - [Kernel]: the running system, interrupts and shell interleaved.  [Boot]
      ([kernel/src/main.rs]): [kernel_main].  [KernelDemo]: a machine that boots.
    - [Loader] ([vendor/bootloader/uefi/src/main.rs], the functions the project
      added): the sol-data hand-off.  [BootLoader] (the rest of that file up to the
      jump to the kernel, and [memory_descriptor.rs]): kernel, configuration, screen,
      page tables, ACPI.  [LoaderHandover]: what all of it leaves for the kernel.
    - [Launcher] ([src/main.rs]): the whole launcher.
    - [HostFs]: files, errors and system calls of the host.  [HostTree]: directories
      and [watch_host_tree].  [DataVolume]: [build_data_volume] and
      [copy_host_tree].  [ImageBuilder]: [assemble_two_partition_image] and what it
      calls.  [BuildScript]: [main].  All of [build.rs].
    - [DiskImage] ([vendor/bootloader/src/lib.rs], [fat.rs],
      [file_data_source.rs]) and [BootImage] ([gpt.rs]): the boot loader's own file
      system and image.  [ImageBoot]: the image builder, [Loader] and [Storage]
      together.  [ImageDemo], [DataDemo], [BuildDemo]: builds run on models of the
      crates.
    - [BootStart]: the boot loader on the volume of [DiskImage].  [EndToEnd]: image
      builder, boot loader, [kernel_main] and shell together, and [EndToEndDemo]: a
      64 MiB volume that goes the whole way.

    ** How the parts interact

    [BuildScript] makes the volume with [DataVolume], fills the boot loader's file
    system with [DiskImage], takes the boot partition from the image of [BootImage],
    and joins both with [ImageBuilder]; [Launcher] starts QEMU on the result.
    [BootLoader] finds the kernel and calls [Loader], which leaves the partition in
    memory; [Storage] presents it as sectors;
    [Fat32] reads them through [BlockDevice] only, and its theorems assume
    [BlockDeviceSpec] only.  The keyboard interrupt of [Interrupts] decodes into the
    queue of [Keyboard]; the loop of [Shell] takes events from it, edits, and calls
    [Fat32] for [ls] and [cat]; its actions are rendered by [Framebuffer] and sent by
    [Serial].  [Boot] composes the set-up of all of them in the order of
    [kernel_main] and runs its output on [Terminal], as [Faults] does with that of
    the fault handlers, behind the locks; [Kernel] composes them at run time.

    ** What is shown

    - Safety.  No reachable state of the running kernel panics ([kernel_is_safe]),
      whatever is typed, whatever is on the volume ([file_system_never_panics],
      [shell_never_panics]) and whatever is printed ([output_never_panics]);
      bring-up either reports the cause of its failure or reaches the shell with
      every invariant in place, its output drawn and the devices programmed
      ([boot_reaches_shell]); the interrupts that can
      arrive are those with a handler ([interrupts_have_handlers]).
      A crash is reported and stops the machine ([crash_is_reported]), the double
      fault has its own stack ([double_fault_has_its_stack]), and the fault tests
      end in their handlers ([fault_tests_reach_handlers]); a fault during output
      hangs ([fault_during_output_spins]).  The values of the file system are in
      their machine types ([file_system_typed]).
    - End to end.  A file of the host's tree is what the shell's [cat] prints, through
      builder, boot loader, bring-up and file system ([files_reach_shell]); a start
      from the network has no files ([network_start_has_no_files]).  The hypothesis
      between the two halves is [fat32_volume]: that the bytes [fatfs] wrote are in
      the FAT32 format, which [FatFormat] states and [kernel_reads_tree] uses.
      [volume_holds_tree] says what [fatfs] itself shows of them.
    - The boot loader.  That it starts the kernel of the build's boot volume with the
      build's configuration ([boot_volume_starts]); from which bytes it makes the kernel
      and the configuration and which screen, ramdisk and page tables are in memory
      when the kernel is entered, in any case ([loader_hands_over]); that its search
      for ACPI 1 finds nothing ([acpi1_never_found]) and that an empty file stops it ([empty_file_panics]).
    - The build.  The script makes the volume and the image it is meant to make or
      stops for a cause outside it ([build_makes_image], from [volume_holds_tree]
      and [image_is_assembled]), whatever the order of directory listings
      ([build_order_irrelevant]); the boot partition holds the loader, its
      configuration and the kernel ([boot_volume]); the launcher boots the image
      ([launcher_runs_image]).
    - Functional correctness, on every branch: which volumes mount, what directory
      visits, path lookups and file reads return, damaged volumes included; what
      frames and heap blocks are handed out; what each command prints; what is
      drawn; which bytes go to each device and in what order.
    - Refinement: ring buffers to lists, the editor's buffers to a text with a
      cursor, the scancode handler to a decoder, the RAM disk to the partition it
      came from, the driver to the FAT32 format.
    - Concurrency: the single-producer single-consumer queue and the allocator's
      compare-and-swap loop, under every interleaving of their atomic accesses
      (sequentially consistent: the machine has one core and the other side is an
      interrupt).

    ** Bounds and fuel

    Every loop of the source is bounded and keeps its bound: [cluster_count + 1]
    clusters for a chain, which [visit_directory_spec] shows to be more than any
    chain without repetition has; 100000 polls of the keyboard controller and of
    the serial line, 32 for draining; 32 devices and 256 buses for PCI.  [decimal]
    prints twenty digits at most, enough for 64 bits.  The compare-and-swap loop,
    which has no bound, is a relation.  The recursions over host directories take
    the depth as fuel; any fuel not below the height of the tree is enough, and
    running out counts as a panic, which the theorems exclude.

    ** What is assumed of code that is not here

    [BlockDeviceSpec] is proved for the RAM disk.  [MapperSpec] and the behaviour of
    [containing_frame] state the documentation of the [x86_64] crate, [FontSpec]
    that of the font crate (rasters of the declared width, sixteen rows, a question
    mark), [FirmwareSpec] that of UEFI Block I/O, [regions_wf] that the firmware's
    usable regions do not overlap, [screen_ok] and [screen_usable] that the
    framebuffer's memory matches its description.  [VirtAddrsSpec] and [SegmentTablesSpec] state the
    documentation of the [x86_64] crate's addresses and descriptor tables, [GptSpec]
    that of the [gpt] crate and the layout the GPT format fixes, [FatSpec] that of
    the [fatfs] crate for 8.3 names in capitals, [PathFatSpec] that of its
    operations on paths.  [BootServices], [LoaderFiles] and [LoaderFrames] are UEFI's
    protocols, the parsers of kernel and configuration and the frame allocator of the
    crate that starts the kernel.  [BootServicesSpec] states that allocating pages and
    setting a screen mode leave the files alone and that a read fits its buffer,
    [BootMemorySpec] that the pages given for the data partition are not listed as
    free when boot services end, [LoaderFramesSpec] that the allocator gives out whole
    pages of free regions, each once, and [VirtAddrsExact] that the crate's addresses
    are never changed silently.  Each is instantiated.

    ** What is not modelled

    [BOOTLOADER_CONFIG] of [kernel/src/main.rs], a constant only the boot loader
    reads; the locks and the rendering in the step relation of [Kernel], where no fault
    occurs and actions are collected ([output_never_panics] is about any list of
    them); what a
    dropped [fatfs] file system writes after an error that stops the build.  Of the
    boot loader: its log lines and its panic handler, which print through a logger
    outside the repository, and the parts of its library that nothing here calls
    (BIOS images, the TFTP folder, its own build script).  The jump to the kernel,
    with the mapping of the ramdisk into its address space, is another crate's:
    [files_reach_shell] takes the mapped bytes as a hypothesis.  Later: a bound on
    the rendering of a whole session. *)

From Stdlib Require Export ZArith Lia ZifyNat.
From stdpp Require Export prelude list numbers.
From stdpp Require Export list_basics list_relations list_monad list_misc list_tactics list_numbers.

#[global] Set Default Goal Selector "!".
#[local] Open Scope Z_scope.

(** ** Machine integers

    A [w]-bit unsigned integer is a [Z] in [0, 2^w).  The kernel is built with
    the dev profile, whose arithmetic traps on overflow: an unchecked [+], [-]
    or [*] of the source is the checked operation below, with [None] read as a
    panic. *)

Definition is_uint (w z : Z) : Prop := 0 <= z < 2 ^ w.

Definition is_uintb (w z : Z) : bool := (0 <=? z) && (z <? 2 ^ w).

Definition wrap (w z : Z) : Z := z mod 2 ^ w.

Definition checked_add (w a b : Z) : option Z :=
  if a + b <? 2 ^ w then Some (a + b) else None.

Definition checked_mul (w a b : Z) : option Z :=
  if a * b <? 2 ^ w then Some (a * b) else None.

Definition checked_sub (a b : Z) : option Z :=
  if b <=? a then Some (a - b) else None.

Definition saturating_sub (a b : Z) : Z := Z.max 0 (a - b).

Definition saturating_mul (w a b : Z) : Z := Z.min (2 ^ w - 1) (a * b).

(** Bitwise complement at width [w]: Rust's [!x]. *)
Definition not_w (w x : Z) : Z := 2 ^ w - 1 - x.

(** [usize] positions of small buffers are natural numbers; their subtraction
    traps below zero. *)
Definition nat_sub (a b : nat) : option nat :=
  if decide (b <= a)%nat then Some (a - b)%nat else None.

(** ** Outcomes

    [Result] with the third way a Rust call can end, a panic. *)

Inductive outcome (E A : Type) : Type :=
| Ok (a : A)
| Err (e : E)
| Panic.

Arguments Ok {E A} _.
Arguments Err {E A} _.
Arguments Panic {E A}.

#[export] Instance outcome_ret (E : Type) : MRet (outcome E) := fun _ a => Ok a.

#[export] Instance outcome_bind (E : Type) : MBind (outcome E) := fun _ _ k m =>
  match m with
  | Ok a => k a
  | Err e => Err e
  | Panic => Panic
  end.

(** [option.ok_or(e)?] *)
Definition ok_or {E A : Type} (e : E) (o : option A) : outcome E A :=
  match o with Some a => Ok a | None => Err e end.

(** A computation that can only panic, seen as one that returns a [Result]. *)
Definition or_panic {E A : Type} (o : option A) : outcome E A :=
  match o with Some a => Ok a | None => Panic end.

(** [result.map_err(f)], also the [From] conversion of the [?] operator. *)
Definition map_err {E F A : Type} (f : E -> F) (m : outcome E A) : outcome F A :=
  match m with
  | Ok a => Ok a
  | Err e => Err (f e)
  | Panic => Panic
  end.

(** [slice[i]] *)
Definition index {E A : Type} (l : list A) (i : nat) : outcome E A := or_panic (l !! i).

(** ** Loops with early exit

    The body of a [for] either falls through with the new loop state or leaves
    the enclosing function with its result. *)

Inductive control (R S : Type) : Type :=
| Break (r : R)
| Continue (s : S).

Arguments Break {R S} _.
Arguments Continue {R S} _.

Fixpoint for_in {A R S : Type} (body : A -> S -> control R S) (l : list A) (s : S)
  : control R S :=
  match l with
  | [] => Continue s
  | x :: l =>
      match body x s with
      | Break r => Break r
      | Continue s => for_in body l s
      end
  end.

Fixpoint for_n {R S : Type} (n : nat) (body : S -> control R S) (s : S) : control R S :=
  match n with
  | O => Continue s
  | S n =>
      match body s with
      | Break r => Break r
      | Continue s => for_n n body s
      end
  end.

(** The [?] operator inside a loop: an error leaves the function with the
    state reached so far. *)
Definition or_return {E A R S T : Type} (t : T) (m : outcome E A)
    (k : A -> control (outcome E R * T) S) : control (outcome E R * T) S :=
  match m with
  | Ok a => k a
  | Err e => Break (Err e, t)
  | Panic => Break (Panic, t)
  end.

(** ** Slices

    The three slice operations of the kernel that trap when a range does not
    fit. *)

(** [&l[start..end]], and [l.get(start..end)] with [None] as its own result. *)
Definition slice {A : Type} (l : list A) (s e : nat) : option (list A) :=
  if decide (s <= e <= length l)%nat then Some (take (e - s) (drop s l)) else None.

(** [dst[at..at + src.len()].copy_from_slice(src)] *)
Definition splice {A : Type} (l : list A) (at_ : nat) (src : list A) : option (list A) :=
  if decide (at_ + length src <= length l)%nat
  then Some (take at_ l ++ src ++ drop (at_ + length src) l)
  else None.

(** [l.copy_within(s..e, d)] *)
Definition copy_within {A : Type} (l : list A) (s e d : nat) : option (list A) :=
  src ← slice l s e; splice l d src.

(** [l[i] = x] *)
Definition set_index {A : Type} (l : list A) (i : nat) (x : A) : option (list A) :=
  if decide (i < length l)%nat then Some (<[i := x]> l) else None.

(** [l.chunks_exact(n)] *)
Fixpoint chunks_exact_fuel {A : Type} (fuel n : nat) (l : list A) : list (list A) :=
  match fuel with
  | O => []
  | S fuel =>
      if decide (n <= length l)%nat
      then take n l :: chunks_exact_fuel fuel n (drop n l)
      else []
  end.

Definition chunks_exact {A : Type} (n : nat) (l : list A) : list (list A) :=
  chunks_exact_fuel (length l) n l.

(** ** Automation *)

Create HintDb sol.

Lemma bind_Ok_inv {E A B : Type} (m : outcome E A) (k : A -> outcome E B) (b : B) :
  m ≫= k = Ok b -> exists a, m = Ok a /\ k a = Ok b.
Proof. destruct m; naive_solver. Qed.

Lemma ok_or_Ok_inv {E A : Type} (e : E) (o : option A) (a : A) :
  ok_or e o = Ok a -> o = Some a.
Proof. destruct o; naive_solver. Qed.

Lemma or_panic_Ok_inv {E A : Type} (o : option A) (a : A) :
  @or_panic E A o = Ok a -> o = Some a.
Proof. destruct o; naive_solver. Qed.

Lemma map_err_Ok_inv {E F A : Type} (f : E -> F) (m : outcome E A) (a : A) :
  map_err f m = Ok a -> m = Ok a.
Proof. destruct m; naive_solver. Qed.

Lemma index_Ok_inv {E A : Type} (l : list A) (i : nat) (a : A) :
  @index E A l i = Ok a -> l !! i = Some a.
Proof. apply or_panic_Ok_inv. Qed.

(** Opens every successful bind, conversion and checked operation of the
    context. *)
Ltac inv_ok :=
  repeat match goal with
  | H : mbind _ _ = Ok _ |- _ =>
      let a := fresh "a" in
      let Ha := fresh "Hok" in
      apply bind_Ok_inv in H as (a & Ha & H)
  | H : ok_or _ _ = Ok _ |- _ => apply ok_or_Ok_inv in H
  | H : or_panic _ = Ok _ |- _ => apply or_panic_Ok_inv in H
  | H : map_err _ _ = Ok _ |- _ => apply map_err_Ok_inv in H
  | H : index _ _ = Ok _ |- _ => apply index_Ok_inv in H
  | H : (if ?b then Err _ else _) = Ok _ |- _ =>
      let Hb := fresh "Hif" in destruct b eqn:Hb; [discriminate H|]
  | H : Ok _ = Ok _ |- _ => injection H as H
  | H : Some _ = Some _ |- _ => injection H as H
  | H : Err _ = Ok _ |- _ => discriminate H
  | H : Panic = Ok _ |- _ => discriminate H
  | H : None = Some _ |- _ => discriminate H
  end.

(** Opens every bind of a successful optional computation. *)
Ltac inv_some :=
  repeat match goal with
  | H : mbind _ ?o = Some _ |- _ =>
      let E := fresh "E" in destruct o eqn:E; simpl in H; [|discriminate H]
  | H : Some _ = Some _ |- _ => injection H as H
  end.

(** Boolean tests of the code as the propositions they decide. *)
Ltac to_prop :=
  repeat match goal with
  | H : _ || _ = false |- _ => apply orb_false_iff in H as [? ?]
  | H : _ && _ = true |- _ => apply andb_true_iff in H as [? ?]
  | H : negb _ = false |- _ => apply negb_false_iff in H
  | H : negb _ = true |- _ => apply negb_true_iff in H
  | H : (_ =? _) = true |- _ => apply Z.eqb_eq in H
  | H : (_ =? _) = false |- _ => apply Z.eqb_neq in H
  | H : (_ <? _) = true |- _ => apply Z.ltb_lt in H
  | H : (_ <? _) = false |- _ => apply Z.ltb_ge in H
  | H : (_ <=? _) = true |- _ => apply Z.leb_le in H
  | H : (_ <=? _) = false |- _ => apply Z.leb_gt in H
  end.

(** Linear arithmetic with division and remainder. *)
Ltac zlia := zify; Z.to_euclidean_division_equations; lia.

(** Decides every integer test of the goal that the context settles. *)
Ltac decide_tests :=
  repeat match goal with
  | |- context [?a =? ?b] =>
      first [rewrite (proj2 (Z.eqb_eq a b)) by lia | rewrite (proj2 (Z.eqb_neq a b)) by lia]
  | |- context [?a <? ?b] =>
      first [rewrite (proj2 (Z.ltb_lt a b)) by lia | rewrite (proj2 (Z.ltb_ge a b)) by lia]
  | |- context [?a <=? ?b] =>
      first [rewrite (proj2 (Z.leb_le a b)) by lia | rewrite (proj2 (Z.leb_gt a b)) by lia]
  end.

(** ** Runs of a step relation *)

Lemma rtc_preserves {A : Type} (R : relation A) (P : A -> Prop) (x y : A) :
  (forall a b, R a b -> P a -> P b) -> P x -> rtc R x y -> P y.
Proof. intros Hstep Hx Hrun. revert Hx. induction Hrun; eauto. Qed.

(** ** Slices in range *)

Lemma slice_take {A : Type} (l : list A) (s e : nat) :
  (s <= e <= length l)%nat -> slice l s e = Some (take (e - s) (drop s l)).
Proof. intros. unfold slice. by rewrite decide_True. Qed.

Lemma splice_app {A : Type} (l : list A) (i : nat) (src : list A) :
  (i + length src <= length l)%nat ->
  splice l i src = Some (take i l ++ src ++ drop (i + length src) l).
Proof. intros. unfold splice. by rewrite decide_True. Qed.

Lemma set_index_take {A : Type} (l l' : list A) (i : nat) (x : A) :
  set_index l i x = Some l' ->
  length l' = length l /\ take (S i) l' = take i l ++ [x] /\ (i < length l)%nat.
Proof.
  unfold set_index. case_decide as Hi; [|done]. intros [= <-]. rewrite length_insert.
  split; [done|]. split; [|done]. erewrite take_S_r by (by apply list_lookup_insert_eq).
  by rewrite take_insert_ge by lia.
Qed.

(** ** Machine-integer lemmas *)

Lemma is_uintb_spec (w z : Z) : is_uintb w z = true <-> is_uint w z.
Proof. unfold is_uintb, is_uint. rewrite andb_true_iff, Z.leb_le, Z.ltb_lt. lia. Qed.

#[export] Instance is_uint_dec (w z : Z) : Decision (is_uint w z).
Proof. unfold is_uint. apply _. Defined.

Lemma checked_add_Some (w a b c : Z) :
  checked_add w a b = Some c <-> c = a + b /\ a + b < 2 ^ w.
Proof. unfold checked_add. destruct (Z.ltb_spec (a + b) (2 ^ w)); split; intros; simplify_eq; intuition (lia || congruence). Qed.

Lemma checked_mul_Some (w a b c : Z) :
  checked_mul w a b = Some c <-> c = a * b /\ a * b < 2 ^ w.
Proof. unfold checked_mul. destruct (Z.ltb_spec (a * b) (2 ^ w)); split; intros; simplify_eq; intuition (lia || congruence). Qed.

Lemma checked_add_lt (w a b : Z) : a + b < 2 ^ w -> checked_add w a b = Some (a + b).
Proof. rewrite checked_add_Some. lia. Qed.

Lemma checked_mul_lt (w a b : Z) : a * b < 2 ^ w -> checked_mul w a b = Some (a * b).
Proof. rewrite checked_mul_Some. lia. Qed.

Lemma checked_sub_Some (a b c : Z) : checked_sub a b = Some c <-> c = a - b /\ b <= a.
Proof. unfold checked_sub. destruct (Z.leb_spec b a); split; intros; simplify_eq; intuition (lia || congruence). Qed.

Lemma checked_sub_le (a b : Z) : b <= a -> checked_sub a b = Some (a - b).
Proof. rewrite checked_sub_Some. lia. Qed.

Lemma nat_sub_Some (a b c : nat) : nat_sub a b = Some c <-> c = (a - b)%nat /\ (b <= a)%nat.
Proof. unfold nat_sub. case_decide; split; intros; simplify_eq; intuition (lia || congruence). Qed.

Lemma nat_sub_le (a b : nat) : (b <= a)%nat -> nat_sub a b = Some (a - b)%nat.
Proof. rewrite nat_sub_Some. lia. Qed.

(** Clearing the low [k] bits rounds down to a multiple of [2^k]: the [x &
    !(align - 1)] of the allocators. *)
Lemma land_not_ones (w k x : Z) :
  0 <= k <= w -> is_uint w x ->
  Z.land x (not_w w (2 ^ k - 1)) = x / 2 ^ k * 2 ^ k.
Proof.
  intros Hk Hx. unfold is_uint, not_w in *.
  replace (2 ^ w - 1 - (2 ^ k - 1)) with (Z.shiftl (Z.ones (w - k)) k).
  - rewrite <- Z.shiftr_div_pow2, <- Z.shiftl_mul_pow2 by lia.
    apply Z.bits_inj'. intros i Hi.
    rewrite Z.land_spec, !Z.shiftl_spec by lia.
    destruct (decide (k <= i)) as [Hki|Hki].
    + rewrite Z.shiftr_spec by lia. replace (i - k + k) with i by lia.
      rewrite Z.testbit_ones_nonneg by lia.
      destruct (Z.ltb_spec (i - k) (w - k)); [apply andb_true_r|].
      rewrite andb_false_r. symmetry.
      destruct (decide (x = 0)) as [->|Hne]; [apply Z.testbit_0_l|].
      apply Z.bits_above_log2; [lia|].
      apply Z.log2_lt_pow2; [lia|].
      apply Z.lt_le_trans with (2 ^ w); [lia|]. apply Z.pow_le_mono_r; lia.
    + rewrite !(Z.testbit_neg_r _ (i - k)) by lia. apply andb_false_r.
  - rewrite Z.shiftl_mul_pow2, Z.ones_equiv by lia.
    replace (2 ^ w) with (2 ^ (w - k) * 2 ^ k); [lia|].
    rewrite <- Z.pow_add_r by lia. f_equal. lia.
Qed.

(** Testing a bit with a mask. *)
Lemma land_pow2_test (x k : Z) : 0 <= k -> (Z.land x (2 ^ k) =? 0) = negb (Z.testbit x k).
Proof.
  intros Hk. destruct (Z.testbit x k) eqn:Hb; simpl.
  - apply Z.eqb_neq. intros H0. apply (f_equal (fun z => Z.testbit z k)) in H0.
    by rewrite Z.land_spec, Hb, Z.pow2_bits_true, Z.bits_0 in H0.
  - apply Z.eqb_eq, Z.bits_inj'. intros i Hi. rewrite Z.land_spec, Z.bits_0.
    destruct (decide (i = k)) as [->|]; [by rewrite Hb|].
    rewrite Z.pow2_bits_false by lia. apply andb_false_r.
Qed.

(** Packing a high and a low part into one word. *)
Lemma lor_shiftl_add (h l n : Z) :
  0 <= n -> 0 <= l < 2 ^ n -> Z.lor (Z.shiftl h n) l = h * 2 ^ n + l.
Proof.
  intros Hn Hl. rewrite <- Z.shiftl_mul_pow2 by lia.
  assert (Hland : Z.land (Z.shiftl h n) l = 0).
  { apply Z.bits_inj'. intros i Hi. rewrite Z.land_spec, Z.bits_0, Z.shiftl_spec by lia.
    destruct (decide (i < n)) as [Hin|Hin].
    - by rewrite Z.testbit_neg_r by lia.
    - rewrite andb_comm. destruct (decide (l = 0)) as [->|]; [by rewrite Z.bits_0|].
      rewrite (Z.bits_above_log2 l); [done|lia|].
      apply Z.log2_lt_pow2; [lia|]. apply Z.lt_le_trans with (2 ^ n); [lia|].
      apply Z.pow_le_mono_r; lia. }
  rewrite Z.add_nocarry_lxor, <- Z.lxor_lor by done. done.
Qed.

Lemma round_down_bounds (x m : Z) : 0 < m -> x - m < x / m * m <= x.
Proof. intros Hm. pose proof (Z.div_mod x m ltac:(lia)). pose proof (Z.mod_pos_bound x m Hm). lia. Qed.

(** [find] returns the first element that satisfies the test. *)
Lemma find_first {A : Type} (f : A -> bool) (l : list A) (x : A) :
  find f l = Some x <->
  f x = true /\ exists before after, l = before ++ x :: after /\ Forall (fun y => f y = false) before.
Proof.
  split.
  - induction l as [|y l IH]; [done|]. cbn [find]. destruct (f y) eqn:Hy.
    + intros [= <-]. split; [done|]. by exists [], l.
    + intros Hf. destruct (IH Hf) as (Hx & before & after & -> & Hb). split; [done|].
      exists (y :: before), after. auto.
  - intros (Hx & before & after & -> & Hb). induction Hb as [|y before Hy _ IH]; cbn [app find].
    + by rewrite Hx.
    + by rewrite Hy.
Qed.
