(* ===== verification/VirtAddr.v ===== *)
(** * VirtAddr: virtual addresses of the [x86_64] crate

    What [gdt.rs], [memory.rs] and [main.rs] use of the crate's [VirtAddr], as a
    class with its documented behaviour. *)

From S2P Require Import Prelude.
#[local] Open Scope Z_scope.

(** [VirtAddr::new] and [VirtAddr + u64]; [None] is a panic. *)
Class VirtAddrs : Type := {
  virt_new : Z -> option Z;
  virt_add : Z -> Z -> option Z;
}.

(** An address whose upper bits repeat bit 47. *)
Definition canonical (a : Z) : Prop := 0 <= a < 2 ^ 47 \/ 2 ^ 64 - 2 ^ 47 <= a < 2 ^ 64.

#[export] Instance canonical_dec (a : Z) : Decision (canonical a).
Proof. unfold canonical. apply _. Defined.

(** The operations are exact on canonical addresses. *)
Class VirtAddrsSpec `{VirtAddrs} : Prop := {
  virt_new_canonical : forall a, canonical a -> virt_new a = Some a;
  virt_add_canonical : forall a n, canonical a -> 0 <= n -> canonical (a + n) -> virt_add a n = Some (a + n);
}.

(** They never change an address: what is not canonical is a panic. *)
Class VirtAddrsExact `{VirtAddrs} : Prop := {
  virt_new_exact : forall a v, virt_new a = Some v -> v = a;
  virt_add_exact : forall a n v, virt_add a n = Some v -> v = a + n;
}.

(** An implementation. *)
#[export] Instance demo_virt : VirtAddrs := {
  virt_new a := if decide (canonical a) then Some a else None;
  virt_add a n := if decide (canonical (a + n)) then Some (a + n) else None;
}.

#[export] Instance demo_virt_spec : VirtAddrsSpec.
Proof. constructor; intros; cbn; by rewrite decide_True. Qed.

#[export] Instance demo_virt_exact : VirtAddrsExact.
Proof. constructor; cbn; intros; by case_decide; simplify_eq. Qed.
