(* ===== verification/Storage.v ===== *)
(** * Storage: the block-device seam and the RAM-disk device

    Models [kernel/src/storage.rs].  The trait [BlockDevice] is a class of
    operations; what the file system relies on is the separate class
    [BlockDeviceSpec], which the RAM disk discharges at the end of the file. *)

From S2P Require Import Prelude.
#[local] Open Scope Z_scope.

Definition SECTOR_SIZE : nat := 512.

Inductive StorageError : Type :=
| MissingRamdisk
| InvalidRamdisk
| SectorOutOfRange.

#[export] Instance StorageError_eq_dec : EqDecision StorageError.
Proof. solve_decision. Defined.

(** ** The trait

    [read_sector] returns the contents it stores in [output]; on [Err] the
    caller's buffer is untouched and never looked at. *)
Class BlockDevice (D : Type) : Type := {
  sector_count : D -> Z;
  read_sector : D -> Z -> outcome StorageError (list Z);
}.

Definition sector_wf (s : list Z) : Prop :=
  length s = SECTOR_SIZE /\ Forall (is_uint 8) s.

(** What a client may assume of a device that has been set up correctly: every
    sector below [sector_count] can be read and is 512 bytes, and every other
    one is refused. *)
Class BlockDeviceSpec (D : Type) `{BlockDevice D} : Type := {
  device_ok : D -> Prop;
  sector_count_u64 d : device_ok d -> is_uint 64 (sector_count d);
  read_sector_in_range d lba :
    device_ok d -> is_uint 32 lba -> lba < sector_count d ->
    exists s, read_sector d lba = Ok s /\ sector_wf s;
  read_sector_out_of_range d lba :
    device_ok d -> is_uint 32 lba -> sector_count d <= lba ->
    read_sector d lba = Err SectorOutOfRange;
}.

(** ** The RAM disk

    [&'static [u8]] is a pointer and a length over the machine's memory, whose
    cells hold eight bits. *)

Record byte_slice : Type := {
  ptr : Z;
  len : Z;
  mem : Z -> Z;
}.

Definition load8 (m : Z -> Z) (address : Z) : Z := wrap 8 (m address).

(** [slice.get(start..end)] *)
Definition slice_get (s : byte_slice) (start end_ : Z) : option (list Z) :=
  if (start <=? end_) && (end_ <=? len s)
  then Some (map (fun i => load8 (mem s) (ptr s + i)) (seqZ start (end_ - start)))
  else None.

Record RamDiskBlockDevice : Type := { bytes : byte_slice }.

Definition from_boot_info (m : Z -> Z) (address : option Z) (length : Z)
  : outcome StorageError RamDiskBlockDevice :=
  address ← ok_or MissingRamdisk address;
  length ← (if length <? 2 ^ 64 then Ok length else Err InvalidRamdisk);
  if (length =? 0) || negb (length mod Z.of_nat SECTOR_SIZE =? 0)
  then Err InvalidRamdisk
  else Ok {| bytes := {| ptr := address; len := length; mem := m |} |}.

Definition ramdisk_sector_count (d : RamDiskBlockDevice) : Z :=
  len (bytes d) / Z.of_nat SECTOR_SIZE.

Definition ramdisk_read_sector (d : RamDiskBlockDevice) (lba : Z)
  : outcome StorageError (list Z) :=
  start ← ok_or SectorOutOfRange (checked_mul 64 lba (Z.of_nat SECTOR_SIZE));
  end_ ← ok_or SectorOutOfRange (checked_add 64 start (Z.of_nat SECTOR_SIZE));
  ok_or SectorOutOfRange (slice_get (bytes d) start end_).

#[export] Instance RamDisk_BlockDevice : BlockDevice RamDiskBlockDevice := {|
  sector_count := ramdisk_sector_count;
  read_sector := ramdisk_read_sector;
|}.

(** ** Correctness *)

(** A slice that [from_boot_info] accepts: a whole, positive number of
    sectors. *)
Definition ramdisk_ok (d : RamDiskBlockDevice) : Prop :=
  is_uint 64 (len (bytes d)) /\ 0 < len (bytes d) /\
  len (bytes d) mod Z.of_nat SECTOR_SIZE = 0.

Lemma load8_u8 (m : Z -> Z) (a : Z) : is_uint 8 (load8 m a).
Proof. apply Z.mod_pos_bound. lia. Qed.

Lemma slice_get_Some (s : byte_slice) (start end_ : Z) :
  0 <= start <= end_ -> end_ <= len s ->
  exists l, slice_get s start end_ = Some l /\
    Z.of_nat (length l) = end_ - start /\ Forall (is_uint 8) l.
Proof.
  intros Hse Hend. unfold slice_get.
  rewrite (proj2 (Z.leb_le _ _)), (proj2 (Z.leb_le _ _)) by lia.
  eexists. split; [done|]. rewrite length_map, length_seqZ. split; [lia|].
  apply Forall_fmap, Forall_true. intros i. apply load8_u8.
Qed.

Lemma ramdisk_read_in_range (d : RamDiskBlockDevice) (lba : Z) :
  ramdisk_ok d -> is_uint 32 lba -> lba < ramdisk_sector_count d ->
  ramdisk_read_sector d lba =
    ok_or SectorOutOfRange (slice_get (bytes d) (512 * lba) (512 * lba + 512)) /\
  512 * lba + 512 <= len (bytes d).
Proof.
  intros ((Hl0 & Hl1) & Hpos & Hmod) Hlba Hlt.
  unfold ramdisk_read_sector, ramdisk_sector_count, SECTOR_SIZE, is_uint in *.
  change (Z.of_nat 512) with 512 in *.
  assert (512 * lba + 512 <= len (bytes d)) by zlia.
  rewrite checked_mul_lt by lia. simpl.
  rewrite checked_add_lt by lia. simpl. rewrite Z.mul_comm. done.
Qed.

Lemma from_boot_info_ok (m : Z -> Z) (address : option Z) (length : Z) (d : RamDiskBlockDevice) :
  0 <= length -> from_boot_info m address length = Ok d -> ramdisk_ok d.
Proof.
  intros Hl Hd. unfold from_boot_info in Hd. inv_ok.
  destruct (length <? 2 ^ 64) eqn:Hlt; [|discriminate]. inv_ok. to_prop. subst. simpl in *.
  unfold ramdisk_ok, is_uint. simpl. lia.
Qed.

Lemma from_boot_info_no_panic (m : Z -> Z) (address : option Z) (length : Z) :
  from_boot_info m address length <> Panic.
Proof.
  unfold from_boot_info. destruct address; [|done]. simpl.
  destruct (length <? 2 ^ 64); simpl; [|done]. by destruct (_ || _).
Qed.

#[export] Program Instance RamDisk_BlockDeviceSpec : BlockDeviceSpec RamDiskBlockDevice := {|
  device_ok := ramdisk_ok;
|}.
Next Obligation.
  intros d ((Hl0 & Hl1) & _). simpl. unfold ramdisk_sector_count, is_uint, SECTOR_SIZE in *.
  change (Z.of_nat 512) with 512. zlia.
Qed.
Next Obligation.
  intros d lba Hok Hlba Hlt. simpl in *.
  destruct (ramdisk_read_in_range d lba Hok Hlba Hlt) as [-> Hend].
  destruct Hlba. destruct (slice_get_Some (bytes d) (512 * lba) (512 * lba + 512))
    as (l & -> & Hlen & Hu8); [lia..|].
  exists l. split; [done|]. split; [|done]. unfold SECTOR_SIZE. lia.
Qed.
Next Obligation.
  intros d lba ((Hl0 & Hl1) & Hpos & Hmod) Hlba Hge. simpl in *.
  unfold ramdisk_read_sector, ramdisk_sector_count, SECTOR_SIZE, is_uint in *.
  change (Z.of_nat 512) with 512 in *.
  rewrite checked_mul_lt by lia. simpl. rewrite checked_add_lt by lia. simpl.
  unfold slice_get. rewrite (proj2 (Z.leb_gt (lba * 512 + 512) _)) by zlia.
  by rewrite andb_false_r.
Qed.
