(* ===== verification/Str.v ===== *)
(** * Str: the string operations the kernel takes from [core]

    A [&str] is the list of its scalar values.  [from_utf8] is the validation
    and decoding of [core::str::from_utf8] (the table of RFC 3629 that Rust
    implements); [encode] gives the bytes of a string back. *)

From S2P Require Import Prelude.
From Stdlib Require Import Wf_nat.
#[local] Open Scope Z_scope.

Abbreviation str := (list Z).

(** ** ASCII classes of [u8] and [char] *)

Definition is_ascii (c : Z) : bool := c <? 0x80.

Definition is_ascii_upper (c : Z) : bool := (0x41 <=? c) && (c <=? 0x5a).

Definition is_ascii_lower (c : Z) : bool := (0x61 <=? c) && (c <=? 0x7a).

Definition to_ascii_lowercase (c : Z) : Z := if is_ascii_upper c then c + 32 else c.

Definition to_ascii_uppercase (c : Z) : Z := if is_ascii_lower c then c - 32 else c.

(** [u8::is_ascii_whitespace]: space, tab, line feed, form feed, return. *)
Definition is_ascii_whitespace (c : Z) : bool :=
  (c =? 0x20) || (c =? 0x09) || (c =? 0x0a) || (c =? 0x0c) || (c =? 0x0d).

(** [u8::is_ascii_graphic] *)
Definition is_ascii_graphic (c : Z) : bool := (0x21 <=? c) && (c <=? 0x7e).

(** [char::is_whitespace]: the Unicode property White_Space. *)
Definition is_whitespace (c : Z) : bool :=
  ((0x09 <=? c) && (c <=? 0x0d)) || (c =? 0x20) || (c =? 0x85) || (c =? 0xa0) ||
  (c =? 0x1680) || ((0x2000 <=? c) && (c <=? 0x200a)) || (c =? 0x2028) ||
  (c =? 0x2029) || (c =? 0x202f) || (c =? 0x205f) || (c =? 0x3000).

(** ** Searching and splitting *)

Fixpoint skip_while (p : Z -> bool) (s : str) : str :=
  match s with
  | [] => []
  | c :: t => if p c then skip_while p t else s
  end.

Definition trim_end_matches (p : Z -> bool) (s : str) : str :=
  reverse (skip_while p (reverse s)).

Definition trim_matches (p : Z -> bool) (s : str) : str :=
  trim_end_matches p (skip_while p s).

(** [str::trim] and [str::trim_start] *)
Definition trim (s : str) : str := trim_matches is_whitespace s.

Definition trim_start (s : str) : str := skip_while is_whitespace s.

(** [str::split(p)]: one field more than there are separators. *)
Fixpoint split (p : Z -> bool) (s : str) : list str :=
  match s with
  | [] => [[]]
  | c :: t =>
      match split p t with
      | [] => [[c]]
      | field :: fields => if p c then [] :: field :: fields else (c :: field) :: fields
      end
  end.

Definition is_empty (s : str) : bool := match s with [] => true | _ => false end.

(** [str::split(p).filter(|part| !part.is_empty())] *)
Definition split_nonempty (p : Z -> bool) (s : str) : list str :=
  List.filter (fun part => negb (is_empty part)) (split p s).

Definition split_whitespace (s : str) : list str := split_nonempty is_whitespace s.

(** [line.find(p)] with the tail of the string from the position found. *)
Fixpoint find_tail (p : Z -> bool) (s : str) : option str :=
  match s with
  | [] => None
  | c :: t => if p c then Some s else find_tail p t
  end.

Fixpoint eq_ignore_ascii_case (a b : str) : bool :=
  match a, b with
  | [], [] => true
  | x :: a, y :: b => (to_ascii_lowercase x =? to_ascii_lowercase y) && eq_ignore_ascii_case a b
  | _, _ => false
  end.

(** ** UTF-8 *)

Definition is_cont (b : Z) : bool := (0x80 <=? b) && (b <=? 0xbf).

Definition lead2 (b0 : Z) : bool := (0xc2 <=? b0) && (b0 <=? 0xdf).

(** The second byte of a three-byte sequence excludes overlong forms and
    surrogates. *)
Definition lead3 (b0 b1 : Z) : bool :=
  ((b0 =? 0xe0) && (0xa0 <=? b1) && (b1 <=? 0xbf)) ||
  ((0xe1 <=? b0) && (b0 <=? 0xec) && is_cont b1) ||
  ((b0 =? 0xed) && (0x80 <=? b1) && (b1 <=? 0x9f)) ||
  ((0xee <=? b0) && (b0 <=? 0xef) && is_cont b1).

Definition lead4 (b0 b1 : Z) : bool :=
  ((b0 =? 0xf0) && (0x90 <=? b1) && (b1 <=? 0xbf)) ||
  ((0xf1 <=? b0) && (b0 <=? 0xf3) && is_cont b1) ||
  ((b0 =? 0xf4) && (0x80 <=? b1) && (b1 <=? 0x8f)).

Fixpoint from_utf8 (l : list Z) : option str :=
  match l with
  | [] => Some []
  | b0 :: r0 =>
      if is_ascii b0 then cons b0 <$> from_utf8 r0
      else match r0 with
      | [] => None
      | b1 :: r1 =>
          if lead2 b0 && is_cont b1
          then cons ((b0 - 0xc0) * 64 + (b1 - 0x80)) <$> from_utf8 r1
          else match r1 with
          | [] => None
          | b2 :: r2 =>
              if lead3 b0 b1 && is_cont b2
              then cons ((b0 - 0xe0) * 4096 + (b1 - 0x80) * 64 + (b2 - 0x80)) <$> from_utf8 r2
              else match r2 with
              | [] => None
              | b3 :: r3 =>
                  if lead4 b0 b1 && is_cont b2 && is_cont b3
                  then cons ((b0 - 0xf0) * 262144 + (b1 - 0x80) * 4096 +
                             (b2 - 0x80) * 64 + (b3 - 0x80)) <$> from_utf8 r3
                  else None
              end
          end
      end
  end.

(** [char::encode_utf8] *)
Definition encode_char (c : Z) : list Z :=
  if c <? 0x80 then [c]
  else if c <? 0x800 then [0xc0 + c / 64; 0x80 + c mod 64]
  else if c <? 0x10000 then [0xe0 + c / 4096; 0x80 + c / 64 mod 64; 0x80 + c mod 64]
  else [0xf0 + c / 262144; 0x80 + c / 4096 mod 64; 0x80 + c / 64 mod 64; 0x80 + c mod 64].

Definition encode (s : str) : list Z := concat (map encode_char s).

(** ** Lemmas *)

Lemma encode_app (s1 s2 : str) : encode (s1 ++ s2) = encode s1 ++ encode s2.
Proof. unfold encode. by rewrite map_app, concat_app. Qed.

Definition ascii_str (s : str) : Prop := Forall (fun c => 0 <= c < 0x80) s.

(** On ASCII bytes decoding is the identity and never fails. *)
Lemma from_utf8_ascii (l : list Z) : ascii_str l -> from_utf8 l = Some l.
Proof.
  induction 1 as [|b l [? Hb] _ IH]; [done|]. simpl.
  unfold is_ascii. rewrite (proj2 (Z.ltb_lt _ _) Hb), IH. done.
Qed.

Lemma encode_char_ascii (c : Z) : 0 <= c < 0x80 -> encode_char c = [c].
Proof. intros ?. unfold encode_char. by rewrite (proj2 (Z.ltb_lt _ _)) by lia. Qed.

(** One decoding step undoes one encoding step, whatever follows. *)
Lemma encode_decode2 (b0 b1 : Z) :
  lead2 b0 = true -> is_cont b1 = true ->
  encode_char ((b0 - 0xc0) * 64 + (b1 - 0x80)) = [b0; b1].
Proof.
  unfold lead2, is_cont. intros. to_prop. unfold encode_char.
  rewrite (proj2 (Z.ltb_ge _ _)), (proj2 (Z.ltb_lt _ _)) by lia. repeat f_equal; zlia.
Qed.

Lemma encode_decode3 (b0 b1 b2 : Z) :
  lead3 b0 b1 = true -> is_cont b2 = true ->
  encode_char ((b0 - 0xe0) * 4096 + (b1 - 0x80) * 64 + (b2 - 0x80)) = [b0; b1; b2].
Proof.
  unfold lead3, is_cont. intros H3 H2.
  assert (0xe0 <= b0 <= 0xef /\ 0x80 <= b1 <= 0xbf /\ (b0 = 0xe0 -> 0xa0 <= b1)) by lia.
  to_prop. unfold encode_char.
  rewrite (proj2 (Z.ltb_ge _ 0x80)), (proj2 (Z.ltb_ge _ 0x800)), (proj2 (Z.ltb_lt _ _)) by lia.
  repeat f_equal; zlia.
Qed.

Lemma encode_decode4 (b0 b1 b2 b3 : Z) :
  lead4 b0 b1 = true -> is_cont b2 = true -> is_cont b3 = true ->
  encode_char ((b0 - 0xf0) * 262144 + (b1 - 0x80) * 4096 + (b2 - 0x80) * 64 + (b3 - 0x80))
  = [b0; b1; b2; b3].
Proof.
  unfold lead4, is_cont. intros H4 H2 H3.
  assert (0xf0 <= b0 <= 0xf4 /\ 0x80 <= b1 <= 0xbf /\ (b0 = 0xf0 -> 0x90 <= b1)) by lia.
  to_prop. unfold encode_char.
  rewrite (proj2 (Z.ltb_ge _ 0x80)), (proj2 (Z.ltb_ge _ 0x800)), (proj2 (Z.ltb_ge _ 0x10000)) by lia.
  repeat f_equal; zlia.
Qed.

Lemma encode_cons (c : Z) (s : str) : encode (c :: s) = encode_char c ++ encode s.
Proof. done. Qed.

(** Decoding loses nothing: a string decoded from bytes encodes back to them. *)
Lemma from_utf8_encode (l : list Z) (s : str) : from_utf8 l = Some s -> encode s = l.
Proof.
  revert s. induction l as [l IH] using (induction_ltof1 _ (@length Z)).
  intros s Hs. destruct l as [|b0 r0]; simpl in Hs; [by simplify_eq|].
  assert (Hrec : forall r t, (length r < length (b0 :: r0))%nat -> from_utf8 r = Some t -> encode t = r)
    by (intros; apply IH; done).
  destruct (is_ascii b0) eqn:Ha.
  { apply fmap_Some in Hs as (t & Ht & ->). rewrite encode_cons.
    unfold encode_char. unfold is_ascii in Ha. rewrite Ha. simpl. f_equal.
    apply Hrec; [simpl; lia|done]. }
  destruct r0 as [|b1 r1]; [done|].
  destruct (lead2 b0 && is_cont b1) eqn:H2.
  { to_prop. apply fmap_Some in Hs as (t & Ht & ->). rewrite encode_cons, encode_decode2 by done. simpl.
    do 2 f_equal. apply Hrec; [simpl; lia|done]. }
  destruct r1 as [|b2 r2]; [done|].
  destruct (lead3 b0 b1 && is_cont b2) eqn:H3.
  { to_prop. apply fmap_Some in Hs as (t & Ht & ->). rewrite encode_cons, encode_decode3 by done. simpl.
    do 3 f_equal. apply Hrec; [simpl; lia|done]. }
  destruct r2 as [|b3 r3]; [done|].
  destruct (lead4 b0 b1 && is_cont b2 && is_cont b3) eqn:H4; [|done].
  to_prop. apply fmap_Some in Hs as (t & Ht & ->). rewrite encode_cons, encode_decode4 by done. simpl. do 4 f_equal.
  apply Hrec; [simpl; lia|done].
Qed.
