(* ===== verification/DemoVolume.v ===== *)
(** * DemoVolume: a concrete FAT32 volume

    A small but complete volume on a RAM disk, on which the theorems about the
    file system are instantiated: 66043 sectors, one FAT of 512 sectors, one
    sector per cluster, a root directory with a label, a directory [DOCS] that
    holds [ABOUT.TXT], a two-cluster file [HELLO.TXT] of 600 bytes, and a
    damaged file [BROKEN.TXT] whose 2000 bytes do not fit its one cluster. *)

From S2P Require Import Prelude Storage.
#[local] Open Scope Z_scope.

Definition le2 (v : Z) : list Z := [v mod 256; v / 256 mod 256].

Definition le4 (v : Z) : list Z :=
  [v mod 256; v / 256 mod 256; v / 65536 mod 256; v / 16777216 mod 256].

Definition pad_to (n : nat) (l : list Z) : list Z := l ++ replicate (n - length l) 0.

Definition demo_boot_sector : list Z :=
  pad_to 510
    ([0xeb; 0x58; 0x90] ++ replicate 8 0x20 ++ le2 512 ++ [1] ++ le2 1 ++ [1] ++
     le2 0 ++ le2 0 ++ [0xf8] ++ le2 0 ++ replicate 8 0 ++ le4 66043 ++ le4 512 ++
     replicate 4 0 ++ le4 2)
  ++ [0x55; 0xaa].

Definition demo_fat_sector : list Z :=
  pad_to 512 (concat (map le4
    [0x0ffffff8; 0x0fffffff; 0x0fffffff; 0x0fffffff; 5; 0x0ffffff8; 0x0fffffff;
     0x0fffffff])).

Definition demo_record (name : list Z) (attributes cluster size : Z) : list Z :=
  name ++ [attributes] ++ replicate 8 0 ++ le2 (cluster / 65536) ++ replicate 4 0 ++
  le2 (cluster mod 65536) ++ le4 size.

(** "SOL_DATA   ", "DOCS       ", "HELLO   TXT", "BROKEN  TXT" *)
Definition demo_root : list Z :=
  pad_to 512
    (demo_record [83; 79; 76; 95; 68; 65; 84; 65; 32; 32; 32] 0x08 0 0 ++
     demo_record [68; 79; 67; 83; 32; 32; 32; 32; 32; 32; 32] 0x10 3 0 ++
     demo_record [72; 69; 76; 76; 79; 32; 32; 32; 84; 88; 84] 0x20 4 600 ++
     demo_record [66; 82; 79; 75; 69; 78; 32; 32; 84; 88; 84] 0x20 7 2000).

(** ".", "..", "ABOUT   TXT" *)
Definition demo_docs : list Z :=
  pad_to 512
    (demo_record [46; 32; 32; 32; 32; 32; 32; 32; 32; 32; 32] 0x10 3 0 ++
     demo_record [46; 46; 32; 32; 32; 32; 32; 32; 32; 32; 32] 0x10 0 0 ++
     demo_record [65; 66; 79; 85; 84; 32; 32; 32; 84; 88; 84] 0x20 6 5).

Definition demo_sector (lba : Z) : list Z :=
  match lba with
  | 0 => demo_boot_sector
  | 1 => demo_fat_sector
  | 513 => demo_root
  | 514 => demo_docs
  | 515 => replicate 512 0x61
  | 516 => replicate 512 0x62
  | 517 => pad_to 512 [72; 101; 108; 108; 111]
  | _ => []
  end.

Definition demo_base : Z := 0x10000.

Definition demo_memory (address : Z) : Z :=
  let offset := address - demo_base in
  nth (Z.to_nat (offset mod 512)) (demo_sector (offset / 512)) 0.

Definition demo_disk : RamDiskBlockDevice :=
  {| bytes := {| ptr := demo_base; len := 66043 * 512; mem := demo_memory |} |}.

Lemma demo_disk_ok : device_ok demo_disk.
Proof. unfold device_ok; simpl. unfold ramdisk_ok, is_uint. cbn [bytes len demo_disk].
  change (Z.of_nat SECTOR_SIZE) with 512. zlia. Qed.

Lemma demo_disk_from_boot_info :
  from_boot_info demo_memory (Some demo_base) (66043 * 512) = Ok demo_disk.
Proof. reflexivity. Qed.
