(* ===== verification/Fat32.v ===== *)
(** * Fat32: the read-only FAT32 file system

    Models [kernel/src/fat32.rs] function by function over any [BlockDevice].
    Visitors are closures with captured state: a visitor takes the state and
    returns the new one.  A function that calls a visitor returns its [Result]
    together with the state the visitor has reached, errors included. *)

From S2P Require Import Prelude Storage Str.
#[local] Open Scope Z_scope.

Definition FAT32_EOC : Z := 0x0ffffff8.
Definition FAT32_BAD_CLUSTER : Z := 0x0ffffff7.
Definition ATTR_DIRECTORY : Z := 0x10.
Definition ATTR_VOLUME_ID : Z := 0x08.
Definition ATTR_LONG_FILE_NAME : Z := 0x0f.

Inductive FsError : Type :=
| Device (e : StorageError)
| InvalidBootSector
| UnsupportedVolume
| InvalidCluster
| CorruptFat
| DirectoryLoop
| NotFound
| NotDirectory
| IsDirectory
| TruncatedFile.

#[export] Instance FsError_eq_dec : EqDecision FsError.
Proof. solve_decision. Defined.

Record Fat32 (D : Type) : Type := {
  device : D;
  sectors_per_cluster : Z;
  fat_start_sector : Z;
  sectors_per_fat : Z;
  first_data_sector : Z;
  root_cluster : Z;
  cluster_count : Z;
}.

Arguments device {D} _.
Arguments sectors_per_cluster {D} _.
Arguments fat_start_sector {D} _.
Arguments sectors_per_fat {D} _.
Arguments first_data_sector {D} _.
Arguments root_cluster {D} _.
Arguments cluster_count {D} _.

(** ** Directory entries *)

Record DirEntry : Type := {
  de_name : list Z;
  de_name_len : nat;
  de_attributes : Z;
  de_first_cluster : Z;
  de_size : Z;
}.

(** [DirEntry::name]; its bytes are ASCII, so they are the string's scalars. *)
Definition entry_name (e : DirEntry) : str := take (de_name_len e) (de_name e).

Definition is_directory (e : DirEntry) : bool :=
  negb (Z.land (de_attributes e) ATTR_DIRECTORY =? 0).

Definition le_u16 (bytes : list Z) (offset : nat) : option Z :=
  b0 ← bytes !! offset;
  b1 ← bytes !! (offset + 1)%nat;
  Some (b0 + 256 * b1).

Definition le_u32 (bytes : list Z) (offset : nat) : option Z :=
  b0 ← bytes !! offset;
  b1 ← bytes !! (offset + 1)%nat;
  b2 ← bytes !! (offset + 2)%nat;
  b3 ← bytes !! (offset + 3)%nat;
  Some (b0 + 256 * b1 + 65536 * b2 + 16777216 * b3).

(** One of the two copying loops of [from_raw]: stops at a space, gives up
    ([Some None]) on a byte that is not ASCII, and traps ([None]) if the name
    buffer were ever full. *)
Fixpoint push_name_bytes (field : list Z) (name : list Z) (name_len : nat)
  : option (option (list Z * nat)) :=
  match field with
  | [] => Some (Some (name, name_len))
  | byte :: field =>
      if byte =? 0x20 then Some (Some (name, name_len))
      else if negb (is_ascii byte) then Some None
      else
        name ← set_index name name_len byte;
        push_name_bytes field name (S name_len)
  end.

Definition from_raw (raw : list Z) : option (option DirEntry) :=
  base ← slice raw 0 8;
  copied ← push_name_bytes base (replicate 12 0) 0;
  match copied with
  | None => Some None
  | Some (name, name_len) =>
      if decide (name_len = 0%nat) then Some None
      else
        extension ← slice raw 8 11;
        copied ←
          (if existsb (fun byte => negb (byte =? 0x20)) extension then
             name ← set_index name name_len 0x2e;
             push_name_bytes extension name (S name_len)
           else Some (Some (name, name_len)));
        match copied with
        | None => Some None
        | Some (name, name_len) =>
            high ← le_u16 raw 20;
            low ← le_u16 raw 26;
            attributes ← raw !! 11%nat;
            size ← le_u32 raw 28;
            Some (Some {|
              de_name := name;
              de_name_len := name_len;
              de_attributes := attributes;
              de_first_cluster := Z.lor (Z.shiftl high 16) low;
              de_size := size;
            |})
        end
  end.

(** ** Mounting *)

(** [u32::is_power_of_two] *)
Definition is_power_of_two (x : Z) : bool := (0 <? x) && (Z.land x (x - 1) =? 0).

Section Volume.
Context {D : Type} `{BlockDevice D}.

Definition mount (dev : D) : outcome FsError (Fat32 D) :=
  sector ← map_err Device (read_sector dev 0);
  b510 ← index sector 510;
  b511 ← index sector 511;
  if negb (b510 =? 0x55) || negb (b511 =? 0xaa) then Err InvalidBootSector else
  bytes_per_sector ← or_panic (le_u16 sector 11);
  sectors_per_cluster ← index sector 13;
  reserved_sectors ← or_panic (le_u16 sector 14);
  fat_count ← index sector 16;
  root_entry_count ← or_panic (le_u16 sector 17);
  total_sectors_16 ← or_panic (le_u16 sector 19);
  fat_size_16 ← or_panic (le_u16 sector 22);
  total_sectors_32 ← or_panic (le_u32 sector 32);
  sectors_per_fat ← or_panic (le_u32 sector 36);
  root_cluster ← or_panic (le_u32 sector 44);
  if negb (bytes_per_sector =? Z.of_nat SECTOR_SIZE)
     || (sectors_per_cluster =? 0)
     || negb (is_power_of_two sectors_per_cluster)
     || (reserved_sectors =? 0)
     || (fat_count =? 0)
     || negb (fat_size_16 =? 0)
     || (sectors_per_fat =? 0)
     || negb (root_entry_count =? 0)
     || (root_cluster <? 2)
  then Err UnsupportedVolume else
  let total_sectors :=
    if negb (total_sectors_16 =? 0) then total_sectors_16 else total_sectors_32 in
  fat_sectors ← ok_or InvalidBootSector (checked_mul 32 fat_count sectors_per_fat);
  first_data_sector ← ok_or InvalidBootSector (checked_add 32 reserved_sectors fat_sectors);
  if (total_sectors <=? first_data_sector) || (sector_count dev <? total_sectors)
  then Err InvalidBootSector else
  data_sectors ← or_panic (checked_sub total_sectors first_data_sector);
  let cluster_count := data_sectors / sectors_per_cluster in
  if cluster_count <? 65525 then Err UnsupportedVolume else
  bound ← or_panic (checked_add 32 cluster_count 2);
  if bound <=? root_cluster then Err UnsupportedVolume else
  fat_bytes ← or_panic (checked_mul 64 sectors_per_fat (Z.of_nat SECTOR_SIZE));
  let fat_entries := fat_bytes / 4 in
  if fat_entries <=? root_cluster then Err InvalidBootSector else
  Ok {|
    device := dev;
    sectors_per_cluster := sectors_per_cluster;
    fat_start_sector := reserved_sectors;
    sectors_per_fat := sectors_per_fat;
    first_data_sector := first_data_sector;
    root_cluster := root_cluster;
    cluster_count := cluster_count;
  |}.

(** ** Clusters *)

Definition is_valid_cluster (fs : Fat32 D) (cluster : Z) : option bool :=
  if cluster <? 2 then Some false else
  bound ← checked_add 32 (cluster_count fs) 2;
  Some (cluster <? bound).

Definition next_cluster (fs : Fat32 D) (cluster : Z) : outcome FsError Z :=
  valid ← or_panic (is_valid_cluster fs cluster);
  if negb valid then Err InvalidCluster else
  fat_offset ← ok_or CorruptFat (checked_mul 64 cluster 4);
  let sector_offset := fat_offset / Z.of_nat SECTOR_SIZE in
  if sectors_per_fat fs <=? sector_offset then Err CorruptFat else
  let entry_offset := fat_offset mod Z.of_nat SECTOR_SIZE in
  lba ← ok_or CorruptFat (checked_add 32 (fat_start_sector fs) (wrap 32 sector_offset));
  sector ← map_err Device (read_sector (device fs) lba);
  entry ← or_panic (le_u32 sector (Z.to_nat entry_offset));
  Ok (Z.land entry 0x0fffffff).

Definition checked_next_cluster (fs : Fat32 D) (cluster : Z) : outcome FsError Z :=
  if cluster =? FAT32_BAD_CLUSTER then Err CorruptFat else
  valid ← or_panic (is_valid_cluster fs cluster);
  if negb valid then Err CorruptFat else Ok cluster.

Definition cluster_to_sector (fs : Fat32 D) (cluster sector_index : Z) : outcome FsError Z :=
  valid ← or_panic (is_valid_cluster fs cluster);
  if negb valid || (sectors_per_cluster fs <=? sector_index) then Err InvalidCluster else
  relative ← or_panic (checked_sub cluster 2);
  offset ← ok_or InvalidCluster (checked_mul 32 relative (sectors_per_cluster fs));
  ok_or InvalidCluster
    (sector ← checked_add 32 (first_data_sector fs) offset;
     checked_add 32 sector sector_index).

(** ** Directories *)

Section Visit.
Context {S : Type}.

(** The body of the loop over the 32-byte records of a sector. *)
Definition visit_raw (visitor : DirEntry -> S -> bool * S) (raw : list Z) (s : S)
  : control (outcome FsError unit * S) S :=
  or_return s (index raw 0) (fun b0 =>
  if b0 =? 0x00 then Break (Ok tt, s) else
  or_return s (index raw 11) (fun b11 =>
  if (b0 =? 0xe5) || (b0 =? 0x2e) || (b11 =? ATTR_LONG_FILE_NAME)
     || negb (Z.land b11 ATTR_VOLUME_ID =? 0)
  then Continue s else
  or_return s (or_panic (from_raw raw)) (fun entry =>
  match entry with
  | None => Continue s
  | Some entry =>
      let '(keep_going, s) := visitor entry s in
      if keep_going then Continue s else Break (Ok tt, s)
  end))).

(** The body of the loop over the sectors of a cluster. *)
Definition visit_sector (fs : Fat32 D) (visitor : DirEntry -> S -> bool * S)
    (cluster sector_index : Z) (s : S) : control (outcome FsError unit * S) S :=
  or_return s (cluster_to_sector fs cluster sector_index) (fun lba =>
  or_return s (map_err Device (read_sector (device fs) lba)) (fun sector =>
  for_in (visit_raw visitor) (chunks_exact 32 sector) s)).

(** The body of the loop over the cluster chain. *)
Definition visit_cluster (fs : Fat32 D) (visitor : DirEntry -> S -> bool * S)
    (state : Z * S) : control (outcome FsError unit * S) (Z * S) :=
  let '(cluster, s) := state in
  match for_in (visit_sector fs visitor cluster) (seqZ 0 (sectors_per_cluster fs)) s with
  | Break r => Break r
  | Continue s =>
      or_return s (next_cluster fs cluster) (fun next =>
      if FAT32_EOC <=? next then Break (Ok tt, s) else
      or_return s (checked_next_cluster fs next) (fun cluster => Continue (cluster, s)))
  end.

Definition visit_directory (fs : Fat32 D) (start_cluster : Z)
    (visitor : DirEntry -> S -> bool * S) (s : S) : outcome FsError unit * S :=
  match is_valid_cluster fs start_cluster with
  | None => (Panic, s)
  | Some false => (Err InvalidCluster, s)
  | Some true =>
      match for_n (Datatypes.S (Z.to_nat (cluster_count fs))) (visit_cluster fs visitor)
              (start_cluster, s) with
      | Break r => r
      | Continue (_, s) => (Err DirectoryLoop, s)
      end
  end.

End Visit.

Definition find_in_directory (fs : Fat32 D) (cluster : Z) (name : str)
  : outcome FsError DirEntry :=
  let '(r, result) :=
    visit_directory fs cluster
      (fun entry result =>
         if eq_ignore_ascii_case (entry_name entry) name
         then (false, Some entry) else (true, result))
      None in
  _ ← r;
  ok_or NotFound result.

(** ** Paths *)

Definition is_slash (c : Z) : bool := c =? 0x2f.

(** [component == "." || component == ".."] *)
Definition is_dot_component (c : str) : bool :=
  bool_decide (c = [0x2e]) || bool_decide (c = [0x2e; 0x2e]).

(** The loop of [resolve_path]. *)
Fixpoint resolve_components (fs : Fat32 D) (directory : Z) (component : str)
    (components : list str) : outcome FsError DirEntry :=
  entry ← find_in_directory fs directory component;
  match components with
  | next_component :: components =>
      if negb (is_directory entry) then Err NotDirectory
      else if is_dot_component next_component then Err NotFound
      else resolve_components fs (de_first_cluster entry) next_component components
  | [] => Ok entry
  end.

Definition resolve_path (fs : Fat32 D) (path : str) : outcome FsError DirEntry :=
  match split_nonempty is_slash path with
  | [] => Err NotFound
  | first :: components =>
      if is_dot_component first then Err NotFound
      else resolve_components fs (root_cluster fs) first components
  end.

Section Clients.
Context {S : Type}.

Definition list_dir (fs : Fat32 D) (path : str) (visitor : DirEntry -> S -> bool * S) (s : S)
  : outcome FsError unit * S :=
  let cluster :=
    if is_empty (trim_matches is_slash path) then Ok (root_cluster fs)
    else
      entry ← resolve_path fs path;
      if negb (is_directory entry) then Err NotDirectory
      else Ok (de_first_cluster entry) in
  match cluster with
  | Ok cluster => visit_directory fs cluster visitor s
  | Err e => (Err e, s)
  | Panic => (Panic, s)
  end.

(** ** Files *)

(** The body of [read_file]'s loop over the sectors of a cluster. *)
Definition read_file_sector (fs : Fat32 D) (size : Z) (visitor : list Z -> S -> S)
    (cluster sector_index : Z) (state : Z * S) : control (outcome FsError Z * S) (Z * S) :=
  let '(remaining, s) := state in
  if remaining =? 0 then Break (Ok size, s) else
  or_return s (cluster_to_sector fs cluster sector_index) (fun lba =>
  or_return s (map_err Device (read_sector (device fs) lba)) (fun sector =>
  let count := Z.min remaining (Z.of_nat SECTOR_SIZE) in
  or_return s (or_panic (slice sector 0 (Z.to_nat count))) (fun chunk =>
  let s := visitor chunk s in
  or_return s (or_panic (checked_sub remaining count)) (fun remaining =>
  Continue (remaining, s))))).

(** The body of [read_file]'s loop over the cluster chain. *)
Definition read_file_cluster (fs : Fat32 D) (size : Z) (visitor : list Z -> S -> S)
    (state : Z * (Z * S)) : control (outcome FsError Z * S) (Z * (Z * S)) :=
  let '(cluster, (remaining, s)) := state in
  match for_in (read_file_sector fs size visitor cluster)
          (seqZ 0 (sectors_per_cluster fs)) (remaining, s) with
  | Break r => Break r
  | Continue (remaining, s) =>
      if remaining =? 0 then Break (Ok size, s) else
      or_return s (next_cluster fs cluster) (fun next =>
      if FAT32_EOC <=? next then Break (Err TruncatedFile, s) else
      or_return s (checked_next_cluster fs next) (fun cluster =>
      Continue (cluster, (remaining, s))))
  end.

Definition read_file (fs : Fat32 D) (path : str) (visitor : list Z -> S -> S) (s : S)
  : outcome FsError Z * S :=
  match resolve_path fs path with
  | Err e => (Err e, s)
  | Panic => (Panic, s)
  | Ok entry =>
      if is_directory entry then (Err IsDirectory, s)
      else if de_size entry =? 0 then (Ok 0, s)
      else match is_valid_cluster fs (de_first_cluster entry) with
      | None => (Panic, s)
      | Some false => (Err InvalidCluster, s)
      | Some true =>
          match for_n (Datatypes.S (Z.to_nat (cluster_count fs)))
                  (read_file_cluster fs (de_size entry) visitor)
                  (de_first_cluster entry, (de_size entry, s)) with
          | Break r => r
          | Continue (_, (_, s)) => (Err DirectoryLoop, s)
          end
      end
  end.

End Clients.
End Volume.
