(* ===== verification/Fat32Geometry.v ===== *)
(** * Fat32Geometry: what [mount] accepts and what clusters are

    The volume invariant [fs_wf], that [mount] establishes it and never traps,
    an exact description of the boot sectors it accepts, and the arithmetic of
    clusters and FAT entries under the invariant. *)

From S2P Require Import Prelude Storage Str Fat32.
#[local] Open Scope Z_scope.

(** ** Reading little-endian fields *)

Section Fields.
Context (l : list Z) (Hu8 : Forall (is_uint 8) l).

Lemma byte_in (i : nat) : (i < length l)%nat -> exists b, l !! i = Some b /\ is_uint 8 b.
Proof using Hu8.
  intros Hi. destruct (lookup_lt_is_Some_2 l i Hi) as [b Hb].
  exists b. split; [done|]. by eapply Forall_lookup_1.
Qed.

Lemma le_u16_in (i : nat) :
  (i + 1 < length l)%nat -> exists v, le_u16 l i = Some v /\ is_uint 16 v.
Proof using Hu8.
  intros Hi. unfold le_u16.
  destruct (byte_in i) as (b0 & -> & H0); [lia|].
  destruct (byte_in (i + 1)) as (b1 & -> & H1); [lia|].
  eexists. split; [done|]. unfold is_uint in *. lia.
Qed.

Lemma le_u32_in (i : nat) :
  (i + 3 < length l)%nat -> exists v, le_u32 l i = Some v /\ is_uint 32 v.
Proof using Hu8.
  intros Hi. unfold le_u32.
  destruct (byte_in i) as (b0 & -> & H0); [lia|].
  destruct (byte_in (i + 1)) as (b1 & -> & H1); [lia|].
  destruct (byte_in (i + 2)) as (b2 & -> & H2); [lia|].
  destruct (byte_in (i + 3)) as (b3 & -> & H3); [lia|].
  eexists. split; [done|]. unfold is_uint in *. lia.
Qed.
End Fields.

Lemma sector_byte (s : list Z) (i : nat) :
  sector_wf s -> (i < 512)%nat -> exists b, s !! i = Some b /\ is_uint 8 b.
Proof. intros [Hlen Hu8] Hi. apply byte_in; [done|]. by rewrite Hlen. Qed.

Lemma le_u16_wf (s : list Z) (i : nat) :
  sector_wf s -> (i + 1 < 512)%nat -> exists v, le_u16 s i = Some v /\ is_uint 16 v.
Proof. intros [Hlen Hu8] Hi. apply le_u16_in; [done|]. by rewrite Hlen. Qed.

Lemma le_u32_wf (s : list Z) (i : nat) :
  sector_wf s -> (i + 3 < 512)%nat -> exists v, le_u32 s i = Some v /\ is_uint 32 v.
Proof. intros [Hlen Hu8] Hi. apply le_u32_in; [done|]. by rewrite Hlen. Qed.

(** ** Powers of two *)

Lemma is_power_of_two_u8 (x : Z) :
  is_uint 8 x -> is_power_of_two x = true -> x ∈ [1; 2; 4; 8; 16; 32; 64; 128].
Proof.
  intros [? ?] Hp.
  assert (Hall : Forall (fun y => is_power_of_two y = true ->
    y ∈ [1; 2; 4; 8; 16; 32; 64; 128]) (seqZ 0 256)).
  { apply (bool_decide_unpack _). by vm_compute. }
  rewrite Forall_seqZ in Hall. apply Hall; [lia|done].
Qed.

Section Geometry.
Context {D : Type} `{HBD : BlockDevice D} `{HSpec : !BlockDeviceSpec D}.

(** ** The volume invariant *)

Record fs_wf (fs : Fat32 D) : Prop := {
  wf_device : device_ok (device fs);
  wf_spc : sectors_per_cluster fs ∈ [1; 2; 4; 8; 16; 32; 64; 128];
  wf_reserved : 1 <= fat_start_sector fs;
  wf_spf : 1 <= sectors_per_fat fs;
  wf_fat_data : fat_start_sector fs + sectors_per_fat fs <= first_data_sector fs;
  wf_clusters : 65525 <= cluster_count fs;
  wf_data_end : first_data_sector fs + cluster_count fs * sectors_per_cluster fs
                <= sector_count (device fs);
  wf_data_u32 : first_data_sector fs + cluster_count fs * sectors_per_cluster fs < 2 ^ 32;
  wf_root : 2 <= root_cluster fs < cluster_count fs + 2;
  wf_root_fat : root_cluster fs < sectors_per_fat fs * 128;
}.

(** The fields of a boot sector that [mount] looks at. *)
Record bpb : Type := {
  bpb_bytes_per_sector : Z;
  bpb_sectors_per_cluster : Z;
  bpb_reserved : Z;
  bpb_fats : Z;
  bpb_root_entries : Z;
  bpb_total16 : Z;
  bpb_fat16 : Z;
  bpb_total32 : Z;
  bpb_spf : Z;
  bpb_root : Z;
}.

Definition bpb_of (s : list Z) : option bpb :=
  bps ← le_u16 s 11; spc ← s !! 13%nat; res ← le_u16 s 14; fats ← s !! 16%nat;
  ents ← le_u16 s 17; t16 ← le_u16 s 19; f16 ← le_u16 s 22; t32 ← le_u32 s 32;
  spf ← le_u32 s 36; root ← le_u32 s 44;
  Some (Build_bpb bps spc res fats ents t16 f16 t32 spf root).

Definition bpb_total (b : bpb) : Z :=
  if bpb_total16 b =? 0 then bpb_total32 b else bpb_total16 b.

Definition bpb_data (b : bpb) : Z := bpb_reserved b + bpb_fats b * bpb_spf b.

Definition bpb_clusters (b : bpb) : Z :=
  (bpb_total b - bpb_data b) / bpb_sectors_per_cluster b.

(** A boot sector of the FAT32 subset the kernel supports, on a device of
    [sectors] sectors. *)
Definition bpb_supported (b : bpb) (sectors : Z) : Prop :=
  bpb_bytes_per_sector b = 512 /\
  is_power_of_two (bpb_sectors_per_cluster b) = true /\
  bpb_reserved b <> 0 /\ bpb_fats b <> 0 /\ bpb_spf b <> 0 /\
  bpb_fat16 b = 0 /\ bpb_root_entries b = 0 /\
  bpb_data b < bpb_total b <= sectors /\
  65525 <= bpb_clusters b /\
  2 <= bpb_root b < bpb_clusters b + 2 /\ bpb_root b < bpb_spf b * 128.

Definition volume_of (dev : D) (b : bpb) : Fat32 D := {|
  device := dev;
  sectors_per_cluster := bpb_sectors_per_cluster b;
  fat_start_sector := bpb_reserved b;
  sectors_per_fat := bpb_spf b;
  first_data_sector := bpb_data b;
  root_cluster := bpb_root b;
  cluster_count := bpb_clusters b;
|}.

Definition bpb_widths (b : bpb) : Prop :=
  is_uint 16 (bpb_bytes_per_sector b) /\ is_uint 8 (bpb_sectors_per_cluster b) /\
  is_uint 16 (bpb_reserved b) /\ is_uint 8 (bpb_fats b) /\
  is_uint 16 (bpb_root_entries b) /\ is_uint 16 (bpb_total16 b) /\
  is_uint 16 (bpb_fat16 b) /\ is_uint 32 (bpb_total32 b) /\
  is_uint 32 (bpb_spf b) /\ is_uint 32 (bpb_root b).

Lemma bpb_of_wf (s : list Z) :
  sector_wf s -> exists b, bpb_of s = Some b /\ bpb_widths b.
Proof.
  intros Hs. unfold bpb_of.
  destruct (le_u16_wf s 11) as (? & -> & ?); [done|lia|].
  destruct (sector_byte s 13) as (? & -> & ?); [done|lia|].
  destruct (le_u16_wf s 14) as (? & -> & ?); [done|lia|].
  destruct (sector_byte s 16) as (? & -> & ?); [done|lia|].
  destruct (le_u16_wf s 17) as (? & -> & ?); [done|lia|].
  destruct (le_u16_wf s 19) as (? & -> & ?); [done|lia|].
  destruct (le_u16_wf s 22) as (? & -> & ?); [done|lia|].
  destruct (le_u32_wf s 32) as (? & -> & ?); [done|lia|].
  destruct (le_u32_wf s 36) as (? & -> & ?); [done|lia|].
  destruct (le_u32_wf s 44) as (? & -> & ?); [done|lia|].
  eexists. split; [done|]. repeat (split; [done|]). done.
Qed.

(** The tail of [mount], once the fields are read. *)
Definition mount_fields (dev : D) (b : bpb) : outcome FsError (Fat32 D) :=
  if negb (bpb_bytes_per_sector b =? 512) || (bpb_sectors_per_cluster b =? 0)
     || negb (is_power_of_two (bpb_sectors_per_cluster b)) || (bpb_reserved b =? 0)
     || (bpb_fats b =? 0) || negb (bpb_fat16 b =? 0) || (bpb_spf b =? 0)
     || negb (bpb_root_entries b =? 0) || (bpb_root b <? 2)
  then Err UnsupportedVolume else
  if 2 ^ 32 <=? bpb_data b then Err InvalidBootSector else
  if (bpb_total b <=? bpb_data b) || (sector_count dev <? bpb_total b)
  then Err InvalidBootSector else
  if (bpb_clusters b <? 65525) || (bpb_clusters b + 2 <=? bpb_root b)
  then Err UnsupportedVolume else
  if bpb_spf b * 128 <=? bpb_root b then Err InvalidBootSector else
  Ok (volume_of dev b).

(** A volume has at least two sectors before its data, so the [cluster_count +
    2] of the cluster bound always fits in 32 bits. *)
Lemma bpb_clusters_bound (b : bpb) :
  bpb_widths b -> bpb_reserved b <> 0 -> bpb_fats b <> 0 -> bpb_spf b <> 0 ->
  bpb_sectors_per_cluster b <> 0 -> bpb_data b < bpb_total b ->
  2 <= bpb_data b /\ bpb_total b < 2 ^ 32 /\
  0 <= bpb_clusters b /\ bpb_clusters b + 2 < 2 ^ 32 /\
  bpb_data b + bpb_clusters b * bpb_sectors_per_cluster b <= bpb_total b.
Proof.
  unfold bpb_widths, is_uint, bpb_clusters, bpb_total. intros Hw Hr Hf Hs Hc Hlt.
  assert (2 <= bpb_data b) by (unfold bpb_data; nia).
  set (t := if bpb_total16 b =? 0 then bpb_total32 b else bpb_total16 b) in *.
  assert (t < 2 ^ 32) by (subst t; destruct (_ =? 0); lia).
  set (c := bpb_sectors_per_cluster b) in *.
  assert (0 < c) by (subst c; lia).
  pose proof (Z.div_mod (t - bpb_data b) c ltac:(lia)) as Hdm.
  pose proof (Z.mod_pos_bound (t - bpb_data b) c ltac:(lia)).
  assert (0 <= (t - bpb_data b) / c) by (apply Z.div_pos; lia).
  repeat split; [lia|lia|lia|nia|nia].
Qed.

Lemma mount_unfold (dev : D) (s : list Z) (b : bpb) :
  read_sector dev 0 = Ok s -> sector_wf s -> bpb_of s = Some b -> bpb_widths b ->
  mount dev =
    if bool_decide (s !! 510%nat = Some 0x55 /\ s !! 511%nat = Some 0xaa)
    then mount_fields dev b else Err InvalidBootSector.
Proof.
  intros Hread Hs Hb Hw. unfold mount. rewrite Hread. simpl.
  destruct (sector_byte s 510) as (b510 & H510 & _); [done|lia|].
  destruct (sector_byte s 511) as (b511 & H511 & _); [done|lia|].
  unfold index at 1 2. rewrite H510, H511. simpl.
  unfold bpb_of in Hb. inv_some. unfold index. subst b.
  repeat match goal with
  | E : ?o = Some _ |- context [or_panic ?o] => rewrite E; simpl
  end.
  set (b := Build_bpb z z0 z1 z2 z3 z4 z5 z6 z7 z8) in *.
  replace (bool_decide _) with (negb (negb (b510 =? 0x55) || negb (b511 =? 0xaa))).
  2:{ case_bool_decide as Hd; destruct (Z.eqb_spec b510 0x55), (Z.eqb_spec b511 0xaa);
        subst; try done; exfalso; (destruct Hd; congruence) || (apply Hd; done). }
  destruct (_ || _); [done|]. cbn [negb].
  unfold mount_fields. subst b. cbn [bpb_bytes_per_sector bpb_sectors_per_cluster bpb_reserved
    bpb_fats bpb_root_entries bpb_total16 bpb_fat16 bpb_total32 bpb_spf bpb_root].
  set (b := Build_bpb z z0 z1 z2 z3 z4 z5 z6 z7 z8) in *.
  change (Z.of_nat SECTOR_SIZE) with 512.
  destruct (_ || (z8 <? 2)) eqn:Hcond; [done|]. to_prop.
  assert (Hdata : bpb_data b = z1 + z2 * z7) by done.
  assert (Ht : bpb_total b = if negb (z4 =? 0) then z4 else z6)
    by (unfold bpb_total; subst b; simpl; by destruct (z4 =? 0)).
  rewrite <- Ht. destruct (Z.leb_spec (2 ^ 32) (bpb_data b)) as [Hbig|Hsmall].
  { unfold checked_mul, checked_add. destruct (Z.ltb_spec (z2 * z7) (2 ^ 32)); simpl; [|done].
    by rewrite (proj2 (Z.ltb_ge (z1 + z2 * z7) _)) by lia. }
  pose proof Hw as (_ & _ & [? ?] & [? ?] & _ & _ & _ & _ & [? ?] & _). simpl in *.
  rewrite (checked_mul_lt 32 z2 z7) by lia. simpl.
  rewrite (checked_add_lt 32 z1) by lia. simpl.
  rewrite <- Hdata. destruct (_ || (sector_count dev <? _)) eqn:Hrange; [done|]. to_prop.
  pose proof (bpb_clusters_bound b Hw) as Hcl. simpl in Hcl.
  destruct Hcl as (? & ? & ? & ? & ?); [done..|lia|].
  rewrite checked_sub_le by lia. simpl.
  change ((bpb_total b - bpb_data b) / z0) with (bpb_clusters b).
  destruct (bpb_clusters b <? 65525); [done|]. simpl.
  rewrite checked_add_lt by lia. simpl. destruct (_ <=? z8); [done|].
  rewrite checked_mul_lt by lia. simpl.
  replace (z7 * 512 / 4) with (z7 * 128) by zlia. done.
Qed.

Lemma mount_fields_Ok (dev : D) (b : bpb) (fs : Fat32 D) :
  bpb_widths b -> device_ok dev ->
  mount_fields dev b = Ok fs <-> bpb_supported b (sector_count dev) /\ fs = volume_of dev b.
Proof.
  intros Hw Hdev. unfold mount_fields, bpb_supported.
  pose proof Hw as (_ & [? ?] & [? ?] & [? ?] & _ & _ & _ & _ & [? ?] & [? ?]).
  split.
  - intros Hok. inv_ok. to_prop. subst fs. repeat split; (done || lia).
  - intros ((B1 & B2 & B3 & B4 & B5 & B6 & B7 & [B8 B9] & B10 & [B11 B12] & B13) & ->).
    assert (bpb_sectors_per_cluster b <> 0).
    { intros E. rewrite E in B2. done. }
    pose proof (bpb_clusters_bound b Hw B3 B4 B5 ltac:(done) B8).
    rewrite B2. decide_tests. done.
Qed.

Lemma mount_fields_no_panic (dev : D) (b : bpb) :
  mount_fields dev b <> Panic /\
  forall e, mount_fields dev b = Err e -> e = InvalidBootSector \/ e = UnsupportedVolume.
Proof. unfold mount_fields. split; [|intros e]; repeat case_match; naive_solver. Qed.

(** Reading sector 0 through the interface. *)
Lemma boot_sector_cases (dev : D) :
  device_ok dev ->
  (exists s b, read_sector dev 0 = Ok s /\ sector_wf s /\ bpb_of s = Some b /\ bpb_widths b) \/
  read_sector dev 0 = Err SectorOutOfRange.
Proof.
  intros Hdev. destruct (decide (0 < sector_count dev)) as [Hlt|Hge].
  - destruct (read_sector_in_range dev 0) as (s & Hs & Hwf); [done|split; lia|done|].
    destruct (bpb_of_wf s Hwf) as (b & Hb & Hw). left. eauto 10.
  - right. apply read_sector_out_of_range; [done|split; lia|lia].
Qed.

(** ** Clusters under the invariant *)

Definition valid_cluster (fs : Fat32 D) (c : Z) : Prop := 2 <= c < cluster_count fs + 2.

Lemma fs_wf_bounds (fs : Fat32 D) :
  fs_wf fs ->
  1 <= sectors_per_cluster fs <= 128 /\ 2 <= first_data_sector fs /\
  65525 <= cluster_count fs /\ cluster_count fs + 2 < 2 ^ 32 /\
  first_data_sector fs + cluster_count fs * sectors_per_cluster fs < 2 ^ 32.
Proof.
  intros [_ Hspc ? ? ? ? _ ? _ _]. set_unfold in Hspc.
  assert (1 <= sectors_per_cluster fs <= 128) by lia. repeat split; [lia..|nia|lia].
Qed.

Lemma is_valid_cluster_wf (fs : Fat32 D) (c : Z) :
  fs_wf fs -> is_valid_cluster fs c = Some (bool_decide (valid_cluster fs c)).
Proof.
  intros (_ & _ & _ & ? & _)%fs_wf_bounds. unfold is_valid_cluster, valid_cluster.
  destruct (Z.ltb_spec c 2).
  - rewrite bool_decide_eq_false_2 by lia. done.
  - rewrite checked_add_lt by done. simpl. f_equal.
    case_bool_decide; [apply Z.ltb_lt|apply Z.ltb_ge]; lia.
Qed.

Lemma checked_next_cluster_wf (fs : Fat32 D) (c : Z) :
  fs_wf fs ->
  checked_next_cluster fs c =
    if bool_decide (c <> FAT32_BAD_CLUSTER /\ valid_cluster fs c) then Ok c else Err CorruptFat.
Proof.
  intros Hwf. unfold checked_next_cluster. rewrite is_valid_cluster_wf by done. simpl.
  destruct (Z.eqb_spec c FAT32_BAD_CLUSTER) as [->|Hne].
  - rewrite bool_decide_eq_false_2; [done|]. intros [? _]. done.
  - repeat case_bool_decide; simpl; tauto || (exfalso; tauto).
Qed.

(** The first sector of data cluster [c]. *)
Definition cluster_base (fs : Fat32 D) (c : Z) : Z :=
  first_data_sector fs + (c - 2) * sectors_per_cluster fs.

Lemma cluster_base_bounds (fs : Fat32 D) (c i : Z) :
  fs_wf fs -> valid_cluster fs c -> 0 <= i < sectors_per_cluster fs ->
  first_data_sector fs <= cluster_base fs c + i
    < first_data_sector fs + cluster_count fs * sectors_per_cluster fs.
Proof.
  intros (? & ? & ? & ? & ?)%fs_wf_bounds [? ?] ?. unfold cluster_base.
  assert ((c - 2) * sectors_per_cluster fs <= (cluster_count fs - 1) * sectors_per_cluster fs)
    by (apply Z.mul_le_mono_nonneg_r; lia). nia.
Qed.

Lemma cluster_to_sector_wf (fs : Fat32 D) (c i : Z) :
  fs_wf fs -> 0 <= i < sectors_per_cluster fs -> valid_cluster fs c ->
  cluster_to_sector fs c i = Ok (cluster_base fs c + i).
Proof.
  intros Hwf Hi Hc. unfold cluster_to_sector. rewrite is_valid_cluster_wf by done.
  rewrite bool_decide_eq_true_2 by done. simpl.
  rewrite (proj2 (Z.leb_gt _ _)) by lia.
  pose proof (cluster_base_bounds fs c i Hwf Hc Hi) as Hb. unfold cluster_base in *.
  pose proof (fs_wf_bounds fs Hwf) as (? & ? & ? & ? & ?). destruct Hc.
  rewrite checked_sub_le by lia. simpl.
  rewrite checked_mul_lt by nia. simpl.
  rewrite checked_add_lt by lia. simpl. by rewrite checked_add_lt by lia.
Qed.

Lemma read_data_sector (fs : Fat32 D) (c i : Z) :
  fs_wf fs -> valid_cluster fs c -> 0 <= i < sectors_per_cluster fs ->
  exists s, read_sector (device fs) (cluster_base fs c + i) = Ok s /\ sector_wf s.
Proof.
  intros Hwf Hc Hi. pose proof (cluster_base_bounds fs c i Hwf Hc Hi).
  pose proof (fs_wf_bounds fs Hwf) as (? & ? & ? & ? & ?). destruct Hwf.
  apply read_sector_in_range; [done|split; lia|lia].
Qed.

Lemma read_fat_sector (fs : Fat32 D) (k : Z) :
  fs_wf fs -> 0 <= k < sectors_per_fat fs ->
  exists s, read_sector (device fs) (fat_start_sector fs + k) = Ok s /\ sector_wf s.
Proof.
  intros Hwf Hk. pose proof (fs_wf_bounds fs Hwf) as (? & ? & ? & ? & ?). destruct Hwf.
  apply read_sector_in_range; [done|split; nia|nia].
Qed.

Lemma next_cluster_beyond_fat (fs : Fat32 D) (c : Z) :
  fs_wf fs -> valid_cluster fs c -> sectors_per_fat fs <= c / 128 ->
  next_cluster fs c = Err CorruptFat.
Proof.
  intros Hwf Hc Hk. unfold next_cluster. rewrite is_valid_cluster_wf by done.
  pose proof (fs_wf_bounds fs Hwf) as (? & ? & ? & ? & ?).
  rewrite bool_decide_eq_true_2 by done. simpl. destruct Hc as [? ?].
  rewrite (checked_mul_lt 64) by lia. simpl. change (Z.of_nat SECTOR_SIZE) with 512.
  replace (c * 4 / 512) with (c / 128) by zlia. by decide_tests.
Qed.

Lemma next_cluster_entry (fs : Fat32 D) (c : Z) :
  fs_wf fs -> valid_cluster fs c -> c / 128 < sectors_per_fat fs ->
  exists s entry, read_sector (device fs) (fat_start_sector fs + c / 128) = Ok s /\
    le_u32 s (Z.to_nat (4 * (c mod 128))) = Some entry /\
    next_cluster fs c = Ok (entry mod 2 ^ 28) /\
    fat_start_sector fs + c / 128 < first_data_sector fs.
Proof.
  intros Hwf Hc Hk. unfold next_cluster. rewrite is_valid_cluster_wf by done.
  pose proof (fs_wf_bounds fs Hwf) as (? & ? & ? & ? & ?).
  rewrite bool_decide_eq_true_2 by done. simpl. destruct Hc as [? ?].
  rewrite (checked_mul_lt 64) by lia. simpl. change (Z.of_nat SECTOR_SIZE) with 512.
  replace (c * 4 / 512) with (c / 128) by zlia. rewrite (proj2 (Z.leb_gt _ _)) by done.
  destruct (read_fat_sector fs (c / 128) Hwf ltac:(zlia)) as (s & Hs & Hswf).
  assert (fat_start_sector fs + c / 128 < first_data_sector fs) by (destruct Hwf; lia).
  unfold wrap. rewrite (Z.mod_small (c / 128)) by zlia.
  rewrite checked_add_lt by nia. simpl. rewrite Hs. simpl.
  replace (c * 4 mod 512) with (4 * (c mod 128)) by zlia.
  destruct (le_u32_wf s (Z.to_nat (4 * (c mod 128)))) as (entry & He & Hu); [done|zlia|].
  exists s, entry. rewrite He. repeat split; [|done].
  simpl. f_equal. change 0x0fffffff with (Z.ones 28). apply Z.land_ones. lia.
Qed.

(** ** Theorems *)

(** C5: [mount] succeeds exactly on the boot sectors of the supported FAT32
    subset: signature 0x55AA, 512-byte sectors, a power-of-two cluster size, at
    least one FAT, no FAT12/16 fields, a data area that lies inside the device,
    at least 65525 clusters, and a root cluster that exists and has a FAT entry.
    The mounted geometry is the one the fields describe, with no wrap-around. *)
Theorem mount_iff (dev : D) (fs : Fat32 D) :
  device_ok dev ->
  mount dev = Ok fs <->
  exists s b, read_sector dev 0 = Ok s /\
    s !! 510%nat = Some 0x55 /\ s !! 511%nat = Some 0xaa /\
    bpb_of s = Some b /\ bpb_supported b (sector_count dev) /\ fs = volume_of dev b.
Proof.
  intros Hdev. split.
  - intros Hm. destruct (boot_sector_cases dev Hdev) as [(s & b & Hr & Hs & Hb & Hw)|Hr].
    + rewrite (mount_unfold dev s b) in Hm by done. case_bool_decide as Hsig; [|done].
      apply mount_fields_Ok in Hm as [? ?]; [|done..]. destruct Hsig. eauto 10.
    + unfold mount in Hm. rewrite Hr in Hm. done.
  - intros (s & b & Hr & H510 & H511 & Hb & Hsup & ->).
    destruct (boot_sector_cases dev Hdev) as [(s' & b' & Hr' & Hs & Hb' & Hw)|?]; [|congruence].
    rewrite Hr in Hr'. injection Hr' as <-. rewrite Hb in Hb'. injection Hb' as <-.
    rewrite (mount_unfold dev s b), bool_decide_eq_true_2 by done. by apply mount_fields_Ok.
Qed.

(** A mounted volume satisfies the geometry invariant every later
    computation relies on: clusters are 1 to 128 sectors, the FAT ends before
    the data area, the data area ends inside the device and below sector 2^32,
    [cluster_count + 2] fits in 32 bits, and the root cluster is a cluster of
    the volume with an entry in the FAT. *)
Lemma mount_establishes_wf (dev : D) (fs : Fat32 D) :
  device_ok dev -> mount dev = Ok fs ->
  fs_wf fs /\ cluster_count fs + 2 < 2 ^ 32 /\ device fs = dev.
Proof.
  intros Hdev Hm.
  destruct (boot_sector_cases dev Hdev) as [(s & b & Hr & Hs & Hb & Hw)|Hr];
    [|by unfold mount in Hm; rewrite Hr in Hm].
  rewrite (mount_unfold dev s b) in Hm by done. case_bool_decide; [|done].
  apply mount_fields_Ok in Hm as [(B1 & B2 & B3 & B4 & B5 & B6 & B7 & [B8 B9] & B10 & B11 & B12) ->];
    [|done..].
  assert (bpb_sectors_per_cluster b <> 0) by (intros E; rewrite E in B2; done).
  pose proof (bpb_clusters_bound b Hw B3 B4 B5 ltac:(done) B8) as (? & ? & ? & ? & ?).
  pose proof Hw as (_ & Hspc & [? ?] & [? ?] & _ & _ & _ & _ & [? ?] & _).
  split; [|done].
  constructor; simpl; try done; try lia; [by apply is_power_of_two_u8|].
  unfold bpb_data. nia.
Qed.

(** On a working device [mount] never traps: every boot sector, however
    corrupt, is either mounted or refused, and the only errors are a missing
    sector 0, [InvalidBootSector] and [UnsupportedVolume]. *)
Lemma mount_never_panics (dev : D) :
  device_ok dev ->
  mount dev <> Panic /\
  forall e, mount dev = Err e ->
    e ∈ [Device SectorOutOfRange; InvalidBootSector; UnsupportedVolume].
Proof.
  intros Hdev. destruct (boot_sector_cases dev Hdev) as [(s & b & Hr & Hs & Hb & Hw)|Hr].
  - rewrite (mount_unfold dev s b) by done.
    destruct (mount_fields_no_panic dev b) as [Hnp Herr].
    case_bool_decide; [split; [done|]|split; [done|]].
    + intros e [->| ->]%Herr; rewrite !elem_of_cons; auto.
    + intros e [= <-]. set_solver.
  - unfold mount. rewrite Hr. split; [done|]. intros e [= <-]. set_solver.
Qed.

(** Every sector of every cluster has its own place in the data area: for a
    valid cluster and an index inside it [cluster_to_sector] succeeds (its
    overflow checks never fire), the sector lies after the FATs and inside the
    device, and no other cluster or index gives the same sector. *)
Lemma cluster_to_sector_layout (fs : Fat32 D) (c i : Z) :
  fs_wf fs -> valid_cluster fs c -> 0 <= i < sectors_per_cluster fs ->
  exists lba, cluster_to_sector fs c i = Ok lba /\
    fat_start_sector fs + sectors_per_fat fs <= lba < sector_count (device fs) /\
    forall c' i', valid_cluster fs c' -> 0 <= i' < sectors_per_cluster fs ->
      cluster_to_sector fs c' i' = Ok lba -> c' = c /\ i' = i.
Proof.
  intros Hwf Hc Hi. exists (cluster_base fs c + i).
  rewrite cluster_to_sector_wf by done.
  pose proof (cluster_base_bounds fs c i Hwf Hc Hi).
  split; [done|]. split; [destruct Hwf; lia|].
  intros c' i' Hc' Hi'. rewrite cluster_to_sector_wf by done. intros [= Heq].
  unfold cluster_base in Heq.
  assert (c' = c).
  { destruct (Z.lt_trichotomy c' c) as [?|[?|?]]; [|done|]; exfalso; nia. }
  subst. lia.
Qed.

(** [next_cluster] reads the 28-bit FAT entry of the cluster and nothing
    else: for a valid cluster it returns the entry at byte [4c mod 512] of
    sector [4c / 512] of the first FAT when the FAT has that sector, and
    [CorruptFat] otherwise; an invalid cluster is [InvalidCluster]. *)
Lemma next_cluster_reads_fat (fs : Fat32 D) (c : Z) :
  fs_wf fs ->
  (~ valid_cluster fs c -> next_cluster fs c = Err InvalidCluster) /\
  (valid_cluster fs c -> sectors_per_fat fs <= c / 128 -> next_cluster fs c = Err CorruptFat) /\
  (valid_cluster fs c -> c / 128 < sectors_per_fat fs ->
   exists s entry, read_sector (device fs) (fat_start_sector fs + c / 128) = Ok s /\
     le_u32 s (Z.to_nat (4 * (c mod 128))) = Some entry /\
     next_cluster fs c = Ok (entry mod 2 ^ 28) /\
     fat_start_sector fs + c / 128 < first_data_sector fs).
Proof.
  intros Hwf. split; [|split].
  - intros Hc. unfold next_cluster. rewrite is_valid_cluster_wf by done.
    by rewrite bool_decide_eq_false_2.
  - intros. by apply next_cluster_beyond_fat.
  - intros. by apply next_cluster_entry.
Qed.
End Geometry.
