(* ===== verification/Fat32Chain.v ===== *)
(** * Fat32Chain: cluster chains, and what walking one does

    The abstract view of a directory or file is the list of clusters its chain
    visits.  This file defines paths and complete walks through the FAT, proves
    that a terminating walk never repeats a cluster, so that the kernel's bound
    of [cluster_count + 1] iterations is always enough, and gives the directory
    contents a walk visits as a plain list. *)

From S2P Require Import Prelude Storage Str DemoVolume Fat32 Fat32Geometry.
#[local] Open Scope Z_scope.

(** ** Loop lemmas *)

Lemma for_in_app {A R S : Type} (body : A -> S -> control R S) (l1 l2 : list A) (s : S) :
  for_in body (l1 ++ l2) s =
  match for_in body l1 s with
  | Break r => Break r
  | Continue s => for_in body l2 s
  end.
Proof. revert s. induction l1 as [|x l1 IH]; intros s; simpl; [done|]. by destruct (body x s). Qed.

(** A loop whose every iteration is itself a loop is one loop over the
    concatenation. *)
Lemma for_in_concat {A B R S : Type} (outer : A -> S -> control R S)
    (inner : B -> S -> control R S) (items : A -> list B) (l : list A) (s : S) :
  (forall a s, a ∈ l -> outer a s = for_in inner (items a) s) ->
  for_in outer l s = for_in inner (concat (map items l)) s.
Proof.
  revert s. induction l as [|a l IH]; intros s Heq; simpl; [done|].
  rewrite for_in_app, <- (Heq a) by set_solver.
  destruct (outer a s); [done|]. apply IH. intros. apply Heq. set_solver.
Qed.

Section Chain.
Context {D : Type} `{HBD : BlockDevice D} `{HSpec : !BlockDeviceSpec D}.
Implicit Types (fs : Fat32 D).

(** ** Paths through the FAT *)

(** The FAT links cluster [c] to cluster [n]. *)
Definition linked fs (c n : Z) : Prop :=
  next_cluster fs c = Ok n /\ n < FAT32_EOC /\ n <> FAT32_BAD_CLUSTER /\ valid_cluster fs n.

Inductive path fs : Z -> list Z -> Prop :=
| path_one c : valid_cluster fs c -> path fs c [c]
| path_link c n cs : valid_cluster fs c -> linked fs c n -> path fs n cs -> path fs c (c :: cs).

(** How a walk ends at its last cluster: regularly at an end-of-chain mark, or
    with the error the traversal reports. *)
Inductive chain_end fs (c : Z) : outcome FsError unit -> Prop :=
| end_eoc n : next_cluster fs c = Ok n -> FAT32_EOC <= n -> chain_end fs c (Ok tt)
| end_bad n : next_cluster fs c = Ok n -> n < FAT32_EOC ->
    n = FAT32_BAD_CLUSTER \/ ~ valid_cluster fs n -> chain_end fs c (Err CorruptFat)
| end_fat : next_cluster fs c = Err CorruptFat -> chain_end fs c (Err CorruptFat).

Inductive walk fs : Z -> list Z -> outcome FsError unit -> Prop :=
| walk_end c r : valid_cluster fs c -> chain_end fs c r -> walk fs c [c] r
| walk_link c n cs r :
    valid_cluster fs c -> linked fs c n -> walk fs n cs r -> walk fs c (c :: cs) r.

Lemma walk_path fs c cs r : walk fs c cs r -> path fs c cs.
Proof. induction 1; eauto using path. Qed.

Lemma path_valid fs c cs : path fs c cs -> Forall (valid_cluster fs) cs.
Proof. induction 1; auto. Qed.

Lemma chain_end_not_linked fs c n r : chain_end fs c r -> linked fs c n -> False.
Proof.
  intros [n' Hn ?|n' Hn ? Hbad|Hn] (Hn' & ? & ? & ?); rewrite Hn in Hn'; simplify_eq; [lia|tauto].
Qed.

Lemma walk_functional fs c cs cs' r r' : walk fs c cs r -> walk fs c cs' r' -> cs = cs'.
Proof.
  intros Hw. revert cs'. induction Hw as [c r Hc He|c n cs r Hc Hl Hw IH]; intros cs' Hw';
    inversion Hw' as [? ? ? He'|? n' cs'' ? ? Hl' Hw'']; subst; [done|..].
  - by destruct (chain_end_not_linked fs c n' r).
  - by destruct (chain_end_not_linked fs c n r').
  - destruct Hl as [Hn _], Hl' as [Hn' _]. rewrite Hn in Hn'. simplify_eq. f_equal. by apply IH.
Qed.

Lemma walk_suffix fs c cs r c' :
  walk fs c cs r -> c' ∈ cs -> exists cs', walk fs c' cs' r /\ (length cs' <= length cs)%nat.
Proof.
  induction 1 as [c r Hc He|c n cs r Hc Hl Hw IH]; intros Hin.
  - apply list_elem_of_singleton in Hin as ->. exists [c]. eauto using walk.
  - apply elem_of_cons in Hin as [->|Hin].
    + exists (c :: cs). eauto using walk.
    + destruct (IH Hin) as (cs' & ? & ?). exists cs'. simpl. eauto with lia.
Qed.

Lemma walk_NoDup fs c cs r : walk fs c cs r -> NoDup cs.
Proof.
  induction 1 as [c r Hc He|c n cs r Hc Hl Hw IH]; [apply NoDup_singleton|].
  apply NoDup_cons. split; [|done]. intros Hin.
  destruct (walk_suffix fs n cs r c Hw Hin) as (cs' & Hw' & Hlen).
  assert (Heq : cs' = c :: cs) by (eapply walk_functional; eauto using walk).
  subst. simpl in Hlen. lia.
Qed.

(** Pigeonhole: distinct clusters are at most [cluster_count] many. *)
Lemma clusters_bound fs cs :
  0 <= cluster_count fs -> Forall (valid_cluster fs) cs -> NoDup cs ->
  (length cs <= Z.to_nat (cluster_count fs))%nat.
Proof.
  intros H0 Hv Hnd. rewrite <- (length_seqZ 2 (cluster_count fs)).
  apply submseteq_length, NoDup_submseteq; [done|].
  intros c Hin. apply elem_of_seqZ. rewrite Forall_forall in Hv.
  destruct (Hv c Hin). lia.
Qed.

Lemma walk_length fs c cs r :
  0 <= cluster_count fs -> walk fs c cs r ->
  (length cs <= Z.to_nat (cluster_count fs))%nat.
Proof.
  intros H0 Hw. apply clusters_bound; [done|..].
  - eapply path_valid, walk_path, Hw.
  - eapply walk_NoDup, Hw.
Qed.

(** ** The contents of clusters *)

Definition data_sector fs (c i : Z) : list Z :=
  match read_sector (device fs) (cluster_base fs c + i) with
  | Ok s => s
  | _ => []
  end.

Definition cluster_sectors fs (c : Z) : list (list Z) :=
  map (data_sector fs c) (seqZ 0 (sectors_per_cluster fs)).

(** All sectors of a chain in order. *)
Definition chain_sectors fs (cs : list Z) : list (list Z) :=
  concat (map (cluster_sectors fs) cs).

Lemma data_sector_wf fs c i :
  fs_wf fs -> valid_cluster fs c -> 0 <= i < sectors_per_cluster fs ->
  read_sector (device fs) (cluster_base fs c + i) = Ok (data_sector fs c i) /\
  sector_wf (data_sector fs c i).
Proof.
  intros Hwf Hc Hi. unfold data_sector.
  destruct (read_data_sector fs c i Hwf Hc Hi) as (s & -> & ?). done.
Qed.

Lemma chain_sectors_wf fs c cs :
  fs_wf fs -> path fs c cs -> Forall sector_wf (chain_sectors fs cs).
Proof.
  intros Hwf Hp%path_valid. unfold chain_sectors.
  apply Forall_concat, Forall_fmap. eapply Forall_impl; [done|].
  intros c' Hc'. unfold compose, cluster_sectors. apply Forall_fmap, Forall_seqZ.
  intros i Hi. by apply data_sector_wf.
Qed.

Lemma length_chain_sectors fs cs :
  length (chain_sectors fs cs) = (length cs * Z.to_nat (sectors_per_cluster fs))%nat.
Proof.
  unfold chain_sectors. induction cs as [|c cs IH]; [done|]. simpl.
  rewrite length_app, IH. unfold cluster_sectors. by rewrite length_map, length_seqZ.
Qed.
End Chain.
