(* ===== verification/Fat32Dir.v ===== *)
(** * Fat32Dir: directory records and directory traversal

    What [DirEntry::from_raw] computes from a 32-byte record, and the refinement
    of [visit_directory] to a left fold of the visitor over the list of entries
    of the chain. *)

From S2P Require Import Prelude Storage Str DemoVolume Fat32 Fat32Geometry Fat32Chain.
#[local] Open Scope Z_scope.

(** ** Directory records *)

Definition record_wf (raw : list Z) : Prop := length raw = 32%nat /\ Forall (is_uint 8) raw.

(** The bytes of a padded name field before its first space. *)
Fixpoint until_space (field : list Z) : list Z :=
  match field with
  | [] => []
  | b :: field => if b =? 0x20 then [] else b :: until_space field
  end.

(** The short name a record spells: base, and a dot and extension when the
    extension field is not blank. *)
Definition short_name (raw : list Z) : str :=
  let base := until_space (take 8 raw) in
  let extension := take 3 (drop 8 raw) in
  if existsb (fun b => negb (b =? 0x20)) extension
  then base ++ [0x2e] ++ until_space extension
  else base.

(** The record has a name: its base is not blank and all its name bytes are
    ASCII. *)
Definition has_name (raw : list Z) : bool :=
  negb (is_empty (until_space (take 8 raw))) && forallb is_ascii (short_name raw).

Lemma length_until_space (field : list Z) : (length (until_space field) <= length field)%nat.
Proof. induction field as [|b field IH]; simpl; [lia|]. destruct (b =? 0x20); simpl; lia. Qed.

Lemma Forall_until_space (P : Z -> Prop) (field : list Z) :
  Forall P field -> Forall P (until_space field).
Proof. induction 1 as [|b field ? ? IH]; simpl; [done|]. by destruct (b =? 0x20); constructor. Qed.

(** The copying loop appends the field's text to the name built so far. *)
Lemma push_name_bytes_spec (field name : list Z) (n : nat) :
  (n + length (until_space field) <= length name)%nat ->
  if forallb is_ascii (until_space field) then
    exists name', push_name_bytes field name n = Some (Some (name', (n + length (until_space field))%nat)) /\
      length name' = length name /\
      take (n + length (until_space field)) name' = take n name ++ until_space field
  else push_name_bytes field name n = Some None.
Proof.
  revert name n. induction field as [|b field IH]; intros name n Hlen; simpl.
  { exists name. rewrite Nat.add_0_r, app_nil_r. done. }
  simpl in Hlen. destruct (Z.eqb_spec b 0x20) as [->|Hb]; simpl.
  { exists name. rewrite Nat.add_0_r, app_nil_r. done. }
  simpl in Hlen. destruct (is_ascii b) eqn:Ha; simpl; [|done].
  destruct (set_index name n b) as [name1|] eqn:Hset.
  2:{ unfold set_index in Hset. case_decide; [done|lia]. }
  simpl. destruct (set_index_take _ _ _ _ Hset) as (Hl1 & Ht1 & _).
  specialize (IH name1 (S n)). rewrite Hl1 in IH. specialize (IH ltac:(lia)).
  destruct (forallb is_ascii (until_space field)); [|done].
  destruct IH as (name' & Hp & Hl' & Ht'). exists name'.
  rewrite Ht1 in Ht'. rewrite <- (app_assoc (take n name)) in Ht'. simpl in Ht'.
  replace (n + S (length (until_space field)))%nat with (S n + length (until_space field))%nat by lia.
  done.
Qed.

(** The whole name part of [from_raw]: the two copying loops with the dot
    between them. *)
Lemma from_raw_name (base ext : list Z) :
  (length base <= 8)%nat -> (length ext <= 3)%nat ->
  let text := if existsb (fun b => negb (b =? 0x20)) ext
              then until_space base ++ [0x2e] ++ until_space ext else until_space base in
  let copied :=
    first ← push_name_bytes base (replicate 12 0) 0;
    match first with
    | None => Some None
    | Some (name, name_len) =>
        if decide (name_len = 0%nat) then Some None
        else if existsb (fun b => negb (b =? 0x20)) ext then
          name ← set_index name name_len 0x2e;
          push_name_bytes ext name (S name_len)
        else Some (Some (name, name_len))
    end in
  if negb (is_empty (until_space base)) && forallb is_ascii text then
    exists name, copied = Some (Some (name, length text)) /\
      length name = 12%nat /\ take (length text) name = text
  else copied = Some None.
Proof.
  intros Hb He text copied. subst copied text.
  pose proof (length_until_space base) as Hub. pose proof (length_until_space ext) as Hue.
  pose proof (push_name_bytes_spec base (replicate 12 0) 0) as Hp.
  rewrite length_replicate in Hp. specialize (Hp ltac:(lia)).
  rewrite Nat.add_0_l, take_0, app_nil_l in Hp.
  destruct (forallb is_ascii (until_space base)) eqn:Hab.
  2:{ rewrite Hp. simpl. destruct (existsb _ ext); rewrite ?forallb_app, ?Hab;
      by rewrite andb_false_r. }
  destruct Hp as (name1 & -> & Hl1 & Ht1). simpl.
  destruct (until_space base) as [|x base'] eqn:Hbase; [done|].
  case_decide as Hd; [done|]. simpl negb.
  destruct (existsb _ ext) eqn:Hext; [|rewrite andb_true_l, Hab; by exists name1].
  destruct (set_index name1 _ 0x2e) as [name2|] eqn:Hset.
  2:{ unfold set_index in Hset. case_decide; [done|]. simpl in *. lia. }
  destruct (set_index_take _ _ _ _ Hset) as (Hl2 & Ht2 & _). simpl.
  pose proof (push_name_bytes_spec ext name2 (S (length (x :: base')))) as Hq.
  rewrite Hl2, Hl1 in Hq. simpl in Hub. specialize (Hq ltac:(simpl; lia)).
  replace (is_ascii x && forallb is_ascii (base' ++ 0x2e :: until_space ext))
    with (forallb is_ascii (until_space ext)).
  2:{ rewrite forallb_app. simpl in Hab. apply andb_true_iff in Hab as [-> ->]. done. }
  destruct (forallb is_ascii (until_space ext)); [|done].
  destruct Hq as (name3 & Hq & Hl3 & Ht3). exists name3.
  rewrite Ht2, Ht1, <- app_assoc in Ht3. simpl in Hq, Ht3 |- *. rewrite length_app. simpl.
  rewrite <- plus_n_Sm, Hq. done.
Qed.

Lemma short_name_wf (raw : list Z) :
  record_wf raw -> Forall (is_uint 8) (short_name raw) /\ (length (short_name raw) <= 12)%nat.
Proof.
  intros [Hlen Hu8]. unfold short_name.
  pose proof (length_until_space (take 8 raw)) as Hb.
  pose proof (length_until_space (take 3 (drop 8 raw))) as He.
  rewrite length_take in Hb, He.
  assert (Forall (is_uint 8) (until_space (take 8 raw)))
    by by apply Forall_until_space, Forall_take.
  destruct (existsb _ _); [|split; [done|lia]].
  rewrite !length_app. simpl. split; [|lia].
  apply Forall_app. split; [done|]. constructor; [split; lia|].
  by apply Forall_until_space, Forall_take, Forall_drop.
Qed.

Lemma ascii_u8 (l : list Z) :
  Forall (is_uint 8) l -> forallb is_ascii l = true -> ascii_str l.
Proof.
  induction 1 as [|b l [? ?] _ IH]; simpl; [constructor|].
  intros [Hb%Z.ltb_lt ?]%andb_true_iff. constructor; [done|]. by apply IH.
Qed.

(** The record decoder, with the halves of the cluster number exposed. *)
Lemma from_raw_decodes (raw : list Z) :
  record_wf raw ->
  if has_name raw then
    exists e high low, from_raw raw = Some (Some e) /\
      entry_name e = short_name raw /\ ascii_str (entry_name e) /\
      (1 <= de_name_len e <= 12)%nat /\ length (de_name e) = 12%nat /\
      raw !! 11%nat = Some (de_attributes e) /\ le_u32 raw 28 = Some (de_size e) /\
      le_u16 raw 20 = Some high /\ le_u16 raw 26 = Some low /\
      de_first_cluster e = high * 65536 + low
  else from_raw raw = Some None.
Proof.
  intros Hr. pose proof Hr as [Hlen Hu8].
  destruct (le_u16_in raw Hu8 20) as (high & Hh & _); [lia|].
  destruct (le_u16_in raw Hu8 26) as (low & Hlo & Hlo16); [lia|].
  destruct (le_u32_in raw Hu8 28) as (size & Hsz & _); [lia|].
  destruct (byte_in raw Hu8 11) as (attr & Hattr & _); [lia|].
  pose proof (from_raw_name (take 8 raw) (take 3 (drop 8 raw))) as Hname.
  rewrite !length_take in Hname. specialize (Hname ltac:(lia) ltac:(lia)).
  cbv zeta in Hname. unfold from_raw, has_name. unfold short_name in *.
  rewrite !slice_take by lia. rewrite drop_0. simpl (8 - 0)%nat. simpl (11 - 8)%nat.
  cbn [mbind option_bind].
  set (text := if existsb _ _ then _ else _) in *.
  destruct (push_name_bytes (take 8 raw) (replicate 12 0) 0) as [[[name n]|]|];
    cbn [mbind option_bind] in *; [|destruct (_ && _); [by destruct Hname as (? & ? & _)|done]..].
  case_decide; [destruct (_ && _); [by destruct Hname as (? & ? & _)|done]|].
  destruct (_ && _) eqn:Hok.
  - destruct Hname as (name' & Hc & Hl & Ht). rewrite Hc. cbn [mbind option_bind].
    rewrite Hh, Hlo, Hattr, Hsz. cbn [mbind option_bind].
    do 3 eexists. split; [done|]. unfold entry_name. cbn [de_name de_name_len de_attributes
      de_first_cluster de_size]. rewrite Ht. apply andb_true_iff in Hok as [Hne Hasc].
    destruct (short_name_wf raw Hr) as [Hu Hn]. unfold short_name in Hu, Hn. fold text in Hu, Hn.
    assert (length text <> 0%nat).
    { subst text. destruct (until_space (take 8 raw)); [done|]. by destruct (existsb _ _). }
    repeat split; try done; try lia; [by apply ascii_u8|].
    apply lor_shiftl_add; [lia|]. by destruct Hlo16.
  - rewrite Hname. done.
Qed.

(** [DirEntry::from_raw] never traps on a 32-byte record (the twelve-byte
    name buffer is always large enough) and decodes it exactly: a record without
    an ASCII short name gives no entry; any other gives the entry whose name is
    the short name (so [from_utf8_unchecked] only ever sees ASCII), with the
    record's attributes, its 32-bit size, and its cluster number assembled from
    the two 16-bit halves. *)
Lemma from_raw_spec (raw : list Z) :
  record_wf raw ->
  if has_name raw then
    exists e, from_raw raw = Some (Some e) /\
      entry_name e = short_name raw /\ ascii_str (entry_name e) /\
      (1 <= length (entry_name e) <= 12)%nat /\
      raw !! 11%nat = Some (de_attributes e) /\
      le_u32 raw 28 = Some (de_size e) /\ is_uint 32 (de_size e) /\
      (exists high low, le_u16 raw 20 = Some high /\ le_u16 raw 26 = Some low /\
        de_first_cluster e = high * 65536 + low) /\ is_uint 32 (de_first_cluster e)
  else from_raw raw = Some None.
Proof.
  intros Hr. pose proof (from_raw_decodes raw Hr) as Hd. pose proof Hr as [Hlen Hu8].
  destruct (has_name raw); [|done].
  destruct Hd as (e & high & low & He & Hn & Ha & Hl & Hl12 & Hat & Hs & Hh & Hlo & Hc).
  destruct (le_u16_in raw Hu8 20) as (? & Hh' & [? ?]); [lia|].
  destruct (le_u16_in raw Hu8 26) as (? & Hlo' & [? ?]); [lia|].
  destruct (le_u32_in raw Hu8 28) as (? & Hs' & ?); [lia|].
  rewrite Hh in Hh'. rewrite Hlo in Hlo'. rewrite Hs in Hs'. simplify_eq.
  assert (Hlen' : length (entry_name e) = de_name_len e)
    by (unfold entry_name; rewrite length_take; lia).
  exists e. rewrite Hlen'. repeat (split; [by eauto|]). unfold is_uint. lia.
Qed.

(** A file record, as the decoder sees it. *)
Lemma from_raw_spec_witness :
  let raw := demo_record [72; 69; 76; 76; 79; 32; 32; 32; 84; 88; 84] 0x20 0x12345 600 in
  has_name raw = true /\
  exists e, from_raw raw = Some (Some e) /\
    entry_name e = [72; 69; 76; 76; 79; 46; 84; 88; 84] /\ de_first_cluster e = 0x12345.
Proof.
  set (raw := demo_record _ _ _ _). assert (Hr : record_wf raw).
  { split; [done|]. apply (bool_decide_unpack _). by vm_compute. }
  split; [done|]. destruct (from_raw_spec raw Hr) as (e & He & Hn & _). exists e.
  split; [done|]. split; [done|]. vm_compute in He. by injection He as <-.
Defined.

Lemma chunks_exact_wf (fuel n : nat) (l : list Z) :
  Forall (is_uint 8) l ->
  Forall (fun c => length c = n /\ Forall (is_uint 8) c) (chunks_exact_fuel fuel n l).
Proof.
  revert l. induction fuel as [|fuel IH]; intros l Hl; simpl; [constructor|].
  case_decide; [|constructor]. constructor.
  - rewrite length_take. split; [lia|by apply Forall_take].
  - by apply IH, Forall_drop.
Qed.

Lemma sector_records_wf (s : list Z) : sector_wf s -> Forall record_wf (chunks_exact 32 s).
Proof. intros [_ Hu8]. by apply chunks_exact_wf. Qed.

(** ** The entries of a directory *)

Definition record_byte (raw : list Z) (i : nat) : Z := default 0 (raw !! i).

(** Records that are not files: deleted, dot, long-name and label records. *)
Definition skipped (raw : list Z) : bool :=
  (record_byte raw 0 =? 0xe5) || (record_byte raw 0 =? 0x2e)
  || (record_byte raw 11 =? ATTR_LONG_FILE_NAME)
  || negb (Z.land (record_byte raw 11) ATTR_VOLUME_ID =? 0).

Definition record_entry (raw : list Z) : option DirEntry :=
  if skipped raw then None else mjoin (from_raw raw).

(** The entries before the end marker, and whether there is a marker. *)
Fixpoint dir_scan (raws : list (list Z)) : list DirEntry * bool :=
  match raws with
  | [] => ([], false)
  | raw :: raws =>
      if record_byte raw 0 =? 0x00 then ([], true)
      else
        let '(es, ended) := dir_scan raws in
        (match record_entry raw with Some e => e :: es | None => es end, ended)
  end.

(** Calling a visitor on a list of entries until it asks to stop. *)
Fixpoint visit_list {S : Type} (visitor : DirEntry -> S -> bool * S) (es : list DirEntry) (s : S)
  : bool * S :=
  match es with
  | [] => (false, s)
  | e :: es =>
      let '(keep_going, s) := visitor e s in
      if keep_going then visit_list visitor es s else (true, s)
  end.

Section Directory.
Context {D : Type} `{HBD : BlockDevice D} `{HSpec : !BlockDeviceSpec D}.
Context {T : Type} (visitor : DirEntry -> T -> bool * T).
Implicit Types (fs : Fat32 D) (s : T).

(** All directory records of a chain, in order. *)
Definition chain_records fs (cs : list Z) : list (list Z) :=
  concat (map (chunks_exact 32) (chain_sectors fs cs)).

(** What a complete traversal amounts to: [r] is how the walk ends if neither
    the visitor nor an end marker stops it first. *)
Definition scan_result (raws : list (list Z)) (r : outcome FsError unit) s
  : outcome FsError unit * T :=
  let '(es, ended) := dir_scan raws in
  let '(stopped, s) := visit_list visitor es s in
  if stopped || ended then (Ok tt, s) else (r, s).

Lemma visit_raw_spec (raw : list Z) s :
  record_wf raw ->
  visit_raw visitor raw s =
    if record_byte raw 0 =? 0x00 then Break (Ok tt, s)
    else match record_entry raw with
    | None => Continue s
    | Some e =>
        let '(keep_going, s) := visitor e s in
        if keep_going then Continue s else Break (Ok tt, s)
    end.
Proof.
  intros Hr. pose proof Hr as [Hlen Hu8].
  destruct (byte_in raw Hu8 0) as (b0 & H0 & _); [lia|].
  destruct (byte_in raw Hu8 11) as (b11 & H11 & _); [lia|].
  unfold visit_raw, record_entry, skipped, record_byte, index. rewrite H0, H11. simpl.
  destruct (b0 =? 0); [done|]. destruct (_ || _); [done|].
  pose proof (from_raw_decodes raw Hr) as Hf.
  destruct (has_name raw); [destruct Hf as (e & ? & ? & -> & _)|rewrite Hf]; done.
Qed.

Lemma for_in_visit_raw (raws : list (list Z)) s :
  Forall record_wf raws ->
  for_in (visit_raw visitor) raws s =
    let '(es, ended) := dir_scan raws in
    let '(stopped, s) := visit_list visitor es s in
    if stopped || ended then Break (Ok tt, s) else Continue s.
Proof.
  intros Hall. revert s. induction Hall as [|raw raws Hr Hrs IH]; intros s; simpl; [done|].
  rewrite visit_raw_spec by done. destruct (record_byte raw 0 =? 0); [done|].
  destruct (dir_scan raws) as [es ended] eqn:Hscan.
  destruct (record_entry raw) as [e|]; [|apply IH]. simpl.
  destruct (visitor e s) as [[] s']; [apply IH|done].
Qed.

Lemma scan_result_for_in (raws : list (list Z)) (r : outcome FsError unit) s :
  Forall record_wf raws ->
  scan_result raws r s =
    match for_in (visit_raw visitor) raws s with Break x => x | Continue s => (r, s) end.
Proof.
  intros Hall. rewrite for_in_visit_raw by done. unfold scan_result.
  destruct (dir_scan raws) as [es ended]. destruct (visit_list visitor es s) as [stopped s'].
  by destruct (stopped || ended).
Qed.

Lemma chain_records_wf fs c cs : fs_wf fs -> path fs c cs -> Forall record_wf (chain_records fs cs).
Proof.
  intros Hwf Hp. unfold chain_records. apply Forall_concat, Forall_fmap.
  eapply Forall_impl; [by eapply chain_sectors_wf|]. apply sector_records_wf.
Qed.

Lemma chain_records_cons fs c cs :
  chain_records fs (c :: cs) = chain_records fs [c] ++ chain_records fs cs.
Proof.
  unfold chain_records, chain_sectors. simpl. by rewrite !map_app, !concat_app, app_nil_r.
Qed.

(** The loop over the sectors of one cluster is the loop over its records. *)
Lemma visit_cluster_records fs c s :
  fs_wf fs -> valid_cluster fs c ->
  for_in (visit_sector fs visitor c) (seqZ 0 (sectors_per_cluster fs)) s =
  for_in (visit_raw visitor) (chain_records fs [c]) s.
Proof.
  intros Hwf Hc. unfold chain_records, chain_sectors. simpl. rewrite app_nil_r.
  unfold cluster_sectors. rewrite map_map. apply for_in_concat.
  intros i s' Hi%elem_of_seqZ. unfold visit_sector.
  rewrite cluster_to_sector_wf by (done || lia). simpl.
  destruct (data_sector_wf fs c i Hwf Hc ltac:(lia)) as [-> _]. done.
Qed.

Lemma visit_cluster_linked fs c n s :
  fs_wf fs -> valid_cluster fs c -> linked fs c n ->
  visit_cluster fs visitor (c, s) =
    match for_in (visit_raw visitor) (chain_records fs [c]) s with
    | Break x => Break x
    | Continue s => Continue (n, s)
    end.
Proof.
  intros Hwf Hc (Hn & Heoc & Hbad & Hv). unfold visit_cluster.
  rewrite visit_cluster_records by done. destruct (for_in _ _ s) as [x|s']; [done|].
  rewrite Hn. simpl. rewrite (proj2 (Z.leb_gt _ _)) by done.
  rewrite checked_next_cluster_wf, bool_decide_eq_true_2 by done. done.
Qed.

Lemma visit_cluster_end fs c r s :
  fs_wf fs -> valid_cluster fs c -> chain_end fs c r ->
  visit_cluster fs visitor (c, s) =
    match for_in (visit_raw visitor) (chain_records fs [c]) s with
    | Break x => Break x
    | Continue s => Break (r, s)
    end.
Proof.
  intros Hwf Hc Hend. unfold visit_cluster. rewrite visit_cluster_records by done.
  destruct (for_in _ _ s) as [x|s']; [done|].
  destruct Hend as [n Hn Heoc|n Hn Heoc Hbad|Hn]; rewrite Hn; simpl; [..|done].
  - by rewrite (proj2 (Z.leb_le _ _)).
  - rewrite (proj2 (Z.leb_gt _ _)) by done.
    rewrite checked_next_cluster_wf, bool_decide_eq_false_2 by (done || tauto). done.
Qed.

Lemma for_n_walk fs c cs r n s :
  fs_wf fs -> walk fs c cs r -> (length cs <= n)%nat ->
  for_n n (visit_cluster fs visitor) (c, s) =
    Break (match for_in (visit_raw visitor) (chain_records fs cs) s with
           | Break x => x | Continue s => (r, s) end).
Proof.
  intros Hwf Hw. revert n s. induction Hw as [c r Hc He|c m cs r Hc Hl Hw IH];
    intros [|n] s Hn; simpl in Hn; try lia; cbn [for_n].
  - rewrite (visit_cluster_end fs c r) by done. by destruct (for_in _ _ s).
  - rewrite (visit_cluster_linked fs c m) by done.
    rewrite (chain_records_cons fs c cs), for_in_app.
    destruct (for_in _ (chain_records fs [c]) s) as [x|s']; [done|]. apply IH. lia.
Qed.

(** A path as long as the bound lets the loop run out. *)
Lemma for_n_path fs c cs n s :
  fs_wf fs -> path fs c cs -> length cs = S n ->
  exists last, for_n n (visit_cluster fs visitor) (c, s) =
    match for_in (visit_raw visitor) (chain_records fs (take n cs)) s with
    | Break x => Break x
    | Continue s => Continue (last, s)
    end.
Proof.
  intros Hwf Hp. revert n s. induction Hp as [c Hc|c m cs Hc Hl Hp IH]; intros n s Hn;
    simpl in Hn; simplify_eq.
  - by exists c.
  - destruct cs as [|c' cs]; [inversion Hp|]. simpl length. cbn [for_n].
    destruct (IH (length cs)) with (s := s) as [last _]; [done|].
    rewrite (visit_cluster_linked fs c m) by done. simpl take.
    rewrite (chain_records_cons fs c (take _ _)), for_in_app.
    destruct (for_in _ (chain_records fs [c]) s) as [x|s']; [by exists last|].
    by apply IH.
Qed.

(** If the records of a path already stop the visit, the rest of the chain does
    not matter. *)
Lemma for_n_path_break fs c cs n s x :
  fs_wf fs -> path fs c cs -> (length cs <= n)%nat ->
  for_in (visit_raw visitor) (chain_records fs cs) s = Break x ->
  for_n n (visit_cluster fs visitor) (c, s) = Break x.
Proof.
  intros Hwf Hp. revert n s. induction Hp as [c Hc|c m cs Hc Hl Hp IH]; intros [|n] s Hn Hbr;
    simpl in Hn; try lia; cbn [for_n].
  - unfold visit_cluster at 1. rewrite visit_cluster_records by done. by rewrite Hbr.
  - rewrite (visit_cluster_linked fs c m) by done.
    rewrite (chain_records_cons fs c cs), for_in_app in Hbr.
    destruct (for_in _ (chain_records fs [c]) s) as [y|s']; [by simplify_eq|]. apply IH; [lia|done].
Qed.

(** ** The shape of every chain *)

Lemma next_cluster_cases fs c :
  fs_wf fs -> valid_cluster fs c ->
  (exists n, next_cluster fs c = Ok n) \/ next_cluster fs c = Err CorruptFat.
Proof.
  intros Hwf Hc. destruct (decide (c / 128 < sectors_per_fat fs)).
  - left. destruct (next_cluster_entry fs c) as (? & n & ? & ? & ? & ?); eauto.
  - right. apply next_cluster_beyond_fat; [done..|lia].
Qed.

Lemma step_cases fs c :
  fs_wf fs -> valid_cluster fs c -> (exists r, chain_end fs c r) \/ (exists n, linked fs c n).
Proof.
  intros Hwf Hc. destruct (next_cluster_cases fs c Hwf Hc) as [[n Hn]|Hn].
  - destruct (decide (n < FAT32_EOC)); [|left; exists (Ok tt); econstructor; eauto with lia].
    destruct (decide (n <> FAT32_BAD_CLUSTER /\ valid_cluster fs n)) as [[? ?]|Hbad].
    + right. by exists n.
    + left. exists (Err CorruptFat). eapply end_bad; [done..|].
      destruct (decide (n = FAT32_BAD_CLUSTER)); [by left|]. right. tauto.
  - left. exists (Err CorruptFat). by apply end_fat.
Qed.

(** Either the walk from [c] ends within [n] clusters or it is longer. *)
Lemma walk_or_path fs n c :
  fs_wf fs -> valid_cluster fs c ->
  (exists cs r, walk fs c cs r /\ (length cs <= n)%nat) \/
  (exists cs, path fs c cs /\ length cs = S n).
Proof.
  intros Hwf. revert c. induction n as [|n IH]; intros c Hc.
  { right. exists [c]. split; [by constructor|done]. }
  destruct (step_cases fs c Hwf Hc) as [[r He]|[m Hl]].
  - left. exists [c], r. split; [by constructor|simpl; lia].
  - destruct (IH m) as [(cs & r & Hw & Hlen)|(cs & Hp & Hlen)]; [apply Hl|..].
    + left. exists (c :: cs), r. split; [by econstructor|simpl; lia].
    + right. exists (c :: cs). split; [by econstructor|simpl; lia].
Qed.

Lemma path_take fs c cs n : path fs c cs -> path fs c (take (S n) cs).
Proof.
  intros Hp. revert n. induction Hp as [c Hc|c m cs Hc Hl Hp IH]; intros n.
  - rewrite take_ge by (simpl; lia). by constructor.
  - destruct n as [|n]; simpl; [by constructor|]. econstructor; eauto.
Qed.

(** ** Directory traversal *)

Lemma visit_directory_walk fs c cs r s :
  fs_wf fs -> walk fs c cs r ->
  visit_directory fs c visitor s = scan_result (chain_records fs cs) r s.
Proof.
  intros Hwf Hw. unfold visit_directory.
  pose proof (fs_wf_bounds fs Hwf) as (_ & _ & ? & _).
  rewrite is_valid_cluster_wf, bool_decide_eq_true_2 by (done || by destruct Hw).
  rewrite (for_n_walk fs c cs r) by (done || (apply Nat.le_le_succ_r; by eapply walk_length; [lia|])).
  symmetry. apply scan_result_for_in. eapply chain_records_wf; [done|]. by eapply walk_path.
Qed.

Lemma visit_directory_path fs c cs s :
  fs_wf fs -> path fs c cs -> length cs = S (S (Z.to_nat (cluster_count fs))) ->
  visit_directory fs c visitor s =
    scan_result (chain_records fs (take (S (Z.to_nat (cluster_count fs))) cs)) (Err DirectoryLoop) s.
Proof.
  intros Hwf Hp Hlen. unfold visit_directory.
  rewrite is_valid_cluster_wf, bool_decide_eq_true_2 by (done || by destruct Hp).
  destruct (for_n_path fs c cs _ s Hwf Hp Hlen) as [last ->].
  rewrite scan_result_for_in; [by destruct (for_in _ _ s)|].
  eapply chain_records_wf; [done|]. by apply path_take.
Qed.

(** C6: [visit_directory] on a mounted volume is, whatever the volume contains,
    a left fold of the visitor over the entries of the cluster chain: it always
    returns, and either the chain from the start cluster is finite, and the
    result is the fold over exactly its records, ended early by the visitor or
    by the end marker and otherwise with the chain's own end, or the chain
    repeats a cluster, and the visitor has seen [cluster_count + 1] clusters of
    it before [DirectoryLoop] is reported. *)
Theorem visit_directory_spec fs c s :
  fs_wf fs -> valid_cluster fs c ->
  (exists cs r, walk fs c cs r /\ NoDup cs /\
     visit_directory fs c visitor s = scan_result (chain_records fs cs) r s) \/
  (exists cs, path fs c cs /\ ~ NoDup cs /\ length cs = S (Z.to_nat (cluster_count fs)) /\
     visit_directory fs c visitor s = scan_result (chain_records fs cs) (Err DirectoryLoop) s).
Proof.
  intros Hwf Hc. pose proof (fs_wf_bounds fs Hwf) as (_ & _ & ? & _).
  destruct (walk_or_path fs (S (Z.to_nat (cluster_count fs))) c Hwf Hc)
    as [(cs & r & Hw & _)|(cs & Hp & Hlen)].
  - left. exists cs, r. split; [done|]. split; [by eapply walk_NoDup|]. by apply visit_directory_walk.
  - right. exists (take (S (Z.to_nat (cluster_count fs))) cs).
    assert (Hp' : path fs c (take (S (Z.to_nat (cluster_count fs))) cs)) by by apply path_take.
    assert (Hl : length (take (S (Z.to_nat (cluster_count fs))) cs) = S (Z.to_nat (cluster_count fs)))
      by (rewrite length_take; lia).
    split; [done|]. split; [|split; [done|by apply visit_directory_path]].
    intros Hnd. pose proof (clusters_bound fs _ ltac:(lia) (path_valid _ _ _ Hp') Hnd). lia.
Qed.
End Directory.

(** ** Looking up a name *)

Section Find.
Context {D : Type} `{HBD : BlockDevice D} `{HSpec : !BlockDeviceSpec D}.
Implicit Types (fs : Fat32 D).

Definition name_matches (name : str) (e : DirEntry) : bool :=
  eq_ignore_ascii_case (entry_name e) name.

Definition dir_entries fs (cs : list Z) : list DirEntry := (dir_scan (chain_records fs cs)).1.

(** The first entry with the given name on the chain from [c]. *)
Definition dir_lookup fs (c : Z) (name : str) (e : DirEntry) : Prop :=
  exists cs, path fs c cs /\ (length cs <= S (Z.to_nat (cluster_count fs)))%nat /\
    List.find (name_matches name) (dir_entries fs cs) = Some e.

(** The closure [find_in_directory] passes. *)
Definition find_visitor (name : str) (entry : DirEntry) (result : option DirEntry)
  : bool * option DirEntry :=
  if eq_ignore_ascii_case (entry_name entry) name then (false, Some entry) else (true, result).

Lemma visit_list_find (name : str) (es : list DirEntry) :
  visit_list (find_visitor name) es None =
    match List.find (name_matches name) es with
    | Some e => (true, Some e)
    | None => (false, None)
    end.
Proof.
  induction es as [|e es IH]; [done|]. simpl. unfold find_visitor at 1, name_matches at 1.
  by destruct (eq_ignore_ascii_case _ _).
Qed.

Lemma scan_result_find (name : str) (raws : list (list Z)) (r : outcome FsError unit) :
  scan_result (find_visitor name) raws r None =
    match List.find (name_matches name) (dir_scan raws).1 with
    | Some e => (Ok tt, Some e)
    | None => (if (dir_scan raws).2 then Ok tt else r, None)
    end.
Proof.
  unfold scan_result. destruct (dir_scan raws) as [es ended]. rewrite visit_list_find.
  simpl. by destruct (List.find _ es), ended.
Qed.

Lemma find_in_directory_walk fs c cs r (name : str) :
  fs_wf fs -> walk fs c cs r ->
  find_in_directory fs c name =
    match List.find (name_matches name) (dir_entries fs cs) with
    | Some e => Ok e
    | None => if (dir_scan (chain_records fs cs)).2 then Err NotFound else r ≫= fun _ => Err NotFound
    end.
Proof.
  intros Hwf Hw. unfold find_in_directory.
  change (fun entry result => _) with (find_visitor name).
  rewrite (visit_directory_walk _ fs c cs r), scan_result_find by done. unfold dir_entries.
  destruct (List.find _ _); [done|]. by destruct (dir_scan _) as [? []].
Qed.

(** [find_in_directory] succeeds exactly when the chain from the given
    cluster lists an entry whose name matches ignoring ASCII case, and then
    returns the first such entry, even if the rest of the chain is damaged. *)
Lemma find_in_directory_iff fs c (name : str) (e : DirEntry) :
  fs_wf fs -> find_in_directory fs c name = Ok e <-> dir_lookup fs c name e.
Proof.
  intros Hwf. pose proof (fs_wf_bounds fs Hwf) as (_ & _ & ? & _).
  destruct (decide (valid_cluster fs c)) as [Hc|Hc].
  2:{ unfold find_in_directory, visit_directory.
      rewrite is_valid_cluster_wf, bool_decide_eq_false_2 by done. split; [done|].
      intros (cs & Hp & _). by destruct Hp. }
  split.
  - destruct (walk_or_path fs (S (Z.to_nat (cluster_count fs))) c Hwf Hc)
      as [(cs & r & Hw & Hlen)|(cs & Hp & Hlen)].
    + rewrite (find_in_directory_walk fs c cs r) by done. intros Hf. exists cs.
      split; [by eapply walk_path|]. split; [done|].
      destruct (List.find _ _); [by simplify_eq|]. by destruct (dir_scan _).2, r.
    + unfold find_in_directory. change (fun entry result => _) with (find_visitor name).
      rewrite (visit_directory_path _ fs c cs), scan_result_find by done. intros Hf.
      exists (take (S (Z.to_nat (cluster_count fs))) cs).
      split; [by apply path_take|]. split; [rewrite length_take; lia|].
      unfold dir_entries. destruct (List.find _ _); [by simplify_eq/=|].
      by destruct (dir_scan _).2.
  - intros (cs & Hp & Hlen & Hf). unfold find_in_directory, visit_directory.
    change (fun entry result => _) with (find_visitor name).
    rewrite is_valid_cluster_wf, bool_decide_eq_true_2 by done.
    rewrite (for_n_path_break _ fs c cs _ None (Ok tt, Some e)); [done..|].
    rewrite for_in_visit_raw by (by eapply chain_records_wf).
    unfold dir_entries in Hf. destruct (dir_scan _) as [es ended]. simpl in Hf.
    by rewrite visit_list_find, Hf.
Qed.

(** Every entry a lookup can return has been decoded from a record. *)
Definition entry_wf (e : DirEntry) : Prop :=
  is_uint 32 (de_size e) /\ is_uint 32 (de_first_cluster e) /\ ascii_str (entry_name e).

Lemma record_entry_wf (raw : list Z) (e : DirEntry) :
  record_wf raw -> record_entry raw = Some e -> entry_wf e.
Proof.
  intros Hr. unfold record_entry. destruct (skipped raw); [done|].
  pose proof (from_raw_decodes raw Hr) as Hd. pose proof Hr as [Hlen Hu8].
  destruct (has_name raw); [|by rewrite Hd].
  destruct Hd as (e' & high & low & -> & _ & Ha & _ & _ & _ & Hs & Hh & Hlo & Hc).
  intros [= ->].
  destruct (le_u16_in raw Hu8 20) as (? & Hh' & [? ?]); [lia|].
  destruct (le_u16_in raw Hu8 26) as (? & Hlo' & [? ?]); [lia|].
  destruct (le_u32_in raw Hu8 28) as (? & Hs' & ?); [lia|].
  rewrite Hh in Hh'. rewrite Hlo in Hlo'. rewrite Hs in Hs'. simplify_eq.
  split; [done|]. split; [unfold is_uint; lia|done].
Qed.

Lemma dir_scan_wf (raws : list (list Z)) :
  Forall record_wf raws -> Forall entry_wf (dir_scan raws).1.
Proof.
  induction 1 as [|raw raws Hr _ IH]; simpl; [constructor|].
  destruct (record_byte raw 0 =? 0); [constructor|].
  destruct (dir_scan raws) as [es ended]. simpl in *.
  destruct (record_entry raw) as [e|] eqn:He; [|done].
  constructor; [by eapply record_entry_wf|done].
Qed.

Lemma dir_lookup_wf fs c (name : str) (e : DirEntry) :
  fs_wf fs -> dir_lookup fs c name e -> entry_wf e.
Proof.
  intros Hwf (cs & Hp & _ & Hf). apply List.find_some in Hf as [Hin _].
  pose proof (dir_scan_wf _ (chain_records_wf fs c cs Hwf Hp)) as Hall.
  rewrite Forall_forall in Hall. apply Hall. by apply list_elem_of_In.
Qed.
End Find.
