(* ===== verification/Fat32Files.v ===== *)
(** * Fat32Files: paths and file contents

    [resolve_path], [list_dir] and [read_file] against the abstract view of the
    volume: names resolve along a relation on directories, and reading a file
    delivers exactly the first [size] bytes of its cluster chain. *)

From S2P Require Import Prelude Storage Str DemoVolume Fat32 Fat32Geometry Fat32Chain Fat32Dir.
#[local] Open Scope Z_scope.

(** ** File contents as chunks *)

(** The pieces in which [size] bytes are delivered from a list of sectors. *)
Fixpoint file_chunks (size : Z) (sectors : list (list Z)) : list (list Z) :=
  match sectors with
  | [] => []
  | sector :: sectors =>
      if size <=? 0 then []
      else take (Z.to_nat (Z.min size 512)) sector :: file_chunks (size - 512) sectors
  end.

Lemma file_chunks_done (size : Z) (sectors : list (list Z)) : size <= 0 -> file_chunks size sectors = [].
Proof. intros. destruct sectors; simpl; [done|]. by decide_tests. Qed.

Lemma file_chunks_app (size : Z) (l1 l2 : list (list Z)) :
  file_chunks size (l1 ++ l2) =
  file_chunks size l1 ++ file_chunks (size - 512 * Z.of_nat (length l1)) l2.
Proof.
  revert size. induction l1 as [|x l1 IH]; intros size; simpl length; cbn [app file_chunks].
  - by rewrite Z.mul_0_r, Z.sub_0_r.
  - destruct (Z.leb_spec size 0).
    + by rewrite file_chunks_done by lia.
    + simpl. f_equal. rewrite IH. do 2 f_equal. lia.
Qed.

Lemma concat_file_chunks (size : Z) (sectors : list (list Z)) :
  Forall sector_wf sectors ->
  concat (file_chunks size sectors) = take (Z.to_nat size) (concat sectors).
Proof.
  intros Hwf. revert size. induction Hwf as [|x l [Hx _] _ IH]; intros size; simpl.
  - by rewrite take_nil.
  - unfold SECTOR_SIZE in Hx. destruct (Z.leb_spec size 0).
    + replace (Z.to_nat size) with 0%nat by lia. done.
    + simpl. rewrite IH, take_app, Hx. f_equal; [|f_equal; lia].
      destruct (decide (size <= 512)).
      * by rewrite Z.min_l by lia.
      * by rewrite !take_ge by lia.
Qed.

Lemma file_chunks_sizes (size : Z) (sectors : list (list Z)) :
  Forall sector_wf sectors ->
  Forall (fun c => (1 <= length c <= 512)%nat) (file_chunks size sectors).
Proof.
  intros Hwf. revert size. induction Hwf as [|x l [Hx _] _ IH]; intros size; simpl; [constructor|].
  unfold SECTOR_SIZE in Hx. destruct (Z.leb_spec size 0); constructor; [|done].
  rewrite length_take. lia.
Qed.

Lemma length_concat_sectors (sectors : list (list Z)) :
  Forall sector_wf sectors -> length (concat sectors) = (512 * length sectors)%nat.
Proof.
  induction 1 as [|x l [Hx _] _ IH]; [done|]. simpl. rewrite length_app, IH, Hx. unfold SECTOR_SIZE. lia.
Qed.

Section Files.
Context {D : Type} `{HBD : BlockDevice D} `{HSpec : !BlockDeviceSpec D}.
Context {T : Type} (visitor : list Z -> T -> T).
Implicit Types (fs : Fat32 D) (s : T).

(** Handing a list of chunks to the visitor. *)
Definition deliver (chunks : list (list Z)) s : T := foldl (fun s chunk => visitor chunk s) s chunks.

Definition deliver_sector (size : Z) (sector : list Z) (state : Z * T)
  : control (outcome FsError Z * T) (Z * T) :=
  let '(remaining, s) := state in
  if remaining =? 0 then Break (Ok size, s)
  else Continue (remaining - Z.min remaining 512,
                 visitor (take (Z.to_nat (Z.min remaining 512)) sector) s).

Lemma read_file_sectors fs size c state :
  fs_wf fs -> valid_cluster fs c ->
  for_in (read_file_sector fs size visitor c) (seqZ 0 (sectors_per_cluster fs)) state =
  for_in (deliver_sector size) (cluster_sectors fs c) state.
Proof.
  intros Hwf Hc. unfold cluster_sectors.
  rewrite (for_in_concat _ (deliver_sector size) (fun i => [data_sector fs c i])).
  { f_equal. induction (seqZ _ _) as [|i l IH]; simpl; [done|by f_equal]. }
  intros i [rem s] Hi%elem_of_seqZ. unfold read_file_sector. simpl.
  destruct (rem =? 0); [done|].
  rewrite cluster_to_sector_wf by (done || lia). simpl.
  destruct (data_sector_wf fs c i Hwf Hc ltac:(lia)) as [-> [Hlen _]]. simpl.
  unfold SECTOR_SIZE in Hlen. change (Z.of_nat SECTOR_SIZE) with 512.
  rewrite slice_take by lia. rewrite Nat.sub_0_r, drop_0. simpl.
  by rewrite checked_sub_le by lia.
Qed.

(** The sector loop followed by the code's test for completion. *)
Lemma deliver_sectors size (sectors : list (list Z)) rem s :
  0 <= rem -> sectors <> [] ->
  match for_in (deliver_sector size) sectors (rem, s) with
  | Break r => Break r
  | Continue (rem, s) => if rem =? 0 then Break (Ok size, s) else Continue (rem, s)
  end =
  if rem <=? 512 * Z.of_nat (length sectors)
  then Break (Ok size, deliver (file_chunks rem sectors) s)
  else Continue (rem - 512 * Z.of_nat (length sectors), deliver (file_chunks rem sectors) s).
Proof.
  intros Hrem Hne. revert rem s Hrem. induction sectors as [|x l IH]; [done|]; intros rem s Hrem.
  cbn [for_in deliver_sector file_chunks length].
  destruct (Z.eqb_spec rem 0) as [->|Hr]; [by decide_tests|].
  rewrite (proj2 (Z.leb_gt rem 0)) by lia. cbn [deliver foldl].
  destruct l as [|y l].
  { simpl for_in. cbn [file_chunks length].
    destruct (Z.leb_spec rem 512); decide_tests; [done|].
    rewrite Z.min_r by lia. done. }
  rewrite IH by (done || lia). destruct (Z.leb_spec rem 512).
  - rewrite Z.min_l by lia. rewrite Z.sub_diag, file_chunks_done by lia.
    rewrite file_chunks_done by lia. by decide_tests.
  - rewrite Z.min_r by lia.
    replace (rem - 512 * Z.of_nat (S (length (y :: l))))
      with (rem - 512 - 512 * Z.of_nat (length (y :: l))) by lia.
    destruct (Z.leb_spec rem (512 * Z.of_nat (S (length (y :: l))))); by decide_tests.
Qed.

(** What a chain's end means for a file that is not finished. *)
Definition truncated (r : outcome FsError unit) : outcome FsError Z :=
  r ≫= fun _ => Err TruncatedFile.

Lemma cluster_sectors_nonempty fs c : fs_wf fs -> cluster_sectors fs c <> [].
Proof.
  intros (Hspc & _)%fs_wf_bounds Hnil. apply (f_equal length) in Hnil.
  unfold cluster_sectors in Hnil. rewrite length_map, length_seqZ in Hnil. simpl in Hnil. lia.
Qed.

(** One iteration of the outer loop: the cluster's sectors, then the link. *)
Lemma read_file_cluster_spec fs size c rem s :
  fs_wf fs -> valid_cluster fs c -> 0 <= rem ->
  let chunks := file_chunks rem (cluster_sectors fs c) in
  let capacity := 512 * Z.of_nat (length (cluster_sectors fs c)) in
  (rem <= capacity ->
   read_file_cluster fs size visitor (c, (rem, s)) = Break (Ok size, deliver chunks s)) /\
  (capacity < rem ->
   (forall n, linked fs c n ->
      read_file_cluster fs size visitor (c, (rem, s)) =
        Continue (n, (rem - capacity, deliver chunks s))) /\
   (forall r, chain_end fs c r ->
      read_file_cluster fs size visitor (c, (rem, s)) = Break (truncated r, deliver chunks s))).
Proof.
  intros Hwf Hc Hrem chunks capacity.
  pose proof (deliver_sectors size (cluster_sectors fs c) rem s Hrem
                (cluster_sectors_nonempty fs c Hwf)) as Hd.
  fold chunks capacity in Hd. unfold read_file_cluster. rewrite read_file_sectors by done.
  destruct (for_in (deliver_sector size) (cluster_sectors fs c) (rem, s)) as [x|[rem' s']].
  { destruct (Z.leb_spec rem capacity); simplify_eq.
    split; [done|]. intros. lia. }
  destruct (Z.leb_spec rem capacity) as [Hle|Hgt].
  - destruct (Z.eqb_spec rem' 0) as [->|]; simplify_eq. split; [done|]. intros. lia.
  - destruct (Z.eqb_spec rem' 0) as [->|Hne]; simplify_eq. split; [intros; lia|]. intros _. split.
    + intros n (Hn & Heoc & Hbad & Hv). rewrite Hn. simpl. rewrite (proj2 (Z.leb_gt _ _)) by done.
      by rewrite checked_next_cluster_wf, bool_decide_eq_true_2.
    + intros r [n Hn Heoc|n Hn Heoc Hbad|Hn]; rewrite Hn; simpl; [..|done].
      * by rewrite (proj2 (Z.leb_le _ _)).
      * rewrite (proj2 (Z.leb_gt _ _)) by done.
        by rewrite checked_next_cluster_wf, bool_decide_eq_false_2 by (done || tauto).
Qed.

Definition chain_capacity fs (cs : list Z) : Z := 512 * Z.of_nat (length (chain_sectors fs cs)).

Lemma chain_sectors_cons fs c cs :
  chain_sectors fs (c :: cs) = cluster_sectors fs c ++ chain_sectors fs cs.
Proof. done. Qed.

(** A path with room for the file: the loop delivers it and stops. *)
Lemma for_n_read_enough fs size c cs n rem s :
  fs_wf fs -> path fs c cs -> (length cs <= n)%nat -> 0 <= rem <= chain_capacity fs cs ->
  for_n n (read_file_cluster fs size visitor) (c, (rem, s)) =
    Break (Ok size, deliver (file_chunks rem (chain_sectors fs cs)) s).
Proof.
  intros Hwf Hp. revert n rem s.
  induction Hp as [c Hc|c m cs Hc Hl Hp IH]; intros [|n] rem s Hn Hrem; simpl in Hn; try lia;
    cbn [for_n]; unfold chain_capacity in Hrem; rewrite chain_sectors_cons, length_app in Hrem;
    destruct (read_file_cluster_spec fs size c rem s Hwf Hc ltac:(lia)) as [Hdone Hmore];
    cbv zeta in Hdone, Hmore; rewrite chain_sectors_cons, file_chunks_app;
    (destruct (decide (rem <= 512 * Z.of_nat (length (cluster_sectors fs c)))) as [Hle|Hgt];
     [rewrite Hdone by done; rewrite (file_chunks_done (_ - _)), app_nil_r by lia; done|]).
  - simpl in Hrem. lia.
  - destruct (Hmore ltac:(lia)) as [Hlink _]. rewrite (Hlink m Hl).
    rewrite IH by (unfold chain_capacity; lia). unfold deliver. by rewrite foldl_app.
Qed.

(** A complete walk without room for the file: everything is delivered, then the
    end of the chain is reported. *)
Lemma for_n_read_short fs size c cs r n rem s :
  fs_wf fs -> walk fs c cs r -> (length cs <= n)%nat -> chain_capacity fs cs < rem ->
  for_n n (read_file_cluster fs size visitor) (c, (rem, s)) =
    Break (truncated r, deliver (file_chunks rem (chain_sectors fs cs)) s).
Proof.
  intros Hwf Hw. revert n rem s.
  induction Hw as [c r Hc He|c m cs r Hc Hl Hw IH]; intros [|n] rem s Hn Hrem; simpl in Hn; try lia;
    cbn [for_n]; unfold chain_capacity in Hrem; rewrite chain_sectors_cons, length_app in Hrem;
    destruct (read_file_cluster_spec fs size c rem s Hwf Hc ltac:(lia)) as [_ Hmore];
    cbv zeta in Hmore; rewrite chain_sectors_cons, file_chunks_app;
    destruct (Hmore ltac:(lia)) as [Hlink Hend].
  - rewrite (Hend r He). simpl chain_sectors. cbn [file_chunks]. by rewrite app_nil_r.
  - rewrite (Hlink m Hl). rewrite IH by (unfold chain_capacity; lia).
    unfold deliver. by rewrite foldl_app.
Qed.

(** A path longer than the bound and still no room: the loop runs out. *)
Lemma for_n_read_loop fs size c cs n rem s :
  fs_wf fs -> path fs c cs -> length cs = S n -> chain_capacity fs (take n cs) < rem ->
  exists c' rem', for_n n (read_file_cluster fs size visitor) (c, (rem, s)) =
    Continue (c', (rem', deliver (file_chunks rem (chain_sectors fs (take n cs))) s)).
Proof.
  intros Hwf Hp. revert n rem s.
  induction Hp as [c Hc|c m cs Hc Hl Hp IH]; intros n rem s Hn Hrem; simpl in Hn; simplify_eq.
  { by exists c, rem. }
  destruct cs as [|c1 cs]; [inversion Hp|]. cbn [length for_n].
  unfold chain_capacity in Hrem. cbn [length take] in Hrem |- *.
  rewrite chain_sectors_cons, length_app in Hrem.
  destruct (read_file_cluster_spec fs size c rem s Hwf Hc ltac:(lia)) as [_ Hmore].
  cbv zeta in Hmore. destruct (Hmore ltac:(lia)) as [Hlink _]. rewrite (Hlink m Hl).
  rewrite chain_sectors_cons, file_chunks_app. unfold deliver. rewrite foldl_app.
  apply (IH (length cs)); [done|]. unfold chain_capacity. lia.
Qed.

(** ** Reading a file *)

(** The chunks a successful read delivers. *)
Lemma read_file_delivers fs (p : str) (e : DirEntry) cs s :
  fs_wf fs -> resolve_path fs p = Ok e -> is_directory e = false ->
  path fs (de_first_cluster e) cs -> NoDup cs ->
  0 < de_size e <= chain_capacity fs cs ->
  read_file fs p visitor s =
    (Ok (de_size e), deliver (file_chunks (de_size e) (chain_sectors fs cs)) s).
Proof.
  intros Hwf Hres Hdir Hp Hnd Hsize. pose proof (fs_wf_bounds fs Hwf) as (_ & _ & ? & _).
  unfold read_file. rewrite Hres, Hdir. rewrite (proj2 (Z.eqb_neq _ _)) by lia.
  rewrite is_valid_cluster_wf, bool_decide_eq_true_2 by (done || by destruct Hp).
  rewrite (for_n_read_enough fs (de_size e) _ cs); [done..| |lia].
  pose proof (clusters_bound fs cs ltac:(lia) (path_valid _ _ _ Hp) Hnd). lia.
Qed.

(** C4: Reading a file whose chain has room for it delivers exactly its
    contents: the visitor receives, in order and in chunks of 1 to 512 bytes,
    the first [size] bytes of the clusters of the chain and nothing else, and
    the call returns [size].  Only the clusters the size needs have to be
    linked: damage further along the chain is never looked at. *)
Theorem read_file_exact fs (p : str) (e : DirEntry) cs s :
  fs_wf fs -> resolve_path fs p = Ok e -> is_directory e = false ->
  path fs (de_first_cluster e) cs -> NoDup cs ->
  0 < de_size e <= chain_capacity fs cs ->
  exists chunks, read_file fs p visitor s = (Ok (de_size e), deliver chunks s) /\
    concat chunks = take (Z.to_nat (de_size e)) (concat (chain_sectors fs cs)) /\
    Z.of_nat (length (concat chunks)) = de_size e /\
    Forall (fun c => (1 <= length c <= 512)%nat) chunks.
Proof.
  intros Hwf Hres Hdir Hp Hnd Hsize. pose proof (fs_wf_bounds fs Hwf) as (_ & _ & ? & _).
  pose proof (chain_sectors_wf fs _ cs Hwf Hp) as Hsec.
  exists (file_chunks (de_size e) (chain_sectors fs cs)).
  rewrite concat_file_chunks by done. split; [|split; [done|split; [|by apply file_chunks_sizes]]].
  - by apply read_file_delivers.
  - rewrite length_take. unfold chain_capacity in Hsize.
    rewrite length_concat_sectors by done. lia.
Qed.

(** C27: A file longer than its chain is reported as damaged, never silently
    shortened: all the data of the chain is delivered first, and the result is
    [TruncatedFile] when the chain ends regularly and [CorruptFat] when it ends
    at a bad, free or out-of-range entry. *)
Theorem read_file_short_chain fs (p : str) (e : DirEntry) cs r s :
  fs_wf fs -> resolve_path fs p = Ok e -> is_directory e = false ->
  walk fs (de_first_cluster e) cs r -> chain_capacity fs cs < de_size e ->
  exists chunks,
    read_file fs p visitor s =
      (match r with Ok _ => Err TruncatedFile | Err e => Err e | Panic => Panic end,
       deliver chunks s) /\
    (r = Ok tt \/ r = Err CorruptFat) /\
    concat chunks = concat (chain_sectors fs cs).
Proof.
  intros Hwf Hres Hdir Hw Hsize. pose proof (fs_wf_bounds fs Hwf) as (_ & _ & ? & _).
  pose proof (chain_sectors_wf fs _ cs Hwf (walk_path _ _ _ _ Hw)) as Hsec.
  exists (file_chunks (de_size e) (chain_sectors fs cs)). split; [|split].
  - unfold read_file. rewrite Hres, Hdir.
    rewrite (proj2 (Z.eqb_neq _ _)) by (unfold chain_capacity in Hsize; lia).
    rewrite is_valid_cluster_wf, bool_decide_eq_true_2 by (done || by destruct Hw).
    pose proof (walk_length fs _ cs r ltac:(lia) Hw).
    rewrite (for_n_read_short fs (de_size e) _ cs r) by (done || lia).
    by destruct r as [[]|?|].
  - clear -Hw. induction Hw as [c r Hc []|]; auto.
  - rewrite concat_file_chunks by done. apply take_ge. unfold chain_capacity in Hsize.
    rewrite length_concat_sectors by done. lia.
Qed.
End Files.

(** ** Paths *)

Section Paths.
Context {D : Type} `{HBD : BlockDevice D} `{HSpec : !BlockDeviceSpec D}.
Implicit Types (fs : Fat32 D).

(** [resolves fs dir names e]: starting in directory cluster [dir], the
    components [names] lead to entry [e]; every component but the last is a
    directory and none after the first is a dot component. *)
Inductive resolves fs : Z -> list str -> DirEntry -> Prop :=
| resolves_last dir name e : dir_lookup fs dir name e -> resolves fs dir [name] e
| resolves_step dir name next rest d e :
    dir_lookup fs dir name d -> is_directory d = true -> is_dot_component next = false ->
    resolves fs (de_first_cluster d) (next :: rest) e ->
    resolves fs dir (name :: next :: rest) e.

Lemma resolve_components_iff fs dir name rest e :
  fs_wf fs -> resolve_components fs dir name rest = Ok e <-> resolves fs dir (name :: rest) e.
Proof.
  intros Hwf. revert dir name. induction rest as [|next rest IH]; intros dir name; simpl.
  - split.
    + intros Hr. inv_ok. subst. constructor. by apply find_in_directory_iff.
    + inversion 1; subst. by rewrite (proj2 (find_in_directory_iff fs dir name e Hwf)).
  - split.
    + intros Hr. inv_ok. to_prop.
      econstructor; [by apply find_in_directory_iff|done..|]. by apply IH.
    + inversion 1 as [|? ? ? ? d ? Hlk Hd Hdot Hrest]; subst.
      rewrite (proj2 (find_in_directory_iff fs dir name d Hwf)) by done. simpl.
      rewrite Hd, Hdot. simpl. by apply IH.
Qed.

(** C7: [resolve_path] finds exactly the entries the directory tree contains:
    it returns [e] if and only if the non-empty components of the path, none of
    them "." or "..", lead from the root directory to [e] by case-insensitive
    first-match lookup, with a directory at every inner step.  Leading, trailing
    and doubled slashes change nothing. *)
Theorem resolve_path_iff fs (p : str) (e : DirEntry) :
  fs_wf fs ->
  resolve_path fs p = Ok e <->
  exists first rest, split_nonempty is_slash p = first :: rest /\
    is_dot_component first = false /\ resolves fs (root_cluster fs) (first :: rest) e.
Proof.
  intros Hwf. unfold resolve_path. destruct (split_nonempty is_slash p) as [|first rest].
  { split; [done|]. by intros (? & ? & ? & _). }
  destruct (is_dot_component first) eqn:Hdot.
  { split; [done|]. intros (? & ? & [= <- <-] & ? & _). congruence. }
  rewrite resolve_components_iff by done. split; [eauto|].
  by intros (? & ? & [= <- <-] & _ & ?).
Qed.

Lemma resolves_wf fs dir names e : fs_wf fs -> resolves fs dir names e -> entry_wf e.
Proof. intros Hwf. induction 1; [by eapply dir_lookup_wf|done]. Qed.

Lemma resolve_path_wf fs (p : str) (e : DirEntry) :
  fs_wf fs -> resolve_path fs p = Ok e -> entry_wf e.
Proof.
  intros Hwf. unfold resolve_path. destruct (split_nonempty is_slash p) as [|first rest]; [done|].
  destruct (is_dot_component first); [done|].
  rewrite resolve_components_iff by done. by apply resolves_wf.
Qed.

(** ** No operation traps *)

Lemma scan_result_no_panic {T : Type} (visitor : DirEntry -> T -> bool * T)
    (raws : list (list Z)) (r : outcome FsError unit) (s : T) :
  r <> Panic -> (scan_result visitor raws r s).1 <> Panic.
Proof.
  intros Hr. unfold scan_result. destruct (dir_scan raws) as [es ended].
  destruct (visit_list visitor es s) as [stopped s']. by destruct (stopped || ended).
Qed.

Lemma walk_end_no_panic fs c cs r : walk fs c cs r -> r <> Panic.
Proof. induction 1 as [c r Hc []|]; done. Qed.

Lemma visit_directory_no_panic {T : Type} fs c (visitor : DirEntry -> T -> bool * T) (s : T) :
  fs_wf fs -> (visit_directory fs c visitor s).1 <> Panic.
Proof.
  intros Hwf. destruct (decide (valid_cluster fs c)) as [Hc|Hc].
  2:{ unfold visit_directory. by rewrite is_valid_cluster_wf, bool_decide_eq_false_2. }
  destruct (walk_or_path fs (S (Z.to_nat (cluster_count fs))) c Hwf Hc)
    as [(cs & r & Hw & _)|(cs & Hp & Hlen)].
  - rewrite (visit_directory_walk _ fs c cs r) by done.
    by eapply scan_result_no_panic, walk_end_no_panic.
  - rewrite (visit_directory_path _ fs c cs) by done. by apply scan_result_no_panic.
Qed.

Lemma find_in_directory_no_panic fs c (name : str) :
  fs_wf fs -> find_in_directory fs c name <> Panic.
Proof.
  intros Hwf. unfold find_in_directory.
  match goal with |- context [visit_directory fs c ?v None] =>
    pose proof (visit_directory_no_panic fs c v None Hwf) as Hnp;
    destruct (visit_directory fs c v None) as [[] o] end; [by destruct o|done..].
Qed.

Lemma resolve_path_no_panic fs (p : str) : fs_wf fs -> resolve_path fs p <> Panic.
Proof.
  intros Hwf. unfold resolve_path. destruct (split_nonempty _ _) as [|first rest]; [done|].
  destruct (is_dot_component first); [done|]. generalize (root_cluster fs).
  revert first. induction rest as [|next rest IH]; intros name dir; simpl;
    pose proof (find_in_directory_no_panic fs dir name Hwf);
    destruct (find_in_directory fs dir name) as [d| |]; try done; simpl.
  destruct (is_directory d); [|done]. simpl. by destruct (is_dot_component next).
Qed.

Lemma read_loop_no_panic {T : Type} fs size c (visitor : list Z -> T -> T) (s : T) :
  fs_wf fs -> valid_cluster fs c -> 0 <= size ->
  (match for_n (S (Z.to_nat (cluster_count fs))) (read_file_cluster fs size visitor)
           (c, (size, s)) with
   | Break r => r
   | Continue (_, (_, s)) => (Err DirectoryLoop, s)
   end).1 <> Panic.
Proof.
  intros Hwf Hc Hsize. destruct (walk_or_path fs (S (Z.to_nat (cluster_count fs))) c Hwf Hc)
    as [(cs & r & Hw & Hlen)|(cs & Hp & Hlen)].
  - destruct (decide (size <= chain_capacity fs cs)).
    + rewrite (for_n_read_enough _ fs size c cs) by (done || lia || by eapply walk_path). done.
    + rewrite (for_n_read_short _ fs size c cs r) by (done || lia).
      apply walk_end_no_panic in Hw. by destruct r.
  - set (n := S (Z.to_nat (cluster_count fs))) in *.
    destruct (decide (size <= chain_capacity fs (take n cs))).
    + rewrite (for_n_read_enough _ fs size c (take n cs));
        [done|done|by apply path_take|rewrite length_take; lia|lia].
    + destruct (for_n_read_loop visitor fs size c cs n size s) as (? & ? & ->); [done..|lia|done].
Qed.

Lemma list_dir_no_panic fs (p : str) {T : Type} (visitor : DirEntry -> T -> bool * T) (s : T) :
  fs_wf fs -> (list_dir fs p visitor s).1 <> Panic.
Proof.
  intros Hwf. pose proof (resolve_path_no_panic fs p Hwf) as Hres.
  unfold list_dir. destruct (is_empty _); [by apply visit_directory_no_panic|].
  destruct (resolve_path fs p) as [e| |]; try done. simpl.
  destruct (is_directory e); simpl; [by apply visit_directory_no_panic|done].
Qed.

Lemma read_file_no_panic fs (p : str) {T : Type} (visitor : list Z -> T -> T) (s : T) :
  fs_wf fs -> (read_file fs p visitor s).1 <> Panic.
Proof.
  intros Hwf. pose proof (resolve_path_no_panic fs p Hwf) as Hres.
  unfold read_file. destruct (resolve_path fs p) as [e| |] eqn:Hp; try done.
  apply resolve_path_wf in Hp as ([? ?] & _); [|done].
  destruct (is_directory e); [done|]. destruct (de_size e =? 0); [done|].
  rewrite is_valid_cluster_wf by done. case_bool_decide as Hc; [|done].
  by apply read_loop_no_panic.
Qed.

(** C8: No path, no visitor and no volume contents make the file system trap:
    on a mounted volume [resolve_path], [list_dir] and [read_file] always return
    a result, for damaged FATs, cyclic chains, garbage directory records and
    entries with wild cluster numbers or sizes too. *)
Theorem file_system_never_panics fs (p : str) {T : Type}
    (dir_visitor : DirEntry -> T -> bool * T) (visitor : list Z -> T -> T) (s : T) :
  fs_wf fs ->
  resolve_path fs p <> Panic /\
  (list_dir fs p dir_visitor s).1 <> Panic /\
  (read_file fs p visitor s).1 <> Panic.
Proof. intros Hwf. auto using resolve_path_no_panic, list_dir_no_panic, read_file_no_panic. Qed.
End Paths.
