(* ===== verification/Fat32Demo.v ===== *)
(** * Fat32Demo: the file-system theorems on a concrete volume

    Instantiates the theorems of the [Fat32] files on the volume of
    [DemoVolume]: every hypothesis they make is satisfied by an actual image. *)

From S2P Require Import Prelude Storage Str DemoVolume Fat32 Fat32Geometry Fat32Chain Fat32Dir.
From S2P Require Import Fat32Files.
#[local] Open Scope Z_scope.

Definition demo_bpb : bpb := Build_bpb 512 1 1 1 0 0 0 66043 512 2.

Definition demo_fs : Fat32 RamDiskBlockDevice := {|
  device := demo_disk;
  sectors_per_cluster := 1;
  fat_start_sector := 1;
  sectors_per_fat := 512;
  first_data_sector := 513;
  root_cluster := 2;
  cluster_count := 65530;
|}.

Lemma demo_boot_read : read_sector demo_disk 0 = Ok demo_boot_sector.
Proof. vm_compute. reflexivity. Qed.

Lemma demo_boot_wf : sector_wf demo_boot_sector.
Proof. split; [done|]. apply (bool_decide_unpack _). by vm_compute. Qed.

Lemma demo_boot_bpb : bpb_of demo_boot_sector = Some demo_bpb.
Proof. vm_compute. reflexivity. Qed.

Lemma demo_bpb_widths : bpb_widths demo_bpb.
Proof. unfold bpb_widths, is_uint. simpl. lia. Qed.

Lemma demo_bpb_supported : bpb_supported demo_bpb (sector_count demo_disk).
Proof.
  change (sector_count demo_disk) with 66043. unfold bpb_supported.
  change (bpb_data demo_bpb) with 513. change (bpb_total demo_bpb) with 66043.
  change (bpb_clusters demo_bpb) with 65530. simpl. repeat split; lia.
Qed.

Lemma demo_mount : mount demo_disk = Ok demo_fs.
Proof.
  rewrite (mount_unfold demo_disk demo_boot_sector demo_bpb
    demo_boot_read demo_boot_wf demo_boot_bpb demo_bpb_widths).
  rewrite bool_decide_eq_true_2 by done.
  apply mount_fields_Ok; [apply demo_bpb_widths|apply demo_disk_ok|].
  split; [apply demo_bpb_supported|reflexivity].
Qed.

Lemma demo_fs_wf : fs_wf demo_fs.
Proof.
  constructor; simpl; try lia; [apply demo_disk_ok|set_solver|].
  change (ramdisk_sector_count demo_disk) with 66043. lia.
Qed.

Lemma demo_walk_root : walk demo_fs 2 [2] (Ok tt).
Proof.
  constructor; [split; simpl; lia|].
  apply (end_eoc _ _ 0x0fffffff); [by vm_compute|by vm_compute].
Qed.

Lemma demo_path_hello : path demo_fs 4 [4; 5].
Proof.
  eapply path_link; [split; simpl; lia| |apply path_one; split; simpl; lia].
  split; [by vm_compute|]. split; [done|]. split; [done|]. split; simpl; lia.
Qed.

(** "hello.txt" and "docs/about.txt" *)
Definition demo_hello_path : str := [104; 101; 108; 108; 111; 46; 116; 120; 116].

Definition demo_about_path : str :=
  [100; 111; 99; 115; 47; 97; 98; 111; 117; 116; 46; 116; 120; 116].

Definition demo_hello : DirEntry := {|
  de_name := [72; 69; 76; 76; 79; 46; 84; 88; 84; 0; 0; 0];
  de_name_len := 9;
  de_attributes := 0x20;
  de_first_cluster := 4;
  de_size := 600;
|}.

Lemma demo_resolve_hello : resolve_path demo_fs demo_hello_path = Ok demo_hello.
Proof. vm_compute. reflexivity. Qed.

(** ** Witnesses *)

Lemma mount_iff_witness :
  device_ok demo_disk /\ mount demo_disk = Ok demo_fs.
Proof.
  split; [exact demo_disk_ok|]. apply (mount_iff demo_disk demo_fs demo_disk_ok).
  exists demo_boot_sector, demo_bpb.
  split; [exact demo_boot_read|]. split; [done|]. split; [done|].
  split; [exact demo_boot_bpb|]. split; [exact demo_bpb_supported|reflexivity].
Defined.

Lemma mount_establishes_wf_witness : mount demo_disk = Ok demo_fs /\ fs_wf demo_fs.
Proof.
  split; [exact demo_mount|].
  exact (proj1 (mount_establishes_wf demo_disk demo_fs demo_disk_ok demo_mount)).
Defined.

Lemma mount_never_panics_witness : device_ok demo_disk /\ mount demo_disk <> Panic.
Proof. split; [exact demo_disk_ok|]. exact (proj1 (mount_never_panics demo_disk demo_disk_ok)). Defined.

Lemma cluster_to_sector_layout_witness :
  valid_cluster demo_fs 5 /\ exists lba, cluster_to_sector demo_fs 5 0 = Ok lba /\ lba = 516.
Proof.
  assert (Hv : valid_cluster demo_fs 5) by (split; simpl; lia). split; [exact Hv|].
  destruct (cluster_to_sector_layout demo_fs 5 0 demo_fs_wf Hv ltac:(simpl; lia))
    as (lba & Hlba & _). exists lba. split; [done|]. vm_compute in Hlba. by injection Hlba as <-.
Defined.

Lemma next_cluster_reads_fat_witness :
  valid_cluster demo_fs 4 /\
  exists s entry, read_sector demo_disk 1 = Ok s /\ next_cluster demo_fs 4 = Ok (entry mod 2 ^ 28).
Proof.
  assert (Hv : valid_cluster demo_fs 4) by (split; simpl; lia). split; [exact Hv|].
  destruct (next_cluster_reads_fat demo_fs 4 demo_fs_wf) as (_ & _ & Hok).
  destruct (Hok Hv ltac:(by vm_compute)) as (s & entry & Hs & _ & Hn & _).
  exists s, entry. split; [exact Hs|exact Hn].
Defined.

Lemma visit_directory_spec_witness :
  valid_cluster demo_fs 2 /\
  exists cs r, path demo_fs 2 cs /\
    visit_directory demo_fs 2 (fun e names => (true, names ++ [entry_name e])) [] =
    scan_result (fun e names => (true, names ++ [entry_name e])) (chain_records demo_fs cs) r [].
Proof.
  assert (Hv : valid_cluster demo_fs 2) by (split; simpl; lia). split; [exact Hv|].
  destruct (visit_directory_spec (fun e names => (true, names ++ [entry_name e]))
              demo_fs 2 [] demo_fs_wf Hv) as [(cs & r & Hw & _ & Heq)|(cs & Hp & _ & _ & Heq)].
  - exists cs, r. split; [by eapply walk_path|exact Heq].
  - exists cs, (Err DirectoryLoop). split; [exact Hp|exact Heq].
Defined.

Lemma resolve_path_iff_witness :
  resolves demo_fs 2 [demo_hello_path] demo_hello.
Proof.
  destruct (proj1 (resolve_path_iff demo_fs demo_hello_path demo_hello demo_fs_wf)
              demo_resolve_hello) as (first & rest & Hsplit & _ & Hres).
  vm_compute in Hsplit. injection Hsplit as <- <-. exact Hres.
Defined.

Lemma file_system_never_panics_witness :
  fs_wf demo_fs /\ resolve_path demo_fs demo_about_path <> Panic.
Proof.
  split; [exact demo_fs_wf|].
  exact (proj1 (file_system_never_panics demo_fs demo_about_path
    (fun _ (s : unit) => (true, s)) (fun _ s => s) tt demo_fs_wf)).
Defined.

Lemma read_file_exact_witness :
  exists chunks, read_file demo_fs demo_hello_path (fun c s => s ++ [c]) [] =
    (Ok 600, deliver (fun c s => s ++ [c]) chunks []) /\
    Z.of_nat (length (concat chunks)) = 600.
Proof.
  destruct (read_file_exact (fun c s => s ++ [c]) demo_fs demo_hello_path demo_hello [4; 5] []
    demo_fs_wf demo_resolve_hello eq_refl demo_path_hello) as (chunks & Hr & _ & Hl & _).
  - apply (bool_decide_unpack _). by vm_compute.
  - split; [done|]. unfold chain_capacity. rewrite length_chain_sectors. simpl. lia.
  - exists chunks. split; [exact Hr|exact Hl].
Defined.

(** "BROKEN.TXT" *)
Definition demo_broken_path : str := [66; 82; 79; 75; 69; 78; 46; 84; 88; 84].

Definition demo_broken : DirEntry := {|
  de_name := [66; 82; 79; 75; 69; 78; 46; 84; 88; 84; 0; 0];
  de_name_len := 10;
  de_attributes := 0x20;
  de_first_cluster := 7;
  de_size := 2000;
|}.

Lemma demo_resolve_broken : resolve_path demo_fs demo_broken_path = Ok demo_broken.
Proof. vm_compute. reflexivity. Qed.

Lemma demo_walk_broken : walk demo_fs 7 [7] (Ok tt).
Proof.
  constructor; [split; simpl; lia|].
  apply (end_eoc _ _ 0x0fffffff); [by vm_compute|by vm_compute].
Qed.

Lemma read_file_short_chain_witness :
  exists chunks, read_file demo_fs demo_broken_path (fun c s => s ++ [c]) [] =
    (Err TruncatedFile, deliver (fun c s => s ++ [c]) chunks []).
Proof.
  destruct (read_file_short_chain (fun c s => s ++ [c]) demo_fs demo_broken_path demo_broken [7]
    (Ok tt) [] demo_fs_wf demo_resolve_broken eq_refl demo_walk_broken) as (chunks & Hr & _).
  - unfold chain_capacity. rewrite length_chain_sectors. simpl. lia.
  - exists chunks. exact Hr.
Defined.
