(* ===== verification/FatTypes.v ===== *)
(** * FatTypes: the machine types of the file system

    The fields of [Fat32] and [DirEntry] and the values the functions of [fat32.rs]
    return are integers of fixed widths and byte arrays in the source.  Here: every
    value that a mounted volume yields is in its type, in whatever state the medium
    is, and so is everything the visitors of the clients are called with. *)

From S2P Require Import Prelude Storage Str DemoVolume Fat32 Fat32Geometry Fat32Chain Fat32Dir Fat32Files Fat32Demo.
#[local] Open Scope Z_scope.

(** ** Loops that keep an invariant

    A body that leaves with a result in [Q] or continues with a state in [P]. *)
Definition leaves {R S : Type} (Q : R -> Prop) (P : S -> Prop) (c : control R S) : Prop :=
  match c with Break r => Q r | Continue s => P s end.

Lemma for_in_leaves {A R S : Type} (Q : R -> Prop) (P : S -> Prop) (body : A -> S -> control R S) (l : list A) (s : S) :
  (forall x s, x ∈ l -> P s -> leaves Q P (body x s)) -> P s -> leaves Q P (for_in body l s).
Proof.
  revert s. induction l as [|x l IH]; intros s Hbody Hs; [done|]. cbn [for_in].
  pose proof (Hbody x s ltac:(by left) Hs) as Hx. destruct (body x s) as [r|s']; [done|].
  apply IH; [|done]. intros y s'' Hy. apply Hbody. by right.
Qed.

Lemma for_n_leaves {R S : Type} (Q : R -> Prop) (P : S -> Prop) (body : S -> control R S) (n : nat) (s : S) :
  (forall s, P s -> leaves Q P (body s)) -> P s -> leaves Q P (for_n n body s).
Proof.
  intros Hbody. revert s. induction n as [|n IH]; intros s Hs; [done|]. cbn [for_n].
  pose proof (Hbody s Hs) as Hx. destruct (body s) as [r|s']; [done|]. by apply IH.
Qed.

Lemma or_return_leaves {E A R S T : Type} (Q : outcome E R * T -> Prop) (P : S -> Prop) (t : T) (m : outcome E A)
    (k : A -> control (outcome E R * T) S) :
  (forall e, Q (Err e, t)) -> Q (Panic, t) -> (forall a, m = Ok a -> leaves Q P (k a)) -> leaves Q P (or_return t m k).
Proof. destruct m; cbn; auto. Qed.

(** ** Types *)

Definition dir_entry_typed (e : DirEntry) : Prop :=
  length (de_name e) = 12%nat /\ Forall (is_uint 8) (de_name e) /\ (1 <= de_name_len e <= 12)%nat /\
  ascii_str (entry_name e) /\ is_uint 8 (de_attributes e) /\ is_uint 32 (de_first_cluster e) /\ is_uint 32 (de_size e).

(** What a file's visitor is called with: one to 512 bytes. *)
Definition chunk_typed (chunk : list Z) : Prop := (1 <= length chunk <= 512)%nat /\ Forall (is_uint 8) chunk.

Definition volume_typed {D : Type} (fs : Fat32 D) : Prop :=
  is_uint 32 (sectors_per_cluster fs) /\ is_uint 32 (fat_start_sector fs) /\ is_uint 32 (sectors_per_fat fs) /\
  is_uint 32 (first_data_sector fs) /\ is_uint 32 (root_cluster fs) /\ is_uint 32 (cluster_count fs).

Lemma push_name_bytes_u8 (field name name' : list Z) (n n' : nat) :
  Forall (is_uint 8) field -> Forall (is_uint 8) name -> push_name_bytes field name n = Some (Some (name', n')) ->
  Forall (is_uint 8) name'.
Proof.
  intros Hf. revert name n. induction Hf as [|b field Hb _ IH]; intros name n Hname; cbn [push_name_bytes]; [by intros [= <- _]|].
  destruct (b =? 0x20); [by intros [= <- _]|]. destruct (negb (is_ascii b)); [done|].
  unfold set_index. case_decide; [|done]. cbn [mbind option_bind]. apply IH. by apply Forall_insert.
Qed.

Lemma from_raw_buffer (raw : list Z) (e : DirEntry) :
  record_wf raw -> from_raw raw = Some (Some e) -> Forall (is_uint 8) (de_name e).
Proof.
  intros [Hlen Hu8]. unfold from_raw. rewrite !slice_take by lia. cbn [mbind option_bind].
  destruct (push_name_bytes _ _ _) as [[[name n]|]|] eqn:Hbase; [|done..]. cbn [mbind option_bind].
  assert (Hname : Forall (is_uint 8) name).
  { eapply push_name_bytes_u8; [|by apply Forall_replicate|exact Hbase]. by apply Forall_take, Forall_drop. }
  case_decide; [done|].
  assert (Hext : forall copied, (if existsb (fun byte => negb (byte =? 0x20)) (take (11 - 8) (drop 8 raw)) then
             name ← set_index name n 0x2e; push_name_bytes (take (11 - 8) (drop 8 raw)) name (S n)
           else Some (Some (name, n))) = Some (Some copied) -> Forall (is_uint 8) copied.1).
  { intros [name2 n2]. destruct (existsb _ _); [|by intros [= <- _]]. unfold set_index. case_decide; [|done].
    cbn [mbind option_bind]. apply push_name_bytes_u8; [by apply Forall_take, Forall_drop|by apply Forall_insert]. }
  destruct (if existsb _ _ then _ else _) as [[[name2 n2]|]|]; [|done..]. specialize (Hext _ eq_refl). cbn [mbind option_bind].
  repeat match goal with |- mbind _ ?o = _ -> _ => destruct o; [|done]; cbn [mbind option_bind] end.
  by intros [= <-].
Qed.

Lemma from_raw_typed (raw : list Z) (e : DirEntry) : record_wf raw -> from_raw raw = Some (Some e) -> dir_entry_typed e.
Proof.
  intros Hr He. pose proof (from_raw_buffer raw e Hr He) as Hbuffer. pose proof (from_raw_decodes raw Hr) as Hd.
  destruct (has_name raw); [|congruence]. pose proof Hr as [Hlen Hu8].
  destruct Hd as (e' & high & low & He' & _ & Hascii & Hn & Hl & Hat & Hs & Hh & Hlo & Hc).
  rewrite He in He'. injection He' as <-.
  destruct (le_u16_in raw Hu8 20) as (? & Hh' & [? ?]); [lia|].
  destruct (le_u16_in raw Hu8 26) as (? & Hlo' & [? ?]); [lia|].
  destruct (le_u32_in raw Hu8 28) as (? & Hs' & ?); [lia|]. destruct (byte_in raw Hu8 11) as (? & Hat' & ?); [lia|].
  rewrite Hh in Hh'. rewrite Hlo in Hlo'. rewrite Hs in Hs'. rewrite Hat in Hat'. simplify_eq.
  do 5 (split; [done|]). split; [unfold is_uint; lia|done].
Qed.

Section Types.
Context {D : Type} `{HBD : BlockDevice D} `{HSpec : !BlockDeviceSpec D}.
Context {T : Type} (I : T -> Prop).
Implicit Types (fs : Fat32 D).

Lemma volume_wf_typed fs : fs_wf fs -> volume_typed fs.
Proof.
  intros Hwf. pose proof (fs_wf_bounds fs Hwf) as Hb. destruct Hwf as [? Hspc ? ? ? ? ? ? ? ?].
  assert (1 <= sectors_per_cluster fs <= 128) by (rewrite !elem_of_cons, elem_of_nil in Hspc; lia).
  unfold volume_typed, is_uint. nia.
Qed.

Lemma data_sector_typed fs c i lba :
  fs_wf fs -> 0 <= i -> cluster_to_sector fs c i = Ok lba ->
  is_uint 32 lba /\ forall s, map_err Device (read_sector (device fs) lba) = Ok s -> sector_wf s.
Proof.
  intros Hwf Hi. destruct (decide (valid_cluster fs c)) as [Hc|Hc].
  2: { unfold cluster_to_sector. by rewrite is_valid_cluster_wf, bool_decide_eq_false_2. }
  destruct (Z.leb_spec (sectors_per_cluster fs) i) as [Hbig|Hlt].
  { unfold cluster_to_sector. rewrite is_valid_cluster_wf by done. cbn [or_panic mbind outcome_bind].
    by rewrite (proj2 (Z.leb_le _ _) Hbig), orb_true_r. }
  rewrite cluster_to_sector_wf by done. intros [= <-].
  pose proof (cluster_base_bounds fs c i Hwf Hc ltac:(lia)). pose proof (fs_wf_bounds fs Hwf) as (? & ? & ? & ? & ?).
  split; [unfold is_uint; lia|]. destruct (read_data_sector fs c i Hwf Hc ltac:(lia)) as (s & -> & Hs). by intros s' [= <-].
Qed.

Lemma next_cluster_typed fs c n : fs_wf fs -> next_cluster fs c = Ok n -> is_uint 28 n.
Proof.
  intros Hwf. destruct (decide (valid_cluster fs c)) as [Hc|Hc].
  2: { unfold next_cluster. by rewrite is_valid_cluster_wf, bool_decide_eq_false_2. }
  destruct (Z.leb_spec (sectors_per_fat fs) (c / 128)) as [Hk|Hk]; [by rewrite next_cluster_beyond_fat|].
  destruct (next_cluster_entry fs c Hwf Hc Hk) as (s & entry & _ & _ & -> & _). intros [= <-]. unfold is_uint.
  apply Z.mod_pos_bound. lia.
Qed.

(** ** Directories *)

Section Directories.
Context (visitor : DirEntry -> T -> bool * T).
Hypothesis Hvisitor : forall e s, dir_entry_typed e -> I s -> I (visitor e s).2.

Lemma visit_raw_typed (raw : list Z) s :
  record_wf raw -> I s -> leaves (fun r : outcome FsError unit * T => I r.2) I (visit_raw visitor raw s).
Proof using Hvisitor.
  intros Hr Hs. unfold visit_raw. apply or_return_leaves; [done..|]. intros b0 _. destruct (b0 =? 0); [done|].
  apply or_return_leaves; [done..|]. intros b11 _. destruct (_ || _); [done|]. apply or_return_leaves; [done..|].
  intros [e|] He; [|done]. destruct (from_raw raw) as [o|] eqn:Hraw; [|done]. injection He as ->.
  pose proof (Hvisitor e s (from_raw_typed raw e Hr Hraw) Hs) as Hv. by destruct (visitor e s) as [[] s'].
Qed.

Lemma visit_cluster_typed fs c s :
  fs_wf fs -> I s -> leaves (fun r : outcome FsError unit * T => I r.2) (fun st => I st.2) (visit_cluster fs visitor (c, s)).
Proof using Hvisitor.
  intros Hwf Hs. unfold visit_cluster.
  assert (Hsectors : leaves (fun r : outcome FsError unit * T => I r.2) I
    (for_in (visit_sector fs visitor c) (seqZ 0 (sectors_per_cluster fs)) s)).
  { apply for_in_leaves; [|done]. intros i s' Hi%elem_of_seqZ Hs'. unfold visit_sector.
    apply or_return_leaves; [done..|]. intros lba Hlba. apply data_sector_typed in Hlba as [_ Hsector]; [|done|lia].
    apply or_return_leaves; [done..|]. intros sector Hread. apply for_in_leaves; [|done]. intros raw s'' Hraw Hs''.
    apply visit_raw_typed; [|done]. pose proof (sector_records_wf sector (Hsector _ Hread)) as Hall.
    rewrite Forall_forall in Hall. by apply Hall. }
  destruct (for_in _ _ _) as [r|s']; [done|]. apply or_return_leaves; [done..|]. intros next _.
  destruct (FAT32_EOC <=? next); [done|]. by apply or_return_leaves.
Qed.

Lemma visit_directory_typed fs c s : fs_wf fs -> I s -> I (visit_directory fs c visitor s).2.
Proof using Hvisitor.
  intros Hwf Hs. unfold visit_directory. destruct (is_valid_cluster fs c) as [[]|]; [|done..].
  pose proof (for_n_leaves (fun r : outcome FsError unit * T => I r.2) (fun st : Z * T => I st.2) (visit_cluster fs visitor)
    (S (Z.to_nat (cluster_count fs))) (c, s)) as Hloop.
  destruct (for_n _ _ _) as [r|[c' s']]; apply Hloop; try done; intros [c'' s''] Hs''; by apply visit_cluster_typed.
Qed.

Lemma list_dir_typed fs p s : fs_wf fs -> I s -> I (list_dir fs p visitor s).2.
Proof using Hvisitor.
  intros Hwf Hs. unfold list_dir. destruct (if is_empty _ then _ else _); [|done..]. by apply visit_directory_typed.
Qed.
End Directories.
End Types.

(** What a name resolves to. *)
Section Resolve.
Context {D : Type} `{HBD : BlockDevice D} `{HSpec : !BlockDeviceSpec D}.
Implicit Types (fs : Fat32 D).

Lemma find_in_directory_typed fs c name e : fs_wf fs -> find_in_directory fs c name = Ok e -> dir_entry_typed e.
Proof.
  intros Hwf. unfold find_in_directory. change (fun entry result => _) with (find_visitor name).
  set (I := fun o : option DirEntry => match o with Some e => dir_entry_typed e | None => True end).
  assert (Hvisitor : forall e o, dir_entry_typed e -> I o -> I (find_visitor name e o).2).
  { intros e' o He Ho. unfold find_visitor. by destruct (eq_ignore_ascii_case _ _). }
  pose proof (visit_directory_typed I (find_visitor name) Hvisitor fs c None Hwf Logic.I) as Hv.
  destruct (visit_directory _ _ _ _) as [[] [e'|]]; [|done..]. by intros [= <-].
Qed.

Lemma resolve_path_typed fs p e : fs_wf fs -> resolve_path fs p = Ok e -> dir_entry_typed e.
Proof.
  intros Hwf. unfold resolve_path. destruct (split_nonempty _ _) as [|first rest]; [done|].
  destruct (is_dot_component first); [done|]. generalize (root_cluster fs).
  revert first. induction rest as [|next rest IH]; intros name dir; cbn [resolve_components];
    destruct (find_in_directory fs dir name) as [d| |] eqn:Hd; try done; cbn [mbind outcome_bind].
  - intros [= <-]. by eapply find_in_directory_typed.
  - destruct (is_directory d); [|done]. cbn [negb]. destruct (is_dot_component next); [done|]. apply IH.
Qed.
End Resolve.

Section FileTypes.
Context {D : Type} `{HBD : BlockDevice D} `{HSpec : !BlockDeviceSpec D}.
Context {T : Type} (I : T -> Prop).
Implicit Types (fs : Fat32 D).

(** ** Files *)

Section Files.
Context (visitor : list Z -> T -> T).
Hypothesis Hvisitor : forall chunk s, chunk_typed chunk -> I s -> I (visitor chunk s).

Definition reading (st : Z * T) : Prop := is_uint 32 st.1 /\ I st.2.
Definition read_result (r : outcome FsError Z * T) : Prop := I r.2 /\ forall n, r.1 = Ok n -> is_uint 32 n.

Lemma read_file_sector_typed fs size c i st :
  fs_wf fs -> is_uint 32 size -> 0 <= i -> reading st -> leaves read_result reading (read_file_sector fs size visitor c i st).
Proof using Hvisitor.
  intros Hwf Hsize Hi [Hrem Hs]. destruct st as [rem s]. cbn in Hrem, Hs. unfold read_file_sector.
  assert (Hstop : forall s' : T, I s' -> (forall e, read_result (Err e, s')) /\ read_result (Panic, s')) by by repeat split.
  destruct (Z.eqb_spec rem 0) as [|Hpos]; [split; [done|]; by intros n [= <-]|].
  apply or_return_leaves; [by apply Hstop..|]. intros lba Hlba. apply data_sector_typed in Hlba as [_ Hsector]; [|done..].
  apply or_return_leaves; [by apply Hstop..|]. intros sector Hread. apply Hsector in Hread as [Hlen Hu8].
  change (Z.of_nat SECTOR_SIZE) with 512 in *. unfold is_uint in Hrem.
  assert (Hchunk : forall chunk, or_panic (E := FsError) (slice sector 0 (Z.to_nat (Z.min rem 512))) = Ok chunk -> chunk_typed chunk).
  { intros chunk. unfold slice. case_decide; [|done]. intros [= <-]. split; [|by apply Forall_take, Forall_drop].
    rewrite length_take, length_drop. lia. }
  apply or_return_leaves; [by apply Hstop..|]. intros chunk Hc%Hchunk. pose proof (Hvisitor chunk s Hc Hs) as Hs'.
  apply or_return_leaves; [by apply Hstop..|]. intros rem' Hrem'. split; [|done]. cbn. unfold is_uint.
  destruct (checked_sub rem _) as [x|] eqn:Hsub; [|done]. injection Hrem' as <-. apply checked_sub_Some in Hsub. lia.
Qed.

Lemma read_file_cluster_typed fs size c st :
  fs_wf fs -> is_uint 32 size -> reading st ->
  leaves read_result (fun st => reading st.2) (read_file_cluster fs size visitor (c, st)).
Proof using Hvisitor.
  intros Hwf Hsize Hst. unfold read_file_cluster. destruct st as [rem s].
  pose proof (for_in_leaves read_result reading (read_file_sector fs size visitor c) (seqZ 0 (sectors_per_cluster fs)) (rem, s)
    ltac:(intros i st Hi%elem_of_seqZ; apply read_file_sector_typed; [done|done|lia]) Hst) as Hsectors.
  destruct (for_in _ _ _) as [r|[rem' s']]; [done|]. destruct Hsectors as [Hrem Hs].
  destruct (rem' =? 0); [split; [done|]; by intros n [= <-]|].
  apply or_return_leaves; [by repeat split..|]. intros next _. destruct (FAT32_EOC <=? next); [by repeat split|].
  by apply or_return_leaves; [by repeat split..|].
Qed.

Lemma read_file_typed fs p s : fs_wf fs -> I s -> read_result (read_file fs p visitor s).
Proof using Hvisitor.
  intros Hwf Hs. unfold read_file. destruct (resolve_path fs p) as [e| |] eqn:He; [|by repeat split..].
  pose proof (resolve_path_typed fs p e Hwf He) as (_ & _ & _ & _ & _ & _ & Hsize).
  destruct (is_directory e); [by repeat split|]. destruct (de_size e =? 0); [split; [done|]; by intros n [= <-]|].
  destruct (is_valid_cluster fs _) as [[]|]; [|by repeat split..].
  pose proof (for_n_leaves read_result (fun st : Z * (Z * T) => reading st.2) (read_file_cluster fs (de_size e) visitor)
    (S (Z.to_nat (cluster_count fs))) (de_first_cluster e, (de_size e, s))
    ltac:(intros [c st]; by apply read_file_cluster_typed) ltac:(done)) as Hloop.
  destruct (for_n _ _ _) as [r|[c [rem s']]]; [done|]. destruct Hloop. by repeat split.
Qed.
End Files.

(** C9: The file system stays within its machine types.  On whatever device [mount]
    succeeds, the fields of the volume fit their 32 bits.  Every entry a path resolves
    to, and every entry a directory's visitor is called with, has a twelve-byte name
    buffer of which one to twelve ASCII bytes are the name, eight attribute bits and a
    32-bit cluster and size; a file's visitor is called with one to 512 bytes; a FAT
    entry has 28 bits, and sector numbers and the size of a file read have 32.  For the
    visitors it is stated as an invariant: what well-typed calls of them keep, the
    whole operation keeps, whether it succeeds or not. *)
Theorem file_system_typed (dev : D) fs (p : str) (dir_visitor : DirEntry -> T -> bool * T) (visitor : list Z -> T -> T) (s : T) :
  device_ok dev -> mount dev = Ok fs ->
  (forall e s, dir_entry_typed e -> I s -> I (dir_visitor e s).2) ->
  (forall chunk s, chunk_typed chunk -> I s -> I (visitor chunk s)) -> I s ->
  volume_typed fs /\
  (forall c n, next_cluster fs c = Ok n -> is_uint 28 n) /\
  (forall c i lba, 0 <= i -> cluster_to_sector fs c i = Ok lba -> is_uint 32 lba) /\
  (forall e, resolve_path fs p = Ok e -> dir_entry_typed e) /\
  I (list_dir fs p dir_visitor s).2 /\
  I (read_file fs p visitor s).2 /\
  (forall n, (read_file fs p visitor s).1 = Ok n -> is_uint 32 n).
Proof using.
  intros Hdev Hmount Hdir Hread Hs. destruct (mount_establishes_wf dev fs Hdev Hmount) as [Hwf _].
  split; [by apply volume_wf_typed|]. split; [intros c n; by apply next_cluster_typed|].
  split; [intros c i lba Hi Hlba; by eapply data_sector_typed|]. split; [intros e; by apply resolve_path_typed|].
  split; [by apply list_dir_typed|]. by apply read_file_typed.
Qed.
End FileTypes.

(** On the demo volume: the sizes of the root's entries and the bytes of a file. *)
Lemma file_system_typed_witness :
  volume_typed demo_fs /\
  Forall (is_uint 32) (list_dir demo_fs [] (fun e sizes => (true, de_size e :: sizes)) []).2 /\
  Forall (is_uint 32) (read_file demo_fs demo_hello_path (fun chunk bytes => bytes ++ chunk) []).2 /\
  length (read_file demo_fs demo_hello_path (fun chunk bytes => bytes ++ chunk) []).2 = 600%nat.
Proof.
  assert (Hdir : forall e s, dir_entry_typed e -> Forall (is_uint 32) s -> Forall (is_uint 32) (true, de_size e :: s).2).
  { intros e s He Hs. constructor; [apply He|exact Hs]. }
  assert (Hread : forall chunk s, chunk_typed chunk -> Forall (is_uint 32) s -> Forall (is_uint 32) (s ++ chunk)).
  { intros chunk s [_ Hc] Hs. apply Forall_app. split; [exact Hs|]. eapply Forall_impl; [exact Hc|]. unfold is_uint. lia. }
  destruct (file_system_typed (Forall (is_uint 32)) demo_disk demo_fs [] (fun e s => (true, de_size e :: s))
    (fun chunk s => s ++ chunk) [] demo_disk_ok demo_mount Hdir Hread ltac:(constructor)) as (Hvol & _ & _ & _ & Hlist & _).
  destruct (file_system_typed (Forall (is_uint 32)) demo_disk demo_fs demo_hello_path (fun e s => (true, de_size e :: s))
    (fun chunk s => s ++ chunk) [] demo_disk_ok demo_mount Hdir Hread ltac:(constructor)) as (_ & _ & _ & _ & _ & Hfile & _).
  split; [exact Hvol|]. split; [exact Hlist|]. split; [exact Hfile|]. vm_compute. reflexivity.
Defined.
