(* ===== verification/Ring.v ===== *)
(** * Ring: circular buffers

    The keyboard queue and the shell's command history are both arrays used
    circularly.  [ring buf tail n] is the list of the [n] elements that start at
    index [tail]; the lemmas say what appending, dropping and writing outside
    the live region do to it. *)

From S2P Require Import Prelude.

(** [(t + i) % n] for indices of the array. *)
Lemma mod_wrap (N t i : nat) :
  t < N -> i <= N -> (t + i) mod N = if decide (t + i < N) then t + i else t + i - N.
Proof.
  intros Ht Hi. case_decide.
  - by apply Nat.mod_small.
  - symmetry. apply (Nat.mod_unique _ _ 1); lia.
Qed.

Section Ring.
Context {A : Type} (d : A) (N : nat).
Implicit Types (buf : list A).

Definition ring buf (tail n : nat) : list A :=
  map (fun i => nth ((tail + i) mod N) buf d) (seq 0 n).

Lemma length_ring buf tail n : length (ring buf tail n) = n.
Proof. unfold ring. by rewrite length_map, length_seq. Qed.

Lemma ring_uncons buf tail n :
  tail < N -> ring buf tail (S n) = nth tail buf d :: ring buf ((tail + 1) mod N) n.
Proof.
  intros Ht. unfold ring. rewrite <- cons_seq, <- fmap_S_seq. cbn [map].
  rewrite Nat.add_0_r, Nat.mod_small by done. f_equal.
  change (S <$> seq 0 n) with (map S (seq 0 n)). rewrite map_map.
  apply map_ext. intros i. f_equal. rewrite Nat.Div0.add_mod_idemp_l. f_equal. lia.
Qed.

Lemma ring_snoc buf tail n :
  ring buf tail (S n) = ring buf tail n ++ [nth ((tail + n) mod N) buf d].
Proof. unfold ring. by rewrite seq_S, map_app. Qed.

Lemma nth_insert_eq buf i x : i < length buf -> nth i (<[i := x]> buf) d = x.
Proof. intros. by rewrite nth_lookup, list_lookup_insert_eq. Qed.

Lemma nth_insert_ne buf i j x : i <> j -> nth j (<[i := x]> buf) d = nth j buf d.
Proof. intros. by rewrite !nth_lookup, list_lookup_insert_ne. Qed.

(** A write outside the live region is not seen. *)
Lemma ring_insert_outside buf tail n k x :
  tail < N -> n <= k < N ->
  ring (<[(tail + k) mod N := x]> buf) tail n = ring buf tail n.
Proof.
  intros Ht Hk. unfold ring. apply map_ext_in. intros i Hi. apply in_seq in Hi.
  apply nth_insert_ne. rewrite !mod_wrap by lia. repeat case_decide; lia.
Qed.

(** Writing the first free slot appends. *)
Lemma ring_push buf tail n x :
  length buf = N -> tail < N -> n < N ->
  ring (<[(tail + n) mod N := x]> buf) tail (S n) = ring buf tail n ++ [x].
Proof.
  intros Hlen Ht Hn. rewrite ring_snoc, ring_insert_outside by lia.
  rewrite nth_insert_eq; [done|]. rewrite Hlen. apply Nat.mod_upper_bound. lia.
Qed.

Lemma ring_lookup buf tail n i :
  i < n -> ring buf tail n !! i = Some (nth ((tail + i) mod N) buf d).
Proof.
  intros Hi. unfold ring. change (map ?f ?l) with (f <$> l).
  rewrite list_lookup_fmap, lookup_seq_lt by done. done.
Qed.
End Ring.
