(* ===== verification/Ports.v ===== *)
(** * Ports: x86 port I/O

    [x86_64::instructions::port::Port].  The devices behind the ports are
    outside the program: a machine is any type with an [Hardware] instance, and
    every theorem about a driver holds for all of them.  The kernel's side of
    the conversation is recorded in a log, most recent event last. *)

From S2P Require Import Prelude.
#[local] Open Scope Z_scope.

Inductive port_event : Type :=
| In8 (port value : Z)
| Out8 (port value : Z)
| In32 (port value : Z)
| Out32 (port value : Z).

#[export] Instance port_event_eq_dec : EqDecision port_event.
Proof. solve_decision. Defined.

(** The devices' answers and their reactions to writes. *)
Class Hardware (M : Type) : Type := {
  hw_in8 : Z -> M -> Z * M;
  hw_out8 : Z -> Z -> M -> M;
  hw_in32 : Z -> M -> Z * M;
  hw_out32 : Z -> Z -> M -> M;
}.

Record machine (M : Type) : Type := { devices : M; log : list port_event }.

Arguments devices {M} _.
Arguments log {M} _.
Arguments Build_machine {M} _ _.

(** A driver routine. *)
Definition IO (M A : Type) : Type := machine M -> A * machine M.

#[export] Instance IO_ret (M : Type) : MRet (IO M) := fun _ a m => (a, m).

#[export] Instance IO_bind (M : Type) : MBind (IO M) := fun _ _ k c m =>
  let '(a, m) := c m in k a m.

Section Access.
Context {M : Type} `{Hardware M}.

Definition in8 (port : Z) : IO M Z := fun m =>
  let '(v, dev) := hw_in8 port (devices m) in
  let v := wrap 8 v in
  (v, {| devices := dev; log := log m ++ [In8 port v] |}).

Definition out8 (port value : Z) : IO M unit := fun m =>
  (tt, {| devices := hw_out8 port value (devices m); log := log m ++ [Out8 port value] |}).

Definition in32 (port : Z) : IO M Z := fun m =>
  let '(v, dev) := hw_in32 port (devices m) in
  let v := wrap 32 v in
  (v, {| devices := dev; log := log m ++ [In32 port v] |}).

Definition out32 (port value : Z) : IO M unit := fun m =>
  (tt, {| devices := hw_out32 port value (devices m); log := log m ++ [Out32 port value] |}).
End Access.

(** ** Reasoning about logs *)

(** What a routine adds to the log; [emits c P] says every run of [c] extends
    the log by some events that satisfy [P] together with the result. *)
Definition emits {M A : Type} (c : IO M A) (P : A -> list port_event -> Prop) : Prop :=
  forall m, exists evs, log (c m).2 = log m ++ evs /\ P (c m).1 evs.

Section Emits.
Context {M : Type} `{Hardware M}.

Lemma emits_ret {A : Type} (a : A) (P : A -> list port_event -> Prop) :
  P a [] -> emits (mret a : IO M A) P.
Proof. intros HP m. exists []. rewrite app_nil_r. done. Qed.

Lemma emits_bind {A B : Type} (c : IO M A) (k : A -> IO M B)
    (P : A -> list port_event -> Prop) (Q : B -> list port_event -> Prop) :
  emits c P ->
  (forall a e1, P a e1 -> emits (k a) (fun b e2 => Q b (e1 ++ e2))) ->
  emits (c ≫= k) Q.
Proof.
  intros Hc Hk m. destruct (Hc m) as (e1 & Hl1 & HP).
  unfold mbind, IO_bind. destruct (c m) as [a m'] eqn:Hcm. simpl in *.
  destruct (Hk a e1 HP m') as (e2 & Hl2 & HQ).
  exists (e1 ++ e2). rewrite Hl2, Hl1, app_assoc. done.
Qed.

Lemma emits_impl {A : Type} (c : IO M A) (P Q : A -> list port_event -> Prop) :
  emits c P -> (forall a e, P a e -> Q a e) -> emits c Q.
Proof. intros Hc HPQ m. destruct (Hc m) as (e & ? & ?). exists e. auto. Qed.

Lemma emits_in8 (port : Z) :
  emits (in8 port) (fun v e => is_uint 8 v /\ e = [In8 port v]).
Proof.
  intros m. unfold in8. destruct (hw_in8 port (devices m)) as [v dev]. simpl.
  eexists. split; [done|]. split; [|done]. apply Z.mod_pos_bound. lia.
Qed.

Lemma emits_out8 (port value : Z) :
  emits (out8 port value) (fun _ e => e = [Out8 port value]).
Proof. intros m. by exists [Out8 port value]. Qed.

Lemma emits_in32 (port : Z) :
  emits (in32 port) (fun v e => is_uint 32 v /\ e = [In32 port v]).
Proof.
  intros m. unfold in32. destruct (hw_in32 port (devices m)) as [v dev]. simpl.
  eexists. split; [done|]. split; [|done]. apply Z.mod_pos_bound. lia.
Qed.

Lemma emits_out32 (port value : Z) :
  emits (out32 port value) (fun _ e => e = [Out32 port value]).
Proof. intros m. by exists [Out32 port value]. Qed.
End Emits.

#[export] Hint Resolve emits_in8 emits_out8 emits_in32 emits_out32 : sol.

(** The values a log shows being written, in order. *)
Definition writes (evs : list port_event) : list (Z * Z) :=
  omap (fun e => match e with
                 | Out8 p v | Out32 p v => Some (p, v)
                 | _ => None
                 end) evs.

Lemma writes_app (e1 e2 : list port_event) : writes (e1 ++ e2) = writes e1 ++ writes e2.
Proof. apply omap_app. Qed.
