(* ===== verification/Keyboard.v ===== *)
(** * Keyboard: scancode decoding, the input queue, controller setup

    Models [kernel/src/keyboard.rs]: the PS/2 set-1 decoder with its modifier
    state, the single-producer single-consumer event queue, and the 8042 setup
    conversation.  The queue appears twice: as the sequential [push]/[pop] the
    handlers call, and, in [QueueSteps.v], as the interleaving of their atomic
    accesses. *)

From S2P Require Import Prelude Str Ports.
#[local] Open Scope Z_scope.

Definition INPUT_QUEUE_CAPACITY : nat := 256.
Definition SHIFT : Z := 1.
Definition CAPS_LOCK : Z := 2.
Definition PS2_DATA : Z := 0x60.
Definition PS2_STATUS_COMMAND : Z := 0x64.
Definition CONTROLLER_TIMEOUT : nat := Z.to_nat 100000.

Module Key.
Inductive KeyEvent : Type :=
| Character (byte : Z)
| Backspace
| Tab
| Enter
| Left
| Right
| Up
| Down
| Home
| End
| Delete.

#[export] Instance KeyEvent_eq_dec : EqDecision KeyEvent.
Proof. solve_decision. Defined.
End Key.

Abbreviation KeyEvent := Key.KeyEvent.

#[export] Existing Instance Key.KeyEvent_eq_dec.

(** ** The queue *)

Record InputQueue : Type := {
  events : list KeyEvent;
  head : nat;
  tail : nat;
  dropped : Z;
}.

Definition queue_new : InputQueue := {|
  events := replicate INPUT_QUEUE_CAPACITY Key.Enter;
  head := 0;
  tail := 0;
  dropped := 0;
|}.

Definition push (q : InputQueue) (event : KeyEvent) : option InputQueue :=
  let next := ((head q + 1) mod INPUT_QUEUE_CAPACITY)%nat in
  if decide (next = tail q) then
    Some {| events := events q; head := head q; tail := tail q;
            dropped := wrap 64 (dropped q + 1) |}
  else
    events' ← set_index (events q) (head q) event;
    Some {| events := events'; head := next; tail := tail q; dropped := dropped q |}.

Definition pop (q : InputQueue) : option (option KeyEvent * InputQueue) :=
  if decide (tail q = head q) then Some (None, q)
  else
    event ← events q !! tail q;
    Some (Some event,
          {| events := events q; head := head q;
             tail := ((tail q + 1) mod INPUT_QUEUE_CAPACITY)%nat; dropped := dropped q |}).

(** ** Decoding *)

Definition extended_event_for_set_1 (scancode : Z) : option KeyEvent :=
  match scancode with
  | 0x47 => Some Key.Home
  | 0x48 => Some Key.Up
  | 0x4b => Some Key.Left
  | 0x4d => Some Key.Right
  | 0x4f => Some Key.End
  | 0x50 => Some Key.Down
  | 0x53 => Some Key.Delete
  | _ => None
  end.

Definition letter_for_set_1 (scancode : Z) (uppercase : bool) : option KeyEvent :=
  let lowercase :=
    match scancode with
    | 0x10 => Some 0x71 (* q *)
    | 0x11 => Some 0x77 (* w *)
    | 0x12 => Some 0x65 (* e *)
    | 0x13 => Some 0x72 (* r *)
    | 0x14 => Some 0x74 (* t *)
    | 0x15 => Some 0x79 (* y *)
    | 0x16 => Some 0x75 (* u *)
    | 0x17 => Some 0x69 (* i *)
    | 0x18 => Some 0x6f (* o *)
    | 0x19 => Some 0x70 (* p *)
    | 0x1e => Some 0x61 (* a *)
    | 0x1f => Some 0x73 (* s *)
    | 0x20 => Some 0x64 (* d *)
    | 0x21 => Some 0x66 (* f *)
    | 0x22 => Some 0x67 (* g *)
    | 0x23 => Some 0x68 (* h *)
    | 0x24 => Some 0x6a (* j *)
    | 0x25 => Some 0x6b (* k *)
    | 0x26 => Some 0x6c (* l *)
    | 0x2c => Some 0x7a (* z *)
    | 0x2d => Some 0x78 (* x *)
    | 0x2e => Some 0x63 (* c *)
    | 0x2f => Some 0x76 (* v *)
    | 0x30 => Some 0x62 (* b *)
    | 0x31 => Some 0x6e (* n *)
    | 0x32 => Some 0x6d (* m *)
    | _ => None
    end in
  lowercase ← lowercase;
  Some (Key.Character (if uppercase then to_ascii_uppercase lowercase else lowercase)).

(** The punctuation and digit rows: (plain, shifted). *)
Definition symbol_for_set_1 (scancode : Z) : option (Z * Z) :=
  match scancode with
  | 0x02 => Some (0x31, 0x21) (* 1 ! *)
  | 0x03 => Some (0x32, 0x40) (* 2 @ *)
  | 0x04 => Some (0x33, 0x23) (* 3 # *)
  | 0x05 => Some (0x34, 0x24) (* 4 $ *)
  | 0x06 => Some (0x35, 0x25) (* 5 % *)
  | 0x07 => Some (0x36, 0x5e) (* 6 ^ *)
  | 0x08 => Some (0x37, 0x26) (* 7 & *)
  | 0x09 => Some (0x38, 0x2a) (* 8 * *)
  | 0x0a => Some (0x39, 0x28) (* 9 ( *)
  | 0x0b => Some (0x30, 0x29) (* 0 ) *)
  | 0x0c => Some (0x2d, 0x5f) (* - _ *)
  | 0x0d => Some (0x3d, 0x2b) (* = + *)
  | 0x1a => Some (0x5b, 0x7b) (* [ { *)
  | 0x1b => Some (0x5d, 0x7d) (* ] } *)
  | 0x27 => Some (0x3b, 0x3a) (* ; : *)
  | 0x28 => Some (0x27, 0x22) (* quotes *)
  | 0x29 => Some (0x60, 0x7e) (* ` ~ *)
  | 0x2b => Some (0x5c, 0x7c) (* \ | *)
  | 0x33 => Some (0x2c, 0x3c) (* , < *)
  | 0x34 => Some (0x2e, 0x3e) (* . > *)
  | 0x35 => Some (0x2f, 0x3f) (* / ? *)
  | _ => None
  end.

Definition ascii_for_set_1 (scancode : Z) (shift caps_lock : bool) : option KeyEvent :=
  match scancode with
  | 0x0e => Some Key.Backspace
  | 0x0f => Some Key.Tab
  | 0x1c => Some Key.Enter
  | 0x39 => Some (Key.Character 0x20)
  | _ =>
      match symbol_for_set_1 scancode with
      | Some (plain, shifted) => Some (Key.Character (if shift then shifted else plain))
      | None => letter_for_set_1 scancode (xorb shift caps_lock)
      end
  end.

(** The static variables of the module. *)
Record Keyboard : Type := {
  INPUT_QUEUE : InputQueue;
  MODIFIERS : Z;
  EXTENDED_PREFIX : bool;
}.

Definition keyboard_new : Keyboard :=
  {| INPUT_QUEUE := queue_new; MODIFIERS := 0; EXTENDED_PREFIX := false |}.

Definition set_queue (k : Keyboard) (q : InputQueue) : Keyboard :=
  {| INPUT_QUEUE := q; MODIFIERS := MODIFIERS k; EXTENDED_PREFIX := EXTENDED_PREFIX k |}.

Definition set_modifiers (k : Keyboard) (m : Z) : Keyboard :=
  {| INPUT_QUEUE := INPUT_QUEUE k; MODIFIERS := m; EXTENDED_PREFIX := EXTENDED_PREFIX k |}.

Definition set_prefix (k : Keyboard) (b : bool) : Keyboard :=
  {| INPUT_QUEUE := INPUT_QUEUE k; MODIFIERS := MODIFIERS k; EXTENDED_PREFIX := b |}.

(** [if let Some(event) = ... { INPUT_QUEUE.push(event) }] *)
Definition push_event (k : Keyboard) (event : option KeyEvent) : option Keyboard :=
  match event with
  | None => Some k
  | Some event => set_queue k <$> push (INPUT_QUEUE k) event
  end.

Definition handle_scancode (k : Keyboard) (scancode : Z) : option Keyboard :=
  if scancode =? 0xe0 then Some (set_prefix k true)
  else if EXTENDED_PREFIX k then
    let k := set_prefix k false in
    if Z.land scancode 0x80 =? 0 then push_event k (extended_event_for_set_1 scancode)
    else Some k
  else
    let k := set_prefix k false in
    if (scancode =? 0x2a) || (scancode =? 0x36) then
      Some (set_modifiers k (Z.lor (MODIFIERS k) SHIFT))
    else if (scancode =? 0xaa) || (scancode =? 0xb6) then
      Some (set_modifiers k (Z.land (MODIFIERS k) (not_w 8 SHIFT)))
    else if scancode =? 0x3a then
      Some (set_modifiers k (Z.lxor (MODIFIERS k) CAPS_LOCK))
    else if negb (Z.land scancode 0x80 =? 0) then Some k
    else
      push_event k
        (ascii_for_set_1 scancode
           (negb (Z.land (MODIFIERS k) SHIFT =? 0))
           (negb (Z.land (MODIFIERS k) CAPS_LOCK =? 0))).

Definition next_event (k : Keyboard) : option (option KeyEvent * Keyboard) :=
  '(event, q) ← pop (INPUT_QUEUE k);
  Some (event, set_queue k q).

Definition dropped_chars (k : Keyboard) : Z := dropped (INPUT_QUEUE k).

(** ** Controller setup *)

Section Controller.
Context {M : Type} `{Hardware M}.

Definition read_status : IO M Z := in8 PS2_STATUS_COMMAND.
Definition read_data : IO M Z := in8 PS2_DATA.
Definition write_command (command : Z) : IO M unit := out8 PS2_STATUS_COMMAND command.
Definition write_data (data : Z) : IO M unit := out8 PS2_DATA data.

(** [for _ in 0..n { if ready(read_status()) { return true } spin_loop() } false] *)
Fixpoint wait_for (n : nat) (ready : Z -> bool) : IO M bool :=
  match n with
  | O => mret false
  | S n =>
      status ← read_status;
      if ready status then mret true else wait_for n ready
  end.

Definition wait_for_input_empty : IO M bool :=
  wait_for CONTROLLER_TIMEOUT (fun status => Z.land status 0x02 =? 0).

Definition wait_for_output_full : IO M bool :=
  wait_for CONTROLLER_TIMEOUT (fun status => negb (Z.land status 0x01 =? 0)).

Fixpoint drain_loop (n : nat) : IO M unit :=
  match n with
  | O => mret tt
  | S n =>
      status ← read_status;
      if Z.land status 0x01 =? 0 then mret tt
      else
        _ ← read_data;
        drain_loop n
  end.

Definition drain_output : IO M unit := drain_loop 32.

(** [if !wait() { return false; }] *)
Definition unless_timeout (wait : IO M bool) (k : IO M bool) : IO M bool :=
  ok ← wait;
  if negb ok then mret false else k.

Definition initialize_controller : IO M bool :=
  unless_timeout wait_for_input_empty (
  _ ← write_command 0xad;
  _ ← drain_output;
  unless_timeout wait_for_input_empty (
  _ ← write_command 0x20;
  unless_timeout wait_for_output_full (
  command_byte ← read_data;
  let configured := Z.land (Z.lor (Z.lor command_byte 0x01) 0x40) (not_w 8 0x10) in
  unless_timeout wait_for_input_empty (
  _ ← write_command 0x60;
  unless_timeout wait_for_input_empty (
  _ ← write_data configured;
  unless_timeout wait_for_input_empty (
  _ ← write_command 0xae;
  mret true)))))).
End Controller.
