(* ===== verification/QueueSteps.v ===== *)
(** * QueueSteps: the input queue under interruption

    IRQ1 may interrupt the main loop between any two of its accesses to the
    queue.  Here [InputQueue::push] and [InputQueue::pop] are split into their
    atomic accesses and interleaved arbitrarily, which covers every preemption
    of the consumer by the handler (and more: the two sides may also alternate
    in the middle of a push).  Ghost fields record the events that were
    published, refused and handed out. *)

From stdpp Require Import relations.
From S2P Require Import Prelude Ring Keyboard KeyboardQueue.
#[local] Open Scope nat_scope.

(** Where the producer stands in [push]. *)
Inductive producer_pc : Type :=
| PIdle
| PLoadedHead (event : KeyEvent) (head : nat)
| PHasSlot (event : KeyEvent) (head : nat)
| PWritten (event : KeyEvent) (head : nat).

(** Where the consumer stands in [pop]. *)
Inductive consumer_pc : Type :=
| CIdle
| CLoadedTail (tail : nat)
| CHasEvent (tail : nat)
| CRead (tail : nat) (event : KeyEvent).

Record qstate : Type := {
  shared : InputQueue;
  producer : producer_pc;
  consumer : consumer_pc;
  accepted : list KeyEvent;
  refused : list KeyEvent;
  delivered : list KeyEvent;
}.

Definition qinit : qstate := {|
  shared := queue_new;
  producer := PIdle;
  consumer := CIdle;
  accepted := [];
  refused := [];
  delivered := [];
|}.

(** The next atomic access of [push(event)]; [event] matters only when a new
    push begins.  [None] is an out-of-bounds trap. *)
Definition producer_step (event : KeyEvent) (s : qstate) : option qstate :=
  let q := shared s in
  let goto pc := {| shared := q; producer := pc; consumer := consumer s;
                    accepted := accepted s; refused := refused s; delivered := delivered s |} in
  match producer s with
  | PIdle => Some (goto (PLoadedHead event (head q)))
  | PLoadedHead e h =>
      if decide ((h + 1) mod INPUT_QUEUE_CAPACITY = tail q) then
        Some {| shared := {| events := events q; head := head q; tail := tail q;
                             dropped := wrap 64 (dropped q + 1)%Z |};
                producer := PIdle; consumer := consumer s;
                accepted := accepted s; refused := refused s ++ [e]; delivered := delivered s |}
      else Some (goto (PHasSlot e h))
  | PHasSlot e h =>
      events' ← set_index (events q) h e;
      Some {| shared := {| events := events'; head := head q; tail := tail q;
                           dropped := dropped q |};
              producer := PWritten e h; consumer := consumer s;
              accepted := accepted s; refused := refused s; delivered := delivered s |}
  | PWritten e h =>
      Some {| shared := {| events := events q; head := (h + 1) mod INPUT_QUEUE_CAPACITY;
                           tail := tail q; dropped := dropped q |};
              producer := PIdle; consumer := consumer s;
              accepted := accepted s ++ [e]; refused := refused s; delivered := delivered s |}
  end.

(** The next atomic access of [pop()]. *)
Definition consumer_step (s : qstate) : option qstate :=
  let q := shared s in
  let goto pc := {| shared := q; producer := producer s; consumer := pc;
                    accepted := accepted s; refused := refused s; delivered := delivered s |} in
  match consumer s with
  | CIdle => Some (goto (CLoadedTail (tail q)))
  | CLoadedTail t => if decide (t = head q) then Some (goto CIdle) else Some (goto (CHasEvent t))
  | CHasEvent t => e ← events q !! t; Some (goto (CRead t e))
  | CRead t e =>
      Some {| shared := {| events := events q; head := head q;
                           tail := (t + 1) mod INPUT_QUEUE_CAPACITY; dropped := dropped q |};
              producer := producer s; consumer := CIdle;
              accepted := accepted s; refused := refused s; delivered := delivered s ++ [e] |}
  end.

Inductive qstep : qstate -> qstate -> Prop :=
| qstep_irq event s s' : producer_step event s = Some s' -> qstep s s'
| qstep_main s s' : consumer_step s = Some s' -> qstep s s'.

Definition reachable (s : qstate) : Prop := rtc qstep qinit s.

(** ** The invariant *)

Definition producer_inv (q : InputQueue) (pc : producer_pc) : Prop :=
  match pc with
  | PIdle => True
  | PLoadedHead _ h => h = head q
  | PHasSlot _ h => h = head q /\ (h + 1) mod 256 <> tail q
  | PWritten e h => h = head q /\ (h + 1) mod 256 <> tail q /\ events q !! h = Some e
  end.

Definition consumer_inv (q : InputQueue) (pc : consumer_pc) : Prop :=
  match pc with
  | CIdle => True
  | CLoadedTail t => t = tail q
  | CHasEvent t => t = tail q /\ t <> head q
  | CRead t e => t = tail q /\ t <> head q /\ events q !! t = Some e
  end.

Record qinv (s : qstate) : Prop := {
  inv_wf : queue_wf (shared s);
  inv_producer : producer_inv (shared s) (producer s);
  inv_consumer : consumer_inv (shared s) (consumer s);
  inv_fifo : accepted s = delivered s ++ contents (shared s);
  inv_dropped : dropped (shared s) = wrap 64 (Z.of_nat (length (refused s)));
}.

Lemma qinit_inv : qinv qinit.
Proof. constructor; simpl; try done. apply queue_new_wf. Qed.

Lemma producer_step_inv (event : KeyEvent) (s : qstate) :
  qinv s -> exists s', producer_step event s = Some s' /\ qinv s'.
Proof.
  intros [(Hlen & Hh & Ht) Hp Hc Hf Hd]. unfold producer_step.
  change INPUT_QUEUE_CAPACITY with 256. destruct (producer s) as [|e h|e h|e h] eqn:Epc; simpl in Hp.
  - eexists. split; [done|]. by constructor.
  - subst h. case_decide as Hfull.
    + eexists. split; [done|]. constructor; simpl; try done.
      rewrite Hd, length_app, Nat2Z.inj_add. unfold wrap. by rewrite Zplus_mod_idemp_l.
    + eexists. split; [done|]. by constructor.
  - destruct Hp as [-> Hne]. unfold set_index. rewrite decide_True by lia. simpl.
    eexists. split; [done|]. constructor; simpl; try done.
    + unfold queue_wf. simpl. by rewrite length_insert.
    + by rewrite list_lookup_insert_eq by lia.
    + destruct (consumer s) as [| | |t e']; simpl in *; try done.
      destruct Hc as (-> & ? & ?). by rewrite list_lookup_insert_ne.
    + unfold contents in *. simpl. by rewrite ring_write_slot.
  - destruct Hp as (-> & Hne & He). eexists. split; [done|].
    constructor; cbn [shared producer consumer accepted refused delivered]; try done.
    + unfold queue_wf. cbn [events head tail]. auto using mod_256_lt.
    + destruct (consumer s) as [|t|t|t e']; cbn [consumer_inv events head tail] in *; try done.
      * destruct Hc as [-> ?]. auto.
      * destruct Hc as (-> & ? & ?). auto.
    + rewrite Hf, <- app_assoc. f_equal. unfold contents. cbn [events head tail].
      rewrite <- (ring_publish (events (shared s)) _ _ e) by done.
      by rewrite list_insert_id.
Qed.

Lemma consumer_step_inv (s : qstate) :
  qinv s -> exists s', consumer_step s = Some s' /\ qinv s'.
Proof.
  intros [(Hlen & Hh & Ht) Hp Hc Hf Hd]. unfold consumer_step.
  change INPUT_QUEUE_CAPACITY with 256. destruct (consumer s) as [|t|t|t e] eqn:Epc; simpl in Hc.
  - eexists. split; [done|]. by constructor.
  - subst t. case_decide; (eexists; split; [done|]); by constructor.
  - destruct Hc as [-> Hne].
    destruct (lookup_lt_is_Some_2 (events (shared s)) (tail (shared s))) as [e He]; [lia|].
    rewrite He. simpl. eexists. split; [done|]. by constructor.
  - destruct Hc as (-> & Hne & He). eexists. split; [done|].
    constructor; cbn [shared producer consumer accepted refused delivered]; try done.
    + unfold queue_wf. cbn [events head tail]. auto using mod_256_lt.
    + destruct (producer s) as [|e' h|e' h|e' h]; cbn [producer_inv events head tail] in *; try done.
      * destruct Hp as [-> ?]. split; [done|]. zlia.
      * destruct Hp as (-> & ? & ?). split; [done|]. split; [zlia|done].
    + rewrite Hf, <- app_assoc. f_equal. unfold contents. cbn [events head tail].
      rewrite ring_consume by done. by rewrite nth_lookup, He.
Qed.

Lemma reachable_inv (s : qstate) : reachable s -> qinv s.
Proof.
  revert s. apply (@rtc_ind_r _ qstep qinv qinit); [apply qinit_inv|]. intros y z _ Hstep IH.
  destruct Hstep as [event y z Hs|y z Hs].
  - destruct (producer_step_inv event y IH) as (z' & Hs' & ?). congruence.
  - destruct (consumer_step_inv y IH) as (z' & Hs' & ?). congruence.
Qed.

(** C10: In every interleaving of the keyboard interrupt with the main loop the
    queue delivers events first in first out: what the consumer has been handed,
    followed by what is still in the queue, is exactly what the producer has
    published, so nothing is lost, duplicated or reordered, and every refused
    event has been counted.  Neither side can trap, and the two never touch the
    same slot at the same time. *)
Theorem interleaved_queue_is_fifo (s : qstate) :
  reachable s ->
  accepted s = delivered s ++ contents (shared s) /\
  length (contents (shared s)) <= 255 /\
  dropped (shared s) = wrap 64 (Z.of_nat (length (refused s))) /\
  (forall event, exists s', producer_step event s = Some s') /\
  (exists s', consumer_step s = Some s') /\
  (forall e h t, (producer s = PHasSlot e h \/ producer s = PWritten e h) ->
     (consumer s = CHasEvent t \/ exists e', consumer s = CRead t e') -> h <> t).
Proof.
  intros Hr. pose proof (reachable_inv s Hr) as Hinv. pose proof Hinv as [(_ & Hh & Ht) Hp Hc Hf Hd].
  split; [done|]. split.
  { unfold contents. rewrite length_ring. destruct (pending_spec _ _ Hh Ht). lia. }
  split; [done|]. split; [|split].
  - intros event. destruct (producer_step_inv event s Hinv) as (s' & ? & _). eauto.
  - destruct (consumer_step_inv s Hinv) as (s' & ? & _). eauto.
  - intros e h t HP HC.
    assert (h = head (shared s)) by (destruct HP as [E|E]; rewrite E in Hp; apply Hp).
    assert (t <> head (shared s)).
    { destruct HC as [E|[e' E]]; rewrite E in Hc; simpl in Hc; destruct Hc as [? [? ?]] || destruct Hc; done. }
    congruence.
Qed.

(** A handler that interrupts [pop] between its two loads. *)
Lemma interleaved_queue_is_fifo_witness :
  exists s, reachable s /\ accepted s = [Key.Tab] /\ consumer s = CLoadedTail 0 /\
    accepted s = delivered s ++ contents (shared s).
Proof.
  pose (steps := s1 ← consumer_step qinit; s2 ← producer_step Key.Tab s1;
                 s3 ← producer_step Key.Tab s2; s4 ← producer_step Key.Tab s3;
                 producer_step Key.Tab s4).
  destruct steps as [s|] eqn:E; [|vm_compute in E; discriminate E].
  assert (Hr : reachable s).
  { unfold steps in E. inv_some. unfold reachable.
    eapply rtc_l; [by apply qstep_main|].
    do 3 (eapply rtc_l; [by eapply qstep_irq|]). apply rtc_once. by eapply qstep_irq. }
  exists s. split; [exact Hr|].
  split; [vm_compute in E; injection E as <-; reflexivity|].
  split; [vm_compute in E; injection E as <-; reflexivity|].
  exact (proj1 (interleaved_queue_is_fifo s Hr)).
Defined.
