(* ===== verification/KeyboardDecode.v ===== *)
(** * KeyboardDecode: from scancodes to events

    The interrupt handler against a reference decoder with three booleans of
    state, and the facts about the layout tables: what can be typed, and that
    everything that can be typed is printable ASCII. *)

From S2P Require Import Prelude Str Ring Ports Keyboard KeyboardQueue.
#[local] Open Scope Z_scope.

(** ** The reference decoder *)

Record decoder : Type := { prefix : bool; shift : bool; caps : bool }.

Definition decode1 (d : decoder) (scancode : Z) : decoder * option KeyEvent :=
  let goto p s c := {| prefix := p; shift := s; caps := c |} in
  if decide (scancode = 0xe0) then (goto true (shift d) (caps d), None)
  else if prefix d then
    (goto false (shift d) (caps d),
     if scancode <? 0x80 then extended_event_for_set_1 scancode else None)
  else if decide (scancode ∈ [0x2a; 0x36]) then (goto false true (caps d), None)
  else if decide (scancode ∈ [0xaa; 0xb6]) then (goto false false (caps d), None)
  else if decide (scancode = 0x3a) then (goto false (shift d) (negb (caps d)), None)
  else (goto false (shift d) (caps d),
        if scancode <? 0x80 then ascii_for_set_1 scancode (shift d) (caps d) else None).

(** The events a sequence of scancodes stands for. *)
Fixpoint decode (d : decoder) (scancodes : list Z) : list KeyEvent :=
  match scancodes with
  | [] => []
  | c :: scancodes =>
      let '(d, event) := decode1 d c in
      option_list event ++ decode d scancodes
  end.

Definition released : decoder := {| prefix := false; shift := false; caps := false |}.

(** ** The layout tables *)

Definition key_ok (e : KeyEvent) : Prop :=
  match e with Key.Character b => 0x20 <= b <= 0x7e | _ => True end.

#[export] Instance key_ok_dec (e : KeyEvent) : Decision (key_ok e).
Proof. destruct e; simpl; apply _. Defined.

Definition opt_key_ok (o : option KeyEvent) : Prop := from_option key_ok True o.

#[export] Instance opt_key_ok_dec (o : option KeyEvent) : Decision (opt_key_ok o).
Proof. destruct o; simpl; apply _. Defined.

(** A statement about every byte, decided by evaluation. *)
Lemma forall_u8 (P : Z -> Prop) `{!forall z, Decision (P z)} :
  bool_decide (Forall P (seqZ 0 256)) = true -> forall z, is_uint 8 z -> P z.
Proof.
  intros Hall%bool_decide_eq_true z [? ?]. rewrite Forall_seqZ in Hall. apply Hall. lia.
Qed.

Lemma ascii_for_set_1_ok (scancode : Z) (sh cl : bool) :
  is_uint 8 scancode -> opt_key_ok (ascii_for_set_1 scancode sh cl).
Proof. apply (forall_u8 (fun z => opt_key_ok (ascii_for_set_1 z sh cl))). by destruct sh, cl; vm_compute. Qed.

Lemma extended_event_ok (scancode : Z) :
  is_uint 8 scancode -> opt_key_ok (extended_event_for_set_1 scancode).
Proof. apply (forall_u8 (fun z => opt_key_ok (extended_event_for_set_1 z))). by vm_compute. Qed.

Lemma high_bit_test (scancode : Z) :
  is_uint 8 scancode -> (Z.land scancode 0x80 =? 0) = (scancode <? 0x80).
Proof.
  apply (forall_u8 (fun z => (Z.land z 0x80 =? 0) = (z <? 0x80))). by vm_compute.
Qed.

(** ** The handler *)

Record keyboard_wf (k : Keyboard) : Prop := {
  kwf_queue : queue_wf (INPUT_QUEUE k);
  kwf_keys : Forall key_ok (contents (INPUT_QUEUE k));
  kwf_modifiers : 0 <= MODIFIERS k <= 3;
}.

Definition abs (k : Keyboard) : decoder := {|
  prefix := EXTENDED_PREFIX k;
  shift := Z.testbit (MODIFIERS k) 0;
  caps := Z.testbit (MODIFIERS k) 1;
|}.

Definition queue_after (q : InputQueue) (event : option KeyEvent) (q' : InputQueue) : Prop :=
  match event with
  | None => q' = q
  | Some e => push q e = Some q'
  end.

Lemma decode1_ok (d : decoder) (scancode : Z) :
  is_uint 8 scancode -> opt_key_ok (decode1 d scancode).2.
Proof.
  intros Hu. unfold decode1. repeat case_match; simpl; try done.
  - by apply extended_event_ok.
  - by apply ascii_for_set_1_ok.
Qed.

Lemma push_event_spec (k : Keyboard) (event : option KeyEvent) :
  keyboard_wf k -> opt_key_ok event ->
  exists k', push_event k event = Some k' /\ keyboard_wf k' /\
    MODIFIERS k' = MODIFIERS k /\ EXTENDED_PREFIX k' = EXTENDED_PREFIX k /\
    queue_after (INPUT_QUEUE k) event (INPUT_QUEUE k').
Proof.
  intros Hwf Hok. destruct event as [e|]; simpl; [|by exists k].
  destruct Hwf as [Hq Hk Hm]. destruct (push_spec _ e Hq) as (q' & Hp & Hq' & Hc).
  rewrite Hp. simpl. eexists. split; [done|]. split; [|done].
  constructor; simpl; [done| |done].
  case_decide; destruct Hc as [-> _]; [|done]. apply Forall_app. auto.
Qed.

Lemma modifier_bits (m : Z) :
  0 <= m <= 3 ->
  negb (Z.land m SHIFT =? 0) = Z.testbit m 0 /\ negb (Z.land m CAPS_LOCK =? 0) = Z.testbit m 1 /\
  (0 <= Z.lor m SHIFT <= 3 /\ Z.testbit (Z.lor m SHIFT) 0 = true /\
     Z.testbit (Z.lor m SHIFT) 1 = Z.testbit m 1) /\
  (0 <= Z.land m (not_w 8 SHIFT) <= 3 /\ Z.testbit (Z.land m (not_w 8 SHIFT)) 0 = false /\
     Z.testbit (Z.land m (not_w 8 SHIFT)) 1 = Z.testbit m 1) /\
  (0 <= Z.lxor m CAPS_LOCK <= 3 /\ Z.testbit (Z.lxor m CAPS_LOCK) 0 = Z.testbit m 0 /\
     Z.testbit (Z.lxor m CAPS_LOCK) 1 = negb (Z.testbit m 1)).
Proof.
  intros Hm. assert (Hcases : m = 0 \/ m = 1 \/ m = 2 \/ m = 3) by lia.
  destruct Hcases as [->|[->|[->| ->]]]; vm_compute; intuition congruence.
Qed.

Lemma handle_scancode_spec (k : Keyboard) (scancode : Z) :
  keyboard_wf k -> is_uint 8 scancode ->
  exists k', handle_scancode k scancode = Some k' /\ keyboard_wf k' /\
    abs k' = (decode1 (abs k) scancode).1 /\
    queue_after (INPUT_QUEUE k) (decode1 (abs k) scancode).2 (INPUT_QUEUE k').
Proof.
  intros Hwf Hu. pose proof (decode1_ok (abs k) scancode Hu) as Hok. pose proof Hwf as [Hq Hk Hm].
  destruct (modifier_bits (MODIFIERS k) Hm) as (Hs & Hcl & (?&?&?) & (?&?&?) & (?&?&?)).
  assert (Hpfx : forall b, keyboard_wf (set_prefix k b)) by (intros b; by constructor).
  unfold handle_scancode. unfold decode1 in *. simpl in *. rewrite high_bit_test, Hs, Hcl by done.
  destruct (Z.eqb_spec scancode 0xe0) as [->|He0].
  { eexists. split; [done|]. by rewrite decide_True. }
  rewrite (decide_False (P := scancode = 0xe0)) in * by done.
  destruct (EXTENDED_PREFIX k).
  { destruct (scancode <? 0x80); [|eexists; split; [done|]; by auto].
    destruct (push_event_spec (set_prefix k false) (extended_event_for_set_1 scancode))
      as (k' & Hp & Hwf' & Hm' & Hx' & Hqa); [done..|].
    exists k'. unfold abs. by rewrite Hm', Hx'. }
  destruct ((scancode =? 0x2a) || (scancode =? 0x36)) eqn:Hmake.
  { rewrite (decide_True (P := scancode ∈ [0x2a; 0x36])) by (rewrite !elem_of_cons; lia).
    eexists. split; [done|]. split; [by constructor|]. split; [|done].
    unfold abs. simpl. congruence. }
  rewrite (decide_False (P := scancode ∈ [0x2a; 0x36])) in * by (rewrite !elem_of_cons, elem_of_nil; lia).
  destruct ((scancode =? 0xaa) || (scancode =? 0xb6)) eqn:Hbreak.
  { rewrite (decide_True (P := scancode ∈ [0xaa; 0xb6])) by (rewrite !elem_of_cons; lia).
    eexists. split; [done|]. split; [by constructor|]. split; [|done].
    unfold abs. simpl. congruence. }
  rewrite (decide_False (P := scancode ∈ [0xaa; 0xb6])) in * by (rewrite !elem_of_cons, elem_of_nil; lia).
  destruct (Z.eqb_spec scancode 0x3a) as [->|Hcaps].
  { rewrite decide_True by done. eexists. split; [done|]. split; [by constructor|]. split; [|done].
    unfold abs. simpl. congruence. }
  rewrite (decide_False (P := scancode = 0x3a)) in * by done.
  destruct (scancode <? 0x80); simpl in *; [|eexists; split; [done|]; by auto].
  destruct (push_event_spec (set_prefix k false)
              (ascii_for_set_1 scancode (Z.testbit (MODIFIERS k) 0) (Z.testbit (MODIFIERS k) 1)))
    as (k' & Hp & Hwf' & Hm' & Hx' & Hqa); [done..|].
  exists k'. unfold abs. by rewrite Hm', Hx'.
Qed.

(** ** Runs of the handler *)

(** One interrupt per scancode. *)
Fixpoint handle_all (k : Keyboard) (scancodes : list Z) : option Keyboard :=
  match scancodes with
  | [] => Some k
  | c :: scancodes => k ← handle_scancode k c; handle_all k scancodes
  end.

Lemma contents_le (q : InputQueue) : queue_wf q -> (length (contents q) <= 255)%nat.
Proof.
  intros (_ & Hh & Ht). unfold contents. rewrite length_ring.
  destruct (pending_spec _ _ Hh Ht). lia.
Qed.

(** How many of [n] events do not fit behind the ones already pending. *)
Definition excess (q : InputQueue) (n : nat) : Z := Z.max 0 (Z.of_nat (length (contents q) + n) - 255).

Lemma queue_after_spec (q q' : InputQueue) (event : option KeyEvent) :
  queue_wf q -> is_uint 64 (dropped q) -> queue_after q event q' ->
  is_uint 64 (dropped q') /\
  contents q' = take 255 (contents q ++ option_list event) /\
  dropped q' = wrap 64 (dropped q + excess q (length (option_list event))).
Proof.
  intros Hq Hd Hafter. pose proof (contents_le q Hq) as Hle. unfold excess, wrap.
  destruct event as [e|]; simpl in *.
  - destruct (push_spec q e Hq) as (q2 & Hp & _ & Hc). simplify_eq.
    case_decide as Hlt; destruct Hc as [-> ->].
    + rewrite take_ge by (rewrite length_app; simpl; lia). split; [done|]. split; [done|].
      rewrite Z.max_l by lia. rewrite Z.add_0_r. symmetry. by apply Z.mod_small.
    + split; [by apply Z.mod_pos_bound|]. rewrite take_app_length' by lia. split; [done|].
      unfold wrap. do 2 f_equal. lia.
  - subst q'. rewrite app_nil_r, take_ge by lia. split; [done|]. split; [done|].
    rewrite Z.max_l by lia. rewrite Z.add_0_r. symmetry. by apply Z.mod_small.
Qed.

Lemma handle_all_spec (scancodes : list Z) (k : Keyboard) :
  keyboard_wf k -> is_uint 64 (dropped_chars k) -> Forall (is_uint 8) scancodes ->
  exists k', handle_all k scancodes = Some k' /\ keyboard_wf k' /\
    contents (INPUT_QUEUE k') =
      take 255 (contents (INPUT_QUEUE k) ++ decode (abs k) scancodes) /\
    dropped_chars k' =
      wrap 64 (dropped_chars k + excess (INPUT_QUEUE k) (length (decode (abs k) scancodes))).
Proof.
  unfold dropped_chars. revert k. induction scancodes as [|c scancodes IH]; intros k Hwf Hd Hu; simpl.
  { exists k. pose proof (contents_le _ (kwf_queue k Hwf)). rewrite app_nil_r, take_ge by lia.
    unfold excess, wrap. rewrite Z.max_l, Z.add_0_r, Z.mod_small by (done || lia). done. }
  apply Forall_cons in Hu as [Hc Hu].
  destruct (handle_scancode_spec k c Hwf Hc) as (k1 & -> & Hwf1 & Habs & Hq). simpl.
  destruct (decode1 (abs k) c) as [d event]. simpl in *.
  destruct (queue_after_spec _ _ _ (kwf_queue k Hwf) Hd Hq) as (Hd1 & Hc1 & Hdr1).
  destruct (IH k1 Hwf1 Hd1 Hu) as (k' & Hrun & Hwf' & Hc' & Hdr').
  exists k'. split; [done|]. split; [done|]. subst d.
  assert (Hle : (length (option_list event) <= 1)%nat) by (by destruct event; simpl; lia).
  pose proof (contents_le _ (kwf_queue k Hwf)). rewrite length_app. split.
  - rewrite Hc', Hc1, app_assoc. generalize (contents (INPUT_QUEUE k) ++ option_list event) as l.
    intros l. rewrite !take_app, take_take, Nat.min_id, length_take. f_equal. f_equal. lia.
  - rewrite Hdr', Hdr1. unfold excess. rewrite Hc1, length_take, length_app. unfold wrap.
    rewrite Zplus_mod_idemp_l. f_equal. lia.
Qed.

Lemma keyboard_new_wf : keyboard_wf keyboard_new.
Proof. constructor; [apply queue_new_wf|by apply Forall_nil|simpl; lia]. Qed.

(** C13: Whatever bytes the controller delivers, the handler never traps, and
    what the queue then holds is what the reference decoder reads in them: the
    first 255 events, with the rest counted as dropped.  Every character among
    them is printable ASCII. *)
Theorem handler_decodes (scancodes : list Z) :
  Forall (is_uint 8) scancodes ->
  exists k, handle_all keyboard_new scancodes = Some k /\
    contents (INPUT_QUEUE k) = take 255 (decode released scancodes) /\
    dropped_chars k = wrap 64 (Z.max 0 (Z.of_nat (length (decode released scancodes)) - 255)) /\
    Forall key_ok (contents (INPUT_QUEUE k)).
Proof.
  intros Hu.
  destruct (handle_all_spec scancodes keyboard_new keyboard_new_wf ltac:(done) Hu)
    as (k & Hrun & [_ Hkeys _] & Hc & Hd).
  by exists k.
Qed.

(** Shift down, A, A up, shift up, the up arrow: one letter and one arrow. *)
Lemma handler_decodes_witness :
  exists k, handle_all keyboard_new [0x2a; 0x1e; 0x9e; 0xaa; 0xe0; 0x48] = Some k /\
    contents (INPUT_QUEUE k) = [Key.Character 0x41; Key.Up].
Proof.
  destruct (handler_decodes [0x2a; 0x1e; 0x9e; 0xaa; 0xe0; 0x48]) as (k & Hrun & Hc & _).
  - repeat constructor; by vm_compute.
  - exists k. split; [exact Hrun|]. rewrite Hc. reflexivity.
Defined.

(** ** What can be typed *)

(** The keystrokes for an event: press and release, inside a press and release
    of the left shift key where the plain key gives something else. *)
Definition keystrokes (event : KeyEvent) : option (list Z) :=
  let find f := List.find (fun c => bool_decide (f c = Some event)) (seqZ 0 128) in
  match find (fun c => ascii_for_set_1 c false false) with
  | Some c => Some [c; c + 0x80]
  | None =>
      match find (fun c => ascii_for_set_1 c true false) with
      | Some c => Some [0x2a; c; c + 0x80; 0xaa]
      | None =>
          match find extended_event_for_set_1 with
          | Some c => Some [0xe0; c; 0xe0; c + 0x80]
          | None => None
          end
      end
  end.

Definition types_exactly (event : KeyEvent) : Prop :=
  match keystrokes event with
  | Some codes => Forall (is_uint 8) codes /\ decode released codes = [event]
  | None => False
  end.

#[export] Instance types_exactly_dec (event : KeyEvent) : Decision (types_exactly event).
Proof. unfold types_exactly. destruct (keystrokes event); apply _. Defined.

Lemma keystrokes_ok (event : KeyEvent) : key_ok event -> types_exactly event.
Proof.
  destruct event as [b| | | | | | | | | |]; simpl; [|by intros _; apply (bool_decide_unpack (types_exactly _));
    vm_compute..].
  intros Hb. assert (Hall : Forall (fun b => types_exactly (Key.Character b)) (seqZ 0x20 95)).
  { apply (bool_decide_unpack _). by vm_compute. }
  rewrite Forall_seqZ in Hall. apply Hall. lia.
Qed.

(** C29: Every event the decoder can produce at all can be typed: for each
    printable ASCII character and each editing key there are keystrokes that,
    from a keyboard with no modifier active and room in the queue, put exactly
    that event behind the ones already pending. *)
Theorem every_key_typable (event : KeyEvent) (k : Keyboard) :
  key_ok event -> keyboard_wf k -> is_uint 64 (dropped_chars k) ->
  abs k = released -> (length (contents (INPUT_QUEUE k)) < 255)%nat ->
  exists codes k', keystrokes event = Some codes /\ handle_all k codes = Some k' /\
    contents (INPUT_QUEUE k') = contents (INPUT_QUEUE k) ++ [event] /\
    dropped_chars k' = dropped_chars k.
Proof.
  intros Hok Hwf Hd Habs Hroom. pose proof (keystrokes_ok event Hok) as Ht.
  unfold types_exactly in Ht. destruct (keystrokes event) as [codes|]; [|done].
  destruct Ht as [Hu Hdec]. destruct (handle_all_spec codes k Hwf Hd Hu) as (k' & Hrun & _ & Hc & Hdr).
  rewrite Habs, Hdec in Hc, Hdr. exists codes, k'. split; [done|]. split; [done|].
  rewrite Hc, Hdr, take_ge by (rewrite length_app; simpl; lia). split; [done|].
  unfold excess, wrap. simpl. rewrite Z.max_l, Z.add_0_r by lia. by apply Z.mod_small.
Qed.

Lemma every_key_typable_witness :
  key_ok (Key.Character 0x7e) /\
  exists codes k', keystrokes (Key.Character 0x7e) = Some codes /\
    handle_all keyboard_new codes = Some k' /\
    contents (INPUT_QUEUE k') = [Key.Character 0x7e].
Proof.
  assert (Hok : key_ok (Key.Character 0x7e)) by (simpl; lia). split; [exact Hok|].
  destruct (every_key_typable (Key.Character 0x7e) keyboard_new Hok keyboard_new_wf)
    as (codes & k' & Hk & Hrun & Hc & _).
  - split; vm_compute; congruence.
  - reflexivity.
  - simpl. lia.
  - exists codes, k'. split; [exact Hk|]. split; [exact Hrun|]. exact Hc.
Defined.

(** Shift and caps lock.  A letter key gives the same letter whatever the
    modifiers, in upper case exactly when one of shift and caps lock is active;
    on every other key caps lock has no effect, and the editing keys and the
    space bar ignore shift too. *)
Lemma modifiers_select_case (scancode : Z) (sh cl : bool) :
  is_uint 8 scancode ->
  match ascii_for_set_1 scancode false false with
  | Some (Key.Character b) =>
      if is_ascii_lower b then
        ascii_for_set_1 scancode sh cl =
          Some (Key.Character (if xorb sh cl then to_ascii_uppercase b else b)) /\
        is_ascii_upper (to_ascii_uppercase b) = true
      else
        ascii_for_set_1 scancode sh cl = ascii_for_set_1 scancode sh false /\
        (b = 0x20 -> ascii_for_set_1 scancode sh cl = Some (Key.Character b))
  | event => ascii_for_set_1 scancode sh cl = event
  end.
Proof.
  revert scancode. unshelve refine (@forall_u8 _ _ _).
  - intros z. repeat case_match; apply _.
  - by destruct sh, cl; vm_compute.
Qed.

Lemma modifiers_select_case_witness :
  is_uint 8 0x1e /\ ascii_for_set_1 0x1e true true = Some (Key.Character 0x61).
Proof.
  assert (Hu : is_uint 8 0x1e) by (split; simpl; lia). split; [exact Hu|].
  exact (proj1 (modifiers_select_case 0x1e true true Hu)).
Defined.
