(* ===== verification/KeyboardController.v ===== *)
(** * KeyboardController: the setup conversation with the 8042

    Every [unsafe] access of [kernel/src/keyboard.rs] names the status bit its
    caller has observed.  This file proves that they have been, for every device
    that answers the ports, together with what the conversation writes and how
    long it can take. *)

From S2P Require Import Prelude Ports Keyboard.
#[local] Open Scope Z_scope.

(** ** Polite conversations *)

Definition input_empty (status : Z) : bool := Z.land status 0x02 =? 0.
Definition output_full (status : Z) : bool := negb (Z.land status 0x01 =? 0).

(** Whether an access is allowed straight after [last]. *)
Definition allowed (last : option port_event) (e : port_event) : bool :=
  match e with
  | In8 port _ =>
      if port =? PS2_STATUS_COMMAND then true
      else (port =? PS2_DATA) &&
           match last with
           | Some (In8 p s) => (p =? PS2_STATUS_COMMAND) && output_full s
           | _ => false
           end
  | Out8 port _ =>
      ((port =? PS2_STATUS_COMMAND) || (port =? PS2_DATA)) &&
      match last with
      | Some (In8 p s) => (p =? PS2_STATUS_COMMAND) && input_empty s
      | _ => false
      end
  | _ => false
  end.

Fixpoint polite_from (last : option port_event) (evs : list port_event) : bool :=
  match evs with
  | [] => true
  | e :: evs => allowed last e && polite_from (Some e) evs
  end.

(** Every data read straight after a status that shows the output buffer full,
    every write straight after one that shows the input buffer empty. *)
Definition polite (evs : list port_event) : bool := polite_from None evs.

(** The bytes read from the data port. *)
Definition answers (evs : list port_event) : list Z :=
  omap (fun e => match e with
                 | In8 p v => if p =? PS2_DATA then Some v else None
                 | _ => None
                 end) evs.

(** The configuration byte the driver writes back. *)
Definition configuration (command_byte : Z) : Z :=
  Z.land (Z.lor (Z.lor command_byte 0x01) 0x40) (not_w 8 0x10).

(** The writes of a complete setup. *)
Definition setup_writes (command_byte : Z) : list (Z * Z) :=
  [(PS2_STATUS_COMMAND, 0xad); (PS2_STATUS_COMMAND, 0x20); (PS2_STATUS_COMMAND, 0x60);
   (PS2_DATA, configuration command_byte); (PS2_STATUS_COMMAND, 0xae)].

Lemma polite_from_snoc (prev : option port_event) (evs : list port_event) (e : port_event) :
  polite_from prev (evs ++ [e]) =
  polite_from prev evs && allowed (match last evs with Some x => Some x | None => prev end) e.
Proof.
  revert prev. induction evs as [|x evs IH]; intros prev; simpl; [by rewrite andb_true_r|].
  rewrite IH, andb_assoc. do 2 f_equal. destruct evs as [|y evs]; [done|].
  change (last (x :: y :: evs)) with (last (y :: evs)).
  destruct (last (y :: evs)) eqn:Hl; [done|by apply last_None in Hl].
Qed.

Lemma polite_snoc (evs : list port_event) (e : port_event) :
  polite (evs ++ [e]) = polite evs && allowed (last evs) e.
Proof. unfold polite. rewrite polite_from_snoc. by destruct (last evs). Qed.

(** ** The conversation so far *)

Record conv (evs : list port_event) (ws : list (Z * Z)) (n : Z) : Prop := {
  conv_polite : polite evs = true;
  conv_writes : writes evs = ws;
  conv_length : Z.of_nat (length evs) <= n;
}.

(** The last event is a status with [bit]. *)
Definition observed (bit : Z -> bool) (evs : list port_event) : Prop :=
  exists s, last evs = Some (In8 PS2_STATUS_COMMAND s) /\ bit s = true.

Lemma conv_nil : conv [] [] 0.
Proof. by constructor. Qed.

Lemma conv_snoc (evs : list port_event) (ws : list (Z * Z)) (n : Z) (e : port_event) :
  conv evs ws n -> allowed (last evs) e = true -> conv (evs ++ [e]) (ws ++ writes [e]) (n + 1).
Proof.
  intros [Hp Hw Hn] He. constructor.
  - by rewrite polite_snoc, Hp, He.
  - by rewrite writes_app, Hw.
  - rewrite length_app. simpl. lia.
Qed.

Lemma conv_status (evs : list port_event) (ws : list (Z * Z)) (n s : Z) :
  conv evs ws n -> conv (evs ++ [In8 PS2_STATUS_COMMAND s]) ws (n + 1).
Proof. intros Hc. rewrite <- (app_nil_r ws). by apply (conv_snoc _ _ _ (In8 PS2_STATUS_COMMAND s)). Qed.

Lemma conv_data (evs : list port_event) (ws : list (Z * Z)) (n v : Z) :
  conv evs ws n -> observed output_full evs -> conv (evs ++ [In8 PS2_DATA v]) ws (n + 1).
Proof.
  intros Hc (s & Hl & Hs). rewrite <- (app_nil_r ws).
  apply (conv_snoc _ _ _ (In8 PS2_DATA v)); [done|]. by rewrite Hl.
Qed.

Lemma conv_write (evs : list port_event) (ws : list (Z * Z)) (n p v : Z) :
  conv evs ws n -> observed input_empty evs -> p = PS2_STATUS_COMMAND \/ p = PS2_DATA ->
  conv (evs ++ [Out8 p v]) (ws ++ [(p, v)]) (n + 1).
Proof.
  intros Hc (s & Hl & Hs) Hp. apply (conv_snoc _ _ _ (Out8 p v)); [done|].
  rewrite Hl. simpl. by destruct Hp as [-> | ->].
Qed.

Lemma conv_le (evs : list port_event) (ws : list (Z * Z)) (n m : Z) :
  conv evs ws n -> n <= m -> conv evs ws m.
Proof. intros [? ? ?] ?. constructor; [done..|lia]. Qed.

Lemma observed_snoc (bit : Z -> bool) (evs : list port_event) (s : Z) :
  bit s = true -> observed bit (evs ++ [In8 PS2_STATUS_COMMAND s]).
Proof. intros Hs. exists s. by rewrite last_snoc. Qed.

(** [emits] relative to the conversation so far. *)
Definition after {M A : Type} (evs : list port_event) (c : IO M A)
    (Q : A -> list port_event -> Prop) : Prop :=
  emits c (fun a e => Q a (evs ++ e)).

Section Steps.
Context {M : Type} `{Hardware M}.
Implicit Types (evs : list port_event).

Lemma after_ret {A : Type} evs (a : A) (Q : A -> list port_event -> Prop) :
  Q a evs -> after (M := M) evs (mret a) Q.
Proof. intros HQ. apply emits_ret. by rewrite app_nil_r. Qed.

Lemma after_impl {A : Type} evs (c : IO M A) (P Q : A -> list port_event -> Prop) :
  after evs c P -> (forall a evs', P a evs' -> Q a evs') -> after evs c Q.
Proof. intros Hc HPQ. eapply emits_impl; [exact Hc|]. auto. Qed.

Lemma after_bind {A B : Type} evs (c : IO M A) (k : A -> IO M B) P Q :
  after evs c P -> (forall a evs', P a evs' -> after evs' (k a) Q) -> after evs (c ≫= k) Q.
Proof.
  intros Hc Hk. unfold after in *. eapply emits_bind; [exact Hc|]. simpl. intros a e1 HP.
  eapply emits_impl; [apply Hk, HP|]. simpl. intros b e. by rewrite app_assoc.
Qed.

Lemma after_in8 {B : Type} evs (port : Z) (k : Z -> IO M B) Q :
  (forall v, is_uint 8 v -> after (evs ++ [In8 port v]) (k v) Q) -> after evs (in8 port ≫= k) Q.
Proof.
  intros Hk. eapply (after_bind _ _ _ (fun v evs' => is_uint 8 v /\ evs' = evs ++ [In8 port v])).
  - unfold after. eapply emits_impl; [apply emits_in8|]. by intros ? e [? ->].
  - intros v evs' [Hv ->]. by apply Hk.
Qed.

Lemma after_out8 {B : Type} evs (port v : Z) (k : unit -> IO M B) Q :
  after (evs ++ [Out8 port v]) (k tt) Q -> after evs (out8 port v ≫= k) Q.
Proof.
  intros Hk. eapply (after_bind _ _ _ (fun _ evs' => evs' = evs ++ [Out8 port v])).
  - unfold after. eapply emits_impl; [apply emits_out8|]. by intros ? e ->.
  - intros [] evs' ->. exact Hk.
Qed.

Lemma answers_app (e1 e2 : list port_event) : answers (e1 ++ e2) = answers e1 ++ answers e2.
Proof. apply omap_app. Qed.

(** Polling: status reads only; success means the bit was seen last. *)
Lemma wait_for_after (n : nat) (bit : Z -> bool) evs ws m :
  conv evs ws m ->
  after (M := M) evs (wait_for n bit) (fun ok evs' =>
    conv evs' ws (m + Z.of_nat n) /\ answers evs' = answers evs /\ (ok = true -> observed bit evs')).
Proof.
  revert evs m. induction n as [|n IH]; intros evs m Hc.
  - apply after_ret. split; [eapply conv_le; [eassumption|lia]|]. done.
  - cbn [wait_for]. apply after_in8. intros s Hs. destruct (bit s) eqn:Hbit.
    + apply after_ret. split; [eapply conv_le; [by apply conv_status|lia]|].
      rewrite answers_app, app_nil_r. auto using observed_snoc.
    + eapply after_impl; [apply (IH _ (m + 1)), conv_status, Hc|].
      cbn. intros ok e (Hc' & Ha & Hobs). split; [eapply conv_le; [eassumption|lia]|].
      split; [|done]. rewrite Ha, answers_app. by rewrite app_nil_r.
Qed.

Lemma drain_loop_after (n : nat) evs ws m :
  conv evs ws m ->
  after (M := M) evs (drain_loop n) (fun _ evs' => conv evs' ws (m + 2 * Z.of_nat n)).
Proof.
  revert evs m. induction n as [|n IH]; intros evs m Hc.
  - apply after_ret. eapply conv_le; [eassumption|lia].
  - cbn [drain_loop]. apply after_in8. intros s Hs. destruct (Z.land s 0x01 =? 0) eqn:Hbit.
    + apply after_ret. eapply conv_le; [by apply conv_status|lia].
    + apply after_in8. intros v Hv.
      eapply after_impl; [apply (IH _ (m + 1 + 1)), conv_data; [by apply conv_status|]|].
      * apply observed_snoc. unfold output_full. by rewrite Hbit.
      * cbn. intros _ e Hc'. eapply conv_le; [eassumption|lia].
Qed.

(** One guarded stage of the setup. *)
Lemma unless_timeout_after (bit : Z -> bool) evs ws m (k : IO M bool) Q :
  conv evs ws m ->
  (forall evs', conv evs' ws (m + 100000) -> answers evs' = answers evs ->
     Q false evs' /\ (observed bit evs' -> after evs' k Q)) ->
  after evs (unless_timeout (wait_for CONTROLLER_TIMEOUT bit) k) Q.
Proof.
  intros Hc Hk. unfold unless_timeout. eapply after_bind; [by apply wait_for_after|].
  intros ok evs' (Hc' & Ha & Hobs). change (Z.of_nat CONTROLLER_TIMEOUT) with 100000 in Hc'.
  destruct (Hk evs' Hc' Ha) as [Hfalse Hgo]. destruct ok; simpl; [by apply Hgo, Hobs|].
  by apply after_ret.
Qed.
End Steps.

(** ** The claim *)

Definition setup_bound : Z := 600070.

(** How far the setup got: which writes have been sent, and which byte the last
    data read returned once the configuration has been asked for. *)
Definition setup_result (ok : bool) (evs : list port_event) : Prop :=
  exists command_byte,
    conv evs (take (length (writes evs)) (setup_writes command_byte)) setup_bound /\
    ((length (writes evs) <= 2)%nat \/ last (answers evs) = Some command_byte) /\
    (ok = true <-> length (writes evs) = 5%nat).

Lemma setup_stopped (evs : list port_event) (ws : list (Z * Z)) (n command_byte : Z) :
  conv evs ws n -> n <= setup_bound -> (length ws < 5)%nat ->
  ws = take (length ws) (setup_writes command_byte) ->
  (length ws <= 2)%nat \/ last (answers evs) = Some command_byte ->
  setup_result false evs.
Proof.
  intros Hc Hn Hlen Hws Ha. exists command_byte. rewrite (conv_writes _ _ _ Hc).
  split; [rewrite <- Hws; by eapply conv_le|]. split; [done|]. split; [done|lia].
Qed.

Ltac stopped command_byte H :=
  apply (setup_stopped _ _ _ command_byte H);
  [unfold setup_bound; lia | simpl; lia | reflexivity | first [right; assumption | left; simpl; lia]].

Lemma initialize_controller_emits {M : Type} `{Hardware M} :
  emits (M := M) initialize_controller setup_result.
Proof.
  change (after [] (M := M) initialize_controller setup_result). unfold initialize_controller.
  eapply unless_timeout_after; [apply conv_nil|]. intros e1 H1 _.
  split; [stopped 0 H1|]. intros O1.
  apply after_out8. pose proof (conv_write _ _ _ PS2_STATUS_COMMAND 0xad H1 O1 (or_introl eq_refl)) as W1.
  eapply after_bind; [by apply (drain_loop_after 32)|]. intros [] e2 H2.
  eapply unless_timeout_after; [exact H2|]. intros e3 H3 _.
  split; [stopped 0 H3|]. intros O3.
  apply after_out8. pose proof (conv_write _ _ _ PS2_STATUS_COMMAND 0x20 H3 O3 (or_introl eq_refl)) as W3.
  eapply unless_timeout_after; [exact W3|]. intros e4 H4 _.
  split; [stopped 0 H4|]. intros O4.
  apply after_in8. intros cb Hcb. pose proof (conv_data _ _ _ cb H4 O4) as D4.
  assert (A4 : last (answers (e4 ++ [In8 PS2_DATA cb])) = Some cb) by (rewrite answers_app; apply last_snoc).
  eapply unless_timeout_after; [exact D4|]. intros e5 H5 A5. rewrite <- A5 in A4.
  split; [stopped cb H5|]. intros O5.
  apply after_out8. pose proof (conv_write _ _ _ PS2_STATUS_COMMAND 0x60 H5 O5 (or_introl eq_refl)) as W5.
  eapply unless_timeout_after; [exact W5|]. intros e6 H6 A6.
  rewrite answers_app, app_nil_r in A6. rewrite <- A6 in A4.
  split; [stopped cb H6|]. intros O6.
  apply after_out8. pose proof (conv_write _ _ _ PS2_DATA (configuration cb) H6 O6 (or_intror eq_refl)) as W6.
  eapply unless_timeout_after; [exact W6|]. intros e7 H7 A7.
  rewrite answers_app, app_nil_r in A7. rewrite <- A7 in A4.
  split; [stopped cb H7|]. intros O7.
  apply after_out8. pose proof (conv_write _ _ _ PS2_STATUS_COMMAND 0xae H7 O7 (or_introl eq_refl)) as W7.
  apply after_ret. exists cb. rewrite (conv_writes _ _ _ W7). split; [by eapply conv_le; [exact W7|unfold setup_bound]|].
  split; [|done]. right. by rewrite answers_app, app_nil_r.
Qed.

(** ** Giving up *)

(** The end of the log shows why: 100000 statuses in a row on which the input buffer
    was full, or the output buffer empty. *)
Definition gave_up (evs : list port_event) : Prop :=
  exists before polls, evs = before ++ polls /\ length polls = Z.to_nat 100000 /\
    ((forall e, e ∈ polls -> exists s, e = In8 0x64 s /\ Z.testbit s 1 = true) \/
     (forall e, e ∈ polls -> exists s, e = In8 0x64 s /\ Z.testbit s 0 = false)).

Lemma gave_up_app (e1 e2 : list port_event) : gave_up e2 -> gave_up (e1 ++ e2).
Proof. intros (b & p & -> & Hp). exists (e1 ++ b), p. by rewrite app_assoc. Qed.

Section GiveUp.
Context {M : Type} `{Hardware M}.

Lemma wait_for_polls (n : nat) (bit : Z -> bool) :
  emits (M := M) (wait_for n bit) (fun ok evs => ok = false ->
    length evs = n /\ forall e, e ∈ evs -> exists s, e = In8 PS2_STATUS_COMMAND s /\ bit s = false).
Proof.
  induction n as [|n IH]; cbn [wait_for].
  - apply emits_ret. intros _. split; [done|]. by intros e ?%elem_of_nil.
  - eapply emits_bind; [apply emits_in8|]. intros s e1 [_ ->]. destruct (bit s) eqn:Hb; [by apply emits_ret|].
    eapply emits_impl; [exact IH|]. cbn beta. intros ok evs Hn Hok. destruct (Hn Hok) as [Hl Hall].
    split; [simpl; lia|]. intros e [->|Hin]%elem_of_cons; [by exists s|by apply Hall].
Qed.

(** A routine that fails only by giving up. *)
Definition persists (c : IO M bool) : Prop := emits c (fun ok evs => ok = false -> gave_up evs).

Lemma persists_wait (bit : Z -> bool) (k : IO M bool) :
  (forall s, bit s = false -> Z.testbit s 1 = true) \/ (forall s, bit s = false -> Z.testbit s 0 = false) ->
  persists k -> persists (unless_timeout (wait_for CONTROLLER_TIMEOUT bit) k).
Proof.
  intros Hbit Hk. eapply emits_bind; [apply wait_for_polls|]. intros [] e1 Hpolls; cbn [negb].
  - eapply emits_impl; [exact Hk|]. cbn beta. intros ok e2 Hg Hok. by apply gave_up_app, Hg.
  - apply emits_ret. intros _. destruct (Hpolls eq_refl) as [Hl Hall]. exists [], e1. rewrite app_nil_r.
    split; [done|]. split; [exact Hl|]. destruct Hbit as [Hb|Hb]; [left|right];
      intros e (s & -> & Hs)%Hall; exists s; auto.
Qed.

Lemma persists_bind {A : Type} (c : IO M A) (k : A -> IO M bool) :
  emits c (fun _ _ => True) -> (forall a, persists (k a)) -> persists (c ≫= k).
Proof.
  intros Hc Hk. eapply emits_bind; [exact Hc|]. intros a e1 _. eapply emits_impl; [apply Hk|].
  cbn beta. intros ok e2 Hg Hok. by apply gave_up_app, Hg.
Qed.

Lemma drain_loop_emits (n : nat) : emits (M := M) (drain_loop n) (fun _ _ => True).
Proof.
  induction n as [|n IH]; cbn [drain_loop]; [by apply emits_ret|].
  eapply emits_bind; [apply emits_in8|]. intros s e1 _. destruct (Z.land s 0x01 =? 0); [by apply emits_ret|].
  eapply emits_bind; [apply emits_in8|]. intros v e2 _. exact IH.
Qed.

Lemma initialize_controller_persists : persists initialize_controller.
Proof.
  assert (Hin : forall k, persists k -> persists (unless_timeout wait_for_input_empty k)).
  { intros k Hk. apply persists_wait; [left|done]. intros s Hs. change 0x02 with (2 ^ 1) in Hs.
    rewrite land_pow2_test in Hs by lia. by apply negb_false_iff in Hs. }
  assert (Hout : forall k, persists k -> persists (unless_timeout wait_for_output_full k)).
  { intros k Hk. apply persists_wait; [right|done]. intros s Hs. change 0x01 with (2 ^ 0) in Hs.
    rewrite land_pow2_test, negb_involutive in Hs by lia. exact Hs. }
  assert (Hout8 : forall p v (k : unit -> IO M bool), (forall a, persists (k a)) -> persists (out8 p v ≫= k)).
  { intros p v k Hk. apply persists_bind; [|done]. eapply emits_impl; [apply emits_out8|done]. }
  unfold initialize_controller. apply Hin, Hout8. intros [].
  apply persists_bind; [apply drain_loop_emits|]. intros []. apply Hin, Hout8. intros []. apply Hout.
  apply persists_bind; [eapply emits_impl; [apply emits_in8|done]|]. intros cb. cbv zeta.
  apply Hin, Hout8. intros []. apply Hin, Hout8. intros []. apply Hin, Hout8. intros []. by apply emits_ret.
Qed.

(** Both at once, of one log. *)
Lemma initialize_controller_log (m : machine M) :
  exists evs, log (initialize_controller m).2 = log m ++ evs /\
    setup_result (initialize_controller m).1 evs /\
    ((initialize_controller m).1 = false -> gave_up evs).
Proof.
  destruct (initialize_controller_emits m) as (evs & Hl & Hr).
  destruct (initialize_controller_persists m) as (evs' & Hl' & Hg). rewrite Hl in Hl'.
  apply app_inv_head in Hl' as <-. by exists evs.
Qed.
End GiveUp.

(** C28: For every device behind the ports and every state of it,
    [initialize_controller] returns after at most 600070 port accesses; it reads
    the data port only straight after seeing the output buffer full and writes
    only straight after seeing the input buffer empty; what it writes is a prefix
    of the five writes of the setup (disable, read configuration, write
    configuration, its byte, enable), all of them exactly when it reports
    success, and less only after a controller that was never ready in 100000 polls;
    and the byte written back is the one the controller last returned
    with the interrupt and translation bits set, the clock-disable bit cleared
    and nothing else changed. *)
Theorem controller_setup {M : Type} `{Hardware M} (m : machine M) :
  exists evs command_byte,
    log (initialize_controller m).2 = log m ++ evs /\
    Z.of_nat (length evs) <= 600070 /\
    polite evs = true /\
    writes evs `prefix_of` setup_writes command_byte /\
    ((initialize_controller m).1 = true <-> writes evs = setup_writes command_byte) /\
    ((initialize_controller m).1 = false -> gave_up evs) /\
    ((2 < length (writes evs))%nat -> last (answers evs) = Some command_byte) /\
    forall i, 0 <= i < 8 ->
      Z.testbit (configuration command_byte) i =
      if decide (i = 0 \/ i = 6) then true
      else if decide (i = 4) then false
      else Z.testbit command_byte i.
Proof.
  destruct (initialize_controller_log m) as (evs & Hlog & (cb & [Hp Hw Hn] & Ha & Hok) & Hgave).
  exists evs, cb. split; [done|]. split; [done|]. split; [done|].
  split; [rewrite Hw; apply prefix_take|]. split; [|split; [exact Hgave|split]].
  - rewrite Hok. split; intros Heq; [|by rewrite Heq]. by rewrite Hw, Heq.
  - intros Hlt. destruct Ha; [lia|done].
  - intros i Hi. unfold configuration. rewrite Z.land_spec, !Z.lor_spec.
    assert (i = 0 \/ i = 1 \/ i = 2 \/ i = 3 \/ i = 4 \/ i = 5 \/ i = 6 \/ i = 7) as Hcases by lia.
    repeat destruct Hcases as [-> | Hcases]; [..|subst i]; cbn;
      rewrite ?orb_false_r, ?orb_true_r, ?andb_true_r, ?andb_false_r; done.
Qed.

(** ** A device that answers *)

(** A controller with a configuration byte and one pending output byte. *)
Record i8042 : Type := { config : Z; output : option Z; expecting : bool }.

#[export] Instance i8042_hardware : Hardware i8042 := {
  hw_in8 port c :=
    if port =? PS2_STATUS_COMMAND then (match output c with Some _ => 1 | None => 0 end, c)
    else (default 0 (output c), {| config := config c; output := None; expecting := expecting c |});
  hw_out8 port v c :=
    if port =? PS2_STATUS_COMMAND then
      {| config := config c;
         output := if v =? 0x20 then Some (config c) else output c;
         expecting := v =? 0x60 |}
    else if expecting c then {| config := v; output := output c; expecting := false |}
    else c;
  hw_in32 _ c := (0, c);
  hw_out32 _ _ c := c;
}.

(** The setup succeeds on it, with a stale byte in the output buffer, and leaves
    the interrupt enabled and the clock running. *)
Example responsive_controller_is_set_up :
  let '(ok, m) := initialize_controller
    {| devices := {| config := 0x30; output := Some 0xfa; expecting := false |}; log := [] |} in
  ok = true /\ config (devices m) = 0x61 /\ output (devices m) = None.
Proof. by vm_compute. Qed.
