(* ===== verification/Console.v ===== *)
(** * Console: text output

    Models [kernel/src/console.rs] and the pieces of [core::fmt] the kernel
    prints with.  What a routine prints is a list of actions: a [print!] reaches
    the serial line and then the framebuffer, a [serial_print!] only the first;
    the framebuffer's own entry points are actions of their own.  [Serial.v] and
    [Framebuffer.v] say what the two sinks do with the text. *)

From S2P Require Import Prelude Str.
From Stdlib Require Ascii String.
Export String.StringSyntax.
#[local] Open Scope Z_scope.

Inductive action : Type :=
| Print (text : str)
| SerialPrint (text : str)
| ClearScreen
| ShowCursor.

(** ** Formatting *)

(** A string literal of the source. *)
Definition lit (s : String.string) : str :=
  map (fun c => Z.of_N (Ascii.N_of_ascii c)) (String.list_ascii_of_string s).

Arguments lit s%_string_scope.

Definition digit (d : Z) : Z := if d <? 10 then 0x30 + d else 0x57 + d.

(** Digits of [z] in base [b], least significant first. *)
Fixpoint digits (fuel : nat) (b z : Z) : list Z :=
  match fuel with
  | O => []
  | S fuel => z mod b :: (if z <? b then [] else digits fuel b (z / b))
  end.

(** [{}] of an unsigned integer; twenty digits hold every [u64]. *)
Definition decimal (z : Z) : str := map digit (rev (digits 20 10 z)).

(** [{:>w$}] *)
Definition pad_left (w : nat) (s : str) : str := replicate (w - length s) 0x20 ++ s.

(** [{:02x}] of a byte. *)
Definition hex2 (b : Z) : str := [digit (b / 16); digit (b mod 16)].

Definition print (s : str) : list action := [Print s].
Definition println (s : str) : list action := [Print (s ++ [0x0a])].

(** What reaches the serial line and the screen. *)
Definition shown (a : action) : str := match a with Print s => s | _ => [] end.
Definition shown_all (l : list action) : str := concat (map shown l).

(** ** Reading a number back *)

Definition parse_decimal (s : str) : Z := fold_left (fun n c => n * 10 + (c - 0x30)) s 0.

Lemma digits_value (fuel : nat) (b z : Z) :
  2 <= b -> 0 <= z < b ^ Z.of_nat fuel -> fold_right (fun d n => d + b * n) 0 (digits fuel b z) = z.
Proof.
  intros Hb. revert z. induction fuel as [|fuel IH]; intros z Hz; [simpl in *; lia|].
  cbn [digits fold_right]. rewrite Nat2Z.inj_succ, Z.pow_succ_r in Hz by lia.
  pose proof (Z.div_mod z b ltac:(lia)) as Hdm. destruct (Z.ltb_spec z b).
  - cbn [fold_right]. rewrite Z.mod_small by lia. lia.
  - rewrite IH; [lia|]. split; [apply Z.div_pos; lia|]. apply Z.div_lt_upper_bound; lia.
Qed.

Lemma digits_range (fuel : nat) (b z : Z) : 2 <= b -> 0 <= z -> Forall (fun d => 0 <= d < b) (digits fuel b z).
Proof.
  intros Hb. revert z. induction fuel as [|fuel IH]; intros z Hz; simpl; constructor; [apply Z.mod_pos_bound; lia|].
  case_match; [constructor|]. apply IH, Z.div_pos; lia.
Qed.

Lemma decimal_roundtrip (z : Z) : is_uint 64 z -> parse_decimal (decimal z) = z.
Proof.
  intros [Hz Hlt]. unfold parse_decimal, decimal. rewrite map_rev, <- fold_left_rev_right, rev_involutive.
  transitivity (fold_right (fun d n => d + 10 * n) 0 (digits 20 10 z)).
  - pose proof (digits_range 20 10 z ltac:(lia) Hz) as Hr. induction Hr as [|d ds Hd _ IH]; [done|].
    simpl. rewrite IH. unfold digit. decide_tests. lia.
  - apply digits_value; [lia|]. simpl in *. lia.
Qed.

(** The same in base sixteen, of the digits after the "0x". *)
Definition hex_value (c : Z) : Z := if c <? 0x3a then c - 0x30 else c - 0x57.

Definition parse_hex (s : str) : Z := fold_left (fun n c => n * 16 + hex_value c) s 0.

Lemma hex_digits_roundtrip (z : Z) : is_uint 64 z -> parse_hex (map digit (rev (digits 16 16 z))) = z.
Proof.
  intros [Hz Hlt]. unfold parse_hex. rewrite map_rev, <- fold_left_rev_right, rev_involutive.
  transitivity (fold_right (fun d n => d + 16 * n) 0 (digits 16 16 z)).
  - pose proof (digits_range 16 16 z ltac:(lia) Hz) as Hr. induction Hr as [|d ds Hd _ IH]; [done|].
    cbn [map fold_right]. rewrite IH. unfold hex_value, digit. destruct (Z.ltb_spec d 10); decide_tests; lia.
  - apply digits_value; [lia|]. simpl in *. lia.
Qed.

Lemma shown_all_app (l1 l2 : list action) : shown_all (l1 ++ l2) = shown_all l1 ++ shown_all l2.
Proof. unfold shown_all. by rewrite map_app, concat_app. Qed.
