(* ===== verification/Allocator.v ===== *)
(** * Allocator: the bump allocator of the kernel heap

    Models [kernel/src/allocator.rs].  [alloc] is a compare-and-swap loop over
    one atomic; it appears as the function a caller sees when nothing interferes,
    and as a step relation in which any number of calls (an interrupted one and
    the interrupting ones) interleave their atomic accesses and the weak
    exchange may fail for no reason. *)

From S2P Require Import Prelude.
#[local] Open Scope Z_scope.

Record BumpAllocator : Type := { start : Z; end_ : Z; next : Z }.

Definition allocator_new : BumpAllocator := {| start := 0; end_ := 0; next := 0 |}.

(** [None] is a panic: the range overflows, or the heap is initialised twice. *)
Definition allocator_init (a : BumpAllocator) (heap_start heap_size : Z) : option BumpAllocator :=
  heap_end ← checked_add 64 heap_start heap_size;
  if negb (start a =? 0) then None
  else Some {| start := heap_start; end_ := heap_end; next := heap_start |}.

Definition capacity (a : BumpAllocator) : Z := saturating_sub (end_ a) (start a).

Definition used (a : BumpAllocator) : Z := saturating_sub (next a) (start a).

Record Layout : Type := { size : Z; align : Z }.

(** A [core::alloc::Layout]: the alignment is a power of two. *)
Definition layout_ok (l : Layout) : Prop :=
  is_uint 64 (size l) /\ exists k, 0 <= k < 64 /\ align l = 2 ^ k.

(** The body of the loop up to the exchange: the block's address and its end, or
    [None] for a null pointer. *)
Definition alloc_attempt (l : Layout) (end_ current : Z) : option (Z * Z) :=
  let align_mask := align l - 1 in
  sum ← checked_add 64 current align_mask;
  let aligned := Z.land sum (not_w 64 align_mask) in
  allocation_end ← checked_add 64 aligned (size l);
  if (current =? 0) || (end_ <? allocation_end) then None else Some (aligned, allocation_end).

(** A call that runs alone; the null pointer is [0]. *)
Definition alloc (a : BumpAllocator) (l : Layout) : Z * BumpAllocator :=
  match alloc_attempt l (end_ a) (next a) with
  | Some (aligned, allocation_end) =>
      (aligned, {| start := start a; end_ := end_ a; next := allocation_end |})
  | None => (0, a)
  end.

Definition dealloc (a : BumpAllocator) (ptr : Z) (l : Layout) : BumpAllocator := a.

Definition memory : Type := Z -> Z.

(** [ptr.write_bytes(value, count)] *)
Definition write_bytes (m : memory) (ptr value count : Z) : memory :=
  fun x => if (ptr <=? x) && (x <? ptr + count) then value else m x.

Definition alloc_zeroed (a : BumpAllocator) (m : memory) (l : Layout)
  : Z * BumpAllocator * memory :=
  let '(allocation, a) := alloc a l in
  (allocation, a, if negb (allocation =? 0) then write_bytes m allocation 0 (size l) else m).

(** ** Calls that interleave *)

Inductive call : Type :=
| Entered
| HasEnd (end_ : Z)
| HasNext (end_ current aligned allocation_end : Z)
| Returned (ptr : Z).

Record heap_state : Type := { heap : BumpAllocator; calls : list (Layout * call) }.

Definition set_call (st : heap_state) (i : nat) (l : Layout) (c : call) : heap_state :=
  {| heap := heap st; calls := <[i := (l, c)]> (calls st) |}.

Inductive heap_step : heap_state -> heap_state -> Prop :=
| step_enter st l :
    layout_ok l ->
    heap_step st {| heap := heap st; calls := calls st ++ [(l, Entered)] |}
| step_load_end st i l :
    calls st !! i = Some (l, Entered) ->
    heap_step st (set_call st i l (HasEnd (end_ (heap st))))
| step_load_next st i l e p q :
    calls st !! i = Some (l, HasEnd e) ->
    alloc_attempt l e (next (heap st)) = Some (p, q) ->
    heap_step st (set_call st i l (HasNext e (next (heap st)) p q))
| step_null st i l e :
    calls st !! i = Some (l, HasEnd e) ->
    alloc_attempt l e (next (heap st)) = None ->
    heap_step st (set_call st i l (Returned 0))
| step_exchange st i l e p q :
    calls st !! i = Some (l, HasNext e (next (heap st)) p q) ->
    heap_step st
      {| heap := {| start := start (heap st); end_ := end_ (heap st); next := q |};
         calls := <[i := (l, Returned p)]> (calls st) |}
| step_retry st i l e c p q :
    calls st !! i = Some (l, HasNext e c p q) ->
    heap_step st (set_call st i l (HasEnd e)).

(** ** One attempt *)

Definition heap_wf (a : BumpAllocator) : Prop :=
  0 < start a /\ start a <= next a <= end_ a /\ end_ a < 2 ^ 64.

(** A block handed out at [ptr]. *)
Definition aligned_to (l : Layout) (ptr : Z) : Prop := ptr mod align l = 0.

Lemma alloc_attempt_spec (l : Layout) (e c p q : Z) :
  layout_ok l -> 0 <= c < 2 ^ 64 -> alloc_attempt l e c = Some (p, q) ->
  0 < c <= p /\ p < c + align l /\ aligned_to l p /\ q = p + size l /\ q <= e.
Proof.
  intros [[Hs _] (k & Hk & Ha)] Hc Hat. unfold alloc_attempt in Hat. inv_some.
  destruct ((c =? 0) || (e <? _)) eqn:Hif; [done|]. simplify_eq. to_prop.
  rewrite Ha in *. apply checked_add_Some in E as [-> Hsum], E0 as [-> Hend].
  assert (0 < 2 ^ k) by (apply Z.pow_pos_nonneg; lia).
  rewrite land_not_ones in * by (unfold is_uint; lia).
  pose proof (round_down_bounds (c + (2 ^ k - 1)) (2 ^ k) ltac:(lia)).
  unfold aligned_to. rewrite Ha, Z.mod_mul by lia. lia.
Qed.

(** An attempt fails only when the block really does not fit. *)
Lemma alloc_attempt_None (l : Layout) (e c : Z) :
  layout_ok l -> 0 < c < 2 ^ 64 -> e < 2 ^ 64 -> alloc_attempt l e c = None ->
  forall p, c <= p -> aligned_to l p -> e < p + size l.
Proof.
  intros [[Hs _] (k & Hk & Ha)] Hc He Hat p Hcp Hal. unfold alloc_attempt, aligned_to in *. rewrite Ha in *.
  assert (0 < 2 ^ k) by (apply Z.pow_pos_nonneg; lia).
  assert (Hdiv : p = p / 2 ^ k * 2 ^ k) by (pose proof (Z.div_mod p (2 ^ k)); lia).
  assert (Hlow : forall x, c + (2 ^ k - 1) < 2 ^ 64 ->
            x = (c + (2 ^ k - 1)) / 2 ^ k * 2 ^ k -> x <= p).
  { intros x _ ->. rewrite Hdiv.
    apply Z.mul_le_mono_nonneg_r; [lia|]. apply Z.lt_succ_r.
    apply Z.div_lt_upper_bound; [lia|]. lia. }
  destruct (checked_add 64 c (2 ^ k - 1)) as [sum|] eqn:Hsum.
  - apply checked_add_Some in Hsum as [-> Hlt]. cbn [mbind option_bind] in Hat.
    rewrite land_not_ones in Hat by (unfold is_uint; lia).
    specialize (Hlow _ Hlt eq_refl). set (x := _ / _ * _) in *.
    destruct (checked_add 64 x (size l)) as [q|] eqn:Hq.
    + apply checked_add_Some in Hq as [-> _]. cbn [mbind option_bind] in Hat.
      destruct ((c =? 0) || (e <? x + size l)) eqn:Hif; [|done].
      apply orb_true_iff in Hif as [Hz|Hlt']; to_prop; lia.
    + unfold checked_add in Hq. destruct (Z.ltb_spec (x + size l) (2 ^ 64)); [done|]. lia.
  - unfold checked_add in Hsum. destruct (Z.ltb_spec (c + (2 ^ k - 1)) (2 ^ 64)); [done|].
    destruct (decide (p <= e)); [|lia]. exfalso.
    assert (Hpow : 2 ^ 64 = 2 ^ (64 - k) * 2 ^ k) by (rewrite <- Z.pow_add_r by lia; f_equal; lia).
    assert (p / 2 ^ k < 2 ^ (64 - k)) by (apply Z.div_lt_upper_bound; lia).
    assert ((p / 2 ^ k + 1) * 2 ^ k <= 2 ^ (64 - k) * 2 ^ k) by (apply Z.mul_le_mono_nonneg_r; lia).
    lia.
Qed.

(** C30: A call that runs alone either returns an aligned block that starts at or
    after everything handed out before and ends inside the heap, and accounts for
    it; or it returns null, changes nothing, and no aligned block of that size
    fits between the bump pointer and the end of the heap.  Freeing changes
    nothing, and [alloc_zeroed] clears exactly the new block. *)
Theorem alloc_spec (a : BumpAllocator) (l : Layout) (m : memory) :
  heap_wf a -> layout_ok l ->
  let '(p, a') := alloc a l in
  heap_wf a' /\ capacity a' = capacity a /\
  (p <> 0 ->
     aligned_to l p /\ next a <= p < next a + align l /\ next a' = p + size l /\ p + size l <= end_ a /\
     used a' = used a + (p - next a) + size l) /\
  (p = 0 -> a' = a /\ forall p', next a <= p' -> aligned_to l p' -> end_ a < p' + size l) /\
  dealloc a' p l = a' /\
  exists m', alloc_zeroed a m l = (p, a', m') /\
    forall x, m' x = if decide (p <> 0 /\ p <= x < p + size l) then 0 else m x.
Proof.
  intros (Hst & Hn & He) Hl. unfold alloc_zeroed, alloc.
  destruct (alloc_attempt l (end_ a) (next a)) as [[p q]|] eqn:Hat.
  - pose proof (proj1 Hl) as [? _].
    destruct (alloc_attempt_spec l (end_ a) (next a) p q Hl ltac:(lia) Hat) as (Hc & Hlt & Hal & -> & Hq).
    split; [unfold heap_wf; simpl; lia|]. split; [done|]. split; [|split; [intros ->; lia|split; [done|]]].
    + intros _. split; [done|]. split; [lia|]. split; [done|]. split; [lia|]. unfold used, saturating_sub. simpl. lia.
    + eexists. split; [done|]. intros x. rewrite (proj2 (Z.eqb_neq p 0)) by lia. unfold write_bytes. simpl.
      destruct (Z.leb_spec p x), (Z.ltb_spec x (p + size l)); simpl; case_decide; (done || lia).
  - split; [done|]. split; [done|]. split; [done|]. split; [|split; [done|]].
    + intros _. split; [done|]. eapply alloc_attempt_None; [done|lia..|done].
    + eexists. split; [done|]. intros x. by rewrite decide_False by tauto.
Qed.

Lemma alloc_spec_witness :
  let a := {| start := 0x555500000000; end_ := 0x555500200000; next := 0x555500000003 |} in
  let l := {| size := 40; align := 8 |} in
  heap_wf a /\ layout_ok l /\ (alloc a l).1 = 0x555500000008 /\ used (alloc a l).2 = 48.
Proof.
  intros a l. assert (Hwf : heap_wf a) by (unfold heap_wf; simpl; lia).
  assert (Hl : layout_ok l).
  { split; [split; simpl; lia|]. exists 3. split; [lia|reflexivity]. }
  split; [exact Hwf|]. split; [exact Hl|]. pose proof (alloc_spec a l (fun _ => 0) Hwf Hl) as Hspec.
  destruct (alloc a l) as [p a'] eqn:Ha. destruct Hspec as (_ & _ & Hok & _).
  vm_compute in Ha. injection Ha as <- <-. split; [reflexivity|].
  destruct (Hok ltac:(discriminate)) as (_ & _ & _ & _ & Hu). simpl fst. simpl snd.
  rewrite Hu. reflexivity.
Defined.

(** ** Every interleaving *)

(** The block a finished call holds. *)
Definition block_of (c : Layout * call) : option (Z * Z) :=
  match c with
  | (l, Returned p) => if p =? 0 then None else Some (p, p + size l)
  | _ => None
  end.

Definition call_ok (a : BumpAllocator) (c : Layout * call) : Prop :=
  layout_ok c.1 /\
  match c.2 with
  | Entered => True
  | HasEnd e => e = end_ a
  | HasNext e current p q =>
      e = end_ a /\ 0 < current <= next a /\ alloc_attempt c.1 e current = Some (p, q)
  | Returned p => p <> 0 -> aligned_to c.1 p /\ start a <= p /\ p + size c.1 <= next a
  end.

Definition blocks_disjoint (cs : list (Layout * call)) : Prop :=
  forall i j c1 c2 p1 q1 p2 q2,
    i <> j -> cs !! i = Some c1 -> cs !! j = Some c2 ->
    block_of c1 = Some (p1, q1) -> block_of c2 = Some (p2, q2) -> q1 <= p2 \/ q2 <= p1.

Record heap_inv (st : heap_state) : Prop := {
  inv_heap : heap_wf (heap st);
  inv_calls : Forall (call_ok (heap st)) (calls st);
  inv_disjoint : blocks_disjoint (calls st);
}.

(** Replacing a call that holds no block by one that holds none either, or whose
    block lies after all the others. *)
Lemma disjoint_insert (cs : list (Layout * call)) (i : nat) (c : Layout * call) (bound : Z) :
  blocks_disjoint cs ->
  (forall j c' p q, cs !! j = Some c' -> block_of c' = Some (p, q) -> q <= bound) ->
  (forall p q, block_of c = Some (p, q) -> bound <= p) ->
  blocks_disjoint (<[i := c]> cs).
Proof.
  intros Hd Hb Hc j1 j2 c1 c2 p1 q1 p2 q2 Hne H1 H2 B1 B2.
  apply list_lookup_insert_Some in H1, H2.
  destruct H1 as [(<- & <- & _)|[Hn1 H1]], H2 as [(<- & <- & _)|[Hn2 H2]]; try done.
  - right. apply (Z.le_trans _ bound); eauto.
  - left. apply (Z.le_trans _ bound); eauto.
  - exact (Hd j1 j2 c1 c2 p1 q1 p2 q2 Hne H1 H2 B1 B2).
Qed.

Lemma disjoint_snoc (cs : list (Layout * call)) (l : Layout) :
  blocks_disjoint cs -> blocks_disjoint (cs ++ [(l, Entered)]).
Proof.
  intros Hd j1 j2 c1 c2 p1 q1 p2 q2 Hne H1 H2 B1 B2.
  apply lookup_snoc_Some in H1 as [[? H1]|[_ <-]]; [|done].
  apply lookup_snoc_Some in H2 as [[? H2]|[_ <-]]; [|done].
  exact (Hd j1 j2 c1 c2 p1 q1 p2 q2 Hne H1 H2 B1 B2).
Qed.

Lemma call_ok_mono (a a' : BumpAllocator) (c : Layout * call) :
  start a' = start a -> end_ a' = end_ a -> next a <= next a' -> call_ok a c -> call_ok a' c.
Proof.
  intros Hs He Hn [Hl Hc]. split; [done|]. destruct c as [l [| | |]]; simpl in *; try done.
  - congruence.
  - destruct Hc as (? & ? & ?). split; [congruence|]. split; [lia|done].
  - intros Hp. destruct (Hc Hp) as (? & ? & ?). rewrite Hs. split; [done|]. lia.
Qed.

Lemma block_bound (a : BumpAllocator) (cs : list (Layout * call)) j c p q :
  Forall (call_ok a) cs -> cs !! j = Some c -> block_of c = Some (p, q) -> q <= next a.
Proof.
  intros Hcs Hj Hb. pose proof (Forall_lookup_1 _ _ _ _ Hcs Hj) as [_ Hc].
  destruct c as [l [| | |r]]; simpl in *; try done.
  destruct (Z.eqb_spec r 0); [done|]. simplify_eq. by destruct Hc as (_ & _ & ?).
Qed.

(** A step that leaves the bump pointer alone. *)
Lemma heap_inv_set_call (st : heap_state) (i : nat) (l : Layout) (c : call) :
  heap_inv st -> call_ok (heap st) (l, c) -> block_of (l, c) = None ->
  heap_inv (set_call st i l c).
Proof.
  intros [Hh Hc Hd] Hok Hb. constructor; simpl; [done|by apply Forall_insert|].
  apply (disjoint_insert _ _ _ (next (heap st))); [done| |congruence].
  intros j c' p q Hj. by eapply block_bound.
Qed.

Lemma heap_step_inv (st st' : heap_state) : heap_step st st' -> heap_inv st -> heap_inv st'.
Proof.
  intros Hstep Hinv. pose proof Hinv as [Hh Hc Hd]. pose proof Hh as (? & ? & ?).
  destruct Hstep as [st l Hl|st i l Hi|st i l e p q Hi Hat|st i l e Hi Hat|st i l e p q Hi|st i l e c p q Hi];
    try (pose proof (Forall_lookup_1 _ _ _ _ Hc Hi) as [Hl Hk]; simpl in Hl, Hk).
  - constructor; simpl; [done| |by apply disjoint_snoc].
    apply Forall_app. split; [done|]. repeat constructor; simpl; apply Hl.
  - by apply heap_inv_set_call.
  - apply heap_inv_set_call; [done| |done]. split; [done|]. simpl. subst e.
    split; [done|]. split; [lia|done].
  - by apply heap_inv_set_call.
  - destruct Hk as (-> & Hcur & Hat). pose proof (proj1 Hl) as [? _].
    destruct (alloc_attempt_spec l (end_ (heap st)) (next (heap st)) p q Hl ltac:(lia) Hat) as (? & ? & Hal & -> & ?).
    constructor; simpl.
    + unfold heap_wf. simpl. lia.
    + apply Forall_insert.
      * eapply Forall_impl; [exact Hc|]. intros c Hok. eapply call_ok_mono; [..|exact Hok]; simpl; lia.
      * split; [done|]. simpl. intros _. split; [done|]. lia.
    + apply (disjoint_insert _ _ _ (next (heap st))); [done| |].
      * intros j c' p' q' Hj. by eapply block_bound.
      * simpl. intros p' q'. destruct (p =? 0); [done|]. intros [= <- <-]. lia.
  - destruct Hk as (-> & _ & _). by apply heap_inv_set_call.
Qed.

(** C20: However the atomic accesses of any number of calls interleave, and
    however often the weak exchange fails, every pointer returned is null or an
    aligned block inside the heap, and no two blocks overlap. *)
Theorem interleaved_blocks_disjoint (heap_start heap_size : Z) (a : BumpAllocator) (st : heap_state) :
  0 < heap_start -> 0 <= heap_size ->
  allocator_init allocator_new heap_start heap_size = Some a ->
  rtc heap_step {| heap := a; calls := [] |} st ->
  (forall i l p, calls st !! i = Some (l, Returned p) ->
     p = 0 \/ aligned_to l p /\ heap_start <= p /\ p + size l <= heap_start + heap_size) /\
  (forall i j l1 l2 p1 p2, i <> j ->
     calls st !! i = Some (l1, Returned p1) -> calls st !! j = Some (l2, Returned p2) ->
     p1 <> 0 -> p2 <> 0 -> p1 + size l1 <= p2 \/ p2 + size l2 <= p1).
Proof.
  intros Hs Hz Hinit Hrun. unfold allocator_init in Hinit. inv_some. simpl in Hinit. simplify_eq.
  apply checked_add_Some in E as [-> Hov].
  set (a := {| start := _; end_ := _; next := _ |}) in *.
  assert (H0 : heap_inv {| heap := a; calls := [] |}).
  { constructor; simpl; [unfold heap_wf; simpl; lia|constructor|]. intros ? ? ? ? ? ? ? ? _ [=]. }
  assert (Hend : forall st1 st2, heap_step st1 st2 ->
             end_ (heap st2) = end_ (heap st1) /\ start (heap st2) = start (heap st1)).
  { by destruct 1. }
  assert (Hall : heap_inv st /\ end_ (heap st) = heap_start + heap_size /\ start (heap st) = heap_start).
  { revert Hrun. apply (rtc_preserves heap_step (fun st => heap_inv st /\
      end_ (heap st) = heap_start + heap_size /\ start (heap st) = heap_start)); [|done].
    intros st1 st2 Hst (Hi & He & Hst0). destruct (Hend _ _ Hst) as [-> ->].
    split; [by eapply heap_step_inv|done]. }
  destruct Hall as ([(_ & Hn & _) Hcs Hd] & He & Hst0). split.
  - intros i l p Hi. pose proof (Forall_lookup_1 _ _ _ _ Hcs Hi) as [_ Hk]. simpl in Hk.
    destruct (decide (p = 0)) as [|Hp]; [by left|right]. destruct (Hk Hp) as (? & ? & ?).
    split; [done|]. lia.
  - intros i j l1 l2 p1 p2 Hne H1 H2 Hp1 Hp2.
    apply (Hd i j (l1, Returned p1) (l2, Returned p2)); try done; simpl;
      by rewrite (proj2 (Z.eqb_neq _ _)).
Qed.

(** Two calls: the second runs entirely between the first one's load and its
    exchange, which then fails and is retried. *)
Lemma interleaved_blocks_disjoint_witness :
  let l := {| size := 24; align := 8 |} in
  exists a st, allocator_init allocator_new 0x555500000000 0x200000 = Some a /\
    rtc heap_step {| heap := a; calls := [] |} st /\
    calls st !! 0%nat = Some (l, Returned 0x555500000018) /\
    calls st !! 1%nat = Some (l, Returned 0x555500000000) /\
    0x555500000018 + 24 <= 0x555500000000 + 0x200000.
Proof.
  intros l. assert (Hl : layout_ok l).
  { split; [split; simpl; lia|]. exists 3. split; [lia|reflexivity]. }
  set (a := {| start := 0x555500000000; end_ := 0x555500200000; next := 0x555500000000 |}).
  set (a1 := {| start := 0x555500000000; end_ := 0x555500200000; next := 0x555500000018 |}).
  set (a2 := {| start := 0x555500000000; end_ := 0x555500200000; next := 0x555500000030 |}).
  assert (Hrun : rtc heap_step {| heap := a; calls := [] |}
    {| heap := a2; calls := [(l, Returned 0x555500000018); (l, Returned 0x555500000000)] |}).
  { eapply rtc_l; [apply (step_enter _ l Hl)|].
    eapply rtc_l; [apply (step_enter _ l Hl)|]. cbn.
    eapply rtc_l; [apply (step_load_end _ 0 l); reflexivity|]. cbn.
    eapply rtc_l; [eapply (step_load_next _ 0 l); reflexivity|]. cbn.
    eapply rtc_l; [apply (step_load_end _ 1 l); reflexivity|]. cbn.
    eapply rtc_l; [eapply (step_load_next _ 1 l); reflexivity|]. cbn.
    eapply rtc_l; [eapply (step_exchange _ 1 l); reflexivity|]. cbn.
    eapply rtc_l; [eapply (step_retry _ 0 l); reflexivity|]. cbn.
    eapply rtc_l; [eapply (step_load_next _ 0 l); reflexivity|]. cbn.
    eapply rtc_l; [eapply (step_exchange _ 0 l); reflexivity|]. cbn. apply rtc_refl. }
  exists a. eexists. split; [reflexivity|]. split; [exact Hrun|]. split; [reflexivity|].
  split; [reflexivity|].
  destruct (interleaved_blocks_disjoint 0x555500000000 0x200000 a _ ltac:(lia) ltac:(lia) eq_refl Hrun)
    as [Hin _].
  destruct (Hin 0%nat l 0x555500000018 eq_refl) as [Hz|(_ & _ & Hb)]; [discriminate|exact Hb].
Defined.
