(* ===== verification/Memory.v ===== *)
(** * Memory: physical frames and the heap mapping

    Models [kernel/src/memory.rs].  The page tables belong to the [x86_64]
    crate: they are a type with a [Mapper] instance, and [MapperSpec] states what
    its documentation promises.  [PhysFrame::containing_address] of a physical
    address is a parameter for the same reason. *)

From S2P Require Import Prelude VirtAddr Allocator.
#[local] Open Scope Z_scope.

Definition HEAP_START : Z := 0x555500000000.
Definition HEAP_SIZE : Z := 2 * 1024 * 1024.
Definition FRAME_SIZE : Z := 4096.

(** [bootloader_api::info] *)
Inductive MemoryRegionKind : Type :=
| Usable
| Bootloader
| UnknownUefi (n : Z)
| UnknownBios (n : Z).

#[export] Instance MemoryRegionKind_eq_dec : EqDecision MemoryRegionKind.
Proof. solve_decision. Defined.

Record MemoryRegion : Type := { region_start : Z; region_end : Z; region_kind : MemoryRegionKind }.

Record BootInfoFrameAllocator : Type := { memory_regions : list MemoryRegion; next_frame : Z }.

Definition frame_allocator_init (regions : list MemoryRegion) : BootInfoFrameAllocator :=
  {| memory_regions := regions; next_frame := 0 |}.

(** [(value + alignment - 1) & !(alignment - 1)]; the sum may overflow. *)
Definition align_up (value alignment : Z) : option Z :=
  sum ← checked_add 64 value alignment;
  Some (Z.land (sum - 1) (not_w 64 (alignment - 1))).

(** [(start..end).step_by(4096)] *)
Fixpoint step_from (start : Z) (n : nat) : list Z :=
  match n with
  | O => []
  | S n => start :: step_from (start + FRAME_SIZE) n
  end.

Definition frame_range (start end_ : Z) : list Z :=
  step_from start (Z.to_nat ((end_ - start + FRAME_SIZE - 1) / FRAME_SIZE)).

(** [Iterator::nth] of an iterator whose items are computed when they are
    reached; computing one may panic. *)
Fixpoint iter_nth {A : Type} (items : list (option A)) (n : nat) : option (option A) :=
  match items with
  | [] => Some None
  | None :: _ => None
  | Some x :: items => match n with O => Some (Some x) | S n => iter_nth items n end
  end.

Definition iter_count {A : Type} (items : list (option A)) : option Z :=
  if forallb (fun x => bool_decide (is_Some x)) items then Some (Z.of_nat (length items)) else None.

Inductive MapToError : Type :=
| FrameAllocationFailed
| OtherMapError (code : Z).

(** [PRESENT | WRITABLE | NO_EXECUTE] *)
Definition HEAP_FLAGS : Z := Z.lor (Z.lor 1 2) (Z.shiftl 1 63).

(** [Page::range_inclusive] over the pages that hold the two addresses. *)
Definition page_of (address : Z) : Z := address / FRAME_SIZE * FRAME_SIZE.

Definition page_range_inclusive (first last : Z) : list Z :=
  map (fun i => first + FRAME_SIZE * i) (seqZ 0 ((last - first) / FRAME_SIZE + 1)).

(** ** The active page tables *)

Section ActiveTables.
Context `{VirtAddrs} {PT : Type}.
(** The frame address in CR3, and [OffsetPageTable::new] of the crate. *)
Variable cr3 : Z.
Variable offset_page_table : Z -> Z -> PT.

(** The address of the level-4 table in the map of physical memory. *)
Definition active_level_4_table (physical_memory_offset : Z) : option Z :=
  virt_add physical_memory_offset cr3.

Definition memory_init (physical_memory_offset : Z) : option PT :=
  level_4_table ← active_level_4_table physical_memory_offset;
  Some (offset_page_table level_4_table physical_memory_offset).
End ActiveTables.

Section Frames.
(** The frame that holds a physical address; [None] where the crate panics. *)
Variable containing_frame : Z -> option Z.

Definition region_frames (region : MemoryRegion) : list (option Z) :=
  match align_up (region_start region) FRAME_SIZE with
  | None => [None]
  | Some start =>
      let end_ := Z.land (region_end region) (not_w 64 (FRAME_SIZE - 1)) in
      map containing_frame (frame_range start end_)
  end.

Definition usable_regions (regions : list MemoryRegion) : list MemoryRegion :=
  List.filter (fun region => bool_decide (region_kind region = Usable)) regions.

Definition usable_frames (fa : BootInfoFrameAllocator) : list (option Z) :=
  flat_map region_frames (usable_regions (memory_regions fa)).

Definition allocated_frames (fa : BootInfoFrameAllocator) : Z := next_frame fa.

Definition usable_frame_count (fa : BootInfoFrameAllocator) : option Z := iter_count (usable_frames fa).

Definition allocate_frame (fa : BootInfoFrameAllocator)
  : option (option Z * BootInfoFrameAllocator) :=
  frame ← iter_nth (usable_frames fa) (Z.to_nat (next_frame fa));
  next ← checked_add 64 (next_frame fa) 1;
  Some (frame, {| memory_regions := memory_regions fa; next_frame := next |}).

(** ** The mapper *)

Class Mapper (PT : Type) : Type := {
  map_to : PT -> Z -> Z -> Z -> BootInfoFrameAllocator ->
           outcome MapToError PT * BootInfoFrameAllocator;
  translate : PT -> Z -> option (Z * Z);
}.

Definition init_heap_page {PT : Type} `{Mapper PT} (page : Z) (state : PT * BootInfoFrameAllocator)
  : control (outcome MapToError (PT * BumpAllocator) * BootInfoFrameAllocator)
            (PT * BootInfoFrameAllocator) :=
  let '(pt, fa) := state in
  match allocate_frame fa with
  | None => Break (Panic, fa)
  | Some (None, fa) => Break (Err FrameAllocationFailed, fa)
  | Some (Some frame, fa) =>
      match map_to pt page frame HEAP_FLAGS fa with
      | (Ok pt, fa) => Continue (pt, fa)
      | (Err e, fa) => Break (Err e, fa)
      | (Panic, fa) => Break (Panic, fa)
      end
  end.

Definition heap_pages : list Z :=
  page_range_inclusive (page_of HEAP_START) (page_of (HEAP_START + (HEAP_SIZE - 1))).

(** Returns the page tables and the global allocator on success. *)
Definition init_heap {PT : Type} `{Mapper PT} (pt : PT) (fa : BootInfoFrameAllocator)
    (allocator : BumpAllocator)
  : outcome MapToError (PT * BumpAllocator) * BootInfoFrameAllocator :=
  match for_in init_heap_page heap_pages (pt, fa) with
  | Break r => r
  | Continue (pt, fa) =>
      (allocator ← or_panic (allocator_init allocator HEAP_START HEAP_SIZE); Ok (pt, allocator), fa)
  end.

(** ** The frames *)

(** Documented behaviour of [PhysAddr::new] and [PhysFrame::containing_address]
    on the 52 bits of a physical address. *)
Hypothesis containing_frame_spec :
  forall a, 0 <= a < 2 ^ 52 -> containing_frame a = Some (a / FRAME_SIZE * FRAME_SIZE).

(** What the firmware's memory map guarantees about usable regions. *)
Record regions_wf (regions : list MemoryRegion) : Prop := {
  rwf_bounds : Forall (fun r => 0 <= region_start r < 2 ^ 52 /\ 0 <= region_end r <= 2 ^ 52)
                 (usable_regions regions);
  rwf_disjoint : ForallOrdPairs
    (fun r1 r2 => region_end r1 <= region_start r2 \/ region_end r2 <= region_start r1)
    (usable_regions regions);
}.

(** The frames that lie entirely inside a region. *)
Definition frames_within (r : MemoryRegion) : list Z :=
  let first := (region_start r + 4095) / 4096 * 4096 in
  frame_range first (region_end r / 4096 * 4096).

Definition frames (regions : list MemoryRegion) : list Z :=
  flat_map frames_within (usable_regions regions).

Lemma elem_of_step_from (start : Z) (n : nat) (f : Z) :
  f ∈ step_from start n <-> exists i, 0 <= i < Z.of_nat n /\ f = start + 4096 * i.
Proof.
  revert start. induction n as [|n IH]; intros start; cbn [step_from].
  { rewrite elem_of_nil. split; [done|]. intros (i & ? & _). lia. }
  rewrite elem_of_cons, IH. unfold FRAME_SIZE. split.
  - intros [->|(i & ? & ->)]; [exists 0; lia|]. exists (i + 1). lia.
  - intros (i & ? & ->). destruct (decide (i = 0)); [left; lia|]. right. exists (i - 1). lia.
Qed.

Lemma step_from_NoDup (start : Z) (n : nat) : NoDup (step_from start n).
Proof.
  revert start. induction n as [|n IH]; intros start; cbn [step_from]; constructor; [|apply IH].
  rewrite elem_of_step_from. intros (i & ? & ?). unfold FRAME_SIZE in *. lia.
Qed.

Lemma elem_of_frames_within (r : MemoryRegion) (f : Z) :
  f ∈ frames_within r <-> f mod 4096 = 0 /\ region_start r <= f /\ f + 4096 <= region_end r.
Proof.
  unfold frames_within, frame_range, FRAME_SIZE. rewrite elem_of_step_from. split.
  - intros (i & Hi & ->). zlia.
  - intros (Hm & Hs & He). exists ((f - (region_start r + 4095) / 4096 * 4096) / 4096). zlia.
Qed.

Lemma frames_spec (regions : list MemoryRegion) (f : Z) :
  f ∈ frames regions <->
  exists r, r ∈ regions /\ region_kind r = Usable /\ f mod 4096 = 0 /\
    region_start r <= f /\ f + 4096 <= region_end r.
Proof.
  unfold frames, usable_regions. rewrite list_elem_of_In, in_flat_map.
  setoid_rewrite filter_In. setoid_rewrite <- list_elem_of_In.
  setoid_rewrite elem_of_frames_within. setoid_rewrite bool_decide_eq_true.
  split; intros (r & Hr); exists r; tauto.
Qed.

Lemma frames_within_NoDup (r : MemoryRegion) : NoDup (frames_within r).
Proof. apply step_from_NoDup. Qed.

Lemma frames_NoDup (regions : list MemoryRegion) : regions_wf regions -> NoDup (frames regions).
Proof.
  intros [_ Hd]. unfold frames. induction Hd as [|r rs Hr _ IH]; [constructor|]. simpl.
  apply NoDup_app. split; [apply frames_within_NoDup|]. split; [|exact IH].
  intros f Hf Hin. apply elem_of_frames_within in Hf as (_ & ? & ?).
  apply list_elem_of_In, in_flat_map in Hin as (r' & Hr' & Hf').
  apply list_elem_of_In, elem_of_frames_within in Hf' as (_ & ? & ?).
  rewrite List.Forall_forall in Hr. specialize (Hr r' Hr'). lia.
Qed.

Lemma align_up_spec (value : Z) :
  0 <= value < 2 ^ 52 -> align_up value FRAME_SIZE = Some ((value + 4095) / 4096 * 4096).
Proof.
  intros Hv. unfold align_up. rewrite checked_add_lt by (unfold FRAME_SIZE; lia).
  cbn [mbind option_bind]. f_equal. change (FRAME_SIZE - 1) with (2 ^ 12 - 1).
  rewrite land_not_ones by (unfold is_uint, FRAME_SIZE; lia).
  change (2 ^ 12) with 4096. unfold FRAME_SIZE. do 2 f_equal. lia.
Qed.

Lemma region_frames_spec (r : MemoryRegion) :
  0 <= region_start r < 2 ^ 52 -> 0 <= region_end r <= 2 ^ 52 ->
  region_frames r = map Some (frames_within r).
Proof.
  intros Hs He. unfold region_frames. rewrite align_up_spec by done.
  change (FRAME_SIZE - 1) with (2 ^ 12 - 1). rewrite land_not_ones by (unfold is_uint; lia).
  change (2 ^ 12) with 4096. fold (frames_within r).
  apply map_ext_in. intros f Hf. apply list_elem_of_In, elem_of_frames_within in Hf.
  rewrite containing_frame_spec by lia. f_equal. unfold FRAME_SIZE. zlia.
Qed.

Lemma usable_frames_spec (fa : BootInfoFrameAllocator) :
  regions_wf (memory_regions fa) -> usable_frames fa = map Some (frames (memory_regions fa)).
Proof.
  intros [Hb _]. unfold usable_frames, frames. induction Hb as [|r rs [Hs He] _ IH]; [done|].
  simpl. by rewrite region_frames_spec, IH, map_app.
Qed.

Lemma iter_nth_Some {A : Type} (l : list A) (n : nat) : iter_nth (map Some l) n = Some (l !! n).
Proof. revert n. induction l as [|x l IH]; intros [|n]; simpl; [done..|apply IH]. Qed.

Lemma allocate_frame_spec (fa : BootInfoFrameAllocator) :
  regions_wf (memory_regions fa) -> 0 <= next_frame fa < 2 ^ 64 - 1 ->
  allocate_frame fa =
    Some (frames (memory_regions fa) !! Z.to_nat (next_frame fa),
          {| memory_regions := memory_regions fa; next_frame := next_frame fa + 1 |}).
Proof.
  intros Hwf Hn. unfold allocate_frame. rewrite usable_frames_spec, iter_nth_Some by done.
  cbn [mbind option_bind]. by rewrite checked_add_lt by lia.
Qed.

(** [n] calls, with the frames they return. *)
Fixpoint allocate_n (n : nat) (fa : BootInfoFrameAllocator)
  : option (list (option Z) * BootInfoFrameAllocator) :=
  match n with
  | O => Some ([], fa)
  | S n =>
      '(frame, fa) ← allocate_frame fa;
      '(rest, fa) ← allocate_n n fa;
      Some (frame :: rest, fa)
  end.

Lemma allocate_n_spec (n : nat) (fa : BootInfoFrameAllocator) :
  regions_wf (memory_regions fa) -> 0 <= next_frame fa -> next_frame fa + Z.of_nat n < 2 ^ 64 ->
  allocate_n n fa =
    Some (map (fun i => frames (memory_regions fa) !! i) (seq (Z.to_nat (next_frame fa)) n),
          {| memory_regions := memory_regions fa; next_frame := next_frame fa + Z.of_nat n |}).
Proof.
  revert fa. induction n as [|n IH]; intros fa Hwf Hn Hb; cbn [allocate_n].
  { rewrite Z.add_0_r. by destruct fa. }
  rewrite allocate_frame_spec by (done || lia). cbn [mbind option_bind].
  rewrite IH by (simpl; done || lia). cbn [mbind option_bind memory_regions next_frame].
  replace (Z.to_nat (next_frame fa + 1)) with (S (Z.to_nat (next_frame fa))) by lia.
  cbn [seq map]. do 3 f_equal. lia.
Qed.

(** Looking up the first [n] positions, in and out of range. *)
Lemma lookup_take_seq {A : Type} (n : nat) (l : list A) :
  map (fun i => l !! i) (seq 0 n) = take n (map Some l) ++ replicate (n - length l) None.
Proof.
  revert l. induction n as [|n IH]; intros l; [done|].
  assert (Hshift : forall f : nat -> option A, map f (seq 1 n) = map (fun i => f (S i)) (seq 0 n)).
  { intros f. change (map ?f ?l) with (f <$> l). by rewrite <- fmap_S_seq, <- list_fmap_compose. }
  cbn [seq map]. rewrite Hshift. destruct l as [|x l].
  - simpl. f_equal. specialize (IH []). simpl in IH. rewrite take_nil, Nat.sub_0_r in IH. exact IH.
  - cbn [map take length Nat.sub app]. f_equal. apply IH.
Qed.

Lemma usable_frame_count_spec (fa : BootInfoFrameAllocator) :
  regions_wf (memory_regions fa) ->
  usable_frame_count fa = Some (Z.of_nat (length (frames (memory_regions fa)))).
Proof.
  intros Hwf. unfold usable_frame_count, iter_count. rewrite usable_frames_spec by done.
  rewrite (proj2 (forallb_forall _ _)); [by rewrite length_map|].
  intros x (f & <- & _)%in_map_iff. by apply bool_decide_eq_true.
Qed.

(** C26: On a memory map whose usable regions do not overlap, any number of calls
    of [allocate_frame] from a fresh allocator hand out, in order, the frames that
    lie entirely inside usable regions, each exactly once, and report exhaustion
    after the last; the count of usable frames is their number, and calls that
    fail are counted as consumed too. *)
Theorem frame_allocator_spec (regions : list MemoryRegion) (n : nat) :
  regions_wf regions -> Z.of_nat n < 2 ^ 64 ->
  let fa := frame_allocator_init regions in
  (forall f, f ∈ frames regions <->
     exists r, r ∈ regions /\ region_kind r = Usable /\ f mod 4096 = 0 /\
       region_start r <= f /\ f + 4096 <= region_end r) /\
  NoDup (frames regions) /\
  usable_frame_count fa = Some (Z.of_nat (length (frames regions))) /\
  exists results fa', allocate_n n fa = Some (results, fa') /\
    results = take n (map Some (frames regions)) ++ replicate (n - length (frames regions)) None /\
    allocated_frames fa' = Z.of_nat n.
Proof.
  intros Hwf Hn fa. split; [apply frames_spec|]. split; [by apply frames_NoDup|]. split.
  - by apply (usable_frame_count_spec fa).
  - do 2 eexists. rewrite allocate_n_spec by (done || simpl; lia). split; [done|].
    split; [|unfold allocated_frames; simpl; lia]. simpl. generalize (frames regions) as l.
    intros l. apply lookup_take_seq.
Qed.

(** ** The heap mapping *)

(** What [Mapper::map_to] documents: on success no other page's translation changes
    and, if the flags have the present bit, the page translates to the frame with
    the flags; frames for new page tables come from the allocator it is given, at
    most one per missing level. *)
Class MapperSpec (PT : Type) `{Mapper PT} : Prop := {
  map_to_translates : forall pt page frame flags fa pt' fa',
    map_to pt page frame flags fa = (Ok pt', fa') ->
    (Z.testbit flags 0 = true -> translate pt' page = Some (frame, flags)) /\
    forall other, other <> page -> translate pt' other = translate pt other;
  map_to_allocates : forall pt page frame flags fa r fa',
    map_to pt page frame flags fa = (r, fa') -> r <> Panic ->
    exists n results, (n <= 3)%nat /\ allocate_n n fa = Some (results, fa');
  map_to_no_panic : forall pt page frame flags fa fa',
    map_to pt page frame flags fa = (Panic, fa') -> exists n, (n <= 3)%nat /\ allocate_n n fa = None;
}.

(** The entry bits of a page of the heap, by the processor's manual: bit 0 present,
    bit 1 writable, bit 63 not executable, and no other. *)
Definition data_page_flags (flags : Z) : Prop :=
  forall i, 0 <= i -> Z.testbit flags i = true <-> i = 0 \/ i = 1 \/ i = 63.

Lemma HEAP_FLAGS_data : data_page_flags HEAP_FLAGS.
Proof.
  intros i Hi. unfold HEAP_FLAGS. rewrite !Z.lor_spec, Z.shiftl_1_l, Z.pow2_bits_eqb by lia.
  change 1 with (2 ^ 0) at 1. change 2 with (2 ^ 1) at 2. rewrite !Z.pow2_bits_eqb by lia.
  rewrite !orb_true_iff, !Z.eqb_eq. lia.
Qed.

Section Heap.
Context {PT : Type} `{MapperSpec PT} (regions : list MemoryRegion).
Hypothesis Hregions : regions_wf regions.

(** Pages mapped so far, with their frames: distinct frames, all of them below
    the allocator's position. *)
Record heap_progress (pt : PT) (fa : BootInfoFrameAllocator) (mapped : list (Z * Z)) : Prop := {
  hp_regions : memory_regions fa = regions;
  hp_next : Z.of_nat (length mapped) <= next_frame fa <= 4 * Z.of_nat (length mapped);
  hp_mapped : Forall (fun m => translate pt m.1 = Some (m.2, HEAP_FLAGS)) mapped;
  hp_frames : Forall (fun m => exists i, (i < Z.to_nat (next_frame fa))%nat /\
                                 frames regions !! i = Some m.2) mapped;
  hp_distinct : NoDup (map snd mapped);
}.

(** Why the mapping may fail: there are too few usable frames, or the page tables
    refuse a mapping. *)
Definition heap_failure (e : MapToError) : Prop :=
  e = FrameAllocationFailed /\ Z.of_nat (length (frames regions)) < 2048 \/
  exists pt page frame flags fa fa', data_page_flags flags /\
    map_to pt page frame flags fa = (Err e, fa').

Lemma init_heap_page_progress (pt : PT) (fa : BootInfoFrameAllocator) (mapped : list (Z * Z)) (page : Z) :
  heap_progress pt fa mapped -> (length mapped < 512)%nat -> page ∉ map fst mapped ->
  match init_heap_page page (pt, fa) with
  | Continue (pt', fa') => exists frame, heap_progress pt' fa' (mapped ++ [(page, frame)])
  | Break (Err e, fa') => heap_failure e
  | Break _ => False
  end.
Proof.
  intros [Hr Hn Hm Hf Hd] Hlen Hpage. unfold init_heap_page.
  rewrite allocate_frame_spec by (rewrite ?Hr; done || lia). rewrite Hr.
  destruct (frames regions !! Z.to_nat (next_frame fa)) as [frame|] eqn:Hfr.
  2: { left. split; [done|]. apply lookup_ge_None in Hfr. lia. }
  set (fa1 := {| memory_regions := regions; next_frame := next_frame fa + 1 |}).
  assert (Halloc : forall n, (n <= 3)%nat -> allocate_n n fa1 =
            Some (map (fun i => frames regions !! i) (seq (Z.to_nat (next_frame fa + 1)) n),
                  {| memory_regions := regions; next_frame := next_frame fa + 1 + Z.of_nat n |})).
  { intros n Hn3. apply (allocate_n_spec n fa1); simpl; (done || lia). }
  destruct (map_to pt page frame HEAP_FLAGS fa1) as [[pt'|e|] fa2] eqn:Hmap; [|right; by eauto 10 using HEAP_FLAGS_data|].
  - destruct (map_to_translates _ _ _ _ _ _ _ Hmap) as [Hpt Hothers].
    specialize (Hpt eq_refl).
    destruct (map_to_allocates _ _ _ _ _ _ _ Hmap ltac:(done)) as (n & results & Hn3 & Ha).
    rewrite Halloc in Ha by done. simplify_eq.
    exists frame. constructor; simpl.
    + done.
    + rewrite length_app. simpl. lia.
    + apply Forall_app. split; [|by repeat constructor].
      rewrite Forall_forall in Hm |- *. intros m Hin. rewrite Hothers; [by apply Hm|].
      intros Heq. apply Hpage. rewrite <- Heq. apply list_elem_of_In, in_map. by apply list_elem_of_In.
    + apply Forall_app. split.
      * eapply Forall_impl; [exact Hf|]. intros m (i & Hi & Hl). exists i. split; [lia|done].
      * repeat constructor. exists (Z.to_nat (next_frame fa)). split; [lia|done].
    + rewrite map_app. apply NoDup_app. split; [done|]. split; [|apply NoDup_singleton].
      intros f Hin Hf1. apply list_elem_of_singleton in Hf1. simpl in Hf1. subst f.
      apply list_elem_of_In, in_map_iff in Hin as (m & Heq & Hin).
      rewrite Forall_forall in Hf. apply list_elem_of_In in Hin.
      destruct (Hf m Hin) as (i & Hi & Hl). rewrite Heq in Hl.
      pose proof (NoDup_lookup _ _ _ _ (frames_NoDup regions Hregions) Hl Hfr). lia.
  - destruct (map_to_no_panic _ _ _ _ _ _ Hmap) as (n & Hn3 & Ha). by rewrite Halloc in Ha.
Qed.

Lemma for_in_heap_pages (pages : list Z) (pt : PT) (fa : BootInfoFrameAllocator) (mapped : list (Z * Z)) :
  heap_progress pt fa mapped -> (length mapped + length pages <= 512)%nat ->
  NoDup (map fst mapped ++ pages) ->
  match for_in init_heap_page pages (pt, fa) with
  | Continue (pt', fa') => exists mapped', map fst mapped' = map fst mapped ++ pages /\
      heap_progress pt' fa' mapped'
  | Break (Err e, fa') => heap_failure e
  | Break _ => False
  end.
Proof.
  revert pt fa mapped. induction pages as [|page pages IH]; intros pt fa mapped Hp Hlen Hnd; cbn [for_in].
  { exists mapped. by rewrite app_nil_r. }
  cbn [length] in Hlen. pose proof (proj1 (NoDup_app _ _) Hnd) as (_ & Hnew & _).
  assert (Hpage : page ∉ map fst mapped).
  { intros Hin. apply (Hnew page Hin). apply list_elem_of_here. }
  pose proof (init_heap_page_progress pt fa mapped page Hp ltac:(lia) Hpage) as Hstep.
  destruct (init_heap_page page (pt, fa)) as [[[]]|[pt' fa']]; try done.
  destruct Hstep as [frame Hp'].
  specialize (IH pt' fa' (mapped ++ [(page, frame)]) Hp').
  rewrite map_app, length_app, <- app_assoc in IH. apply IH; [simpl; lia|done].
Qed.

Lemma heap_pages_lookup (i : Z) :
  0 <= i < 512 -> heap_pages !! Z.to_nat i = Some (HEAP_START + 4096 * i).
Proof.
  intros Hi. unfold heap_pages, page_range_inclusive. change (map ?f ?l) with (f <$> l).
  rewrite list_lookup_fmap. change (seqZ 0 _) with (seqZ 0 512).
  rewrite lookup_seqZ_lt by lia. simpl. f_equal.
  change (page_of HEAP_START) with HEAP_START. unfold FRAME_SIZE. lia.
Qed.

Lemma heap_pages_NoDup : NoDup heap_pages.
Proof.
  unfold heap_pages, page_range_inclusive. change (map ?f ?l) with (f <$> l).
  apply NoDup_fmap; [|apply NoDup_seqZ]. intros x y. unfold FRAME_SIZE. lia.
Qed.

(** The index of the heap page that holds an address. *)
Definition heap_index (x : Z) : Z := (x - HEAP_START) / 4096.

Lemma page_of_heap (x : Z) :
  HEAP_START <= x < HEAP_START + HEAP_SIZE ->
  0 <= heap_index x < 512 /\ page_of x = HEAP_START + 4096 * heap_index x /\
  heap_index (page_of x) = heap_index x.
Proof. unfold page_of, heap_index, HEAP_START, HEAP_SIZE, FRAME_SIZE. intros Hx. zlia. Qed.

(** What later stages of boot need of it. *)
Lemma init_heap_result (pt : PT) :
  match init_heap pt (frame_allocator_init regions) allocator_new with
  | (Ok (pt', allocator), fa') =>
      allocator = {| start := HEAP_START; end_ := HEAP_START + HEAP_SIZE; next := HEAP_START |} /\
      memory_regions fa' = regions /\ 512 <= allocated_frames fa' <= 2048
  | (Err e, _) => heap_failure e
  | (Panic, _) => False
  end.
Proof.
  assert (Hstart : heap_progress pt (frame_allocator_init regions) []).
  { constructor; simpl; [done|lia|constructor..]. }
  pose proof (for_in_heap_pages heap_pages _ _ [] Hstart ltac:(done) heap_pages_NoDup) as Hloop.
  unfold init_heap. destruct (for_in _ _ _) as [[[]]|[pt' fa']]; try done.
  destruct Hloop as (mapped & Hfst & [Hr Hn _ _ _]). cbn [map app] in Hfst.
  assert (Hlen : length mapped = 512%nat) by (rewrite <- (length_map fst), Hfst; done).
  split; [done|]. split; [done|]. unfold allocated_frames. lia.
Qed.

(** C21: From a fresh frame allocator over a sane memory map, [init_heap] never
    panics, and when it succeeds the heap is usable: every page of the 2 MiB from
    0x5555_0000_0000 is mapped, with the present, writable and no-execute bits set in
    its entry and no others, to a frame of its own inside usable memory, and the
    global allocator starts empty over exactly that range.
    It consumes between one and four frames per page, and fails only if fewer than
    2048 frames are usable or the page tables refuse a mapping. *)
Theorem init_heap_spec (pt : PT) :
  match init_heap pt (frame_allocator_init regions) allocator_new with
  | (Ok (pt', allocator), fa') =>
      heap_wf allocator /\ used allocator = 0 /\ capacity allocator = 2 * 1024 * 1024 /\
      start allocator = 0x555500000000 /\ 512 <= allocated_frames fa' <= 2048 /\
      exists frame_at : Z -> Z,
        (forall x, start allocator <= x < start allocator + capacity allocator ->
           exists flags,
             translate pt' (x / 4096 * 4096) = Some (frame_at (x / 4096), flags) /\
             (forall i, 0 <= i -> Z.testbit flags i = true <-> i = 0 \/ i = 1 \/ i = 63) /\
             frame_at (x / 4096) mod 4096 = 0 /\
             exists region, region ∈ regions /\ region_kind region = Usable /\
               region_start region <= frame_at (x / 4096) /\
               frame_at (x / 4096) + 4096 <= region_end region) /\
        (forall x y, start allocator <= x < start allocator + capacity allocator ->
           start allocator <= y < start allocator + capacity allocator ->
           frame_at (x / 4096) = frame_at (y / 4096) -> x / 4096 = y / 4096)
  | (Err e, _) => heap_failure e
  | (Panic, _) => False
  end.
Proof.
  assert (Hstart : heap_progress pt (frame_allocator_init regions) []).
  { constructor; simpl; [done|lia|constructor..]. }
  pose proof (for_in_heap_pages heap_pages _ _ [] Hstart ltac:(done) heap_pages_NoDup) as Hloop.
  unfold init_heap. destruct (for_in _ _ _) as [[[]]|[pt' fa']]; try done.
  destruct Hloop as (mapped & Hfst & [Hr Hn Hm Hf Hd]).
  cbn [map app] in Hfst. cbn [allocator_init]. change (allocator_init _ _ _) with
    (Some {| start := HEAP_START; end_ := HEAP_START + HEAP_SIZE; next := HEAP_START |}).
  assert (Hlen : length mapped = 512%nat) by (rewrite <- (length_map fst), Hfst; done).
  cbn [or_panic mbind outcome_bind]. split; [unfold heap_wf, HEAP_START, HEAP_SIZE; simpl; lia|].
  do 3 (split; [done|]). split; [unfold allocated_frames; lia|].
  set (at_ := fun p => default (0, 0) (mapped !! Z.to_nat (heap_index p))).
  assert (Hat : forall x, HEAP_START <= x < HEAP_START + HEAP_SIZE ->
            mapped !! Z.to_nat (heap_index x) = Some (page_of x, snd (at_ (page_of x)))).
  { intros x Hx. destruct (page_of_heap x Hx) as (Hi & Hp & Hpi). subst at_. cbn beta. rewrite Hpi.
    destruct (mapped !! Z.to_nat (heap_index x)) as [[p f]|] eqn:Hl; [|apply lookup_ge_None in Hl; lia].
    simpl. do 2 f_equal. rewrite Hp.
    pose proof (heap_pages_lookup _ Hi) as Hpage. rewrite <- Hfst in Hpage.
    change (map fst mapped) with (fst <$> mapped) in Hpage. rewrite list_lookup_fmap, Hl in Hpage.
    by simplify_eq/=. }
  change (capacity _) with HEAP_SIZE. cbn [start].
  exists (fun p => (at_ (p * 4096)).2). split.
  - intros x Hx. change (x / 4096 * 4096) with (page_of x). exists HEAP_FLAGS. specialize (Hat x Hx).
    pose proof (Forall_lookup_1 _ _ _ _ Hm Hat) as Htr.
    pose proof (Forall_lookup_1 _ _ _ _ Hf Hat) as (i & _ & Hfr).
    split; [exact Htr|]. split; [exact HEAP_FLAGS_data|].
    apply list_elem_of_lookup_2, frames_spec in Hfr as (r & ? & ? & ? & ?). eauto.
  - intros x y Hx Hy. change (x / 4096 * 4096) with (page_of x).
    change (y / 4096 * 4096) with (page_of y). intros Heq. pose proof (Hat x Hx) as Hlx. pose proof (Hat y Hy) as Hly.
    assert (Hl : forall z p, mapped !! z = Some p -> map snd mapped !! z = Some p.2).
    { intros z p Hz. change (map snd mapped) with (snd <$> mapped). by rewrite list_lookup_fmap, Hz. }
    apply Hl in Hlx. apply Hl in Hly. simpl in Hlx, Hly. rewrite <- Heq in Hly.
    pose proof (NoDup_lookup _ _ _ _ Hd Hlx Hly) as Hix.
    destruct (page_of_heap x Hx) as (? & Hpx & _), (page_of_heap y Hy) as (? & Hpy & _).
    unfold page_of, FRAME_SIZE in Hpx, Hpy. lia.
Qed.
End Heap.
End Frames.

(** ** A machine *)

Definition demo_containing_frame (a : Z) : option Z :=
  if a <? 0x10000000000000 then Some (Z.shiftl (Z.shiftr a 12) 12) else None.

Lemma demo_containing_frame_spec (a : Z) :
  0 <= a < 2 ^ 52 -> demo_containing_frame a = Some (a / FRAME_SIZE * FRAME_SIZE).
Proof.
  intros Ha. unfold demo_containing_frame. rewrite (proj2 (Z.ltb_lt _ _)) by lia.
  by rewrite Z.shiftl_mul_pow2, Z.shiftr_div_pow2 by lia.
Qed.

(** Two usable regions, one of them with ragged ends, around a reserved one. *)
Definition demo_regions : list MemoryRegion := [
  {| region_start := 0x1800; region_end := 0x4800; region_kind := Usable |};
  {| region_start := 0x9f000; region_end := 0x100000; region_kind := UnknownUefi 0 |};
  {| region_start := 0x100000; region_end := 0x501000; region_kind := Usable |}].

Lemma demo_regions_wf : regions_wf demo_regions.
Proof. constructor; repeat (constructor; simpl; try lia). Qed.

(** Page tables that take one frame from the allocator for every mapping. *)
#[export] Instance demo_mapper : Mapper (Z -> option (Z * Z)) := {
  map_to pt page frame flags fa :=
    match allocate_frame demo_containing_frame fa with
    | None => (Panic, fa)
    | Some (None, fa) => (Err FrameAllocationFailed, fa)
    | Some (Some _, fa) => (Ok (fun p => if p =? page then (if Z.testbit flags 0 then Some (frame, flags) else None)
                                     else pt p), fa)
    end;
  translate pt page := pt page;
}.

#[export] Instance demo_mapper_spec : MapperSpec demo_containing_frame (Z -> option (Z * Z)).
Proof.
  constructor; simpl.
  - intros pt page frame flags fa pt' fa' Hm.
    destruct (allocate_frame demo_containing_frame fa) as [[[x|] fa1]|]; simplify_eq.
    rewrite Z.eqb_refl. split; [by intros ->|]. intros other Hne. by rewrite (proj2 (Z.eqb_neq _ _)).
  - intros pt page frame flags fa r fa' Hm Hr. exists 1%nat. simpl.
    destruct (allocate_frame demo_containing_frame fa) as [[[x|] fa1]|]; simplify_eq; eauto.
  - intros pt page frame flags fa fa' Hm. exists 1%nat. simpl.
    destruct (allocate_frame demo_containing_frame fa) as [[[x|] fa1]|]; simplify_eq; auto.
Qed.

Lemma frame_allocator_spec_witness :
  regions_wf demo_regions /\
  usable_frame_count demo_containing_frame (frame_allocator_init demo_regions) = Some 1027 /\
  exists fa', allocate_n demo_containing_frame 3 (frame_allocator_init demo_regions) =
                Some ([Some 0x2000; Some 0x3000; Some 0x100000], fa').
Proof.
  split; [exact demo_regions_wf|].
  destruct (frame_allocator_spec demo_containing_frame demo_containing_frame_spec demo_regions 3
              demo_regions_wf ltac:(lia)) as (_ & _ & Hcount & results & fa' & Hrun & Hres & _).
  split; [rewrite Hcount; vm_compute; reflexivity|]. exists fa'. rewrite Hrun, Hres.
  vm_compute. reflexivity.
Defined.

Lemma demo_heap_run :
  match init_heap demo_containing_frame (fun _ : Z => @None (Z * Z)) (frame_allocator_init demo_regions)
          allocator_new with
  | (Ok _, fa) => allocated_frames fa =? 1024
  | _ => false
  end = true.
Proof. by vm_compute. Qed.

Lemma init_heap_spec_witness :
  exists pt' a fa', init_heap demo_containing_frame (fun _ => None) (frame_allocator_init demo_regions)
                      allocator_new = (Ok (pt', a), fa') /\
    capacity a = 0x200000 /\ allocated_frames fa' = 1024.
Proof.
  pose proof (init_heap_spec demo_containing_frame demo_containing_frame_spec demo_regions
                demo_regions_wf (fun _ : Z => @None (Z * Z))) as Hspec.
  pose proof demo_heap_run as Hrun.
  destruct (init_heap demo_containing_frame (fun _ : Z => @None (Z * Z)) (frame_allocator_init demo_regions)
              allocator_new) as [[[pt' a]|e|] fa'].
  - exists pt', a, fa'. split; [reflexivity|]. split; [apply Hspec|]. by apply Z.eqb_eq.
  - discriminate Hrun.
  - destruct Hspec.
Defined.
