(* ===== verification/History.v ===== *)
(** * History: the shell's command history

    Models [CommandHistory] of [kernel/src/shell.rs], sixteen lines of eighty
    bytes used circularly, and proves that it implements a list of commands,
    newest first. *)

From S2P Require Import Prelude Str Ring.
#[local] Open Scope nat_scope.

Definition LINE_CAPACITY : nat := 80.
Definition HISTORY_CAPACITY : nat := 16.

Record CommandHistory : Type := {
  entries : list (list Z);
  lengths : list nat;
  count : nat;
  next : nat;
}.

Definition history_new : CommandHistory := {|
  entries := replicate HISTORY_CAPACITY (replicate LINE_CAPACITY 0%Z);
  lengths := replicate HISTORY_CAPACITY 0;
  count := 0;
  next := 0;
|}.

(** Whether the newest entry is this line. *)
Definition repeats_newest (h : CommandHistory) (line : list Z) : option bool :=
  if decide (0 < count h) then
    let newest := (next h + HISTORY_CAPACITY - 1) mod HISTORY_CAPACITY in
    len ← lengths h !! newest;
    if decide (len = length line) then
      entry ← entries h !! newest;
      stored ← slice entry 0 (length line);
      Some (bool_decide (stored = line))
    else Some false
  else Some false.

Definition history_push (h : CommandHistory) (line : list Z) : option CommandHistory :=
  if forallb is_ascii_whitespace line then Some h
  else
    repeated ← repeats_newest h line;
    if (repeated : bool) then Some h
    else
      entry ← entries h !! next h;
      entry ← splice entry 0 line;
      entries ← set_index (entries h) (next h) entry;
      lengths ← set_index (lengths h) (next h) (length line);
      Some {| entries := entries; lengths := lengths;
              count := (count h + 1) `min` HISTORY_CAPACITY;
              next := (next h + 1) mod HISTORY_CAPACITY |}.

(** Returns the new position and the draft with its length. *)
Definition previous (h : CommandHistory) (current : option nat) (line : list Z) (line_length : nat)
    (draft : list Z) (draft_length : nat) : option (option nat * list Z * nat) :=
  if decide (count h = 0) then Some (None, draft, draft_length)
  else
    match current with
    | Some position =>
        if decide (position + 1 < count h) then Some (Some (position + 1), draft, draft_length)
        else Some (Some position, draft, draft_length)
    | None =>
        typed ← slice line 0 line_length;
        draft ← splice draft 0 typed;
        Some (Some 0, draft, line_length)
    end.

Definition next_position (current : option nat) : option (option nat) :=
  match current with
  | Some position => if decide (0 < position) then Some (Some (position - 1)) else Some None
  | None => None
  end.

Definition copy_into (h : CommandHistory) (position : nat) (output : list Z)
  : option (nat * list Z) :=
  below ← nat_sub (next h + HISTORY_CAPACITY - 1) position;
  let index := below mod HISTORY_CAPACITY in
  len ← lengths h !! index;
  entry ← entries h !! index;
  stored ← slice entry 0 len;
  output ← splice output 0 stored;
  Some (len, output).

(** ** The list of commands *)

Record history_wf (h : CommandHistory) : Prop := {
  hwf_entries : length (entries h) = 16;
  hwf_lines : Forall (fun e => length e = 80) (entries h);
  hwf_lengths : length (lengths h) = 16;
  hwf_bounds : Forall (fun n => n <= 80) (lengths h);
  hwf_count : count h <= 16;
  hwf_next : next h < 16;
}.

Definition slot (h : CommandHistory) (position : nat) : nat := (next h + 15 - position) mod 16.

(** The command at a position, 0 the newest. *)
Definition recall (h : CommandHistory) (position : nat) : list Z :=
  take (nth (slot h position) (lengths h) 0) (nth (slot h position) (entries h) []).

Definition commands (h : CommandHistory) : list (list Z) := map (recall h) (seq 0 (count h)).

(** The abstract [push]: blank lines and repetitions of the newest command are
    not remembered, and only sixteen commands are. *)
Definition remember (line : list Z) (hist : list (list Z)) : list (list Z) :=
  if forallb is_ascii_whitespace line || bool_decide (hd_error hist = Some line) then hist
  else take 16 (line :: hist).

Lemma length_commands (h : CommandHistory) : length (commands h) = count h.
Proof. unfold commands. by rewrite length_map, length_seq. Qed.

Lemma commands_lookup (h : CommandHistory) (i : nat) :
  i < count h -> commands h !! i = Some (recall h i).
Proof.
  intros Hi. unfold commands. change (map ?f ?l) with (f <$> l).
  rewrite list_lookup_fmap, lookup_seq_lt by done. done.
Qed.

Lemma history_new_wf : history_wf history_new /\ commands history_new = [].
Proof. split; [|done]. constructor; simpl; try lia; repeat constructor. Qed.

Lemma slot_lt (h : CommandHistory) (i : nat) : slot h i < 16.
Proof. apply Nat.mod_upper_bound. lia. Qed.

Lemma slot_entry (h : CommandHistory) (i : nat) :
  history_wf h ->
  lengths h !! slot h i = Some (nth (slot h i) (lengths h) 0) /\
  entries h !! slot h i = Some (nth (slot h i) (entries h) []) /\
  nth (slot h i) (lengths h) 0 <= 80 /\ length (nth (slot h i) (entries h) []) = 80.
Proof.
  intros Hwf. pose proof (slot_lt h i) as Hs.
  destruct (lookup_lt_is_Some_2 (lengths h) (slot h i)) as [n Hn]; [rewrite (hwf_lengths h Hwf); lia|].
  destruct (lookup_lt_is_Some_2 (entries h) (slot h i)) as [e He]; [rewrite (hwf_entries h Hwf); lia|].
  rewrite !nth_lookup, Hn, He. simpl.
  pose proof (Forall_lookup_1 _ _ _ _ (hwf_bounds h Hwf) Hn).
  pose proof (Forall_lookup_1 _ _ _ _ (hwf_lines h Hwf) He). auto.
Qed.

Lemma length_recall (h : CommandHistory) (i : nat) : history_wf h -> length (recall h i) <= 80.
Proof.
  intros Hwf. destruct (slot_entry h i Hwf) as (_ & _ & Hl & He).
  unfold recall. rewrite length_take, He. lia.
Qed.

Lemma repeats_newest_spec (h : CommandHistory) (line : list Z) :
  history_wf h -> length line <= 80 ->
  repeats_newest h line = Some (bool_decide (hd_error (commands h) = Some line)).
Proof.
  intros Hwf Hline. unfold repeats_newest. case_decide as Hc.
  - change ((next h + HISTORY_CAPACITY - 1) mod HISTORY_CAPACITY) with ((next h + 16 - 1) mod 16).
    replace ((next h + 16 - 1) mod 16) with (slot h 0) by (unfold slot; f_equal; lia).
    destruct (slot_entry h 0 Hwf) as (-> & -> & Hl & He). simpl.
    assert (Hhd : hd_error (commands h) = Some (recall h 0)).
    { unfold commands. destruct (count h); [lia|done]. }
    rewrite Hhd. unfold recall. case_decide as Hlen.
    + rewrite slice_take by lia. simpl. f_equal. apply bool_decide_ext.
      rewrite Nat.sub_0_r, drop_0, Hlen. split; [by intros ->|by intros [= ->]].
    + f_equal. symmetry. apply bool_decide_eq_false. intros [= Heq]. apply Hlen.
      rewrite <- Heq, length_take. lia.
  - f_equal. symmetry. apply bool_decide_eq_false. unfold commands.
    by replace (count h) with 0 by lia.
Qed.

(** Writing the next slot puts the line in front. *)
Lemma commands_write (h : CommandHistory) (line entry : list Z) (c : nat) :
  history_wf h -> take (length line) entry = line ->
  commands {| entries := <[next h := entry]> (entries h);
              lengths := <[next h := length line]> (lengths h);
              count := S c `min` 16; next := (next h + 1) mod 16 |} =
  take 16 (line :: map (recall h) (seq 0 c)).
Proof.
  intros Hwf Hent. unfold commands. cbn [count].
  assert (Htake : take 16 (line :: map (recall h) (seq 0 c)) = line :: map (recall h) (seq 0 (c `min` 15))).
  { cbn [take]. f_equal. change (map ?f ?l) with (f <$> l). rewrite <- fmap_take, take_seq.
    do 2 f_equal. lia. }
  rewrite Htake. replace (S c `min` 16) with (S (c `min` 15)) by lia.
  rewrite <- cons_seq, <- fmap_S_seq. cbn [map]. f_equal.
  - unfold recall. cbn [lengths entries]. unfold slot. cbn [next].
    replace ((((next h + 1) mod 16) + 15 - 0) mod 16) with (next h)
      by (pose proof (hwf_next h Hwf); zlia).
    pose proof (hwf_next h Hwf). pose proof (hwf_lengths h Hwf). pose proof (hwf_entries h Hwf).
    by rewrite !nth_insert_eq by lia.
  - change (S <$> seq 0 (c `min` 15)) with (map S (seq 0 (c `min` 15))). rewrite map_map.
    apply map_ext_in. intros i Hi%in_seq. unfold recall, slot. cbn [lengths entries next].
    pose proof (hwf_next h Hwf).
    replace ((((next h + 1) mod 16) + 15 - S i) mod 16) with ((next h + 15 - i) mod 16) by zlia.
    by rewrite !nth_insert_ne by zlia.
Qed.

Lemma history_push_spec (h : CommandHistory) (line : list Z) :
  history_wf h -> length line <= 80 ->
  exists h', history_push h line = Some h' /\ history_wf h' /\
    commands h' = remember line (commands h).
Proof.
  intros Hwf Hline. unfold history_push, remember.
  destruct (forallb is_ascii_whitespace line); [by exists h|]. cbn [orb].
  rewrite repeats_newest_spec by done. cbn [mbind option_bind].
  case_bool_decide; [by exists h|].
  pose proof Hwf as [He Hes Hl Hls Hc Hn].
  destruct (lookup_lt_is_Some_2 (entries h) (next h)) as [entry Hentry]; [lia|].
  pose proof (Forall_lookup_1 _ _ _ _ Hes Hentry) as Hlen. cbn beta in Hlen.
  rewrite Hentry. cbn [mbind option_bind]. rewrite splice_app by lia. cbn [mbind option_bind].
  unfold set_index. rewrite !decide_True by lia. cbn [mbind option_bind].
  eexists. split; [done|]. split.
  - constructor; cbn [entries lengths count next]; rewrite ?length_insert; try done.
    + apply Forall_insert; [done|]. rewrite !length_app, length_drop, take_0. simpl. lia.
    + by apply Forall_insert.
    + unfold HISTORY_CAPACITY. lia.
    + apply Nat.mod_upper_bound. unfold HISTORY_CAPACITY. lia.
  - replace (count h + 1) with (S (count h)) by lia. apply commands_write; [done|].
    rewrite take_0. cbn [app]. by rewrite take_app_length.
Qed.

Lemma copy_into_spec (h : CommandHistory) (position : nat) (output : list Z) :
  history_wf h -> length output = 80 -> position < count h ->
  exists output', copy_into h position output = Some (length (recall h position), output') /\
    length output' = 80 /\ take (length (recall h position)) output' = recall h position /\
    commands h !! position = Some (recall h position).
Proof.
  intros Hwf Hout Hp. pose proof (hwf_count h Hwf). rewrite commands_lookup by done.
  destruct (slot_entry h position Hwf) as (Hl & He & Hln & Hlen).
  assert (Hrec : length (recall h position) = nth (slot h position) (lengths h) 0).
  { unfold recall. rewrite length_take. lia. }
  unfold copy_into. rewrite nat_sub_le by (unfold HISTORY_CAPACITY; lia). cbn [mbind option_bind].
  change ((next h + HISTORY_CAPACITY - 1 - position) mod HISTORY_CAPACITY)
    with ((next h + 16 - 1 - position) mod 16).
  replace ((next h + 16 - 1 - position) mod 16) with (slot h position) by (unfold slot; f_equal; lia).
  rewrite Hl. cbn [mbind option_bind]. rewrite He. cbn [mbind option_bind].
  rewrite slice_take by lia. cbn [mbind option_bind]. rewrite Nat.sub_0_r, drop_0.
  fold (recall h position). rewrite splice_app by lia. cbn [mbind option_bind]. rewrite Hrec.
  eexists. split; [done|]. rewrite take_0. split; [|split; [|done]].
  - rewrite !length_app, length_drop. simpl. lia.
  - cbn [app]. apply take_app_length'. lia.
Qed.

Lemma previous_spec (h : CommandHistory) (current : option nat) (line : list Z) (len : nat)
    (draft : list Z) (draft_length : nat) :
  length line = 80 -> len <= 80 -> length draft = 80 ->
  exists draft',
    previous h current line len draft draft_length =
      Some (if decide (count h = 0) then None
            else Some (match current with
                       | Some p => if decide (p + 1 < count h) then p + 1 else p
                       | None => 0
                       end),
            draft',
            if decide (count h = 0) then draft_length
            else match current with Some _ => draft_length | None => len end) /\
    length draft' = 80 /\
    (count h = 0 \/ current <> None -> draft' = draft) /\
    (count h <> 0 -> current = None -> take len draft' = take len line).
Proof.
  intros Hl Hlen Hd. unfold previous.
  destruct (decide (count h = 0)) as [Hz|Hnz]; [exists draft; naive_solver|].
  destruct current as [p|].
  - exists draft. split; [by case_decide|]. naive_solver.
  - rewrite slice_take by lia. cbn [mbind option_bind].
    assert (Ht : length (take (len - 0) (drop 0 line)) = len) by (rewrite length_take, length_drop; lia).
    rewrite splice_app by lia. cbn [mbind option_bind]. rewrite Ht.
    eexists. split; [done|]. rewrite take_0, drop_0, Nat.sub_0_r in *. split; [|split].
    + rewrite !length_app, length_drop. simpl. lia.
    + by intros [?|?].
    + intros _ _. cbn [app]. by rewrite take_app_length'.
Qed.

(** The circular buffer implements a bounded list of commands, newest first.
    [history_push] of a line that fits never traps and remembers it in front of
    the others, dropping the seventeenth, except for blank lines and immediate
    repetitions; [copy_into] never traps for a position in the list and
    overwrites the buffer's beginning with exactly that command. *)
Lemma history_refines_list (h : CommandHistory) (line output : list Z) (position : nat) :
  history_wf h -> length line <= LINE_CAPACITY -> length output = LINE_CAPACITY ->
  length (commands h) <= HISTORY_CAPACITY /\
  (exists h', history_push h line = Some h' /\ history_wf h' /\
     commands h' =
       if decide (Forall (fun b => is_ascii_whitespace b = true) line \/
                  hd_error (commands h) = Some line)
       then commands h else take HISTORY_CAPACITY (line :: commands h)) /\
  (forall command, commands h !! position = Some command ->
     exists output', copy_into h position output = Some (length command, output') /\
       length output' = LINE_CAPACITY /\ take (length command) output' = command).
Proof.
  intros Hwf Hline Hout. rewrite length_commands. split; [apply hwf_count, Hwf|]. split.
  - destruct (history_push_spec h line Hwf Hline) as (h' & Hp & Hwf' & Hc). exists h'.
    split; [done|]. split; [done|]. rewrite Hc. unfold remember.
    destruct (forallb is_ascii_whitespace line) eqn:Hb.
    + rewrite decide_True; [done|]. left. by apply List.Forall_forall, forallb_forall.
    + assert (Hnb : ~ Forall (fun b => is_ascii_whitespace b = true) line).
      { intros Hf. by rewrite (proj2 (forallb_forall _ line)) in Hb by (by apply List.Forall_forall). }
      cbn [orb]. case_bool_decide; case_decide; (done || tauto).
  - intros command Hcmd. pose proof (lookup_lt_Some _ _ _ Hcmd) as Hlt.
    rewrite length_commands in Hlt.
    destruct (copy_into_spec h position output Hwf Hout Hlt) as (o & Hcp & Ho & Ht & Hlk).
    simplify_eq. by exists o.
Qed.

(** Two commands, a repetition and a blank line. *)
Definition demo_history : option CommandHistory :=
  h ← history_push history_new [0x6c; 0x73]%Z;
  h ← history_push h [0x6c; 0x73]%Z;
  h ← history_push h [0x20]%Z;
  history_push h [0x68]%Z.

Lemma history_refines_list_witness :
  exists h, demo_history = Some h /\ history_wf h /\ commands h = [[0x68]; [0x6c; 0x73]]%Z /\
    exists output', copy_into h 1 (replicate 80 0%Z) = Some (2, output') /\
      take 2 output' = [0x6c; 0x73]%Z.
Proof.
  assert (Hd : exists h, demo_history = Some h /\ history_wf h /\
                 commands h = [[0x68]; [0x6c; 0x73]]%Z).
  { unfold demo_history.
    destruct (history_refines_list history_new [0x6c; 0x73]%Z (replicate 80 0%Z) 0)
      as (_ & (h1 & -> & Hwf1 & Hc1) & _); [apply history_new_wf|unfold LINE_CAPACITY; simpl; lia|done|].
    destruct (history_push_spec h1 [0x6c; 0x73]%Z Hwf1) as (h2 & Hp2 & Hwf2 & Hc2); [simpl; lia|].
    destruct (history_push_spec h2 [0x20]%Z Hwf2) as (h3 & Hp3 & Hwf3 & Hc3); [simpl; lia|].
    destruct (history_push_spec h3 [0x68]%Z Hwf3) as (h4 & Hp4 & Hwf4 & Hc4); [simpl; lia|].
    cbn [mbind option_bind]. rewrite Hp2. cbn [mbind option_bind]. rewrite Hp3.
    cbn [mbind option_bind]. exists h4. split; [exact Hp4|]. split; [exact Hwf4|].
    rewrite Hc4, Hc3, Hc2, Hc1. reflexivity. }
  destruct Hd as (h & Hd & Hwf & Hc). exists h. split; [exact Hd|]. split; [exact Hwf|].
  split; [exact Hc|].
  destruct (history_refines_list h [] (replicate 80 0%Z) 1) as (_ & _ & Hcopy);
    [exact Hwf|unfold LINE_CAPACITY; simpl; lia|reflexivity|].
  destruct (Hcopy [0x6c; 0x73]%Z) as (o & Ho & _ & Ht); [rewrite Hc; reflexivity|].
  exists o. split; [exact Ho|exact Ht].
Defined.
