(* ===== verification/Timer.v ===== *)
(** * Timer: the tick counter and the PIT

    Models [kernel/src/timer.rs]. *)

From S2P Require Import Prelude Ports.
#[local] Open Scope Z_scope.

Definition TICKS_PER_SECOND : Z := 100.
Definition PIT_INPUT_HZ : Z := 1193182.
Definition PIT_COMMAND : Z := 0x43.
Definition PIT_CHANNEL_0 : Z := 0x40.

Definition divisor : Z := wrap 16 (PIT_INPUT_HZ / TICKS_PER_SECOND).

Section Pit.
Context {M : Type} `{Hardware M}.

Definition timer_initialize : IO M unit :=
  _ ← out8 PIT_COMMAND 0x36;
  _ ← out8 PIT_CHANNEL_0 (wrap 8 (Z.land divisor 0xff));
  out8 PIT_CHANNEL_0 (wrap 8 (Z.shiftr divisor 8)).
End Pit.

(** The [TICKS] atomic: [fetch_add] wraps. *)
Definition tick (TICKS : Z) : Z := wrap 64 (TICKS + 1).
Definition ticks (TICKS : Z) : Z := TICKS.
Definition uptime_seconds (TICKS : Z) : Z := ticks TICKS / TICKS_PER_SECOND.

(** ** What the PIT is told *)

(** Channel 0 of the 8253/8254 after a control word: the bytes of the reload
    value still expected. *)
Record pit : Type := { control_word : option Z; low_byte : option Z; reload : option Z }.

Definition pit_write (p : pit) (w : Z * Z) : pit :=
  let '(port, v) := w in
  if port =? 0x43 then {| control_word := Some v; low_byte := None; reload := None |}
  else if port =? 0x40 then
    match low_byte p with
    | None => {| control_word := control_word p; low_byte := Some v; reload := None |}
    | Some low => {| control_word := control_word p; low_byte := None; reload := Some (low + 256 * v) |}
    end
  else p.

Definition after_ticks (n : nat) : Z := Nat.iter n tick 0.

Lemma after_ticks_spec (n : nat) : after_ticks n = wrap 64 (Z.of_nat n).
Proof.
  unfold after_ticks. induction n as [|n IH]; [done|].
  rewrite Nat.iter_succ, IH. unfold tick, wrap. rewrite Zplus_mod_idemp_l. f_equal. lia.
Qed.

(** The timer.  Whatever state the PIT was in, initialisation leaves channel 0
    in square-wave mode with a 16-bit reload value for which the interrupt rate is
    within one part in ten thousand of [TICKS_PER_SECOND]; and after [n] timer
    interrupts, for any [n] below 2^64, [uptime_seconds] is [n] hundredths of a
    second, rounded down. *)
Lemma timer_counts_hundredths {M : Type} `{Hardware M} (m : machine M) (p : pit) (n : nat) :
  Z.of_nat n < 2 ^ 64 ->
  (exists evs reload_value, log (timer_initialize m).2 = log m ++ evs /\
     fold_left pit_write (writes evs) p =
       {| control_word := Some 0x36; low_byte := None; reload := Some reload_value |} /\
     0 < reload_value < 2 ^ 16 /\
     (Z.abs (PIT_INPUT_HZ - TICKS_PER_SECOND * reload_value) * 10000
        <= TICKS_PER_SECOND * reload_value)) /\
  ticks (after_ticks n) = Z.of_nat n /\
  TICKS_PER_SECOND * uptime_seconds (after_ticks n) <= Z.of_nat n
    < TICKS_PER_SECOND * (uptime_seconds (after_ticks n) + 1).
Proof.
  intros Hn. assert (Ht : after_ticks n = Z.of_nat n).
  { rewrite after_ticks_spec. unfold wrap. apply Z.mod_small. lia. }
  split.
  - exists [Out8 0x43 0x36; Out8 0x40 0x9b; Out8 0x40 0x2e], 11931. split.
    + unfold timer_initialize, mbind, IO_bind, out8. simpl. by rewrite <- !app_assoc.
    + split; [done|]. unfold PIT_INPUT_HZ, TICKS_PER_SECOND. lia.
  - unfold ticks, uptime_seconds, ticks, TICKS_PER_SECOND. rewrite Ht. split; [done|]. zlia.
Qed.

(** A machine with nothing behind its ports. *)
#[export] Instance no_hardware : Hardware unit := {
  hw_in8 _ u := (0, u); hw_out8 _ _ u := u; hw_in32 _ u := (0, u); hw_out32 _ _ u := u;
}.

Lemma timer_counts_hundredths_witness :
  Z.of_nat 250 < 2 ^ 64 /\ ticks (after_ticks 250) = 250 /\ uptime_seconds (after_ticks 250) = 2.
Proof.
  assert (Hn : Z.of_nat 250 < 2 ^ 64) by (simpl; lia). split; [exact Hn|].
  destruct (timer_counts_hundredths {| devices := tt; log := [] |}
              {| control_word := None; low_byte := None; reload := None |} 250 Hn) as (_ & Ht & Hu).
  split; [exact Ht|]. unfold TICKS_PER_SECOND in Hu. lia.
Defined.
