(* ===== verification/Pic.v ===== *)
(** * Pic: the two interrupt controllers

    Models [kernel/src/pic.rs], and reads its writes the way the 8259 data sheet
    does. *)

From S2P Require Import Prelude Ports.
#[local] Open Scope Z_scope.

Definition PIC_1_OFFSET : Z := 32.
Definition PIC_2_OFFSET : Z := PIC_1_OFFSET + 8.
Definition TIMER_INTERRUPT_ID : Z := PIC_1_OFFSET.
Definition KEYBOARD_INTERRUPT_ID : Z := PIC_1_OFFSET + 1.
Definition PIC_1_COMMAND : Z := 0x20.
Definition PIC_1_DATA : Z := 0x21.
Definition PIC_2_COMMAND : Z := 0xa0.
Definition PIC_2_DATA : Z := 0xa1.
Definition PIC_EOI : Z := 0x20.

Section Driver.
Context {M : Type} `{Hardware M}.

Definition write_port (port value : Z) : IO M unit := out8 port value.

Definition pic_initialize : IO M unit :=
  _ ← write_port PIC_1_COMMAND 0x11;
  _ ← write_port PIC_2_COMMAND 0x11;
  _ ← write_port PIC_1_DATA PIC_1_OFFSET;
  _ ← write_port PIC_2_DATA PIC_2_OFFSET;
  _ ← write_port PIC_1_DATA 0x04;
  _ ← write_port PIC_2_DATA 0x02;
  _ ← write_port PIC_1_DATA 0x01;
  _ ← write_port PIC_2_DATA 0x01;
  _ ← write_port PIC_1_DATA 0xfc;
  write_port PIC_2_DATA 0xff.

Definition end_of_interrupt (interrupt_id : Z) : IO M unit :=
  _ ← (if PIC_2_OFFSET <=? interrupt_id then write_port PIC_2_COMMAND PIC_EOI else mret tt);
  write_port PIC_1_COMMAND PIC_EOI.
End Driver.

(** ** The controller *)

(** The initialisation words still expected, and what has been set. *)
Inductive icw : Type := Ready | ExpectOffset | ExpectCascade | ExpectMode.

Record i8259 : Type := {
  phase : icw;
  vector_offset : Z;
  cascade : Z;
  mode : Z;
  mask : Z;
  in_service : list Z;
}.

(** A command with bit 4 set starts initialisation, which clears the mask and the
    service register; 0x20 ends the interrupt of highest priority. *)
Definition i8259_command (c : i8259) (v : Z) : i8259 :=
  if Z.testbit v 4 then
    {| phase := ExpectOffset; vector_offset := vector_offset c; cascade := cascade c;
       mode := mode c; mask := 0; in_service := [] |}
  else if v =? 0x20 then
    {| phase := phase c; vector_offset := vector_offset c; cascade := cascade c;
       mode := mode c; mask := mask c; in_service := List.tl (in_service c) |}
  else c.

Definition i8259_data (c : i8259) (v : Z) : i8259 :=
  match phase c with
  | ExpectOffset =>
      {| phase := ExpectCascade; vector_offset := v; cascade := cascade c; mode := mode c;
         mask := mask c; in_service := in_service c |}
  | ExpectCascade =>
      {| phase := ExpectMode; vector_offset := vector_offset c; cascade := v; mode := mode c;
         mask := mask c; in_service := in_service c |}
  | ExpectMode =>
      {| phase := Ready; vector_offset := vector_offset c; cascade := cascade c; mode := v;
         mask := mask c; in_service := in_service c |}
  | Ready =>
      {| phase := Ready; vector_offset := vector_offset c; cascade := cascade c; mode := mode c;
         mask := v; in_service := in_service c |}
  end.

(** The pair, behind its four ports. *)
Definition pic_write (pics : i8259 * i8259) (w : Z * Z) : i8259 * i8259 :=
  let '(c1, c2) := pics in
  let '(port, v) := w in
  if port =? 0x20 then (i8259_command c1 v, c2)
  else if port =? 0x21 then (i8259_data c1 v, c2)
  else if port =? 0xa0 then (c1, i8259_command c2 v)
  else if port =? 0xa1 then (c1, i8259_data c2 v)
  else pics.

(** Writes to other ports. *)
Lemma pic_write_elsewhere (ws : list (Z * Z)) (pics : i8259 * i8259) :
  Forall (fun w => w.1 ∉ [0x20; 0x21; 0xa0; 0xa1]) ws -> fold_left pic_write ws pics = pics.
Proof.
  intros Hws. induction Hws as [|[port v] ws Hw _ IH]; [done|]. cbn [fold_left]. rewrite <- IH at 2. f_equal.
  rewrite !not_elem_of_cons in Hw. destruct Hw as (? & ? & ? & ? & _). cbn [fst] in *.
  destruct pics. cbn. by decide_tests.
Qed.

(** Whether a request on line [irq] (0 to 15) reaches the CPU, and its vector. *)
Definition unmasked (pics : i8259 * i8259) (irq : Z) : bool :=
  if irq <? 8 then negb (Z.testbit (mask pics.1) irq)
  else negb (Z.testbit (mask pics.2) (irq - 8)) && negb (Z.testbit (mask pics.1) 2).

Definition vector (pics : i8259 * i8259) (irq : Z) : Z :=
  if irq <? 8 then vector_offset pics.1 + irq else vector_offset pics.2 + (irq - 8).

(** Whatever state the controllers were in, [pic_initialize] completes the
    initialisation of both: every request line gets its own vector from 32 up,
    clear of the CPU's exceptions, the slave is cascaded on line 2 of the master,
    and exactly the timer and keyboard lines are unmasked, on the vectors the IDT
    uses for them. *)
Lemma pic_initialize_spec {M : Type} `{Hardware M} (m : machine M) (pics : i8259 * i8259) :
  exists evs, log (pic_initialize m).2 = log m ++ evs /\
    let pics' := fold_left pic_write (writes evs) pics in
    phase pics'.1 = Ready /\ phase pics'.2 = Ready /\
    cascade pics'.1 = 2 ^ cascade pics'.2 /\ mode pics'.1 = 1 /\ mode pics'.2 = 1 /\
    in_service pics'.1 = [] /\ in_service pics'.2 = [] /\
    (forall irq, 0 <= irq < 16 -> vector pics' irq = 32 + irq) /\
    (forall irq, 0 <= irq < 16 -> unmasked pics' irq = true <-> irq = 0 \/ irq = 1) /\
    vector pics' 0 = TIMER_INTERRUPT_ID /\ vector pics' 1 = KEYBOARD_INTERRUPT_ID.
Proof.
  eexists. split; [unfold pic_initialize, write_port, mbind, IO_bind, out8; simpl; rewrite <- !app_assoc; done|].
  destruct pics as [c1 c2]. simpl.
  repeat (split; [done|]). split; [|split; [|done]].
  - intros irq Hirq. unfold vector. simpl. unfold PIC_2_OFFSET, PIC_1_OFFSET.
    destruct (Z.ltb_spec irq 8); lia.
  - intros irq Hirq. unfold unmasked. simpl.
    assert (Hall : forall i, 0 <= i < 8 -> Z.testbit 0xfc i = negb (i <? 2)).
    { intros i Hi. assert (Hc : i = 0 \/ i = 1 \/ i = 2 \/ i = 3 \/ i = 4 \/ i = 5 \/ i = 6 \/ i = 7) by lia.
      by repeat destruct Hc as [-> | Hc]; [..|subst i]. }
    destruct (Z.ltb_spec irq 8).
    + rewrite Hall by lia. destruct (Z.ltb_spec irq 2); simpl; split; (done || lia).
    + rewrite andb_false_r. split; [done|lia].
Qed.

(** The acknowledgement of a vector of the pair ends the interrupt in service
    on every controller it passed through, the master's for all of them and the
    slave's for lines 8 to 15, and touches neither masks nor vectors. *)
Lemma end_of_interrupt_spec {M : Type} `{Hardware M} (m : machine M) (pics : i8259 * i8259) (irq : Z) :
  0 <= irq < 16 ->
  exists evs, log (end_of_interrupt (32 + irq) m).2 = log m ++ evs /\
    let pics' := fold_left pic_write (writes evs) pics in
    in_service pics'.1 = List.tl (in_service pics.1) /\
    in_service pics'.2 = (if 8 <=? irq then List.tl (in_service pics.2) else in_service pics.2) /\
    mask pics'.1 = mask pics.1 /\ mask pics'.2 = mask pics.2 /\
    (forall i, vector pics' i = vector pics i).
Proof.
  intros Hirq. destruct pics as [c1 c2]. unfold end_of_interrupt, PIC_2_OFFSET, PIC_1_OFFSET.
  destruct (Z.leb_spec 8 irq).
  - rewrite (proj2 (Z.leb_le _ _)) by lia. eexists. split; [unfold write_port, mbind, IO_bind, out8; simpl;
      rewrite <- !app_assoc; done|done].
  - rewrite (proj2 (Z.leb_gt _ _)) by lia. eexists. split; [unfold write_port, mret, IO_ret, mbind, IO_bind, out8;
      simpl; done|done].
Qed.

#[local] Instance pics_hardware : Hardware (i8259 * i8259) := {
  hw_in8 _ c := (0, c); hw_out8 p v c := pic_write c (p, v);
  hw_in32 _ c := (0, c); hw_out32 _ _ c := c;
}.

Definition demo_pic : i8259 :=
  {| phase := Ready; vector_offset := 0; cascade := 0; mode := 0; mask := 0; in_service := [3; 5] |}.

Lemma end_of_interrupt_spec_witness :
  0 <= 9 < 16 /\
  exists evs, log (end_of_interrupt 41 {| devices := (demo_pic, demo_pic); log := [] |}).2 = evs /\
    in_service (fold_left pic_write (writes evs) (demo_pic, demo_pic)).2 = [5].
Proof.
  split; [lia|].
  destruct (end_of_interrupt_spec {| devices := (demo_pic, demo_pic); log := [] |} (demo_pic, demo_pic) 9
              ltac:(lia)) as (evs & Hlog & _ & Hs & _).
  exists evs. split; [exact Hlog|exact Hs].
Defined.
