(* ===== verification/Serial.v ===== *)
(** * Serial: the COM1 console

    Models [kernel/src/serial.rs] over any device behind the ports. *)

From S2P Require Import Prelude Str Ports Console.
#[local] Open Scope Z_scope.

Definition COM1 : Z := 0x3f8.
Definition SERIAL_TIMEOUT : nat := Z.to_nat 100000.

Section Uart.
Context {M : Type} `{Hardware M}.

Definition serial_init : IO M unit :=
  _ ← out8 (COM1 + 1) 0x00;
  _ ← out8 (COM1 + 3) 0x80;
  _ ← out8 COM1 0x01;
  _ ← out8 (COM1 + 1) 0x00;
  _ ← out8 (COM1 + 3) 0x03;
  _ ← out8 (COM1 + 2) 0xc7;
  out8 (COM1 + 4) 0x0b.

Fixpoint write_byte_loop (n : nat) (byte : Z) : IO M unit :=
  match n with
  | O => mret tt
  | S n =>
      status ← in8 (COM1 + 5);
      if negb (Z.land status 0x20 =? 0) then out8 COM1 byte else write_byte_loop n byte
  end.

Definition write_byte (byte : Z) : IO M unit := write_byte_loop SERIAL_TIMEOUT byte.

Fixpoint write_bytes (bytes : list Z) : IO M unit :=
  match bytes with
  | [] => mret tt
  | byte :: bytes =>
      _ ← (if byte =? 0x0a then write_byte 0x0d else mret tt);
      _ ← write_byte byte;
      write_bytes bytes
  end.

(** [SerialWriter::write_str] over [text.bytes()]. *)
Definition serial_write_str (text : str) : IO M unit := write_bytes (encode text).
End Uart.

(** ** What reaches the line *)

(** The bytes with a carriage return before each line feed. *)
Definition crlf (bytes : list Z) : list Z :=
  flat_map (fun b => if b =? 0x0a then [0x0d; 0x0a] else [b]) bytes.

Definition transmitter_empty (status : Z) : bool := negb (Z.land status 0x20 =? 0).

(** Every write goes to the transmit register, straight after a status that
    shows it empty. *)
Definition throttled (evs : list port_event) : Prop :=
  (forall p v, evs !! 0%nat <> Some (Out8 p v)) /\
  forall i p v, evs !! S i = Some (Out8 p v) ->
    p = COM1 /\ exists s, evs !! i = Some (In8 (COM1 + 5) s) /\ transmitter_empty s = true.

Lemma throttled_nil : throttled [].
Proof. done. Qed.

Lemma throttled_app (e1 e2 : list port_event) : throttled e1 -> throttled e2 -> throttled (e1 ++ e2).
Proof.
  intros [H1 T1] [H2 T2]. split.
  - intros p v. destruct e1; [apply (H2 p v)|apply (H1 p v)].
  - intros i p v. rewrite !lookup_app. destruct (e1 !! S i) as [e|] eqn:He.
    + intros [= ->]. destruct (T1 i p v He) as (-> & s & -> & Hs). eauto.
    + apply lookup_ge_None in He. intros Hl. destruct (decide (length e1 <= i)%nat) as [Hle|Hlt].
      * rewrite lookup_ge_None_2 by done. apply (T2 _ p v). rewrite <- Hl. f_equal. lia.
      * exfalso. apply (H2 p v). rewrite <- Hl. f_equal. lia.
Qed.

Lemma throttled_wait (s : Z) : throttled [In8 (COM1 + 5) s].
Proof. split; [done|]. by intros [|i]. Qed.

Lemma throttled_send (s b : Z) :
  transmitter_empty s = true -> throttled [In8 (COM1 + 5) s; Out8 COM1 b].
Proof.
  intros Hs. split; [done|]. intros [|[|i]] p v; simpl; try done. intros [= <- <-]. eauto.
Qed.

(** A transmission of (some of) [bytes]. *)
Record sends (bytes : list Z) (evs : list port_event) : Prop := {
  sends_throttled : throttled evs;
  sends_ports : Forall (fun w => w.1 = COM1) (writes evs);
  sends_bytes : map snd (writes evs) `sublist_of` bytes;
  sends_bound : Z.of_nat (length evs) <= 100001 * Z.of_nat (length bytes);
}.

Lemma sends_app (b1 b2 : list Z) (e1 e2 : list port_event) :
  sends b1 e1 -> sends b2 e2 -> sends (b1 ++ b2) (e1 ++ e2).
Proof.
  intros [T1 P1 B1 L1] [T2 P2 B2 L2]. constructor.
  - by apply throttled_app.
  - rewrite writes_app. by apply Forall_app.
  - rewrite writes_app, map_app. by apply sublist_app.
  - rewrite !length_app. lia.
Qed.

Lemma sends_nil : sends [] [].
Proof. constructor; [apply throttled_nil|constructor|done|simpl; lia]. Qed.

Section Proofs.
Context {M : Type} `{Hardware M}.

Lemma write_byte_loop_emits (n : nat) (b : Z) :
  emits (M := M) (write_byte_loop n b) (fun _ evs =>
    throttled evs /\ Forall (fun w => w.1 = COM1) (writes evs) /\
    map snd (writes evs) `sublist_of` [b] /\ (length evs <= S n)%nat).
Proof.
  induction n as [|n IH]; cbn [write_byte_loop].
  - apply emits_ret. split; [apply throttled_nil|]. split; [constructor|]. split; [apply sublist_nil_l|simpl; lia].
  - eapply emits_bind; [apply emits_in8|]. intros s e1 [_ ->].
    destruct (negb (Z.land s 0x20 =? 0)) eqn:Hs.
    + eapply emits_impl; [apply emits_out8|]. intros [] e ->.
      split; [by apply throttled_send|]. split; [by repeat constructor|]. split; [done|simpl; lia].
    + eapply emits_impl; [apply IH|]. cbn beta. intros [] e (T & P & W & L).
      split; [apply throttled_app; [apply throttled_wait|done]|].
      rewrite writes_app. split; [done|]. split; [done|simpl; lia].
Qed.

Lemma write_byte_emits (b : Z) : emits (M := M) (write_byte b) (fun _ evs => sends [b] evs).
Proof.
  eapply emits_impl; [apply write_byte_loop_emits|]. cbn beta. intros [] e (T & P & W & L).
  constructor; [done..|]. unfold SERIAL_TIMEOUT in L. simpl length. lia.
Qed.

Lemma write_bytes_emits (bytes : list Z) :
  emits (M := M) (write_bytes bytes) (fun _ evs => sends (crlf bytes) evs).
Proof.
  induction bytes as [|b bytes IH]; cbn [write_bytes crlf flat_map].
  { apply emits_ret, sends_nil. }
  eapply (emits_bind _ _ (fun _ e1 => sends (if b =? 0x0a then [0x0d] else []) e1)).
  { case_match; [apply write_byte_emits|apply emits_ret, sends_nil]. }
  intros [] e1 S1. eapply emits_bind; [apply write_byte_emits|]. intros [] e2 S2.
  eapply emits_impl; [exact IH|]. cbn beta. intros [] e3 S3. rewrite app_assoc. apply sends_app; [|done].
  pose proof (sends_app _ _ _ _ S1 S2) as S12. destruct (Z.eqb_spec b 0x0a) as [->|]; exact S12.
Qed.

(** A device whose transmitter is always empty. *)
Hypothesis always_ready : forall dev : M, transmitter_empty (wrap 8 (hw_in8 (COM1 + 5) dev).1) = true.

Lemma write_byte_ready (b : Z) :
  emits (M := M) (write_byte b) (fun _ evs => writes evs = [(COM1, b)]).
Proof.
  unfold write_byte, SERIAL_TIMEOUT. rewrite <- (Nat.succ_pred_pos (Z.to_nat 100000)) by lia.
  cbn [write_byte_loop]. intros m. unfold mbind, IO_bind, in8, out8.
  specialize (always_ready (devices m)). unfold transmitter_empty in always_ready.
  destruct (hw_in8 (COM1 + 5) (devices m)) as [v dev]. simpl in always_ready. rewrite always_ready. simpl.
  eexists. split; [by rewrite <- app_assoc|done].
Qed.

Lemma write_bytes_ready (bytes : list Z) :
  emits (M := M) (write_bytes bytes) (fun _ evs => map snd (writes evs) = crlf bytes).
Proof.
  induction bytes as [|b bytes IH]; cbn [write_bytes crlf flat_map]; [by apply emits_ret|].
  eapply (emits_bind _ _ (fun _ e1 => map snd (writes e1) = if b =? 0x0a then [0x0d] else [])).
  { case_match; [|by apply emits_ret]. eapply emits_impl; [apply write_byte_ready|].
    cbn beta. by intros [] e ->. }
  intros [] e1 W1. eapply emits_bind; [apply write_byte_ready|]. intros [] e2 W2.
  eapply emits_impl; [exact IH|]. cbn beta. intros [] e3 W3.
  rewrite !writes_app, !map_app, W1, W2, W3. by destruct (Z.eqb_spec b 0x0a) as [->|].
Qed.
End Proofs.

(** A transmission that loses nothing if the line is always ready. *)
Record transmits {M : Type} `{Hardware M} (bytes : list Z) (evs : list port_event) : Prop := {
  tr_sends : sends bytes evs;
  tr_ready : (forall dev : M, transmitter_empty (wrap 8 (hw_in8 (COM1 + 5) dev).1) = true) ->
    map snd (writes evs) = bytes;
}.

Arguments transmits M {_} _ _.

Lemma transmits_nil {M : Type} `{Hardware M} : transmits M [] [].
Proof. by constructor; [apply sends_nil|]. Qed.

Lemma transmits_app {M : Type} `{Hardware M} (b1 b2 : list Z) (e1 e2 : list port_event) :
  transmits M b1 e1 -> transmits M b2 e2 -> transmits M (b1 ++ b2) (e1 ++ e2).
Proof.
  intros [S1 R1] [S2 R2]. constructor; [by apply sends_app|]. intros Hready.
  by rewrite writes_app, map_app, R1, R2.
Qed.

Lemma serial_write_str_transmits {M : Type} `{Hardware M} (text : str) :
  emits (M := M) (serial_write_str text) (fun _ evs => transmits M (crlf (encode text)) evs).
Proof.
  intros m. destruct (write_bytes_emits (encode text) m) as (evs & Hlog & Hs).
  exists evs. split; [done|]. constructor; [done|].
  intros Hready. destruct (write_bytes_ready Hready (encode text) m) as (evs' & Hlog' & W').
  rewrite Hlog in Hlog'. by apply app_inv_head in Hlog' as ->.
Qed.

(** Writing text to the serial line.  On every device: the transmit register
    is written only straight after the line status showed it empty, what is sent
    is the UTF-8 encoding of the text, with a carriage return before each line
    feed, less the bytes whose wait timed out, in order, and the call ends after
    at most 100001 port accesses per byte.  On a device that is always ready
    nothing is lost. *)
Lemma serial_write_str_spec {M : Type} `{Hardware M} (text : str) (m : machine M) :
  exists evs, log (serial_write_str text m).2 = log m ++ evs /\
    throttled evs /\
    map snd (writes evs) `sublist_of` crlf (encode text) /\
    Z.of_nat (length evs) <= 100001 * Z.of_nat (length (crlf (encode text))) /\
    ((forall dev : M, transmitter_empty (wrap 8 (hw_in8 (COM1 + 5) dev).1) = true) ->
     map snd (writes evs) = crlf (encode text)).
Proof.
  destruct (serial_write_str_transmits text m) as (evs & Hlog & [[T _ W L] Hready]). eauto 10.
Qed.

(** An always-ready line. *)
#[local] Instance ready_uart : Hardware unit := {
  hw_in8 _ u := (0x60, u); hw_out8 _ _ u := u; hw_in32 _ u := (0, u); hw_out32 _ _ u := u;
}.

Example serial_hello :
  map snd (writes (log (serial_write_str (lit "hi" ++ [0x0a]) {| devices := tt; log := [] |}).2)) =
  [0x68; 0x69; 0x0d; 0x0a].
Proof. by vm_compute. Qed.
