(* ===== verification/Pci.v ===== *)
(** * Pci: finding the xHCI controller

    Models [kernel/src/pci.rs]: configuration mechanism #1 and the bus scan. *)

From S2P Require Import Prelude Ports.
#[local] Open Scope Z_scope.

Definition CONFIG_ADDRESS : Z := 0xcf8.
Definition CONFIG_DATA : Z := 0xcfc.
Definition CLASS_SERIAL_BUS : Z := 0x0c.
Definition SUBCLASS_USB : Z := 0x03.
Definition PROGIF_XHCI : Z := 0x30.

Record XhciController : Type := { bus : Z; device : Z; function : Z; mmio_base : Z }.

Definition config_address (bus device function offset : Z) : Z :=
  Z.lor (Z.lor (Z.lor (Z.lor 0x80000000 (Z.shiftl bus 16)) (Z.shiftl device 11))
               (Z.shiftl function 8))
        (Z.land offset 0xfc).

Section Driver.
Context {M : Type} `{Hardware M}.

Definition read_u32 (bus device function offset : Z) : IO M Z :=
  _ ← out32 CONFIG_ADDRESS (config_address bus device function offset);
  in32 CONFIG_DATA.

Definition write_u32 (bus device function offset value : Z) : IO M unit :=
  _ ← out32 CONFIG_ADDRESS (config_address bus device function offset);
  out32 CONFIG_DATA value.

Definition scan_function (bus device function : Z) : IO M (option XhciController) :=
  id ← read_u32 bus device function 0x00;
  if Z.land id 0xffff =? 0xffff then mret None else
  class ← read_u32 bus device function 0x08;
  let class_code := wrap 8 (Z.shiftr class 24) in
  let subclass := wrap 8 (Z.shiftr class 16) in
  let programming_interface := wrap 8 (Z.shiftr class 8) in
  if negb ((class_code =? CLASS_SERIAL_BUS) && (subclass =? SUBCLASS_USB) &&
           (programming_interface =? PROGIF_XHCI)) then mret None else
  low_bar ← read_u32 bus device function 0x10;
  if negb (Z.land low_bar 0x01 =? 0) then mret None else
  let bar_type := Z.land (Z.shiftr low_bar 1) 0x03 in
  base ← (if bar_type =? 0x00 then mret (Some (Z.land low_bar (not_w 32 0x0f)))
          else if bar_type =? 0x02 then
            high_bar ← read_u32 bus device function 0x14;
            mret (Some (Z.lor (Z.shiftl high_bar 32) (Z.land low_bar (not_w 64 0x0f))))
          else mret None);
  match base with
  | None => mret None
  | Some mmio_base =>
      if mmio_base =? 0 then mret None else
      command_status ← read_u32 bus device function 0x04;
      _ ← write_u32 bus device function 0x04 (Z.lor command_status 0x00000006);
      mret (Some {| bus := bus; device := device; function := function; mmio_base := mmio_base |})
  end.

(** A [for] loop that returns what its body finds first. *)
Fixpoint search_in {A R : Type} (l : list A) (body : A -> IO M (option R)) : IO M (option R) :=
  match l with
  | [] => mret None
  | x :: l =>
      found ← body x;
      match found with
      | Some r => mret (Some r)
      | None => search_in l body
      end
  end.

Definition scan_device (bus device : Z) : IO M (option XhciController) :=
  found ← scan_function bus device 0;
  match found with
  | Some controller => mret (Some controller)
  | None =>
      header ← read_u32 bus device 0 0x0c;
      if Z.land header 0x800000 =? 0 then mret None
      else search_in (seqZ 1 7) (scan_function bus device)
  end.

Definition find_xhci_controller : IO M (option XhciController) :=
  search_in (seqZ 0 256) (fun bus => search_in (seqZ 0 32) (scan_device bus)).
End Driver.

(** ** Configuration space *)

(** Packing a field below the ones already there. *)
Lemma lor_low (a l n : Z) : 0 <= n /\ a mod 2 ^ n = 0 /\ 0 <= l < 2 ^ n -> Z.lor a l = a + l.
Proof.
  intros (Hn & Ha & Hl). pose proof (Z.div_mod a (2 ^ n) ltac:(lia)) as Hd.
  replace a with (Z.shiftl (a / 2 ^ n) n) at 1 by (rewrite Z.shiftl_mul_pow2; lia).
  rewrite lor_shiftl_add; lia.
Qed.

(** A 32-bit register of a function: bus, device, function and the register's number
    (its byte offset divided by 4). *)
Definition place : Type := Z * Z * Z * Z.

(** What the PCI specification says of the word written to the address port: bit 31
    enables the access, and bits 16 to 23, 11 to 15, 8 to 10 and 2 to 7 name the
    bus, the device, the function and the register. *)
Definition selects (a : Z) : option place :=
  if Z.testbit a 31 then Some (a / 2 ^ 16 mod 256, a / 2 ^ 11 mod 32, a / 2 ^ 8 mod 8, a / 2 ^ 2 mod 64)
  else None.

(** A host bridge that implements mechanism #1: the data port reads and writes the
    register that the address last written selects; an address without the enable
    bit reads as ones and takes no writes. *)
Record bridge : Type := { selected : Z; space : place -> Z }.

Definition set_register (s : place -> Z) (p : place) (v : Z) : place -> Z :=
  fun q => if decide (q = p) then v else s q.

#[export] Instance bridge_hardware : Hardware bridge := {
  hw_in8 _ b := (0, b);
  hw_out8 _ _ b := b;
  hw_in32 port b :=
    (if port =? 0xcfc then
       match selects (selected b) with Some p => space b p | None => 0xffffffff end
     else 0, b);
  hw_out32 port v b :=
    if port =? 0xcf8 then {| selected := v; space := space b |}
    else if port =? 0xcfc then
      match selects (selected b) with
      | Some p => {| selected := selected b; space := set_register (space b) p v |}
      | None => b
      end
    else b;
}.

(** The register of a function at a byte offset, as 32 bits. *)
Definition reg (s : place -> Z) (b d f offset : Z) : Z := s (b, d, f, offset / 4) mod 2 ^ 32.

(** The functions that exist on a bus: the first of each of the 32 devices, and the
    other seven where the first one's header type has the multi-function bit. *)
Definition slot (b d f : Z) : Prop := 0 <= b < 256 /\ 0 <= d < 32 /\ 0 <= f < 8.

Definition declared (s : place -> Z) (b d f : Z) : Prop :=
  slot b d f /\ (f = 0 \/ Z.testbit (reg s b d 0 0x0c) 23 = true).

(** A function that is an xHCI controller with its registers in memory at [base]: it
    has a vendor, its class, subclass and interface are 0c, 03 and 30, and its first
    base address register is a memory one, of 32 bits or of 64 with the upper half in
    the next register, whose low four bits are not part of the address. *)
Record xhci_at (s : place -> Z) (b d f base : Z) : Prop := {
  xa_vendor : reg s b d f 0x00 mod 2 ^ 16 <> 0xffff;
  xa_class : reg s b d f 0x08 / 2 ^ 8 = 0x0c0330;
  xa_memory : reg s b d f 0x10 mod 2 = 0;
  xa_base :
    reg s b d f 0x10 / 2 mod 4 = 0 /\ base = reg s b d f 0x10 / 16 * 16 \/
    reg s b d f 0x10 / 2 mod 4 = 2 /\
      base = reg s b d f 0x14 * 2 ^ 32 + reg s b d f 0x10 / 16 * 16;
  xa_nonzero : base <> 0;
}.

(** The order of the scan. *)
Definition not_after (b d f b' d' f' : Z) : Prop :=
  b < b' \/ b = b' /\ (d < d' \/ d = d' /\ f <= f').

(** ** What the driver computes from a space *)

(** The configuration address of a register selects that register. *)
Lemma config_address_selects (b d f o : Z) :
  slot b d f -> 0 <= o < 256 ->
  is_uint 32 (config_address b d f o) /\ selects (config_address b d f o) = Some (b, d, f, o / 4).
Proof.
  intros (Hb & Hd & Hf) Ho.
  assert (Ha : config_address b d f o = 0x80000000 + b * 2 ^ 16 + d * 2 ^ 11 + f * 2 ^ 8 + o / 4 * 4).
  { unfold config_address.
    assert (Hoff : Z.land o 0xfc = o / 4 * 4).
    { apply (land_not_ones 8 2 o); unfold is_uint; lia. }
    rewrite Hoff, !Z.shiftl_mul_pow2 by lia. simpl Z.pow.
    rewrite (lor_low _ (b * _) 31), (lor_low _ (d * _) 16), (lor_low _ (f * _) 11), (lor_low _ _ 8)
      by (simpl; zlia). lia. }
  unfold selects. rewrite Z.testbit_odd, Z.shiftr_div_pow2 by lia. rewrite Ha. clear Ha.
  assert (Hq : (0x80000000 + b * 2 ^ 16 + d * 2 ^ 11 + f * 2 ^ 8 + o / 4 * 4) / 2 ^ 31 = 1)
    by (simpl; zlia).
  rewrite Hq. cbn [Z.odd]. unfold is_uint. split; [simpl; zlia|]. repeat f_equal; simpl; zlia.
Qed.

Definition base_of (s : place -> Z) (b d f : Z) : option Z :=
  let bar := reg s b d f 0x10 in
  let base :=
    if Z.land (Z.shiftr bar 1) 3 =? 0 then Some (Z.land bar (not_w 32 0xf))
    else if Z.land (Z.shiftr bar 1) 3 =? 2
    then Some (Z.lor (Z.shiftl (reg s b d f 0x14) 32) (Z.land bar (not_w 64 0xf)))
    else None in
  if Z.land (reg s b d f 0) 0xffff =? 0xffff then None
  else if negb (Z.shiftr (reg s b d f 8) 8 =? 0x0c0330) then None
  else if negb (Z.land bar 1 =? 0) then None
  else base ← base; if base =? 0 then None else Some base.

Lemma reg_uint (s : place -> Z) (b d f o : Z) : is_uint 32 (reg s b d f o).
Proof. apply Z.mod_pos_bound. lia. Qed.

Lemma land_ones_mod (x n : Z) : 0 <= n -> Z.land x (2 ^ n - 1) = x mod 2 ^ n.
Proof. intros Hn. rewrite <- Z.land_ones by done. by rewrite Z.ones_equiv, Z.sub_1_r. Qed.

(** The decoding of the registers is the one of [xhci_at]. *)
Lemma base_of_iff (s : place -> Z) (b d f base : Z) :
  base_of s b d f = Some base <-> xhci_at s b d f base.
Proof.
  unfold base_of. pose proof (reg_uint s b d f 0x10) as Hbar. pose proof (reg_uint s b d f 0x14) as Hhigh.
  cbv zeta.
  pose proof (fun x => land_ones_mod x 16 ltac:(lia)) as H16.
  pose proof (fun x => land_ones_mod x 2 ltac:(lia)) as H2.
  pose proof (fun x => land_ones_mod x 1 ltac:(lia)) as H1.
  simpl Z.sub in H16, H2, H1. rewrite H16, !H2, H1, !Z.shiftr_div_pow2 by lia. clear H16 H2 H1.
  change 0xf with (2 ^ 4 - 1). rewrite !land_not_ones by (unfold is_uint in *; lia).
  rewrite lor_shiftl_add by (unfold is_uint in *; simpl; zlia).
  set (bar := reg s b d f 0x10) in *. set (high := reg s b d f 0x14) in *.
  change (2 ^ 1) with 2. change (2 ^ 2) with 4. change (2 ^ 4) with 16.
  assert (Hiff : forall o : option Z, (base ← o; if base =? 0 then None else Some base) = Some base <->
            o = Some base /\ base <> 0).
  { intros [x|]; simpl; [destruct (Z.eqb_spec x 0)|]; split; intuition congruence. }
  split.
  - destruct (Z.eqb_spec (reg s b d f 0 mod 2 ^ 16) 0xffff) as [|Hv]; [done|].
    destruct (Z.eqb_spec (reg s b d f 8 / 2 ^ 8) 0x0c0330) as [Hc|]; [|done].
    destruct (Z.eqb_spec (bar mod 2) 0) as [Hm|]; [|done]. cbn [negb]. rewrite Hiff.
    intros [Hb Hnz]. constructor; [done..| |done]. fold bar high.
    destruct (Z.eqb_spec (bar / 2 mod 4) 0); [left; by simplify_eq|].
    destruct (Z.eqb_spec (bar / 2 mod 4) 2); [right; by simplify_eq|done].
  - intros [Hv Hc Hm Hb Hnz]. fold bar high in Hm, Hb.
    rewrite (proj2 (Z.eqb_neq _ _) Hv), (proj2 (Z.eqb_eq _ _) Hc), (proj2 (Z.eqb_eq _ _) Hm). cbn [negb].
    rewrite Hiff. split; [|done]. destruct Hb as [[-> ->]|[-> ->]]; done.
Qed.

Definition functions (s : place -> Z) (b d : Z) : list Z :=
  0 :: (if Z.testbit (reg s b d 0 0x0c) 23 then seqZ 1 7 else []).

Fixpoint first_some {A R : Type} (f : A -> option R) (l : list A) : option R :=
  match l with
  | [] => None
  | x :: l => match f x with Some r => Some r | None => first_some f l end
  end.

Definition describe (s : place -> Z) (b d f : Z) : option XhciController :=
  base ← base_of s b d f;
  Some {| bus := b; device := d; function := f; mmio_base := base |}.

Definition first_function (s : place -> Z) (b d : Z) : option XhciController :=
  first_some (describe s b d) (functions s b d).

Definition first_xhci (s : place -> Z) : option XhciController :=
  first_some (fun b => first_some (first_function s b) (seqZ 0 32)) (seqZ 0 256).

(** The space after memory decoding and bus mastering are enabled. *)
Definition enabled (s : place -> Z) (found : option XhciController) : place -> Z :=
  match found with
  | None => s
  | Some c =>
      set_register s (bus c, device c, function c, 1) (Z.lor (reg s (bus c) (device c) (function c) 4) 6)
  end.

Lemma describe_Some (s : place -> Z) (b d f : Z) (c : XhciController) :
  describe s b d f = Some c <->
  bus c = b /\ device c = d /\ function c = f /\ xhci_at s b d f (mmio_base c).
Proof.
  unfold describe. rewrite <- base_of_iff. destruct c as [b' d' f' base].
  destruct (base_of s b d f) as [base'|]; cbn; split;
    [intros [= <- <- <- <-]; auto|intros (-> & -> & -> & [= ->]); done|done|by intros (_ & _ & _ & ?)].
Qed.

Lemma describe_None (s : place -> Z) (b d f base : Z) : describe s b d f = None -> ~ xhci_at s b d f base.
Proof. unfold describe. rewrite <- base_of_iff. intros Hn Hb. by rewrite Hb in Hn. Qed.

Lemma first_some_seqZ {R : Type} (f : Z -> option R) (lo : Z) (n : nat) :
  match first_some f (seqZ lo (Z.of_nat n)) with
  | Some r => exists x, lo <= x < lo + Z.of_nat n /\ f x = Some r /\ forall y, lo <= y < x -> f y = None
  | None => forall y, lo <= y < lo + Z.of_nat n -> f y = None
  end.
Proof.
  revert lo. induction n as [|n IH]; intros lo; [simpl; lia|].
  rewrite seqZ_cons by lia. replace (Z.pred (Z.of_nat (S n))) with (Z.of_nat n) by lia. cbn [first_some].
  destruct (f lo) as [r|] eqn:Hlo; [exists lo; split_and!; [lia..|done|lia]|].
  specialize (IH (Z.succ lo)). destruct (first_some f (seqZ (Z.succ lo) _)) as [r|].
  - destruct IH as (x & Hx & Hf & Hy). exists x. split; [lia|]. split; [done|].
    intros y ?. destruct (decide (y = lo)) as [->|]; [done|]. apply Hy. lia.
  - intros y ?. destruct (decide (y = lo)) as [->|]; [done|]. apply IH. lia.
Qed.

(** Of one device: the first of its functions, if one qualifies. *)
Lemma first_function_spec (s : place -> Z) (b d : Z) :
  0 <= b < 256 -> 0 <= d < 32 ->
  match first_function s b d with
  | Some c => exists f, declared s b d f /\ describe s b d f = Some c /\
      forall f', declared s b d f' -> f' < f -> describe s b d f' = None
  | None => forall f, declared s b d f -> describe s b d f = None
  end.
Proof.
  intros Hb Hd. unfold first_function, functions, declared, slot. cbn [first_some].
  destruct (describe s b d 0) as [c|] eqn:H0.
  { exists 0. split; [split; [lia|by left]|]. split; [done|]. lia. }
  destruct (Z.testbit (reg s b d 0 0x0c) 23); cbn [first_some].
  - pose proof (first_some_seqZ (describe s b d) 1 7) as Hseq. change (Z.of_nat 7) with 7 in Hseq.
    destruct (first_some _ (seqZ 1 7)) as [c|].
    + destruct Hseq as (f & Hf & Hc & Hn). exists f. split; [split; [lia|by right]|]. split; [done|].
      intros f' ? ?. destruct (decide (f' = 0)) as [->|]; [done|]. apply Hn. lia.
    + intros f ?. destruct (decide (f = 0)) as [->|]; [done|]. apply Hseq. lia.
  - intros f [_ [->|]]; done.
Qed.

(** Of the whole bus. *)
Lemma first_xhci_spec (s : place -> Z) :
  match first_xhci s with
  | Some c =>
      declared s (bus c) (device c) (function c) /\
      xhci_at s (bus c) (device c) (function c) (mmio_base c) /\
      forall b d f base, declared s b d f -> xhci_at s b d f base ->
        not_after (bus c) (device c) (function c) b d f
  | None => forall b d f base, declared s b d f -> ~ xhci_at s b d f base
  end.
Proof.
  assert (Hdev : forall b d f, declared s b d f -> first_function s b d = None -> describe s b d f = None).
  { intros b d f Hdf Hn. pose proof (first_function_spec s b d) as Hs. rewrite Hn in Hs.
    destruct Hdf as [(? & ? & ?) Hor]. apply Hs; [lia..|]. split; [by unfold slot|done]. }
  assert (Hbus : forall b d f, declared s b d f -> first_some (first_function s b) (seqZ 0 32) = None ->
            describe s b d f = None).
  { intros b d f Hdf Hn. apply Hdev; [done|]. pose proof (first_some_seqZ (first_function s b) 0 32) as Hseq.
    change (Z.of_nat 32) with 32 in Hseq. rewrite Hn in Hseq. apply Hseq. destruct Hdf as [(? & ? & ?) _]. lia. }
  unfold first_xhci.
  pose proof (first_some_seqZ (fun b => first_some (first_function s b) (seqZ 0 32)) 0 256) as Hseq.
  change (Z.of_nat 256) with 256 in Hseq. destruct (first_some _ (seqZ 0 256)) as [c|].
  2: { intros b d f base Hdf. apply describe_None, Hbus; [done|]. apply Hseq.
       destruct Hdf as [(? & ? & ?) _]. lia. }
  destruct Hseq as (b & Hb & Hc & Hbefore).
  pose proof (first_some_seqZ (first_function s b) 0 32) as Hseq. change (Z.of_nat 32) with 32 in Hseq.
  rewrite Hc in Hseq. destruct Hseq as (d & Hd & Hfn & Hdbefore).
  pose proof (first_function_spec s b d ltac:(lia) ltac:(lia)) as Hfun. rewrite Hfn in Hfun.
  destruct Hfun as (f & Hdecl & Hdesc & Hfbefore).
  apply describe_Some in Hdesc as (<- & <- & <- & Hx). split; [done|]. split; [done|].
  intros b' d' f' base Hdecl' Hx'. unfold not_after.
  pose proof Hdecl' as [(? & ? & ?) _].
  destruct (Z.lt_trichotomy b' (bus c)) as [Hlt|[->|]]; [|..|lia].
  { by destruct (describe_None s b' d' f' base (Hbus _ _ _ Hdecl' (Hbefore b' ltac:(lia)))). }
  destruct (Z.lt_trichotomy d' (device c)) as [Hlt|[->|]]; [|..|lia].
  { by destruct (describe_None s _ d' f' base (Hdev _ _ _ Hdecl' (Hdbefore d' ltac:(lia)))). }
  destruct (decide (f' < function c)) as [Hlt|]; [|lia].
  by destruct (describe_None s _ _ f' base (Hfbefore f' Hdecl' Hlt)).
Qed.

(** ** The driver on the bridge *)

Lemma class_test (class : Z) :
  is_uint 32 class ->
  ((wrap 8 (Z.shiftr class 24) =? CLASS_SERIAL_BUS) && (wrap 8 (Z.shiftr class 16) =? SUBCLASS_USB) &&
   (wrap 8 (Z.shiftr class 8) =? PROGIF_XHCI)) = (Z.shiftr class 8 =? 0x0c0330).
Proof.
  intros [H0 H1]. unfold wrap, CLASS_SERIAL_BUS, SUBCLASS_USB, PROGIF_XHCI.
  rewrite !Z.shiftr_div_pow2 by lia. apply eq_true_iff_eq.
  rewrite !andb_true_iff, !Z.eqb_eq. simpl in *. zlia.
Qed.

(** What a run leaves behind: its result and the configuration space. *)
Definition runs {A : Type} (c : IO bridge A) (s : place -> Z) (a : A) (s' : place -> Z) : Prop :=
  forall m, space (devices m) = s -> (c m).1 = a /\ space (devices (c m).2) = s'.

Lemma config_runs_ret {A : Type} (a : A) (s : place -> Z) : runs (mret a) s a s.
Proof. by intros m. Qed.

Lemma config_runs_bind {A B : Type} (c : IO bridge A) (k : A -> IO bridge B) s a s1 b s2 :
  runs c s a s1 -> runs (k a) s1 b s2 -> runs (c ≫= k) s b s2.
Proof.
  intros Hc Hk m Hm. destruct (Hc m Hm) as [Ha Hs]. unfold mbind, IO_bind.
  destruct (c m) as [a' m']. simpl in *. subst a'. by apply Hk.
Qed.

Lemma runs_read (b d f o : Z) (s : place -> Z) :
  slot b d f -> 0 <= o < 256 -> runs (read_u32 b d f o) s (reg s b d f o) s.
Proof.
  intros Hs Ho m <-. destruct (config_address_selects b d f o Hs Ho) as [_ Ha].
  unfold read_u32, mbind, IO_bind, out32, in32. cbn. by rewrite Ha.
Qed.

Lemma runs_write (b d f o v : Z) (s : place -> Z) :
  slot b d f -> 0 <= o < 256 -> runs (write_u32 b d f o v) s tt (set_register s (b, d, f, o / 4) v).
Proof.
  intros Hs Ho m <-. destruct (config_address_selects b d f o Hs Ho) as [_ Ha].
  unfold write_u32, mbind, IO_bind, out32. cbn. by rewrite Ha.
Qed.

Lemma runs_scan_function (b d f : Z) (s : place -> Z) :
  slot b d f -> runs (scan_function b d f) s (describe s b d f) (enabled s (describe s b d f)).
Proof.
  intros Hslot.
  assert (Hread : forall o, 0 <= o < 256 -> runs (read_u32 b d f o) s (reg s b d f o) s) by auto using runs_read.
  unfold scan_function, describe, base_of. eapply config_runs_bind; [by apply Hread|].
  destruct (Z.land (reg s b d f 0) 0xffff =? 0xffff); [apply config_runs_ret|].
  eapply config_runs_bind; [by apply Hread|]. cbv zeta. rewrite class_test by apply reg_uint.
  destruct (negb (Z.shiftr (reg s b d f 8) 8 =? _)); [apply config_runs_ret|].
  eapply config_runs_bind; [by apply Hread|].
  destruct (negb (Z.land (reg s b d f 0x10) 1 =? 0)); [apply config_runs_ret|].
  eapply (config_runs_bind _ _ _ _ s).
  - instantiate (1 := if Z.land (Z.shiftr (reg s b d f 0x10) 1) 3 =? 0 then _ else
      if Z.land (Z.shiftr (reg s b d f 0x10) 1) 3 =? 2 then _ else _).
    destruct (Z.land _ 3 =? 0); [apply config_runs_ret|]. destruct (Z.land _ 3 =? 2); [|apply config_runs_ret].
    eapply config_runs_bind; [by apply Hread|apply config_runs_ret].
  - destruct (if Z.land _ 3 =? 0 then _ else _) as [base|]; [|apply config_runs_ret]. cbn [mbind option_bind].
    destruct (base =? 0); [apply config_runs_ret|]. cbn [mbind option_bind].
    eapply config_runs_bind; [by apply Hread|].
    eapply config_runs_bind; [by apply runs_write|apply config_runs_ret].
Qed.

Lemma runs_search {A : Type} (l : list A) (body : A -> IO bridge (option XhciController))
    (spec : A -> option XhciController) (s : place -> Z) :
  (forall x, x ∈ l -> runs (body x) s (spec x) (enabled s (spec x))) ->
  runs (search_in l body) s (first_some spec l) (enabled s (first_some spec l)).
Proof.
  intros Hbody. induction l as [|x l IH]; cbn [search_in first_some]; [apply config_runs_ret|].
  eapply config_runs_bind; [apply Hbody; left|].
  destruct (spec x); [apply config_runs_ret|]. apply IH. intros y Hy. apply Hbody. by right.
Qed.

Lemma multi_function_bit (header : Z) :
  (Z.land header 0x800000 =? 0) = negb (Z.testbit header 23).
Proof. by apply (land_pow2_test header 23). Qed.

Lemma runs_scan_device (b d : Z) (s : place -> Z) :
  0 <= b < 256 -> 0 <= d < 32 ->
  runs (scan_device b d) s (first_function s b d) (enabled s (first_function s b d)).
Proof.
  intros Hb Hd. unfold scan_device, first_function, functions. cbn [first_some].
  eapply config_runs_bind; [apply runs_scan_function; split_and!; lia|].
  destruct (describe s b d 0); cbn [enabled]; [apply config_runs_ret|].
  eapply config_runs_bind; [apply runs_read; unfold slot; lia|].
  rewrite multi_function_bit. destruct (Z.testbit (reg s b d 0 0x0c) 23); cbn [negb]; [|apply config_runs_ret].
  apply runs_search. intros f Hf%elem_of_seqZ. apply runs_scan_function. split_and!; lia.
Qed.

Lemma lor_memory_master (x i : Z) :
  0 <= i -> Z.testbit (Z.lor x 6) i = Z.testbit x i || (i =? 1) || (i =? 2).
Proof.
  intros Hi. change 6 with (Z.lor (2 ^ 1) (2 ^ 2)). rewrite !Z.lor_spec, !Z.pow2_bits_eqb by lia.
  by rewrite orb_assoc, (Z.eqb_sym 1), (Z.eqb_sym 2).
Qed.

(** C40: The bus scan, on any configuration space behind a bridge that implements
    mechanism #1.  [find_xhci_controller] returns the bus, device, function and
    memory base of an xHCI controller that no other one precedes in the order of bus,
    device and function (the functions past the first only where the header declares
    them), and [None] only when there is none.  It sets the memory-decoding and
    bus-mastering bits, 1 and 2, of the command register of the function it returns,
    and changes no other bit and no other register of any function. *)
Theorem find_xhci_spec (m : machine bridge) :
  let s := space (devices m) in
  let '(found, m') := find_xhci_controller m in
  let s' := space (devices m') in
  match found with
  | Some c =>
      let here := (bus c, device c, function c) in
      declared s (bus c) (device c) (function c) /\
      xhci_at s (bus c) (device c) (function c) (mmio_base c) /\
      (forall b d f base, declared s b d f -> xhci_at s b d f base ->
         not_after (bus c) (device c) (function c) b d f) /\
      (forall i, 0 <= i < 32 ->
         Z.testbit (s' (here, 1)) i = Z.testbit (s (here, 1)) i || (i =? 1) || (i =? 2)) /\
      (forall p, p <> (here, 1) -> s' p = s p)
  | None => (forall b d f base, declared s b d f -> ~ xhci_at s b d f base) /\ forall p, s' p = s p
  end.
Proof.
  intros s. assert (Hrun : runs find_xhci_controller s (first_xhci s) (enabled s (first_xhci s))).
  { apply runs_search. intros b Hb%elem_of_seqZ. apply runs_search. intros d Hd%elem_of_seqZ.
    apply runs_scan_device; lia. }
  destruct (Hrun m eq_refl) as [Hr Hs]. destruct (find_xhci_controller m) as [found m']. cbn [fst snd] in Hr, Hs.
  cbv zeta. rewrite Hr, Hs. pose proof (first_xhci_spec s) as Hspec.
  destruct (first_xhci s) as [c|]; [|by split]. destruct Hspec as (Hdecl & Hx & Hmin).
  split_and!; [done..| |]; cbn [enabled]; unfold set_register.
  - intros i Hi. rewrite decide_True by done. rewrite lor_memory_master by lia. do 2 f_equal.
    unfold reg. by rewrite Z.mod_pow2_bits_low by lia.
  - intros p Hp. by rewrite decide_False.
Qed.

(** ** A bus *)

(** A controller with a 64-bit base on function 2 of device 4, behind a network card. *)
Definition demo_space (p : place) : Z :=
  match p with
  | (0, 4, 0, 0) => 0x100e8086
  | (0, 4, 0, 2) => 0x02000000
  | (0, 4, 0, 3) => 0x00800000
  | (0, 4, 2, 0) => 0x000d1b36
  | (0, 4, 2, 1) => 0x00100000
  | (0, 4, 2, 2) => 0x0c033001
  | (0, 4, 2, 4) => 0xfe000004
  | (0, 4, 2, 5) => 0x8
  | _ => 0xffffffff
  end.

Lemma find_xhci_spec_witness :
  let m := Build_machine {| selected := 0; space := demo_space |} [] in
  let '(found, m') := find_xhci_controller m in
  found = Some {| bus := 0; device := 4; function := 2; mmio_base := 0x8fe000000 |} /\
  Z.testbit (space (devices m') (0, 4, 2, 1)) 1 = true.
Proof.
  cbv zeta. pose proof (find_xhci_spec (Build_machine {| selected := 0; space := demo_space |} [])) as Hspec.
  assert (Hfound : (find_xhci_controller (Build_machine {| selected := 0; space := demo_space |} [])).1 =
    Some {| bus := 0; device := 4; function := 2; mmio_base := 0x8fe000000 |}) by (vm_compute; reflexivity).
  destruct (find_xhci_controller _) as [found m']. cbn [fst] in Hfound. subst found. split; [reflexivity|].
  destruct Hspec as (_ & _ & _ & Hbits & _). exact (Hbits 1 ltac:(lia)).
Defined.
