(* ===== verification/Shell.v ===== *)
(** * Shell: the line editor and the commands

    Models [kernel/src/shell.rs]: the editing loop of [run], one step per key
    event, and [execute] with its commands.  What is printed is a list of
    console actions; [None] is a panic.  The values a command reads from other
    modules (timer, heap) are taken when it runs. *)

From S2P Require Import Prelude Storage Str Fat32 Ports Keyboard Console Allocator History Timer.
#[local] Open Scope Z_scope.

Record SystemInfo : Type := { usable_frames : Z; frames_consumed_at_boot : Z }.

(** What [uptime] and [meminfo] read: the tick counter at each of its two loads,
    and the global allocator. *)
Record readings : Type := { ticks_first : Z; ticks_second : Z; heap_now : BumpAllocator }.

(** A command returns to the loop, or never does. *)
Inductive fate : Type := Returns | Reboots | Halts.

(** ** Output *)

Definition prompt : list action := print (lit "sol> ") ++ [ShowCursor].

Definition print_ascii (bytes : list Z) : list action := map (fun b => Print [b]) bytes.

(** Returns the new [displayed_length] too. *)
Definition redraw (line : list Z) (length cursor displayed_length : nat)
  : option (nat * list action) :=
  typed ← slice line 0 length;
  before ← slice line 0 cursor;
  Some (length,
        print (0x0d :: lit "sol> ") ++ print_ascii typed ++
        replicate (displayed_length - length) (Print [0x20]) ++
        print (0x0d :: lit "sol> ") ++ print_ascii before ++ [ShowCursor]).

Definition leave_history (history_position : option nat) : option nat := None.

(** ** Commands *)

Definition help : list action :=
  println (lit "commands:") ++
  println (lit "  help             show this text") ++
  println (lit "  echo <text>      print text") ++
  println (lit "  ls [path]        list a FAT32 directory") ++
  println (lit "  cat <file>       print a FAT32 file") ++
  println (lit "  clear            clear the framebuffer console") ++
  println (lit "  uptime           show PIT-based uptime") ++
  println (lit "  meminfo          show frame and heap statistics") ++
  println (lit "  reboot | halt    stop or reset the machine").

Definition arguments_after_command (line : str) : str :=
  match find_tail is_whitespace line with
  | Some rest => trim_start rest
  | None => []
  end.

(** The bytes of a chunk that is not UTF-8. *)
Definition print_escaped (byte : Z) : action :=
  if is_ascii_graphic byte || (byte =? 0x20) || (byte =? 0x0a) || (byte =? 0x0d)
  then Print [byte] else Print (lit "\x" ++ hex2 byte).

Definition print_file_chunk (bytes : list Z) : list action :=
  match from_utf8 bytes with
  | Some text => print text
  | None => map print_escaped bytes
  end.

(** [{error:?}] *)
Definition debug_storage (e : StorageError) : str :=
  match e with
  | MissingRamdisk => lit "MissingRamdisk"
  | InvalidRamdisk => lit "InvalidRamdisk"
  | SectorOutOfRange => lit "SectorOutOfRange"
  end.

Definition debug_error (e : FsError) : str :=
  match e with
  | Device e => lit "Device(" ++ debug_storage e ++ lit ")"
  | InvalidBootSector => lit "InvalidBootSector"
  | UnsupportedVolume => lit "UnsupportedVolume"
  | InvalidCluster => lit "InvalidCluster"
  | CorruptFat => lit "CorruptFat"
  | DirectoryLoop => lit "DirectoryLoop"
  | NotFound => lit "NotFound"
  | NotDirectory => lit "NotDirectory"
  | IsDirectory => lit "IsDirectory"
  | TruncatedFile => lit "TruncatedFile"
  end.

Definition entry_line (entry : DirEntry) : str :=
  (if is_directory entry then lit "<DIR>" else lit "     ") ++ lit " " ++
  pad_left 7 (decimal (de_size entry)) ++ lit " " ++ entry_name entry.

Definition uptime (r : readings) : list action :=
  println (lit "uptime: " ++ decimal (uptime_seconds (ticks_first r)) ++ lit " s (" ++
           decimal (ticks (ticks_second r)) ++ lit " timer ticks)").

Definition meminfo (system : SystemInfo) (r : readings) : list action :=
  let physical_kib := saturating_mul 64 (usable_frames system) 4 in
  println (lit "usable physical memory: " ++ decimal physical_kib ++ lit " KiB") ++
  println (lit "heap: " ++ decimal (used (heap_now r) / 1024) ++ lit " / " ++
           decimal (capacity (heap_now r) / 1024) ++ lit " KiB used (bump allocator)") ++
  println (lit "frames consumed during bring-up: " ++ decimal (frames_consumed_at_boot system)).

(** [reboot] and [halt] print, then never return; the port accesses of the
    former are [reset_pulse]. *)
Definition reboot_text : list action := println (lit "rebooting through the PS/2 controller...").
Definition halt_text : list action := println (lit "CPU halted.").

Section Reset.
Context {M : Type} `{Hardware M}.

Fixpoint reset_loop (n : nat) : IO M unit :=
  match n with
  | O => mret tt
  | S n =>
      status ← in8 0x64;
      if Z.land status 0x02 =? 0 then out8 0x64 0xfe else reset_loop n
  end.

Definition reset_pulse : IO M unit := reset_loop (Z.to_nat 100000).
End Reset.

Section Execute.
Context {D : Type} `{BlockDevice D}.

Definition ls (fs : Fat32 D) (arguments : list str) : option (list action) :=
  let path := match arguments with p :: _ => p | [] => lit "/" end in
  match arguments with
  | _ :: _ :: _ => Some (println (lit "usage: ls [path]"))
  | _ =>
      match list_dir fs path (fun entry acts => (true, acts ++ println (entry_line entry))) [] with
      | (Ok _, acts) => Some acts
      | (Err error, acts) => Some (acts ++ println (lit "ls: " ++ debug_error error))
      | (Panic, _) => None
      end
  end.

Definition cat (fs : Fat32 D) (arguments : list str) : option (list action) :=
  match arguments with
  | [path] =>
      match read_file fs path (fun chunk acts => acts ++ print_file_chunk chunk) [] with
      | (Ok _, acts) => Some (acts ++ println [])
      | (Err error, acts) => Some (acts ++ println (lit "cat: " ++ debug_error error))
      | (Panic, _) => None
      end
  | _ => Some (println (lit "usage: cat <file>"))
  end.

Definition execute (fs : Fat32 D) (system : SystemInfo) (r : readings) (input : list Z)
  : option (fate * list action) :=
  match from_utf8 input with
  | None => Some (Returns, println (lit "input is not valid UTF-8"))
  | Some text =>
      let line := trim text in
      if is_empty line then Some (Returns, [])
      else
        let words := split_whitespace line in
        let command := match words with c :: _ => c | [] => [] end in
        let arguments := List.tl words in
        if decide (command = lit "help") then Some (Returns, help)
        else if decide (command = lit "echo") then
          Some (Returns, println (arguments_after_command line))
        else if decide (command = lit "ls") then
          acts ← ls fs arguments; Some (Returns, acts)
        else if decide (command = lit "cat") then
          acts ← cat fs arguments; Some (Returns, acts)
        else if decide (command = lit "clear") then
          Some (Returns, [ClearScreen; SerialPrint (0x1b :: lit "[2J" ++ 0x1b :: lit "[H")])
        else if decide (command = lit "uptime") then Some (Returns, uptime r)
        else if decide (command = lit "meminfo") then Some (Returns, meminfo system r)
        else if decide (command = lit "reboot") then Some (Reboots, reboot_text)
        else if decide (command = lit "halt") then Some (Halts, halt_text)
        else Some (Returns, println (lit "unknown command: " ++ command ++ lit "; type 'help'"))
  end.
End Execute.

(** ** The editing loop *)

Record Editor : Type := {
  line : list Z;
  length_ : nat;
  cursor : nat;
  displayed_length : nat;
  history : CommandHistory;
  history_position : option nat;
  draft : list Z;
  draft_length : nat;
}.

Definition editor_new : Editor := {|
  line := replicate LINE_CAPACITY 0;
  length_ := 0;
  cursor := 0;
  displayed_length := 0;
  history := history_new;
  history_position := None;
  draft := replicate LINE_CAPACITY 0;
  draft_length := 0;
|}.

Definition banner : list action :=
  println (0x0a :: lit "Sol OS shell " ++ [0x2014] ++ lit " type 'help' for commands.") ++ prompt.

(** The state after a change of the text, then [redraw]. *)
Definition redrawn (e : Editor) : option (Editor * list action) :=
  '(displayed, acts) ← redraw (line e) (length_ e) (cursor e) (displayed_length e);
  Some ({| line := line e; length_ := length_ e; cursor := cursor e; displayed_length := displayed;
           history := history e; history_position := history_position e;
           draft := draft e; draft_length := draft_length e |}, acts).

Definition set_text (e : Editor) (line : list Z) (length_ cursor : nat) (position : option nat) : Editor :=
  {| line := line; length_ := length_; cursor := cursor; displayed_length := displayed_length e;
     history := history e; history_position := position;
     draft := draft e; draft_length := draft_length e |}.

Definition set_draft (e : Editor) (draft : list Z) (draft_length : nat) : Editor :=
  {| line := line e; length_ := length_ e; cursor := cursor e; displayed_length := displayed_length e;
     history := history e; history_position := history_position e;
     draft := draft; draft_length := draft_length |}.

(** The editing keys.  [Key.Enter] is not one of them: its arm is [enter] below,
    and [handle_event] never gets here with it. *)
Definition edit (e : Editor) (event : KeyEvent) : option (Editor * list action) :=
  let '(len, cur) := (length_ e, cursor e) in
  let leave := leave_history (history_position e) in
  match event with
  | Key.Enter => Some (e, [])
  | Key.Backspace =>
      if decide (0 < cur)%nat then
        line ← copy_within (line e) cur len (cur - 1);
        len ← nat_sub len 1;
        redrawn (set_text e line len (cur - 1) leave)
      else Some (e, [])
  | Key.Delete =>
      if decide (cur < len)%nat then
        line ← copy_within (line e) (cur + 1) len cur;
        redrawn (set_text e line (len - 1) cur leave)
      else Some (e, [])
  | Key.Tab =>
      if decide (len + 4 <= LINE_CAPACITY)%nat then
        line ← copy_within (line e) cur len (cur + 4);
        line ← splice line cur (replicate 4 0x20);
        redrawn (set_text e line (len + 4) (cur + 4) leave)
      else Some (e, [])
  | Key.Character byte =>
      if decide (len < LINE_CAPACITY)%nat then
        line ← copy_within (line e) cur len (cur + 1);
        line ← set_index line cur byte;
        redrawn (set_text e line (len + 1) (cur + 1) leave)
      else Some (e, [])
  | Key.Left =>
      if decide (0 < cur)%nat then redrawn (set_text e (line e) len (cur - 1) (history_position e))
      else Some (e, [])
  | Key.Right =>
      if decide (cur < len)%nat then redrawn (set_text e (line e) len (cur + 1) (history_position e))
      else Some (e, [])
  | Key.Home => redrawn (set_text e (line e) len 0 (history_position e))
  | Key.End => redrawn (set_text e (line e) len len (history_position e))
  | Key.Up =>
      '(position, draft, draft_length) ←
        previous (history e) (history_position e) (line e) len (draft e) (draft_length e);
      let e := set_draft e draft draft_length in
      match position with
      | None => Some (e, [])
      | Some position =>
          '(len, line) ← copy_into (history e) position (line e);
          redrawn (set_text e line len len (Some position))
      end
  | Key.Down =>
      match next_position (history_position e) with
      | None => Some (e, [])
      | Some (Some position) =>
          '(len, line) ← copy_into (history e) position (line e);
          redrawn (set_text e line len len (Some position))
      | Some None =>
          saved ← slice (draft e) 0 (draft_length e);
          line ← splice (line e) 0 saved;
          redrawn (set_text e line (draft_length e) (draft_length e) None)
      end
  end.

Section Run.
Context {D : Type} `{BlockDevice D} (fs : Fat32 D) (system : SystemInfo).

(** The [Enter] arm; after a command that does not return the editor no longer
    matters. *)
Definition enter (r : readings) (e : Editor) : option (fate * Editor * list action) :=
  typed ← slice (line e) 0 (length_ e);
  history ← history_push (history e) typed;
  '(fate, acts) ← execute fs system r typed;
  let e := {| line := line e; length_ := 0; cursor := 0; displayed_length := 0;
              history := history; history_position := None;
              draft := draft e; draft_length := draft_length e |} in
  match fate with
  | Returns => Some (Returns, e, println [] ++ acts ++ prompt)
  | _ => Some (fate, e, println [] ++ acts)
  end.

Definition handle_event (r : readings) (e : Editor) (event : KeyEvent)
  : option (fate * Editor * list action) :=
  match event with
  | Key.Enter => enter r e
  | _ => '(e, acts) ← edit e event; Some (Returns, e, acts)
  end.

(** The events a run of the loop takes from the queue, each with the readings of
    its moment, up to a command that does not return. *)
Fixpoint run_events (e : Editor) (events : list (readings * KeyEvent))
  : option (fate * Editor * list action) :=
  match events with
  | [] => Some (Returns, e, [])
  | (r, event) :: events =>
      '(fate, e, acts) ← handle_event r e event;
      match fate with
      | Returns => '(fate, e, more) ← run_events e events; Some (fate, e, acts ++ more)
      | _ => Some (fate, e, acts)
      end
  end.

Definition run (events : list (readings * KeyEvent)) : option (fate * Editor * list action) :=
  '(fate, e, acts) ← run_events editor_new events;
  Some (fate, e, banner ++ acts).
End Run.
