(* ===== verification/ShellEditor.v ===== *)
(** * ShellEditor: the editing loop is a text editor

    The abstract editor keeps the text before and after the cursor, the list of
    past commands, the position in it and the text set aside while browsing.  The
    fixed buffers of [Shell.v] simulate it, key by key. *)

From S2P Require Import Prelude Storage Str Fat32 Fat32Geometry Fat32Files Keyboard KeyboardDecode.
From S2P Require Import Console Allocator History Timer Shell.
#[local] Open Scope nat_scope.

Record text_editor : Type := {
  before : list Z;
  after : list Z;
  hist : list (list Z);
  pos : option nat;
  saved : list Z;
}.

Definition text (t : text_editor) : list Z := before t ++ after t.

(** New text with the cursor between the two parts. *)
Definition put (t : text_editor) (b a : list Z) (p : option nat) : text_editor :=
  {| before := b; after := a; hist := hist t; pos := p; saved := saved t |}.

(** Text that would not fit is not typed. *)
Definition insert_text (t : text_editor) (s : list Z) : text_editor :=
  if decide (length (text t) + length s <= 80) then put t (before t ++ s) (after t) None else t.

Definition recalled (t : text_editor) (p : nat) : text_editor :=
  match hist t !! p with
  | Some command => put t command [] (Some p)
  | None => t
  end.

Definition set_aside (t : text_editor) : text_editor :=
  {| before := before t; after := after t; hist := hist t; pos := pos t; saved := text t |}.

Definition type_key (t : text_editor) (event : KeyEvent) : text_editor :=
  match event with
  | Key.Character b => insert_text t [b]
  | Key.Tab => insert_text t (replicate 4 0x20%Z)
  | Key.Backspace =>
      match last (before t) with
      | Some _ => put t (removelast (before t)) (after t) None
      | None => t
      end
  | Key.Delete => match after t with _ :: a => put t (before t) a None | [] => t end
  | Key.Left =>
      match last (before t) with
      | Some b => put t (removelast (before t)) (b :: after t) (pos t)
      | None => t
      end
  | Key.Right =>
      match after t with b :: a => put t (before t ++ [b]) a (pos t) | [] => t end
  | Key.Home => put t [] (text t) (pos t)
  | Key.End => put t (text t) [] (pos t)
  | Key.Up =>
      match hist t, pos t with
      | [], _ => t
      | _, None => recalled (set_aside t) 0
      | _, Some p => recalled t (if decide (p + 1 < length (hist t)) then p + 1 else p)
      end
  | Key.Down =>
      match pos t with
      | None => t
      | Some O => put t (saved t) [] None
      | Some (S p) => recalled t p
      end
  | Key.Enter =>
      {| before := []; after := []; hist := remember (text t) (hist t); pos := None; saved := saved t |}
  end.

(** ** The buffers represent it *)

Record represents (e : Editor) (t : text_editor) : Prop := {
  rep_line : exists rest, line e = before t ++ after t ++ rest;
  rep_capacity : length (line e) = 80;
  rep_cursor : cursor e = length (before t);
  rep_length : length_ e = length (text t);
  rep_displayed : displayed_length e = length_ e;
  rep_history : history_wf (history e);
  rep_hist : commands (history e) = hist t;
  rep_position : history_position e = pos t;
  rep_pos : forall p, pos t = Some p -> p < length (hist t);
  rep_draft : exists rest, draft e = saved t ++ rest;
  rep_draft_capacity : length (draft e) = 80;
  rep_draft_length : draft_length e = length (saved t);
}.

(** What a redraw prints: the line, blanks over what the previous text left, and
    the part up to the cursor again. *)
Definition drawing (t : text_editor) (shown : nat) : list action :=
  print (0x0d :: lit "sol> ")%Z ++ print_ascii (text t) ++
  replicate (shown - length (text t)) (Print [0x20%Z]) ++
  print (0x0d :: lit "sol> ")%Z ++ print_ascii (before t) ++ [ShowCursor].

Lemma editor_new_represents :
  represents editor_new {| before := []; after := []; hist := []; pos := None; saved := [] |}.
Proof. constructor; simpl; try done; [by eexists|apply history_new_wf|by eexists]. Qed.

Lemma represents_text_le (e : Editor) (t : text_editor) : represents e t -> length (text t) <= 80.
Proof.
  intros [(rest & Hl) Hc _ _ _ _ _ _ _ _ _ _]. unfold text.
  rewrite Hl, !length_app in Hc. rewrite length_app. lia.
Qed.

(** Writing new text and redrawing. *)
Lemma redrawn_represents (e : Editor) (t : text_editor) (l b a : list Z) (len cur : nat) (p : option nat) :
  represents e t ->
  length l = 80 -> (exists rest, l = b ++ a ++ rest) ->
  len = length (b ++ a) -> cur = length b ->
  (forall i, p = Some i -> i < length (hist t)) ->
  exists e', redrawn (set_text e l len cur p) = Some (e', drawing (put t b a p) (length (text t))) /\
    represents e' (put t b a p).
Proof.
  intros Hrep Hlen (rest & ->) -> -> Hp. pose proof Hrep as [_ _ _ Hl Hd Hh Hhist _ _ Hdr Hdc Hdl].
  unfold redrawn, redraw. cbn [line length_ cursor displayed_length set_text].
  assert (Hle : length (b ++ a) <= 80) by (rewrite <- Hlen, !length_app; lia).
  pose proof (length_app b a). rewrite !slice_take by lia. cbn [mbind option_bind].
  rewrite !Nat.sub_0_r, !drop_0, Hd, Hl.
  rewrite (take_app_length b), (app_assoc b a rest), (take_app_length (b ++ a)).
  eexists. split; [done|]. constructor; cbn; try done; rewrite <- app_assoc; [by exists rest|done].
Qed.

Lemma copy_within_app {A : Type} (b a rest : list A) (s e d : nat) :
  s = length b -> e = length b + length a -> d + length a <= length (b ++ a ++ rest) ->
  copy_within (b ++ a ++ rest) s e d =
    Some (take d (b ++ a ++ rest) ++ a ++ drop (d + length a) (b ++ a ++ rest)).
Proof.
  intros -> -> Hd. unfold copy_within. rewrite slice_take by (rewrite !length_app; lia).
  cbn [mbind option_bind]. replace (length b + length a - length b) with (length a) by lia.
  rewrite drop_app_length, take_app_length, splice_app by done. done.
Qed.

(** Opening a gap of [n] cells at the cursor. *)
Lemma open_gap (b a rest : list Z) (n : nat) :
  length b + length a + n <= length (b ++ a ++ rest) ->
  exists gap rest', length gap = n /\
    copy_within (b ++ a ++ rest) (length b) (length b + length a) (length b + n) =
      Some (b ++ gap ++ a ++ rest') /\
    length (b ++ gap ++ a ++ rest') = length (b ++ a ++ rest).
Proof.
  intros Hn. exists (take n (a ++ rest)), (drop (length b + n + length a) (b ++ a ++ rest)).
  rewrite !length_app in Hn.
  assert (Hgap : length (take n (a ++ rest)) = n) by (rewrite length_take, length_app; lia).
  split; [done|]. split.
  - rewrite copy_within_app by (done || rewrite !length_app; lia). f_equal.
    rewrite take_app_add, <- app_assoc. done.
  - rewrite (length_app b), (length_app (take n _)), Hgap, (length_app a), length_drop, !length_app. lia.
Qed.

(** Closing up: the tail [a] moves back over whatever follows [b]. *)
Lemma close_gap (b g a rest : list Z) :
  exists rest',
    copy_within (b ++ g ++ a ++ rest) (length b + length g) (length b + length g + length a) (length b) =
      Some (b ++ a ++ rest') /\
    length (b ++ a ++ rest') = length (b ++ g ++ a ++ rest).
Proof.
  exists (drop (length b + length a) (b ++ g ++ a ++ rest)). rewrite (app_assoc b g).
  split.
  - rewrite copy_within_app by (rewrite !length_app; lia). by rewrite <- !app_assoc, take_app_length.
  - rewrite !length_app, length_drop, !length_app. lia.
Qed.

(** What a key that edits prints: nothing when it changes nothing, otherwise the
    drawing of the new line. *)
Definition drawn (t t' : text_editor) (acts : list action) : Prop :=
  acts = drawing t' (length (text t)) \/ acts = [] /\ text t' = text t /\ before t' = before t.

Definition simulates (e : Editor) (t t' : text_editor) (r : option (Editor * list action)) : Prop :=
  exists e' acts, r = Some (e', acts) /\ represents e' t' /\ drawn t t' acts.

Lemma simulates_same (e : Editor) (t : text_editor) : represents e t -> simulates e t t (Some (e, [])).
Proof. intros Hrep. exists e, []. split; [done|]. split; [done|]. by right. Qed.

Lemma simulates_redrawn (e : Editor) (t : text_editor) (l b a : list Z) (len cur : nat) (p : option nat) :
  represents e t -> length l = 80 -> (exists rest, l = b ++ a ++ rest) ->
  len = length (b ++ a) -> cur = length b ->
  (forall i, p = Some i -> i < length (hist t)) ->
  simulates e t (put t b a p) (redrawn (set_text e l len cur p)).
Proof.
  intros Hrep Hlen Hl Hle Hcur Hp.
  destruct (redrawn_represents e t l b a len cur p) as (e' & He & Hr); try done.
  exists e', (drawing (put t b a p) (length (text t))). split; [done|]. split; [done|]. by left.
Qed.

Lemma insert_represents (e : Editor) (t : text_editor) (s : list Z) (l : list Z) :
  represents e t -> length (text t) + length s <= 80 ->
  (exists gap rest, length gap = length s /\ l = before t ++ gap ++ after t ++ rest /\ length l = 80) ->
  exists l', splice l (length (before t)) s = Some l' /\
    simulates e t (insert_text t s)
      (redrawn (set_text e l' (length_ e + length s) (length (before t) + length s) None)).
Proof.
  intros Hrep Hfit (gap & rest & Hgap & -> & Hlen). unfold insert_text. rewrite decide_True by done.
  rewrite splice_app by (rewrite !length_app in *; lia). eexists. split; [done|].
  rewrite take_app_length, drop_app_add, <- Hgap, drop_app_length.
  apply simulates_redrawn; [done| | | |rewrite length_app; lia|done].
  - rewrite !length_app in *. lia.
  - exists rest. by rewrite <- app_assoc.
  - rewrite (rep_length e t Hrep). unfold text. rewrite !length_app. lia.
Qed.

Lemma take_skip_gap (e : Editor) (t : text_editor) (n : nat) :
  represents e t -> length (text t) + n <= 80 ->
  exists l, copy_within (line e) (cursor e) (length_ e) (cursor e + n) = Some l /\
    exists gap rest, length gap = n /\ l = before t ++ gap ++ after t ++ rest /\ length l = 80.
Proof.
  intros Hrep Hfit. destruct (rep_line e t Hrep) as [rest Hl]. pose proof (rep_capacity e t Hrep) as Hcap.
  rewrite (rep_cursor e t Hrep), (rep_length e t Hrep). unfold text in *. rewrite length_app in *.
  rewrite Hl in *. destruct (open_gap (before t) (after t) rest n) as (gap & rest' & Hg & Hcw & Hlen); [lia|].
  eexists. split; [exact Hcw|]. exists gap, rest'. split; [done|]. split; [done|]. congruence.
Qed.

Lemma recall_represents (e : Editor) (t : text_editor) (p : nat) :
  represents e t -> p < length (hist t) ->
  simulates e t (recalled t p)
    ('(len, l) ← copy_into (history e) p (line e); redrawn (set_text e l len len (Some p))).
Proof.
  intros Hrep Hp. pose proof (rep_hist e t Hrep) as Hh. rewrite <- Hh, length_commands in Hp.
  destruct (copy_into_spec (history e) p (line e)) as (l & Hc & Hlen & Htake & Hlk);
    [apply Hrep..|done|]. rewrite Hc. cbn [mbind option_bind]. unfold recalled. rewrite <- Hh, Hlk.
  apply simulates_redrawn; [done..| | |done|].
  - exists (drop (length (recall (history e) p)) l). cbn [app].
    rewrite <- (take_drop (length (recall (history e) p)) l) at 1. by rewrite Htake.
  - by rewrite app_nil_r.
  - intros i [= <-]. by rewrite <- Hh, length_commands.
Qed.

Lemma last_split {A : Type} (l : list A) (x : A) : last l = Some x -> l = removelast l ++ [x].
Proof.
  intros Hl. apply last_Some in Hl as [l' ->]. by rewrite removelast_last.
Qed.

Lemma set_index_splice {A : Type} (l : list A) (i : nat) (x : A) : set_index l i x = splice l i [x].
Proof.
  unfold set_index, splice. cbn [length]. destruct (decide (i < length l)).
  - rewrite decide_True by lia. rewrite insert_take_drop by done. do 2 f_equal.
    cbn [app]. do 2 f_equal. lia.
  - by rewrite decide_False by lia.
Qed.

(** The two typing keys. *)
Lemma insert_simulates (e : Editor) (t : text_editor) (s : list Z) (keep : Prop) `{!Decision keep} :
  represents e t -> (keep <-> length (text t) + length s <= 80) ->
  simulates e t (insert_text t s)
    (if decide keep then
       l ← copy_within (line e) (cursor e) (length_ e) (cursor e + length s);
       l ← splice l (cursor e) s;
       redrawn (set_text e l (length_ e + length s) (cursor e + length s) None)
     else Some (e, [])).
Proof.
  intros Hrep Hiff. case_decide as Hk.
  - destruct (take_skip_gap e t (length s) Hrep ltac:(tauto)) as (l & -> & Hgap). cbn [mbind option_bind].
    destruct (insert_represents e t s l Hrep ltac:(tauto) Hgap) as (l' & Hsp & Hsim).
    rewrite (rep_cursor e t Hrep), Hsp. exact Hsim.
  - unfold insert_text. rewrite decide_False by tauto. by apply simulates_same.
Qed.

Lemma backspace_simulates (e : Editor) (t : text_editor) :
  represents e t -> simulates e t (type_key t Key.Backspace) (edit e Key.Backspace).
Proof.
  intros Hrep. pose proof Hrep as [(rest & Hl) H80 Hcur Hlen _ _ _ _ _ _ _ _].
  unfold text in Hlen. rewrite length_app in Hlen. unfold edit, leave_history. cbn [type_key].
  destruct (last (before t)) as [x|] eqn:Hlast.
  - apply last_split in Hlast. set (b := removelast (before t)) in *. rewrite Hlast, length_app in *.
    cbn [length] in *. rewrite decide_True by lia. rewrite Hcur, Hlen. rewrite <- app_assoc in Hl.
    destruct (close_gap b [x] (after t) rest) as (rest' & Hcw & Hlen').
    rewrite Hl. replace (length b + 1 - 1) with (length b) by lia. cbn [length] in Hcw. rewrite Hcw.
    cbn [mbind option_bind]. rewrite nat_sub_le by lia. cbn [mbind option_bind].
    apply simulates_redrawn; [done| |by exists rest'| |done|done].
    + rewrite Hlen', <- Hl. done.
    + rewrite length_app. lia.
  - apply last_None in Hlast. rewrite decide_False by (rewrite Hcur, Hlast; simpl; lia).
    by apply simulates_same.
Qed.

Lemma delete_simulates (e : Editor) (t : text_editor) :
  represents e t -> simulates e t (type_key t Key.Delete) (edit e Key.Delete).
Proof.
  intros Hrep. pose proof Hrep as [(rest & Hl) H80 Hcur Hlen _ _ _ _ _ _ _ _].
  unfold text in Hlen. rewrite length_app in Hlen. unfold edit, leave_history. cbn [type_key].
  destruct (after t) as [|x a] eqn:Ha; cbn [length] in Hlen.
  - rewrite decide_False by lia. by apply simulates_same.
  - rewrite decide_True by lia. rewrite Hcur, Hlen.
    destruct (close_gap (before t) [x] a rest) as (rest' & Hcw & Hlen'). cbn [length app] in Hcw, Hlen'.
    rewrite Hl. cbn [app]. replace (length (before t) + S (length a)) with (length (before t) + 1 + length a) by lia.
    rewrite Hcw. cbn [mbind option_bind].
    apply simulates_redrawn; [done| |by exists rest'| |done|done].
    + rewrite Hlen'. rewrite Hl in H80. exact H80.
    + rewrite length_app. lia.
Qed.

(** Moving the cursor inside the same text. *)
Lemma move_simulates (e : Editor) (t : text_editor) (b a : list Z) (cur : nat) :
  represents e t -> b ++ a = text t -> cur = length b ->
  simulates e t (put t b a (pos t)) (redrawn (set_text e (line e) (length_ e) cur (history_position e))).
Proof.
  intros Hrep Hba Hcur. pose proof Hrep as [(rest & Hl) H80 _ Hlen _ _ _ Hpos Hplt _ _ _].
  rewrite Hpos. apply simulates_redrawn; [done..| | |done|done].
  - exists rest. rewrite Hl, !app_assoc, Hba. done.
  - by rewrite Hlen, Hba.
Qed.

Lemma up_simulates (e : Editor) (t : text_editor) :
  represents e t -> simulates e t (type_key t Key.Up) (edit e Key.Up).
Proof.
  intros Hrep. pose proof (represents_text_le e t Hrep) as Hcap.
  pose proof Hrep as [(rest & Hl) H80 Hcur Hlen Hdis Hhwf Hhist Hpos Hplt (drest & Hdr) Hdc Hdl].
  unfold edit. cbn [type_key].
  destruct (previous_spec (history e) (history_position e) (line e) (length_ e) (draft e) (draft_length e))
    as (draft' & -> & Hd80 & Hkeep & Hsave); [done|lia|done|]. cbn [mbind option_bind].
  assert (Hcount : count (history e) = length (hist t)) by (by rewrite <- Hhist, length_commands).
  rewrite Hcount, Hpos in *. destruct (hist t) as [|h0 hs] eqn:Hh.
  { simpl. rewrite Hkeep by auto. replace (set_draft e (draft e) (draft_length e)) with e by (by destruct e).
    by apply simulates_same. }
  rewrite !(decide_False (P := length (h0 :: hs) = 0)) by done. destruct (pos t) as [p|] eqn:Hp.
  - rewrite Hkeep by (right; done).
    replace (set_draft e (draft e) (draft_length e)) with e by (by destruct e).
    apply recall_represents; [done|]. specialize (Hplt p eq_refl). rewrite Hh. case_decide; lia.
  - assert (Hrep' : represents (set_draft e draft' (length_ e)) (set_aside t)).
    { constructor; cbn [set_draft set_aside line length_ cursor displayed_length history history_position
        draft draft_length before after hist pos saved text]; try done.
      + by exists rest.
      + congruence.
      + by rewrite Hpos, Hp.
      + by rewrite Hp.
      + specialize (Hsave ltac:(done) ltac:(done)). exists (drop (length_ e) draft').
        rewrite <- (take_drop (length_ e) draft') at 1. f_equal. rewrite Hsave, Hl, Hlen.
        unfold text. rewrite app_assoc. by rewrite take_app_length. }
    pose proof (recall_represents _ _ 0 Hrep') as Hsim. cbn [set_aside hist] in Hsim.
    specialize (Hsim ltac:(rewrite Hh; simpl; lia)). destruct Hsim as (e' & acts & Hrun & Hr & Hdrawn).
    exists e', acts. split; [exact Hrun|]. split; [exact Hr|exact Hdrawn].
Qed.

Lemma down_simulates (e : Editor) (t : text_editor) :
  represents e t -> simulates e t (type_key t Key.Down) (edit e Key.Down).
Proof.
  intros Hrep. pose proof Hrep as [(rest & Hl) H80 Hcur Hlen Hdis Hhwf Hhist Hpos Hplt (drest & Hdr) Hdc Hdl].
  unfold edit, next_position. cbn [type_key]. rewrite Hpos.
  destruct (pos t) as [[|p]|] eqn:Hp; cbn [mbind option_bind].
  - rewrite decide_False by lia. pose proof Hdc as Hdc'. rewrite Hdr, length_app in Hdc'.
    rewrite slice_take by lia. cbn [mbind option_bind].
    rewrite Nat.sub_0_r, drop_0, Hdl, Hdr, take_app_length, splice_app by lia. cbn [mbind option_bind].
    apply simulates_redrawn; [done| | |by rewrite app_nil_r|done|done].
    + rewrite take_0, !length_app, length_drop. simpl. lia.
    + rewrite take_0. by eexists.
  - rewrite decide_True by lia. replace (S p - 1) with p by lia.
    apply recall_represents; [done|]. specialize (Hplt (S p) eq_refl). lia.
  - by apply simulates_same.
Qed.

Lemma edit_simulates (e : Editor) (t : text_editor) (event : KeyEvent) :
  represents e t -> event <> Key.Enter -> simulates e t (type_key t event) (edit e event).
Proof.
  intros Hrep Hne. pose proof Hrep as [_ _ Hcur Hlen _ _ _ _ _ _ _ _].
  destruct event as [b| | | | | | | | | |]; try done.
  - pose proof (insert_simulates e t [b] (length_ e < 80) Hrep) as Hsim.
    specialize (Hsim ltac:(rewrite Hlen; simpl; lia)). cbn [length] in Hsim.
    unfold edit, LINE_CAPACITY. cbn [type_key]. case_decide; [|exact Hsim].
    destruct (copy_within (line e) (cursor e) (length_ e) (cursor e + 1)) as [l|]; [|exact Hsim].
    cbn [mbind option_bind] in *. rewrite set_index_splice. exact Hsim.
  - by apply backspace_simulates.
  - apply (insert_simulates e t (replicate 4 0x20%Z)); [done|]. by rewrite Hlen.
  - unfold edit. cbn [type_key]. destruct (last (before t)) as [x|] eqn:Hlast.
    + apply last_split in Hlast. rewrite decide_True by (rewrite Hcur, Hlast, length_app; simpl; lia).
      apply move_simulates; [done| |].
      * unfold text. rewrite Hlast at 2. by rewrite <- app_assoc.
      * rewrite Hcur, Hlast, length_app. simpl. rewrite <- Hlast. lia.
    + apply last_None in Hlast. rewrite decide_False by (rewrite Hcur, Hlast; simpl; lia).
      by apply simulates_same.
  - unfold edit. cbn [type_key]. unfold text in Hlen. rewrite length_app in Hlen.
    destruct (after t) as [|x a] eqn:Ha; cbn [length] in Hlen.
    + rewrite decide_False by lia. by apply simulates_same.
    + rewrite decide_True by lia. apply move_simulates; [done| |rewrite length_app; simpl; lia].
      unfold text. by rewrite Ha, <- app_assoc.
  - by apply up_simulates.
  - by apply down_simulates.
  - unfold edit. cbn [type_key]. by apply move_simulates.
  - unfold edit. cbn [type_key]. apply move_simulates; [done|apply app_nil_r|done].
  - by apply delete_simulates.
Qed.

(** ** Commands are executed *)

Section Loop.
Context {D : Type} `{BlockDeviceSpec D} (fs : Fat32 D) (system : SystemInfo).
Hypothesis Hfs : fs_wf fs.

Lemma ls_total (arguments : list str) : exists acts, ls fs arguments = Some acts.
Proof.
  unfold ls.
  destruct arguments as [|p [|]]; [| |by eexists];
    match goal with |- context [list_dir _ ?p ?v ?s] =>
      pose proof (list_dir_no_panic fs p v s Hfs); destruct (list_dir fs p v s) as [[] ?] end; first [done | by eexists].
Qed.

Lemma cat_total (arguments : list str) : exists acts, cat fs arguments = Some acts.
Proof.
  unfold cat.
  destruct arguments as [|p [|]]; [by eexists| |by eexists].
  match goal with |- context [read_file _ ?p ?v ?s] =>
    pose proof (read_file_no_panic fs p v s Hfs); destruct (read_file fs p v s) as [[] ?] end; first [done | by eexists].
Qed.

Lemma execute_total (r : readings) (input : list Z) :
  exists fate acts, execute fs system r input = Some (fate, acts).
Proof.
  unfold execute. destruct (from_utf8 input) as [s|]; [|by do 2 eexists]. cbv zeta.
  destruct (is_empty (trim s)); [by do 2 eexists|].
  destruct (ls_total (List.tl (split_whitespace (trim s)))) as [a1 ->].
  destruct (cat_total (List.tl (split_whitespace (trim s)))) as [a2 ->]. cbn [mbind option_bind].
  repeat case_decide; by do 2 eexists.
Qed.

Lemma enter_represents (r : readings) (e : Editor) (t : text_editor) :
  represents e t ->
  exists fate out e', execute fs system r (text t) = Some (fate, out) /\
    enter fs system r e =
      Some (fate, e', println [] ++ out ++ match fate with Returns => prompt | _ => [] end) /\
    represents e' (type_key t Key.Enter).
Proof.
  intros Hrep. pose proof (represents_text_le e t Hrep) as Hcap.
  pose proof Hrep as [(rest & Hl) H80 Hcur Hlen _ Hhwf Hhist _ _ Hdr Hdc Hdl].
  unfold enter. rewrite slice_take by lia. cbn [mbind option_bind].
  rewrite Nat.sub_0_r, drop_0, Hl, Hlen, (app_assoc (before t)), (take_app_length (text t)).
  destruct (history_push_spec (history e) (text t) Hhwf Hcap) as (h' & -> & Hhwf' & Hc). cbn [mbind option_bind].
  destruct (execute_total r (text t)) as (f & out & ->). cbn [mbind option_bind].
  assert (Hr : represents {| line := text t ++ rest; length_ := 0; cursor := 0; displayed_length := 0;
       history := h'; history_position := None; draft := draft e; draft_length := draft_length e |}
       (type_key t Key.Enter)).
  { constructor; cbn; try done; [by eexists| |by rewrite Hc, Hhist].
    unfold text. rewrite <- app_assoc, <- Hl. done. }
  destruct f; do 3 eexists; (split; [done|]); (split; [|exact Hr]); cbn; by rewrite ?app_nil_r.
Qed.

Lemma handle_event_edit (r : readings) (e : Editor) (event : KeyEvent) (e' : Editor) (acts : list action) :
  event <> Key.Enter -> edit e event = Some (e', acts) ->
  handle_event fs system r e event = Some (Returns, e', acts).
Proof. intros Hne Hed. unfold handle_event. by destruct event; rewrite ?Hed. Qed.

Lemma handle_event_represents (r : readings) (e : Editor) (t : text_editor) (event : KeyEvent) :
  represents e t ->
  exists fate e' acts, handle_event fs system r e event = Some (fate, e', acts) /\
    represents e' (type_key t event).
Proof.
  intros Hrep. destruct (decide (event = Key.Enter)) as [->|Hne].
  - destruct (enter_represents r e t Hrep) as (f & out & e' & _ & He & Hr). do 3 eexists. split; [exact He|exact Hr].
  - destruct (edit_simulates e t event Hrep Hne) as (e' & acts & Hed & Hr & _).
    exists Returns, e', acts. split; [by apply handle_event_edit|done].
Qed.

(** C12: The editing loop is the text editor.  From a state that represents an
    abstract editor, every key event is handled without a trap and leads to a
    state that represents the abstract editor after that key.  [Enter] executes
    exactly the text of the line, whatever is around it in the buffer, and gives
    a new prompt if the command returns; every other key prints either the
    drawing of the new line or, if it changed nothing, nothing. *)
Theorem handle_event_refines (r : readings) (e : Editor) (t : text_editor) (event : KeyEvent) :
  represents e t ->
  exists fate e' acts, handle_event fs system r e event = Some (fate, e', acts) /\
    represents e' (type_key t event) /\
    if decide (event = Key.Enter) then
      exists out, execute fs system r (text t) = Some (fate, out) /\
        acts = println [] ++ out ++ match fate with Returns => prompt | _ => [] end
    else fate = Returns /\ drawn t (type_key t event) acts.
Proof.
  intros Hrep. case_decide as Hev.
  - subst event. destruct (enter_represents r e t Hrep) as (f & out & e' & Hex & He & Hr). by eauto 10.
  - destruct (edit_simulates e t event Hrep Hev) as (e' & acts & Hed & Hr & Hd).
    exists Returns, e', acts. split; [by apply handle_event_edit|done].
Qed.

(** ** Whole runs *)

Definition printable (b : Z) : Prop := (0x20 <= b <= 0x7e)%Z.

Record typed_ok (t : text_editor) : Prop := {
  ok_text : Forall printable (text t);
  ok_hist : Forall (Forall printable) (hist t);
  ok_saved : Forall printable (saved t);
}.

Lemma put_ok (t : text_editor) (b a : list Z) (p : option nat) :
  typed_ok t -> Forall printable (b ++ a) -> typed_ok (put t b a p).
Proof. intros [? ? ?] ?. by constructor. Qed.

Lemma recalled_ok (t : text_editor) (p : nat) : typed_ok t -> typed_ok (recalled t p).
Proof.
  intros Hok. unfold recalled. destruct (hist t !! p) as [c|] eqn:Hp; [|done].
  apply put_ok; [done|]. rewrite app_nil_r. exact (Forall_lookup_1 _ _ _ _ (ok_hist t Hok) Hp).
Qed.

Lemma insert_ok (t : text_editor) (s : list Z) :
  typed_ok t -> Forall printable s -> typed_ok (insert_text t s).
Proof.
  intros Hok Hs. unfold insert_text. case_decide; [|done]. apply put_ok; [done|].
  pose proof (ok_text t Hok) as Ht. unfold text in Ht. rewrite !Forall_app in *. tauto.
Qed.

Lemma type_key_ok (t : text_editor) (event : KeyEvent) :
  key_ok event -> typed_ok t -> typed_ok (type_key t event).
Proof.
  intros Hkey Hok. pose proof Hok as [Ht Hh Hs]. unfold text in Ht. pose proof Ht as [Hb Ha]%Forall_app.
  assert (Hlast : forall x, last (before t) = Some x -> Forall printable (removelast (before t)) /\ printable x).
  { intros x Hx%last_split. rewrite Hx in Hb. apply Forall_app in Hb as [? Hx']. by inversion Hx'. }
  destruct event; cbn [type_key].
  - apply insert_ok; [done|]. constructor; [exact Hkey|constructor].
  - destruct (last (before t)) eqn:Hl; [|done]. destruct (Hlast _ eq_refl) as [? ?]. apply put_ok; [done|].
    by apply Forall_app.
  - apply insert_ok; [done|]. apply Forall_replicate. unfold printable. lia.
  - constructor; cbn; [constructor| |done]. unfold remember.
    destruct (forallb _ _ || _); [done|]. apply Forall_take. by constructor.
  - destruct (last (before t)) eqn:Hl; [|done]. destruct (Hlast _ eq_refl) as [? ?]. apply put_ok; [done|].
    apply Forall_app. split; [done|]. by constructor.
  - destruct (after t); [done|]. inversion Ha; subst. apply put_ok; [done|]. by rewrite <- app_assoc.
  - assert (Hsa : typed_ok (set_aside t)) by (by constructor).
    destruct (hist t); [done|]. by destruct (pos t); apply recalled_ok.
  - destruct (pos t) as [[|p]|]; [|by apply recalled_ok|done]. apply put_ok; [done|]. by rewrite app_nil_r.
  - by apply put_ok.
  - apply put_ok; [done|]. by rewrite app_nil_r.
  - destruct (after t); [done|]. inversion Ha; subst. apply put_ok; [done|]. by apply Forall_app.
Qed.

(** The abstract editor after a run of keys. *)
Definition type_keys (t : text_editor) (events : list KeyEvent) : text_editor := foldl type_key t events.

Lemma run_events_represents (events : list (readings * KeyEvent)) (e : Editor) (t : text_editor) :
  represents e t ->
  exists fate e' acts n, run_events fs system e events = Some (fate, e', acts) /\
    represents e' (type_keys t (take n (map snd events))) /\
    (fate = Returns -> n = length events).
Proof.
  revert e t. induction events as [|[r event] events IH]; intros e t Hrep; cbn [run_events].
  { by exists Returns, e, [], 0. }
  destruct (handle_event_represents r e t event Hrep) as (f & e1 & acts & -> & Hr). cbn [mbind option_bind].
  destruct f.
  - destruct (IH e1 _ Hr) as (f & e2 & more & n & -> & Hr2 & Hn). cbn [mbind option_bind].
    exists f, e2, (acts ++ more), (S n). split; [done|]. split; [done|]. intros Hf. simpl. auto.
  - exists Reboots, e1, acts, 1. by destruct events.
  - exists Halts, e1, acts, 1. by destruct events.
Qed.

Definition blank : text_editor := {| before := []; after := []; hist := []; pos := None; saved := [] |}.

Lemma type_keys_ok (events : list KeyEvent) (t : text_editor) :
  Forall key_ok events -> typed_ok t -> typed_ok (type_keys t events).
Proof.
  intros Hk. revert t. induction Hk as [|ev evs Hev _ IH]; intros t Hok; [done|].
  apply IH. by apply type_key_ok.
Qed.

Lemma printable_utf8 (s : list Z) : Forall printable s -> from_utf8 s = Some s.
Proof. intros Hs. apply from_utf8_ascii. eapply Forall_impl; [exact Hs|]. unfold printable. simpl. lia. Qed.

(** The shell never traps, whatever is typed and whatever is on the volume:
    a run over any events ends in a state that represents the abstract editor
    after them (after a prefix of them when a command reboots or halts).  If the
    events are ones the keyboard driver produces, the line is printable ASCII of
    at most eighty bytes at every moment, so that the check for invalid UTF-8 in
    [execute] never fires. *)
Lemma shell_never_panics (events : list (readings * KeyEvent)) :
  exists fate e acts n, run fs system events = Some (fate, e, acts) /\
    represents e (type_keys blank (take n (map snd events))) /\
    (fate = Returns -> n = length events) /\
    (Forall (fun ev => key_ok ev.2) events ->
       let typed := take (length_ e) (line e) in
       length typed <= LINE_CAPACITY /\ Forall printable typed /\ from_utf8 typed = Some typed).
Proof.
  destruct (run_events_represents events editor_new blank editor_new_represents)
    as (f & e & acts & n & Hrun & Hrep & Hn).
  exists f, e, (banner ++ acts), n. unfold run. rewrite Hrun. split; [done|]. split; [done|]. split; [done|].
  intros Hkeys. set (typed := take (length_ e) (line e)). set (t := type_keys _ _) in *.
  assert (Htyped : typed = text t).
  { destruct (rep_line e t Hrep) as [rest Hl]. subst typed. rewrite Hl, (rep_length e t Hrep), app_assoc.
    apply take_app_length. }
  assert (Hok : typed_ok t).
  { apply type_keys_ok; [|by repeat constructor]. apply Forall_take.
    change (map snd events) with (snd <$> events). by apply Forall_fmap. }
  rewrite Htyped. split; [by eapply represents_text_le|]. split; [apply Hok|]. apply printable_utf8, Hok.
Qed.
End Loop.

(** ** Browsing the history *)

Lemma type_keys_app (t : text_editor) (l1 l2 : list KeyEvent) :
  type_keys t (l1 ++ l2) = type_keys (type_keys t l1) l2.
Proof. unfold type_keys. by rewrite foldl_app. Qed.

(** [n + 1] times up from a line being edited. *)
Lemma browse_up (t : text_editor) (n : nat) :
  pos t = None -> hist t <> [] ->
  exists t', type_keys t (replicate (S n) Key.Up) = t' /\ hist t' = hist t /\ saved t' = text t /\
    pos t' = Some (n `min` (length (hist t) - 1)).
Proof.
  intros Hp Hh. eexists. split; [reflexivity|]. induction n as [|n IH].
  - cbn. rewrite Hp. destruct (hist t) as [|h hs] eqn:Hhist; [done|].
    unfold recalled. cbn [set_aside hist]. rewrite Hhist. done.
  - replace (replicate (S (S n)) Key.Up) with (replicate (S n) Key.Up ++ [Key.Up])
      by (rewrite <- replicate_cons_app; done).
    rewrite type_keys_app. set (t1 := type_keys t (replicate (S n) Key.Up)) in *.
    destruct IH as (Hh1 & Hs1 & Hp1). cbn [type_keys foldl type_key]. unfold type_keys. cbn [foldl type_key].
    rewrite Hp1, Hh1. destruct (hist t) as [|h hs] eqn:Hhist; [done|]. unfold recalled. rewrite Hh1.
    destruct (lookup_lt_is_Some_2 (h :: hs)
      (if decide (n `min` (length (h :: hs) - 1) + 1 < length (h :: hs))
       then n `min` (length (h :: hs) - 1) + 1 else n `min` (length (h :: hs) - 1))) as [c Hc].
    { case_decide; cbn [length] in *; lia. }
    rewrite Hc. cbn [put hist saved pos]. split; [done|]. split; [done|]. f_equal.
    case_decide; cbn [length] in *; lia.
Qed.

(** Down from a position comes back to the line set aside, and stays there. *)
Lemma browse_down (t : text_editor) (p n : nat) :
  pos t = Some p -> p < length (hist t) -> p < n ->
  type_keys t (replicate n Key.Down) = put t (saved t) [] None.
Proof.
  revert t p. induction n as [|n IH]; intros t p Hp Hlt Hn; [lia|].
  cbn [replicate]. unfold type_keys. cbn [foldl type_key]. rewrite Hp. destruct p as [|p].
  - fold (type_keys (put t (saved t) [] None) (replicate n Key.Down)). clear.
    induction n as [|n IH]; [done|]. exact IH.
  - unfold recalled. destruct (lookup_lt_is_Some_2 (hist t) p) as [c Hc]; [lia|]. rewrite Hc.
    fold (type_keys (put t c [] (Some p)) (replicate n Key.Down)).
    rewrite (IH (put t c [] (Some p)) p); [done|done|simpl; lia|lia].
Qed.

Section Browse.
Context {D : Type} `{BlockDeviceSpec D} (fs : Fat32 D) (system : SystemInfo) (r : readings).
Hypothesis Hfs : fs_wf fs.

(** C31: Browsing the history loses nothing: from a line being edited, any number
    of presses of the up arrow followed by at least as many of the down arrow
    puts the text of the line back, and leaves the list of commands as it was. *)
Theorem browsing_restores_line (e : Editor) (t : text_editor) (n m : nat) :
  represents e t -> pos t = None -> n <= m ->
  exists e' acts,
    run_events fs system e (map (pair r) (replicate n Key.Up ++ replicate m Key.Down)) =
      Some (Returns, e', acts) /\
    take (length_ e') (line e') = text t /\ commands (history e') = hist t /\
    history_position e' = None.
Proof.
  intros Hrep Hpos Hnm.
  assert (Hruns : forall evs e t, represents e t -> Forall (fun ev => ev <> Key.Enter) evs ->
    exists e' acts, run_events fs system e (map (pair r) evs) = Some (Returns, e', acts) /\
      represents e' (type_keys t evs)).
  { clear. intros evs. induction evs as [|ev evs IH]; intros e t Hrep Hne; [by exists e, []|].
    apply Forall_cons in Hne as [Hev Hne]. cbn [map run_events].
    destruct (edit_simulates e t ev Hrep Hev) as (e1 & a1 & Hed & Hr1 & _).
    destruct (IH e1 _ Hr1 Hne) as (e2 & a2 & Hrun & Hr2).
    exists e2, (a1 ++ a2). rewrite (handle_event_edit _ _ _ _ _ _ _ Hev Hed). cbn [mbind option_bind].
    by rewrite Hrun. }
  set (evs := replicate n Key.Up ++ replicate m Key.Down).
  destruct (Hruns evs e t Hrep) as (e' & acts & Hrun & Hr).
  { apply Forall_app. split; by apply Forall_replicate. }
  assert (Hfinal : text (type_keys t evs) = text t /\ hist (type_keys t evs) = hist t /\
                   pos (type_keys t evs) = None).
  { subst evs. rewrite type_keys_app.
    assert (Hdown : forall t k, pos t = None -> type_keys t (replicate k Key.Down) = t).
    { clear. intros t k Hp. induction k as [|k IH]; [done|]. unfold type_keys. cbn [replicate foldl type_key].
      rewrite Hp. exact IH. }
    destruct (decide (hist t = [])) as [Hnil|Hh].
    - assert (Hup : type_keys t (replicate n Key.Up) = t).
      { clear -Hnil. induction n as [|n IH]; [done|]. unfold type_keys. cbn [replicate foldl type_key].
        rewrite Hnil. exact IH. }
      by rewrite Hup, Hdown.
    - destruct n as [|n]; [by rewrite Hdown|].
      destruct (browse_up t n Hpos Hh) as (t' & -> & Hh' & Hs' & Hp').
      destruct (hist t) as [|h hs] eqn:Hhist; [done|].
      rewrite (browse_down t' _ m Hp') by (rewrite ?Hh'; simpl; lia).
      unfold text. cbn [put before after hist pos]. by rewrite app_nil_r, Hs'. }
  destruct Hfinal as (Hft & Hfh & Hfp). exists e', acts. split; [exact Hrun|].
  destruct (rep_line _ _ Hr) as [rest Hl]. split; [|split].
  - rewrite Hl, (rep_length _ _ Hr), app_assoc. rewrite <- Hft. apply take_app_length.
  - by rewrite (rep_hist _ _ Hr).
  - by rewrite (rep_position _ _ Hr).
Qed.
End Browse.
