(* ===== verification/ShellScreen.v ===== *)
(** * ShellScreen: what the user sees while editing

    [redraw] relies on carriage returns and on blanking what the previous line
    left behind.  Interpreted on one row of a terminal, its output always shows
    the prompt, the text and nothing else, with the cursor where it belongs. *)

From S2P Require Import Prelude Storage Str Fat32 Keyboard KeyboardDecode Console Allocator History.
From S2P Require Import Shell ShellEditor.
#[local] Open Scope nat_scope.

(** One row of character cells. *)
Record row : Type := { cells : list Z; col : nat }.

Definition put_char (r : row) (c : Z) : row :=
  if (c =? 0x0d)%Z then {| cells := cells r; col := 0 |}
  else {| cells := <[col r := c]> (cells r); col := S (col r) |}.

Definition put_str (r : row) (s : str) : row := foldl put_char r s.

Definition show_all (r : row) (acts : list action) : row := put_str r (shown_all acts).

Definition the_prompt : str := lit "sol> ".

Lemma length_prompt : length the_prompt = 5.
Proof. done. Qed.

(** The row shows the prompt, the line and blanks; the cursor is in its place. *)
Definition displays (r : row) (t : text_editor) : Prop :=
  85 <= length (cells r) /\
  cells r = the_prompt ++ text t ++ replicate (length (cells r) - 5 - length (text t)) 0x20%Z /\
  col r = 5 + length (before t).

Definition no_return (s : str) : Prop := Forall (fun c => c <> 0x0d%Z) s.

Lemma put_str_overwrites (s : str) (r : row) :
  no_return s -> col r + length s <= length (cells r) ->
  put_str r s = {| cells := take (col r) (cells r) ++ s ++ drop (col r + length s) (cells r);
                   col := col r + length s |}.
Proof.
  intros Hs. revert r. induction Hs as [|c s Hc _ IH]; intros r Hfit; cbn [put_str foldl length] in *.
  - rewrite Nat.add_0_r. cbn [app]. rewrite take_drop. by destruct r.
  - unfold put_char. rewrite (proj2 (Z.eqb_neq _ _)) by done. fold (put_str).
    rewrite IH by (cbn [cells col]; rewrite length_insert; lia). cbn [cells col].
    f_equal; [|lia]. erewrite take_S_r by (apply list_lookup_insert_eq; lia).
    rewrite take_insert_ge, drop_insert_lt by lia. rewrite <- app_assoc. cbn [app].
    do 3 f_equal. f_equal. lia.
Qed.

Lemma put_str_app (r : row) (s1 s2 : str) : put_str r (s1 ++ s2) = put_str (put_str r s1) s2.
Proof. apply foldl_app. Qed.

(** A return, then text over the beginning of the row. *)
Lemma put_return (r : row) (s : str) :
  no_return s -> length s <= length (cells r) ->
  put_str r (0x0d%Z :: s) = {| cells := s ++ drop (length s) (cells r); col := length s |}.
Proof.
  intros Hs Hfit. change (put_str r (0x0d%Z :: s)) with (put_str {| cells := cells r; col := 0 |} s).
  by rewrite put_str_overwrites.
Qed.

Lemma shown_print_ascii (s : list Z) : shown_all (print_ascii s) = s.
Proof. unfold shown_all, print_ascii. induction s as [|c s IH]; [done|]. simpl. by rewrite IH. Qed.

Lemma shown_blanks (n : nat) : shown_all (replicate n (Print [0x20%Z])) = replicate n 0x20%Z.
Proof. unfold shown_all. induction n as [|n IH]; [done|]. simpl. by rewrite IH. Qed.

Lemma shown_drawing (t : text_editor) (n : nat) :
  shown_all (drawing t n) =
  (0x0d%Z :: (the_prompt ++ text t ++ replicate (n - length (text t)) 0x20%Z)) ++
  (0x0d%Z :: (the_prompt ++ before t)).
Proof.
  unfold drawing. rewrite !shown_all_app, !shown_print_ascii, shown_blanks.
  change (shown_all (print (0x0d :: lit "sol> ")%Z)) with (0x0d%Z :: the_prompt).
  change (shown_all [ShowCursor]) with (@nil Z). rewrite app_nil_r. cbn [app].
  rewrite <- !app_assoc. done.
Qed.

Lemma printable_no_return (s : str) : Forall printable s -> no_return s.
Proof. intros Hs. eapply Forall_impl; [exact Hs|]. unfold printable. simpl. lia. Qed.

Lemma prompt_no_return : no_return the_prompt.
Proof. repeat constructor; done. Qed.

(** Drawing a line over the one on display. *)
Lemma drawing_displays (r : row) (t t' : text_editor) :
  displays r t -> Forall printable (text t') -> length (text t') <= 80 -> length (text t) <= 80 ->
  displays (show_all r (drawing t' (length (text t)))) t'.
Proof.
  intros (Hw & Hcells & _) Hp Hl Hlt. unfold show_all. rewrite shown_drawing, put_str_app.
  remember (length (text t) - length (text t')) as k eqn:Hk.
  assert (Hnr : no_return (the_prompt ++ text t' ++ replicate k 0x20%Z)).
  { apply Forall_app. split; [apply prompt_no_return|]. apply Forall_app.
    split; [by apply printable_no_return|]. by apply Forall_replicate. }
  assert (Hlen : length (the_prompt ++ text t' ++ replicate k 0x20%Z) = 5 + length (text t') + k).
  { by rewrite (length_app the_prompt), (length_app (text t')), length_replicate, length_prompt. }
  assert (Hbefore : text t' = before t' ++ after t') by done.
  rewrite (put_return r) by (done || rewrite Hlen; lia). rewrite Hlen.
  assert (Hdrop : drop (5 + length (text t') + k) (cells r) =
                  replicate (length (cells r) - (5 + length (text t') + k)) 0x20%Z).
  { rewrite Hcells at 1. rewrite app_assoc, drop_app_ge by (rewrite (length_app the_prompt), length_prompt; lia).
    rewrite drop_replicate, (length_app the_prompt), length_prompt. f_equal. lia. }
  rewrite Hdrop, <- !app_assoc, <- replicate_add.
  set (blanks := replicate (k + _) 0x20%Z).
  assert (Hblanks : length blanks = length (cells r) - 5 - length (text t')).
  { subst blanks. rewrite length_replicate. lia. }
  assert (Hnr2 : no_return (the_prompt ++ before t')).
  { apply Forall_app. split; [apply prompt_no_return|]. rewrite Hbefore in Hp.
    apply Forall_app in Hp as [? _]. by apply printable_no_return. }
  rewrite put_return; [|done|cbn [cells];
    rewrite Hbefore, (length_app the_prompt), (length_app the_prompt), !length_app; lia].
  assert (Hrest : drop (length (the_prompt ++ before t')) (the_prompt ++ text t' ++ blanks) = after t' ++ blanks).
  { unfold text. rewrite <- app_assoc, (app_assoc the_prompt (before t')). apply drop_app_length. }
  cbn [cells]. rewrite Hrest, <- (app_assoc the_prompt), (app_assoc (before t')), <- Hbefore.
  assert (Htotal : length (the_prompt ++ text t' ++ blanks) = length (cells r)).
  { rewrite (length_app the_prompt), (length_app (text t')), Hblanks, length_prompt. lia. }
  split; [|split]; cbn [cells col].
  - by rewrite Htotal.
  - rewrite Htotal. do 2 f_equal. subst blanks. f_equal. lia.
  - by rewrite length_app.
Qed.

(** C22: Between two commands the row always shows the line: if it shows the
    prompt and the text being edited, then after any editing key that the
    keyboard can produce it shows the prompt and the new text, every cell of the
    old text that is not part of the new one is blank, and the cursor stands
    between the same two characters as in the editor. *)
Theorem screen_shows_line (e : Editor) (t : text_editor) (r : row) (event : KeyEvent) :
  represents e t -> typed_ok t -> key_ok event -> event <> Key.Enter -> displays r t ->
  exists e' acts, edit e event = Some (e', acts) /\ represents e' (type_key t event) /\
    displays (show_all r acts) (type_key t event).
Proof.
  intros Hrep Hok Hkey Hev Hd.
  destruct (edit_simulates e t event Hrep Hev) as (e' & acts & Hed & Hr & Hdrawn).
  exists e', acts. split; [done|]. split; [done|]. destruct Hdrawn as [->|(-> & Ht & Hb)].
  - apply drawing_displays; [done| | |]; [apply type_key_ok; done| |]; by eapply represents_text_le.
  - destruct Hd as (Hw & Hc & Hcol). unfold displays, show_all. cbn. rewrite Ht, Hb. done.
Qed.
