(* ===== verification/ShellCommands.v ===== *)
(** * ShellCommands: what the commands print

    [execute] on the lines users type: words are found whatever blanks surround
    them, [cat] prints the bytes of the file, [ls] one line per entry, and the
    numbers of [uptime] and [meminfo] can be read back. *)

From S2P Require Import Prelude Storage Str Fat32 Fat32Geometry Fat32Chain Fat32Dir Fat32Files Ports.
From S2P Require Import Console Allocator Timer History Shell.
#[local] Open Scope Z_scope.

(** ** Words *)

Definition blank_run (s : str) : Prop := s <> [] /\ Forall (fun c => is_whitespace c = true) s.
Definition word (s : str) : Prop := s <> [] /\ Forall (fun c => is_whitespace c = false) s.

(** The words with a gap before each and [rest] at the end. *)
Definition spaced (gaps : list str) (words : list str) (rest : str) : str :=
  concat (zip_with app gaps words) ++ rest.

Lemma split_blank (c : Z) (s : str) :
  is_whitespace c = true -> split is_whitespace (c :: s) = [] :: split is_whitespace s.
Proof.
  intros Hc. cbn [split]. rewrite Hc. destruct (split is_whitespace s) eqn:Hs; [|done].
  by destruct s; cbn in Hs; repeat case_match.
Qed.

Lemma split_whitespace_blank (c : Z) (s : str) :
  is_whitespace c = true -> split_whitespace (c :: s) = split_whitespace s.
Proof. intros Hc. unfold split_whitespace, split_nonempty. by rewrite split_blank. Qed.

Lemma split_whitespace_blanks (g s : str) :
  Forall (fun c => is_whitespace c = true) g -> split_whitespace (g ++ s) = split_whitespace s.
Proof. induction 1 as [|c g Hc _ IH]; [done|]. cbn [app]. by rewrite split_whitespace_blank. Qed.

(** A word up to the first blank after it, or the end. *)
Lemma split_word (w s : str) :
  Forall (fun c => is_whitespace c = false) w -> (s = [] \/ exists c s', s = c :: s' /\ is_whitespace c = true) ->
  split is_whitespace (w ++ s) =
    match s with [] => [w] | _ :: s' => w :: split is_whitespace s' end.
Proof.
  intros Hw Hs. induction Hw as [|c w Hc _ IH].
  - destruct Hs as [->|(c & s' & -> & Hc)]; [done|]. cbn [app]. by apply split_blank.
  - cbn [app split]. rewrite IH, Hc. by destruct s.
Qed.

Lemma split_whitespace_word (w s : str) :
  word w -> (s = [] \/ exists c s', s = c :: s' /\ is_whitespace c = true) ->
  split_whitespace (w ++ s) = w :: split_whitespace s.
Proof.
  intros [Hne Hw] Hs. unfold split_whitespace at 1, split_nonempty. rewrite split_word by done.
  destruct w as [|c w]; [done|]. destruct Hs as [->|(c' & s' & -> & Hc')]; [done|].
  by rewrite (split_whitespace_blank c' s' Hc').
Qed.

Lemma split_whitespace_spaced (gaps words : list str) (rest : str) :
  length gaps = length words -> Forall blank_run gaps -> Forall word words ->
  Forall (fun c => is_whitespace c = true) rest ->
  split_whitespace (spaced gaps words rest) = words.
Proof.
  intros Hlen Hg Hw Hr. revert words Hlen Hw. induction Hg as [|g gaps [Hgne Hgb] Hgs IH];
    intros [|w words] Hlen Hw; try done.
  - unfold spaced. cbn [zip_with concat]. rewrite <- (app_nil_r ([] ++ rest)). cbn [app].
    by rewrite split_whitespace_blanks.
  - apply Forall_cons in Hw as [Hw Hws]. unfold spaced in *. cbn [zip_with concat].
    rewrite <- !app_assoc, split_whitespace_blanks by done. simpl in Hlen.
    rewrite split_whitespace_word; [|done|].
    + f_equal. apply IH; [lia|done].
    + destruct gaps as [|g2 gaps], words as [|w2 words]; try (simpl in Hlen; lia).
      * cbn. destruct rest as [|c rest]; [by left|right]. apply Forall_cons in Hr as [Hc _]. eauto.
      * right. apply Forall_cons in Hgs as [[Hg2 Hb2] _]. destruct g2 as [|c g2]; [done|].
        apply Forall_cons in Hb2 as [Hc _]. cbn. eauto.
Qed.

Lemma skip_while_blanks (g s : str) (c : Z) :
  Forall (fun c => is_whitespace c = true) g -> is_whitespace c = false ->
  skip_while is_whitespace (g ++ c :: s) = c :: s.
Proof.
  intros Hg Hc. induction Hg as [|b g Hb _ IH]; cbn [app skip_while]; [by rewrite Hc|by rewrite Hb].
Qed.

(** Text that starts and ends with something visible. *)
Definition solid (s : str) : Prop :=
  exists a z m, is_whitespace a = false /\ is_whitespace z = false /\
    (s = [a] /\ a = z \/ s = a :: m ++ [z]).

Lemma trim_solid (lead s rest : str) :
  Forall (fun c => is_whitespace c = true) lead -> Forall (fun c => is_whitespace c = true) rest ->
  solid s -> trim (lead ++ s ++ rest) = s.
Proof.
  intros Hl Hr (a & z & m & Ha & Hz & Hs). unfold trim, trim_matches.
  assert (Hfst : exists s', s = a :: s') by (destruct Hs as [[-> _]| ->]; eauto).
  assert (Hlst : exists s', s = s' ++ [z]).
  { destruct Hs as [[-> ->]| ->]; [by exists []|]. exists (a :: m). done. }
  destruct Hfst as [s1 Hs1]. rewrite Hs1 at 1. cbn [app]. rewrite skip_while_blanks by done.
  change (a :: s1 ++ rest) with ((a :: s1) ++ rest). rewrite <- Hs1.
  destruct Hlst as [s2 ->]. unfold trim_end_matches. rewrite reverse_app, reverse_snoc. cbn [app].
  rewrite skip_while_blanks; [|by apply Forall_reverse|done]. rewrite reverse_cons, reverse_involutive. done.
Qed.

Lemma word_last (w : str) : word w -> exists w' z, w = w' ++ [z] /\ is_whitespace z = false.
Proof.
  intros [Hne Hw]. destruct (exists_last Hne) as (w' & z & ->). exists w', z. split; [done|].
  apply Forall_app in Hw as [_ Hz]. by inversion Hz.
Qed.

Lemma spaced_solid (cmd : str) (gaps args : list str) :
  word cmd -> length gaps = length args -> Forall word args ->
  exists s z, cmd ++ spaced gaps args [] = s ++ [z] /\ is_whitespace z = false.
Proof.
  intros Hcmd Hlen Hargs. revert cmd gaps Hcmd Hlen. induction Hargs as [|w args Hw _ IH];
    intros cmd [|g gaps] Hcmd Hlen; try done.
  - destruct (word_last cmd Hcmd) as (w' & z & -> & Hz). exists w', z. unfold spaced. cbn. by rewrite app_nil_r.
  - destruct (IH w gaps Hw ltac:(simpl in Hlen; lia)) as (s & z & Heq & Hz).
    exists (cmd ++ g ++ s), z. split; [|done]. unfold spaced in *. cbn [zip_with concat].
    rewrite <- !app_assoc in *. by rewrite Heq.
Qed.

Lemma line_solid (cmd : str) (gaps args : list str) :
  word cmd -> length gaps = length args -> Forall word args -> solid (cmd ++ spaced gaps args []).
Proof.
  intros Hcmd Hlen Hargs. destruct (spaced_solid cmd gaps args Hcmd Hlen Hargs) as (s & z & Heq & Hz).
  destruct Hcmd as [Hne Hw]. destruct cmd as [|a cmd]; [done|]. apply Forall_cons in Hw as [Ha _].
  rewrite Heq. destruct s as [|a' s].
  - exists a, a, []. cbn in Heq. simplify_eq. split; [done|]. split; [done|]. left. auto.
  - cbn in Heq. simplify_eq. exists a', z, s. split; [done|]. split; [done|]. by right.
Qed.

(** What [echo] repeats: the arguments as typed, without the blanks around them. *)
Definition echoed (gaps args : list str) : str :=
  match gaps, args with
  | _ :: gaps, w :: args => w ++ spaced gaps args []
  | _, _ => []
  end.

Lemma find_tail_word (w s : str) :
  Forall (fun c => is_whitespace c = false) w -> find_tail is_whitespace (w ++ s) = find_tail is_whitespace s.
Proof. induction 1 as [|c w Hc _ IH]; [done|]. cbn [app find_tail]. by rewrite Hc. Qed.

Lemma arguments_of_line (cmd : str) (gaps args : list str) :
  word cmd -> length gaps = length args -> Forall blank_run gaps -> Forall word args ->
  arguments_after_command (cmd ++ spaced gaps args []) = echoed gaps args.
Proof.
  intros [_ Hcmd] Hlen Hg Hw. unfold arguments_after_command. rewrite find_tail_word by done.
  destruct gaps as [|g gaps], args as [|w args]; try done.
  apply Forall_cons in Hg as [[Hgne Hgb] _], Hw as [[Hwne Hww] _].
  destruct g as [|b g]; [done|]. destruct w as [|c w]; [done|]. apply Forall_cons in Hww as [Hc _].
  apply Forall_cons in Hgb as [Hb Hgb]. unfold spaced. cbn [zip_with concat app find_tail]. rewrite Hb.
  cbn [echoed]. unfold trim_start. cbn [skip_while]. rewrite Hb.
  rewrite <- !app_assoc. cbn [app]. by rewrite skip_while_blanks.
Qed.

Section Dispatch.
Context {D : Type} `{BlockDeviceSpec D} (fs : Fat32 D) (system : SystemInfo) (r : readings).

Definition commands_list : list str :=
  [lit "help"; lit "echo"; lit "ls"; lit "cat"; lit "clear"; lit "uptime"; lit "meminfo";
   lit "reboot"; lit "halt"].

(** Finding the command.  However a line is spaced, [execute] splits it into
    the words that were typed: [ls] and [cat] get exactly the argument words,
    [echo] prints the text from the first argument to the last as it was typed,
    [reboot] and [halt] are the only commands that do not return, and any other
    first word is reported as unknown. *)
Lemma execute_finds_command (lead rest cmd : str) (gaps args : list str) :
  Forall (fun c => is_whitespace c = true) lead -> Forall (fun c => is_whitespace c = true) rest ->
  word cmd -> length gaps = length args -> Forall blank_run gaps -> Forall word args ->
  let input := lead ++ (cmd ++ spaced gaps args []) ++ rest in
  ascii_str input ->
  (cmd = lit "ls" ->
     execute fs system r input = (acts ← ls fs args; Some (Returns, acts))) /\
  (cmd = lit "cat" ->
     execute fs system r input = (acts ← cat fs args; Some (Returns, acts))) /\
  (cmd = lit "echo" ->
     execute fs system r input = Some (Returns, println (echoed gaps args))) /\
  (cmd = lit "reboot" -> execute fs system r input = Some (Reboots, reboot_text)) /\
  (cmd = lit "halt" -> execute fs system r input = Some (Halts, halt_text)) /\
  (cmd ∉ commands_list ->
     execute fs system r input =
       Some (Returns, println (lit "unknown command: " ++ cmd ++ lit "; type 'help'"))).
Proof.
  intros Hlead Hrest Hcmd Hlen Hgaps Hargs input Hascii.
  pose proof (line_solid cmd gaps args Hcmd Hlen Hargs) as Hsolid.
  unfold execute. rewrite from_utf8_ascii by done. cbv zeta. subst input. rewrite trim_solid by done.
  assert (Hwords : split_whitespace (cmd ++ spaced gaps args []) = cmd :: args).
  { rewrite split_whitespace_word; [by rewrite split_whitespace_spaced|done|].
    destruct gaps as [|g gaps], args as [|w args]; try done; [by left|right].
    apply Forall_cons in Hgaps as [[Hg Hb] _]. destruct g as [|c g]; [done|].
    apply Forall_cons in Hb as [Hc _]. unfold spaced. cbn. eauto. }
  rewrite Hwords, (arguments_of_line cmd gaps args) by done.
  assert (Hne : is_empty (cmd ++ spaced gaps args []) = false).
  { destruct Hcmd as [Hne _]. by destruct cmd. }
  rewrite Hne. cbn [List.tl].
  split; [by intros ->|]. split; [by intros ->|]. split; [by intros ->|]. split; [by intros ->|].
  split; [by intros ->|]. intros Hnot. unfold commands_list in Hnot.
  rewrite !elem_of_cons in Hnot.
  repeat (rewrite decide_False by tauto). done.
Qed.
End Dispatch.

(** ** Printing files *)

(** What [cat] shows for a chunk. *)
Lemma shown_chunk (chunk : list Z) (s : str) :
  from_utf8 chunk = Some s -> shown_all (print_file_chunk chunk) = s.
Proof. intros Hs. unfold print_file_chunk. rewrite Hs. apply app_nil_r. Qed.

(** The chunks printed one after the other. *)
Lemma deliver_prints (chunks : list (list Z)) (acts : list action) :
  Forall (fun c => from_utf8 c <> None) chunks ->
  encode (shown_all (deliver (fun chunk acts => acts ++ print_file_chunk chunk) chunks acts)) =
    encode (shown_all acts) ++ concat chunks.
Proof.
  intros Hc. revert acts. induction Hc as [|c chunks Hc _ IH]; intros acts; cbn [deliver foldl concat].
  - by rewrite app_nil_r.
  - unfold deliver in *. cbn [foldl]. rewrite IH, shown_all_app, encode_app, <- app_assoc. f_equal.
    destruct (from_utf8 c) as [s|] eqn:Hs; [|done].
    by rewrite (shown_chunk c s Hs), (from_utf8_encode c s Hs).
Qed.

Section Files.
Context {D : Type} `{BlockDeviceSpec D} (fs : Fat32 D).
Hypothesis Hfs : fs_wf fs.

(** [cat] prints the file: for a path that resolves to a file whose chain has
    room for it, and whose 512-byte pieces are each valid UTF-8, the text that
    reaches the console is exactly the file's bytes and a line feed, with no
    error message. *)
Lemma cat_prints_file (p : str) (e : DirEntry) (cs : list Z) :
  resolve_path fs p = Ok e -> is_directory e = false ->
  path fs (de_first_cluster e) cs -> NoDup cs -> 0 < de_size e <= chain_capacity fs cs ->
  Forall (fun c => from_utf8 c <> None) (file_chunks (de_size e) (chain_sectors fs cs)) ->
  exists acts, cat fs [p] = Some acts /\
    encode (shown_all acts) = take (Z.to_nat (de_size e)) (concat (chain_sectors fs cs)) ++ [0x0a].
Proof.
  intros Hres Hdir Hp Hnd Hsize Hutf. unfold cat.
  rewrite (read_file_delivers _ fs p e cs []) by done. eexists. split; [done|].
  rewrite shown_all_app, encode_app, deliver_prints by done. cbn [app].
  rewrite concat_file_chunks by (by eapply chain_sectors_wf). done.
Qed.

(** [ls] of a directory prints one line per entry, in the order of the
    directory: the records before the end marker that are not free, not the
    volume label and not long-name parts.  Nothing else is printed, except an
    error line when the chain is damaged and no end marker comes first. *)
Lemma ls_prints_entries (p : str) (c : Z) (cs : list Z) (w : outcome FsError unit) :
  (is_empty (trim_matches is_slash p) = true /\ c = root_cluster fs \/
   is_empty (trim_matches is_slash p) = false /\
   exists e, resolve_path fs p = Ok e /\ is_directory e = true /\ de_first_cluster e = c) ->
  walk fs c cs w -> w <> Panic ->
  exists acts, ls fs [p] = Some acts /\
    shown_all acts =
      concat (map (fun entry => entry_line entry ++ [0x0a]) (dir_scan (chain_records fs cs)).1) ++
      match (dir_scan (chain_records fs cs)).2, w with
      | false, Err error => lit "ls: " ++ debug_error error ++ [0x0a]
      | _, _ => []
      end.
Proof.
  intros Hdir Hw Hnp. unfold ls, list_dir.
  set (visitor := fun entry acts => (true, acts ++ println (entry_line entry))).
  assert (Hvis : forall es acts, visit_list visitor es acts =
            (false, acts ++ concat (map (fun e => println (entry_line e)) es))).
  { clear. intros es. induction es as [|e es IH]; intros acts; [by rewrite app_nil_r|].
    cbn. rewrite IH. cbn. by rewrite <- app_assoc. }
  assert (Hshown : forall es, shown_all (concat (map (fun e => println (entry_line e)) es)) =
            concat (map (fun entry => entry_line entry ++ [0x0a]) es)).
  { clear. intros es. induction es as [|e es IH]; [done|]. cbn [map concat].
    rewrite shown_all_app, IH. f_equal. apply app_nil_r. }
  assert (Hrun : visit_directory fs c visitor [] =
            (if (dir_scan (chain_records fs cs)).2 then Ok tt else w,
             concat (map (fun e => println (entry_line e)) (dir_scan (chain_records fs cs)).1))).
  { rewrite (visit_directory_walk _ fs c cs w) by done. unfold scan_result.
    destruct (dir_scan (chain_records fs cs)) as [es ended]. rewrite Hvis. by destruct ended. }
  assert (Hgo : exists acts, match visit_directory fs c visitor [] with
      | (Ok _, acts) => Some acts
      | (Err error, acts) => Some (acts ++ println (lit "ls: " ++ debug_error error))
      | (Panic, _) => None
      end = Some acts /\ shown_all acts =
      concat (map (fun entry => entry_line entry ++ [0x0a]) (dir_scan (chain_records fs cs)).1) ++
      match (dir_scan (chain_records fs cs)).2, w with
      | false, Err error => lit "ls: " ++ debug_error error ++ [0x0a]
      | _, _ => []
      end).
  { rewrite Hrun. destruct (dir_scan (chain_records fs cs)) as [es ended]. cbn [fst snd].
    destruct ended; [|destruct w as [[]|error|]; try done]; eexists; (split; [done|]);
      rewrite ?shown_all_app, Hshown, ?app_nil_r; try done.
    f_equal. unfold println, shown_all. cbn [map concat]. rewrite app_nil_r. cbn [shown].
    by rewrite <- app_assoc. }
  destruct Hdir as [[-> ->]|(-> & e & -> & Hd & <-)]; [exact Hgo|]. cbn [mbind outcome_bind].
  rewrite Hd. exact Hgo.
Qed.
End Files.

(** ** Numbers *)

(** The numbers of [uptime] and [meminfo] are the kernel's own: read back as
    decimal numbers, the seconds are a hundredth of the ticks, and physical
    memory is four KiB per usable frame as long as that fits in 64 bits. *)
Lemma reports_numbers (system : SystemInfo) (r : readings) :
  is_uint 64 (ticks_first r) -> is_uint 64 (ticks_second r) ->
  0 <= usable_frames system < 2 ^ 62 -> is_uint 64 (frames_consumed_at_boot system) ->
  heap_wf (heap_now r) ->
  exists seconds tick_count kib used_kib heap_kib consumed,
    shown_all (uptime r) = lit "uptime: " ++ seconds ++ lit " s (" ++ tick_count ++ lit " timer ticks)" ++ [0x0a] /\
    shown_all (meminfo system r) =
      lit "usable physical memory: " ++ kib ++ lit " KiB" ++ [0x0a] ++
      lit "heap: " ++ used_kib ++ lit " / " ++ heap_kib ++ lit " KiB used (bump allocator)" ++ [0x0a] ++
      lit "frames consumed during bring-up: " ++ consumed ++ [0x0a] /\
    parse_decimal seconds = ticks_first r / 100 /\ parse_decimal tick_count = ticks_second r /\
    parse_decimal kib = 4 * usable_frames system /\
    parse_decimal used_kib = (Allocator.next (heap_now r) - start (heap_now r)) / 1024 /\
    parse_decimal heap_kib = (end_ (heap_now r) - start (heap_now r)) / 1024 /\
    parse_decimal consumed = frames_consumed_at_boot system.
Proof.
  intros [H1 H1'] H2 Hf Hc (Hs & Hn & He).
  assert (Hsmall : forall z k, 0 <= z < 2 ^ 64 -> 1 <= k -> is_uint 64 (z / k)).
  { intros z k Hz Hk. split; [apply Z.div_pos; lia|]. apply Z.le_lt_trans with z; [|lia].
    apply Z.div_le_upper_bound; nia. }
  exists (decimal (ticks_first r / 100)), (decimal (ticks_second r)),
    (decimal (saturating_mul 64 (usable_frames system) 4)), (decimal (used (heap_now r) / 1024)),
    (decimal (capacity (heap_now r) / 1024)), (decimal (frames_consumed_at_boot system)).
  unfold uptime, meminfo. rewrite !shown_all_app.
  assert (Hp : forall s, shown_all (println s) = s ++ [0x0a]) by (intros s; apply app_nil_r).
  rewrite !Hp, <- !app_assoc. split; [done|]. split; [done|].
  unfold used, capacity, saturating_sub, saturating_mul. rewrite !Z.max_r, Z.min_r by lia.
  rewrite !decimal_roundtrip; [|done|apply Hsmall; lia|apply Hsmall; lia|split; lia|done|apply Hsmall; lia].
  repeat (split; [done|]). split; [lia|done].
Qed.

(** ** A character across two sectors *)

(** 511 letters and one two-byte character. *)
Definition split_text : str := replicate 511 0x61 ++ [0xe9].

(** [cat] decodes each 512-byte chunk on its own, so a file that is valid
    UTF-8 throughout is not always printed as text: a character whose bytes lie
    in two sectors is shown as the escapes of its bytes. *)
Lemma cat_escapes_split_character :
  from_utf8 (encode split_text) = Some split_text /\
  shown_all (concat (map print_file_chunk [take 512 (encode split_text); drop 512 (encode split_text)])) =
    replicate 511 0x61 ++ lit "\xc3" ++ lit "\xa9".
Proof. split; by vm_compute. Qed.

(** ** Restarting the machine *)

Lemma reset_loop_emits {M : Type} `{Hardware M} (n : nat) :
  emits (M := M) (reset_loop n) (fun _ evs =>
    (exists waits status, evs = map (In8 0x64) waits ++ [In8 0x64 status; Out8 0x64 0xfe] /\
        (length waits < n)%nat /\
        Z.testbit status 1 = false /\ Forall (fun s => Z.testbit s 1 = true) waits) \/
    (exists waits, evs = map (In8 0x64) waits /\ length waits = n /\
        Forall (fun s => Z.testbit s 1 = true) waits)).
Proof.
  induction n as [|n IH]; cbn [reset_loop].
  - apply emits_ret. right. by exists [].
  - eapply emits_bind; [apply emits_in8|]. intros s e1 [_ ->].
    pose proof (land_pow2_test s 1 ltac:(done)) as Hbit. change (2 ^ 1) with 2 in Hbit. rewrite Hbit.
    destruct (Z.testbit s 1) eqn:Hs; cbn [negb].
    + eapply emits_impl; [exact IH|]. cbn beta.
      intros [] e [(ws & st & -> & Hl & Ht & Hf)|(ws & -> & Hl & Hf)].
      * left. exists (s :: ws), st. split; [done|]. split; [simpl; lia|]. split; [done|]. by constructor.
      * right. exists (s :: ws). split; [done|]. split; [simpl; lia|]. by constructor.
    + eapply emits_impl; [apply emits_out8|]. cbn beta. intros [] e ->. left. exists [], s.
      split; [done|]. split; [simpl; lia|]. done.
Qed.

(** [reboot] sends the reset command to the keyboard controller only straight
    after seeing its input buffer empty, at most once, and gives up after at most
    100001 port accesses. *)
Lemma reset_pulse_spec {M : Type} `{Hardware M} (m : machine M) :
  exists evs, log (reset_pulse m).2 = log m ++ evs /\
    Z.of_nat (length evs) <= 100001 /\
    ((exists waits status, evs = map (In8 0x64) waits ++ [In8 0x64 status; Out8 0x64 0xfe] /\
        Z.testbit status 1 = false /\ Forall (fun s => Z.testbit s 1 = true) waits) \/
     (exists waits, evs = map (In8 0x64) waits /\ Z.of_nat (length waits) = 100000 /\
        Forall (fun s => Z.testbit s 1 = true) waits)).
Proof.
  destruct (reset_loop_emits (Z.to_nat 100000) m) as (evs & Hlog & Hcase). exists evs. split; [exact Hlog|].
  destruct Hcase as [(ws & st & -> & Hl & Ht & Hf)|(ws & -> & Hl & Hf)].
  - split; [rewrite length_app, length_map; simpl length; lia|]. left. by exists ws, st.
  - split; [rewrite length_map; lia|]. right. exists ws. split; [done|]. split; [lia|done].
Qed.
