(* ===== verification/ShellDemo.v ===== *)
(** * ShellDemo: the shell's theorems on a concrete machine

    The volume of [DemoVolume] and a line with the cursor in its middle satisfy
    every hypothesis of the theorems about the shell. *)

From S2P Require Import Prelude Storage Str DemoVolume Fat32 Fat32Geometry Fat32Chain Fat32Dir.
From S2P Require Import Fat32Files Fat32Demo Keyboard KeyboardDecode Console Allocator History Timer.
From S2P Require Import Shell ShellEditor ShellScreen ShellCommands.
#[local] Open Scope Z_scope.

Definition demo_system : SystemInfo := {| usable_frames := 1027; frames_consumed_at_boot := 515 |}.

Definition demo_readings : readings := {|
  ticks_first := 12345; ticks_second := 12346;
  heap_now := {| start := 0x555500000000; end_ := 0x555500200000; Allocator.next := 0x555500000400 |};
|}.

(** "lx" with the cursor after the l. *)
Definition demo_editor : Editor := {|
  line := [0x6c; 0x78] ++ replicate 78 0;
  length_ := 2;
  cursor := 1;
  displayed_length := 2;
  history := history_new;
  history_position := None;
  draft := replicate 80 0;
  draft_length := 0;
|}.

Definition demo_text : text_editor :=
  {| before := [0x6c]; after := [0x78]; hist := []; pos := None; saved := [] |}.

Lemma demo_represents : represents demo_editor demo_text.
Proof. constructor; simpl; try done; [by eexists|apply history_new_wf|by eexists]. Qed.

Lemma demo_typed_ok : typed_ok demo_text.
Proof. constructor; repeat (apply Forall_cons; split); try apply Forall_nil; unfold printable; try lia; done. Qed.

Lemma handle_event_refines_witness :
  represents demo_editor demo_text /\
  exists e' acts, handle_event demo_fs demo_system demo_readings demo_editor (Key.Character 0x73) =
                    Some (Returns, e', acts) /\
    represents e' {| before := [0x6c; 0x73]; after := [0x78]; hist := []; pos := None; saved := [] |}.
Proof.
  split; [exact demo_represents|].
  destruct (handle_event_refines demo_fs demo_system demo_fs_wf demo_readings demo_editor demo_text
              (Key.Character 0x73) demo_represents) as (f & e' & acts & Hrun & Hrep & Hf).
  rewrite decide_False in Hf by discriminate. destruct Hf as [-> _].
  exists e', acts. split; [exact Hrun|exact Hrep].
Defined.

Lemma shell_never_panics_witness :
  fs_wf demo_fs /\
  exists fate e acts, run demo_fs demo_system
    [(demo_readings, Key.Character 0x6c); (demo_readings, Key.Character 0x73); (demo_readings, Key.Enter)] =
    Some (fate, e, acts).
Proof.
  split; [exact demo_fs_wf|].
  destruct (shell_never_panics demo_fs demo_system demo_fs_wf
    [(demo_readings, Key.Character 0x6c); (demo_readings, Key.Character 0x73); (demo_readings, Key.Enter)])
    as (f & e & acts & n & Hrun & _).
  exists f, e, acts. exact Hrun.
Defined.

(** The same line after the commands ls and help. *)
Definition browsing_history : CommandHistory :=
  default history_new (h ← history_push history_new (lit "ls"); history_push h (lit "help")).

Definition browsing_editor : Editor := {|
  line := line demo_editor; length_ := 2; cursor := 1; displayed_length := 2; history := browsing_history;
  history_position := None; draft := replicate 80 0; draft_length := 0;
|}.

Definition browsing_text : text_editor :=
  {| before := [0x6c]; after := [0x78]; hist := [lit "help"; lit "ls"]; pos := None; saved := [] |}.

Lemma browsing_represents : represents browsing_editor browsing_text.
Proof.
  constructor; try (vm_compute; reflexivity); [by eexists| |done|by eexists].
  constructor; try (apply (bool_decide_unpack _); vm_compute; reflexivity).
Qed.

(** Two commands up the screen shows ls; the line comes back. *)
Lemma browsing_restores_line_witness :
  represents browsing_editor browsing_text /\
  (exists e acts, run_events demo_fs demo_system browsing_editor (map (pair demo_readings) [Key.Up; Key.Up]) =
     Some (Returns, e, acts) /\ take (length_ e) (line e) = lit "ls") /\
  exists e' acts, run_events demo_fs demo_system browsing_editor
      (map (pair demo_readings) [Key.Up; Key.Up; Key.Down; Key.Down; Key.Down]) = Some (Returns, e', acts) /\
    take (length_ e') (line e') = [0x6c; 0x78].
Proof.
  split; [exact browsing_represents|]. split.
  { do 2 eexists. split; [vm_compute; reflexivity|reflexivity]. }
  destruct (browsing_restores_line demo_fs demo_system demo_readings browsing_editor browsing_text 2 3
              browsing_represents eq_refl ltac:(lia)) as (e' & acts & Hrun & Ht & _).
  exists e', acts. split; [exact Hrun|exact Ht].
Defined.

Definition demo_row : row := {| cells := the_prompt ++ [0x6c; 0x78] ++ replicate 78 0x20; col := 6 |}.

Lemma screen_shows_line_witness :
  displays demo_row demo_text /\
  exists e' acts, edit demo_editor Key.Backspace = Some (e', acts) /\
    cells (show_all demo_row acts) = the_prompt ++ [0x78] ++ replicate 79 0x20.
Proof.
  assert (Hd : displays demo_row demo_text) by (split; [simpl; lia|]; split; reflexivity).
  split; [exact Hd|].
  destruct (screen_shows_line demo_editor demo_text demo_row Key.Backspace demo_represents demo_typed_ok
              I ltac:(discriminate) Hd) as (e' & acts & He & _ & (_ & Hc & _)).
  exists e', acts. split; [exact He|]. vm_compute in He. injection He as <- <-. reflexivity.
Defined.

(** "  ls   docs " *)
Lemma execute_finds_command_witness :
  word (lit "ls") /\
  lit "  " ++ (lit "ls" ++ spaced [lit "   "] [lit "docs"] []) ++ lit " " = lit "  ls   docs " /\
  execute demo_fs demo_system demo_readings
      (lit "  " ++ (lit "ls" ++ spaced [lit "   "] [lit "docs"] []) ++ lit " ") =
    (acts ← ls demo_fs [lit "docs"]; Some (Returns, acts)).
Proof.
  assert (Hw : forall s, s <> [] -> bool_decide (Forall (fun c => is_whitespace c = false) s) = true -> word s).
  { intros s Hne Hs. split; [exact Hne|]. by apply bool_decide_eq_true in Hs. }
  assert (Hls : word (lit "ls")) by (apply Hw; [discriminate|reflexivity]). split; [exact Hls|].
  split; [reflexivity|].
  destruct (execute_finds_command demo_fs demo_system demo_readings (lit "  ") (lit " ") (lit "ls")
           [lit "   "] [lit "docs"]) as [Hrun _]; [..|exact (Hrun eq_refl)].
  - apply (bool_decide_unpack _). reflexivity.
  - apply (bool_decide_unpack _). reflexivity.
  - exact Hls.
  - reflexivity.
  - repeat constructor; try discriminate; reflexivity.
  - repeat constructor; try discriminate; reflexivity.
  - unfold ascii_str. apply (bool_decide_unpack _). reflexivity.
Defined.

Lemma cat_prints_file_witness :
  exists acts, cat demo_fs [demo_hello_path] = Some acts /\ length (encode (shown_all acts)) = 601%nat.
Proof.
  destruct (cat_prints_file demo_fs demo_fs_wf demo_hello_path demo_hello [4; 5] demo_resolve_hello eq_refl
              demo_path_hello) as (acts & Hc & Henc).
  - apply (bool_decide_unpack _). by vm_compute.
  - split; [done|]. unfold chain_capacity. rewrite length_chain_sectors. simpl. lia.
  - apply (bool_decide_unpack _). by vm_compute.
  - exists acts. split; [exact Hc|]. rewrite Henc. by vm_compute.
Defined.

Lemma ls_prints_entries_witness :
  exists acts, ls demo_fs [lit "/"] = Some acts /\
    shown_all acts = concat (map (fun entry => entry_line entry ++ [0x0a])
                               (dir_scan (chain_records demo_fs [2])).1).
Proof.
  destruct (ls_prints_entries demo_fs demo_fs_wf (lit "/") 2 [2] (Ok tt)) as (acts & Hls & Hs).
  - left. split; reflexivity.
  - exact demo_walk_root.
  - discriminate.
  - exists acts. split; [exact Hls|]. rewrite Hs. destruct (dir_scan (chain_records demo_fs [2])) as [es []];
      cbn [fst snd]; by rewrite app_nil_r.
Defined.

Lemma reports_numbers_witness :
  heap_wf (heap_now demo_readings) /\
  exists seconds, parse_decimal seconds = 123 /\
    exists rest, shown_all (uptime demo_readings) = lit "uptime: " ++ seconds ++ rest.
Proof.
  assert (Hh : heap_wf (heap_now demo_readings)) by (unfold heap_wf; simpl; lia). split; [exact Hh|].
  destruct (reports_numbers demo_system demo_readings) as (s & t & k & u & h & c & Hu & _ & Hs & _).
  - split; simpl; lia.
  - split; simpl; lia.
  - simpl. lia.
  - split; simpl; lia.
  - exact Hh.
  - exists s. split; [exact Hs|]. eexists. exact Hu.
Defined.
