(* ===== verification/Framebuffer.v ===== *)
(** * Framebuffer: text on pixels

    Models [kernel/src/framebuffer.rs].  The buffer is the list of its bytes;
    pixel and byte positions are natural numbers, far below the width of [usize]
    on a screen that fits in memory.  The glyphs come from the
    [noto_sans_mono_bitmap] crate: they are a [Font].  [None] is a panic. *)

From S2P Require Import Prelude Str Console.
#[local] Open Scope nat_scope.

Definition FONT_HEIGHT : nat := 16.
Definition LETTER_SPACING : nat := 1.
Definition LINE_SPACING : nat := 2.
Definition BORDER : nat := 8.
Definition CURSOR_WIDTH : nat := 2.
Definition FOREGROUND : list Z := [0xe6; 0xed; 0xf3]%Z.
Definition BACKGROUND : list Z := [0x0a; 0x10; 0x20]%Z.

(** [bootloader_api::info] *)
Inductive PixelFormat : Type := Rgb | Bgr | U8 | Unknown.

Record FrameBufferInfo : Type := {
  width : nat;
  height : nat;
  pixel_format : PixelFormat;
  bytes_per_pixel : nat;
  stride : nat;
}.

Record FramebufferWriter : Type := {
  buffer : list Z;
  info : FrameBufferInfo;
  column : nat;
  row : nat;
  cursor_visible : bool;
}.

(** A glyph: its width and its rows of intensities. *)
Record RasterizedChar : Type := { raster_w : nat; raster : list (list Z) }.

(** [get_raster_width] and [get_raster] at the weight and height in use. *)
Class Font : Type := {
  get_raster_width : nat;
  get_raster : Z -> option RasterizedChar;
}.

Definition writer_new (buffer : list Z) (info : FrameBufferInfo) : FramebufferWriter :=
  {| buffer := buffer; info := info; column := BORDER; row := BORDER; cursor_visible := false |}.

Definition set_buffer (w : FramebufferWriter) (b : list Z) : FramebufferWriter :=
  {| buffer := b; info := info w; column := column w; row := row w; cursor_visible := cursor_visible w |}.

Definition set_column (w : FramebufferWriter) (c : nat) : FramebufferWriter :=
  {| buffer := buffer w; info := info w; column := c; row := row w; cursor_visible := cursor_visible w |}.

Definition set_row (w : FramebufferWriter) (r : nat) : FramebufferWriter :=
  {| buffer := buffer w; info := info w; column := column w; row := r; cursor_visible := cursor_visible w |}.

Definition set_visible (w : FramebufferWriter) (v : bool) : FramebufferWriter :=
  {| buffer := buffer w; info := info w; column := column w; row := row w; cursor_visible := v |}.

(** A [for] loop whose body may panic. *)
Fixpoint for_each {A S : Type} (l : list A) (body : A -> S -> option S) (s : S) : option S :=
  match l with
  | [] => Some s
  | x :: l => s ← body x s; for_each l body s
  end.

(** [for y in y0..y1 { for x in x0..x1 { body } }] *)
Definition for_pixels {S : Type} (x0 x1 y0 y1 : nat) (body : nat -> nat -> S -> option S) (s : S) : option S :=
  for_each (seq y0 (y1 - y0)) (fun y s => for_each (seq x0 (x1 - x0)) (fun x s => body x y s) s) s.

Definition channel (rgb : list Z) (i : nat) : Z := nth i rgb 0%Z.

(** The bytes of a colour in the buffer's format. *)
Definition encode_color (f : PixelFormat) (rgb : list Z) : list Z :=
  match f with
  | Rgb => [channel rgb 0; channel rgb 1; channel rgb 2]
  | Bgr => [channel rgb 2; channel rgb 1; channel rgb 0]
  | U8 =>
      let gray := ((channel rgb 0 + channel rgb 1 + channel rgb 2) / 3)%Z in
      [gray; gray; gray]
  | Unknown => [channel rgb 2; channel rgb 1; channel rgb 0]
  end.

Definition pixel_offset (i : FrameBufferInfo) (x y : nat) : nat := (y * stride i + x) * bytes_per_pixel i.

Definition write_pixel (w : FramebufferWriter) (x y : nat) (rgb : list Z) : option FramebufferWriter :=
  let i := info w in
  if decide (width i <= x \/ height i <= y) then Some w
  else
    let offset := pixel_offset i x y in
    let color := encode_color (pixel_format i) rgb in
    let count := bytes_per_pixel i `min` 3 in
    b ← splice (buffer w) offset (take count color);
    b ← (if decide (3 < bytes_per_pixel i) then set_index b (offset + 3) 0%Z else Some b);
    Some (set_buffer w b).

Definition invert_pixel (w : FramebufferWriter) (x y : nat) : option FramebufferWriter :=
  let i := info w in
  if decide (width i <= x \/ height i <= y) then Some w
  else
    let offset := pixel_offset i x y in
    bytes ← slice (buffer w) offset (offset + bytes_per_pixel i `min` 3);
    b ← splice (buffer w) offset (map (not_w 8) bytes);
    Some (set_buffer w b).

(** Filling a rectangle, the body of [clear], [scroll] and [backspace]. *)
Definition fill_background (x0 x1 y0 y1 : nat) (w : FramebufferWriter) : option FramebufferWriter :=
  for_pixels x0 x1 y0 y1 (fun x y w => write_pixel w x y BACKGROUND) w.

Definition clear (w : FramebufferWriter) : option FramebufferWriter :=
  w ← fill_background 0 (width (info w)) 0 (height (info w)) w;
  Some (set_visible (set_row (set_column w BORDER) BORDER) false).

Definition scroll (w : FramebufferWriter) : option FramebufferWriter :=
  let i := info w in
  let pixel_rows := FONT_HEIGHT + LINE_SPACING in
  let byte_rows := pixel_rows * stride i * bytes_per_pixel i in
  b ← copy_within (buffer w) byte_rows (length (buffer w)) 0;
  w ← fill_background 0 (width i) (height i - pixel_rows) (height i) (set_buffer w b);
  Some (set_row w (row w - pixel_rows)).

Definition new_line (w : FramebufferWriter) : option FramebufferWriter :=
  let w := set_row (set_column w BORDER) (row w + (FONT_HEIGHT + LINE_SPACING)) in
  if decide (height (info w) < row w + FONT_HEIGHT + BORDER) then scroll w else Some w.

Definition toggle_cursor (w : FramebufferWriter) : option FramebufferWriter :=
  for_pixels (column w) ((column w + CURSOR_WIDTH) `min` width (info w))
             (row w) ((row w + FONT_HEIGHT) `min` height (info w))
             (fun x y w => invert_pixel w x y) w.

Definition show_cursor (w : FramebufferWriter) : option FramebufferWriter :=
  if cursor_visible w then Some w
  else w ← toggle_cursor w; Some (set_visible w true).

Definition hide_cursor (w : FramebufferWriter) : option FramebufferWriter :=
  if cursor_visible w then w ← toggle_cursor w; Some (set_visible w false)
  else Some w.

(** One channel of [blend], in 16-bit arithmetic. *)
Definition blend_channel (b f alpha : Z) : option Z :=
  inverse ← checked_sub 255 alpha;
  p ← checked_mul 16 b inverse;
  q ← checked_mul 16 f alpha;
  sum ← checked_add 16 p q;
  Some (wrap 8 (sum / 255))%Z.

Definition blend (background foreground : list Z) (intensity : Z) : option (list Z) :=
  c0 ← blend_channel (channel background 0) (channel foreground 0) intensity;
  c1 ← blend_channel (channel background 1) (channel foreground 1) intensity;
  c2 ← blend_channel (channel background 2) (channel foreground 2) intensity;
  Some [c0; c1; c2].

Section Text.
Context `{Font}.

(** The glyph of a character, or that of the question mark. *)
Definition raster_for (character : Z) : option RasterizedChar :=
  match get_raster character with
  | Some r => Some r
  | None => get_raster 0x3f%Z
  end.

Definition draw_glyph (rows : list (list Z)) (w : FramebufferWriter) : option FramebufferWriter :=
  for_each (imap pair rows)
    (fun '(y, intensities) w =>
       for_each (imap pair intensities)
         (fun '(x, intensity) w =>
            color ← blend BACKGROUND FOREGROUND intensity;
            write_pixel w (column w + x) (row w + y) color) w) w.

Definition write_character (w : FramebufferWriter) (character : Z) : option FramebufferWriter :=
  if (character =? 0x0a)%Z then new_line w
  else
    glyph ← raster_for character;
    let advance := raster_w glyph + LETTER_SPACING in
    w ← (if decide (width (info w) < column w + advance + BORDER) then new_line w else Some w);
    w ← draw_glyph (raster glyph) w;
    Some (set_column w (column w + advance)).

Definition backspace (w : FramebufferWriter) : option FramebufferWriter :=
  let advance := get_raster_width + LETTER_SPACING in
  if decide (column w <= BORDER) then Some w
  else
    let w := set_column w ((column w - advance) `max` BORDER) in
    fill_background (column w) ((column w + advance) `min` width (info w))
                    (row w) ((row w + FONT_HEIGHT) `min` height (info w)) w.

Definition write_char (character : Z) (w : FramebufferWriter) : option FramebufferWriter :=
  if (character =? 0x0d)%Z then Some (set_column w BORDER)
  else if (character =? 0x08)%Z then backspace w
  else if (character =? 0x09)%Z then
    for_each (seq 0 4) (fun _ w => write_character w 0x20%Z) w
  else if is_ascii character then write_character w character
  else write_character w 0x3f%Z.

Definition write_str (text : str) (w : FramebufferWriter) : option FramebufferWriter :=
  for_each text write_char w.

(** The module's functions behind the lock, on a screen that is present. *)
Definition fb_print (text : str) (w : FramebufferWriter) : option FramebufferWriter :=
  w ← hide_cursor w; write_str text w.

(** What a console action does to the screen. *)
Definition fb_action (a : action) (w : FramebufferWriter) : option FramebufferWriter :=
  match a with
  | Print text => fb_print text w
  | SerialPrint _ => Some w
  | ClearScreen => clear w
  | ShowCursor => show_cursor w
  end.
End Text.
