(* ===== verification/FramebufferPixels.v ===== *)
(** * FramebufferPixels: what the drawing loops do to the pixels

    Every loop of the writer is a sequence of single-pixel operations.  Pixels
    occupy disjoint bytes, so a loop changes exactly the pixels it visits; the
    theorems about clearing, scrolling, glyphs and the cursor follow. *)

From S2P Require Import Prelude Str Console Framebuffer.
#[local] Open Scope nat_scope.

(** ** Geometry *)

(** The buffer holds every pixel of the screen. *)
Record screen_ok (i : FrameBufferInfo) (len : nat) : Prop := {
  so_stride : width i <= stride i;
  so_bytes : 1 <= bytes_per_pixel i;
  so_length : height i * stride i * bytes_per_pixel i <= len;
}.

Definition on_screen (i : FrameBufferInfo) (x y : nat) : Prop := x < width i /\ y < height i.

(** The bytes of a pixel that hold its colour. *)
Definition depth (i : FrameBufferInfo) : nat := bytes_per_pixel i `min` 3.

(** Byte [k] of the colour of a pixel. *)
Definition sample (w : FramebufferWriter) (x y k : nat) : option Z :=
  buffer w !! (pixel_offset (info w) x y + k).

Lemma pixel_fits (i : FrameBufferInfo) (len x y : nat) :
  screen_ok i len -> on_screen i x y -> pixel_offset i x y + bytes_per_pixel i <= len.
Proof.
  intros [Hs Hb Hl] [Hx Hy]. unfold pixel_offset.
  assert (Hcell : y * stride i + x + 1 <= height i * stride i) by nia.
  pose proof (Nat.mul_le_mono_r _ _ (bytes_per_pixel i) Hcell). lia.
Qed.

Lemma pixels_apart (i : FrameBufferInfo) (len x y x' y' j k : nat) :
  screen_ok i len -> on_screen i x y -> on_screen i x' y' ->
  j < bytes_per_pixel i -> k < bytes_per_pixel i ->
  pixel_offset i x y + j = pixel_offset i x' y' + k -> x = x' /\ y = y' /\ j = k.
Proof.
  intros [Hs Hb _] [Hx _] [Hx' _] Hj Hk Heq. unfold pixel_offset in Heq.
  assert (Hcell : forall n m j k b, j < b -> k < b -> n * b + j = m * b + k -> n = m /\ j = k).
  { clear. intros n m j k b Hj Hk Heq. assert (n = m) by nia. subst. lia. }
  destruct (Hcell _ _ _ _ _ Hj Hk Heq) as [Hcells ->].
  destruct (Hcell y y' x x' (stride i)) as [-> ->]; [lia..|]. done.
Qed.

(** Two writers that differ at most in the contents of the buffer. *)
Record same_frame (w w' : FramebufferWriter) : Prop := {
  sf_info : info w' = info w;
  sf_column : column w' = column w;
  sf_row : row w' = row w;
  sf_visible : cursor_visible w' = cursor_visible w;
  sf_length : length (buffer w') = length (buffer w);
}.

Lemma same_frame_refl (w : FramebufferWriter) : same_frame w w.
Proof. done. Qed.

Lemma same_frame_trans (w1 w2 w3 : FramebufferWriter) :
  same_frame w1 w2 -> same_frame w2 w3 -> same_frame w1 w3.
Proof. intros [? ? ? ? ?] [? ? ? ? ?]. constructor; congruence. Qed.

#[export] Hint Resolve same_frame_refl same_frame_trans : sol.

(** ** Bytes *)

Lemma lookup_splice {A : Type} (l l' src : list A) (o k : nat) :
  splice l o src = Some l' ->
  l' !! k = if decide (o <= k < o + length src) then src !! (k - o) else l !! k.
Proof.
  unfold splice. case_decide as Hfit; [|done]. intros [= <-].
  assert (Ho : length (take o l) = o) by (rewrite length_take; lia).
  destruct (decide (k < o)).
  - rewrite lookup_app_l, lookup_take_lt, decide_False by lia. done.
  - rewrite lookup_app_r, Ho by lia. destruct (decide (k < o + length src)).
    + rewrite lookup_app_l, decide_True by lia. done.
    + rewrite lookup_app_r, lookup_drop, decide_False by lia. f_equal. lia.
Qed.

Lemma length_encode_color (f : PixelFormat) (rgb : list Z) : length (encode_color f rgb) = 3.
Proof. by destruct f. Qed.

Lemma length_splice {A : Type} (l l' src : list A) (o : nat) :
  splice l o src = Some l' -> length l' = length l.
Proof.
  unfold splice. case_decide; [|done]. intros [= <-]. rewrite !length_app, length_take, length_drop. lia.
Qed.

(** The bytes [write_pixel] stores. *)
Definition stored (i : FrameBufferInfo) (x y : nat) (rgb : list Z) (k : nat) (old : option Z) : option Z :=
  let o := pixel_offset i x y in
  if decide (o <= k < o + depth i) then encode_color (pixel_format i) rgb !! (k - o)
  else if decide (3 < bytes_per_pixel i /\ k = o + 3) then Some 0%Z
  else old.

Lemma write_pixel_spec (w : FramebufferWriter) (x y : nat) (rgb : list Z) :
  screen_ok (info w) (length (buffer w)) ->
  exists w', write_pixel w x y rgb = Some w' /\ same_frame w w' /\
    (on_screen (info w) x y ->
       forall k, buffer w' !! k = stored (info w) x y rgb k (buffer w !! k)) /\
    (~ on_screen (info w) x y -> w' = w).
Proof.
  intros Hok. unfold write_pixel, on_screen. case_decide as Hoff; [exists w; split; [done|]; split; [done|]; split;
    [lia|done]|].
  pose proof (pixel_fits _ _ x y Hok ltac:(split; lia)) as Hfit.
  set (o := pixel_offset (info w) x y) in *.
  set (color := encode_color (pixel_format (info w)) rgb).
  assert (Hc : length (take (bytes_per_pixel (info w) `min` 3) color) = depth (info w)).
  { unfold depth. rewrite length_take. unfold color. rewrite length_encode_color. lia. }
  destruct (splice (buffer w) o (take (bytes_per_pixel (info w) `min` 3) color)) as [b|] eqn:Hsp.
  2:{ unfold splice in Hsp. rewrite decide_True in Hsp; [done|]. rewrite Hc. unfold depth. lia. }
  pose proof (length_splice _ _ _ _ Hsp) as Hlen. cbn [mbind option_bind].
  assert (Hlk : forall k, b !! k = if decide (o <= k < o + depth (info w)) then color !! (k - o) else buffer w !! k).
  { intros k. rewrite (lookup_splice _ _ _ _ k Hsp), Hc. case_decide; [|done].
    apply lookup_take_lt. unfold depth in *. lia. }
  unfold stored. fold o color. case_decide as Hbpp.
  - unfold set_index. rewrite decide_True by (rewrite Hlen; lia). cbn [mbind option_bind].
    eexists. split; [done|]. split; [by constructor; cbn; rewrite ?length_insert|]. split; [|lia].
    intros _ k. cbn [buffer set_buffer]. destruct (decide (k = o + 3)) as [->|Hk].
    + rewrite list_lookup_insert_eq by (rewrite Hlen; lia). unfold depth.
      rewrite decide_False by lia. by rewrite decide_True.
    + rewrite list_lookup_insert_ne by done. rewrite Hlk. case_decide; [done|]. rewrite decide_False by lia. done.
  - eexists. split; [done|]. split; [by constructor|]. split; [|lia].
    intros _ k. cbn [buffer set_buffer]. rewrite Hlk. case_decide; [done|]. by rewrite decide_False by lia.
Qed.

(** The effect on the samples: only the pixel written changes. *)
Lemma write_pixel_sample (w w' : FramebufferWriter) (x y : nat) (rgb : list Z) :
  screen_ok (info w) (length (buffer w)) -> write_pixel w x y rgb = Some w' ->
  forall x' y' k, on_screen (info w) x' y' -> k < depth (info w) ->
    sample w' x' y' k =
      if decide (x = x' /\ y = y') then encode_color (pixel_format (info w)) rgb !! k
      else sample w x' y' k.
Proof.
  intros Hok Hw x' y' k Hon Hk. destruct (write_pixel_spec w x y rgb Hok) as (w1 & Hw1 & [Hi _ _ _ _] & Hin & Hout).
  simplify_eq. unfold sample. rewrite Hi. unfold depth in Hk.
  destruct (decide (on_screen (info w) x y)) as [Hxy|Hxy].
  - rewrite Hin by done. unfold stored. destruct (decide (x = x' /\ y = y')) as [[-> ->]|Hsame].
    + rewrite decide_True by (unfold depth; lia). f_equal. lia.
    + assert (Hne : forall j, j < bytes_per_pixel (info w) ->
                 pixel_offset (info w) x' y' + k <> pixel_offset (info w) x y + j).
      { intros j Hj Heq. destruct (pixels_apart _ _ x' y' x y k j Hok) as (-> & -> & _); (done || lia). }
      rewrite !decide_False; [done| |].
      * intros [Hb Heq]. by apply (Hne 3 ltac:(lia)).
      * unfold depth. intros Hr. apply (Hne (pixel_offset (info w) x' y' + k - pixel_offset (info w) x y)); lia.
  - rewrite Hout by done. rewrite decide_False; [done|]. intros [-> ->]. done.
Qed.

(** ** Painting a list of pixels *)

Definition paint (p : nat * nat * list Z) (w : FramebufferWriter) : option FramebufferWriter :=
  let '(x, y, rgb) := p in write_pixel w x y rgb.

Definition place (p : nat * nat * list Z) : nat * nat := p.1.

Lemma paint_all (pixels : list (nat * nat * list Z)) (w : FramebufferWriter) :
  screen_ok (info w) (length (buffer w)) ->
  exists w', for_each pixels paint w = Some w' /\ same_frame w w' /\
    (forall x y k, on_screen (info w) x y -> k < depth (info w) -> (x, y) ∉ map place pixels ->
       sample w' x y k = sample w x y k) /\
    (NoDup (map place pixels) ->
     forall x y rgb k, on_screen (info w) x y -> k < depth (info w) -> (x, y, rgb) ∈ pixels ->
       sample w' x y k = encode_color (pixel_format (info w)) rgb !! k).
Proof.
  revert w. induction pixels as [|[[x0 y0] c0] pixels IH]; intros w Hok; cbn [for_each].
  { exists w. split; [done|]. split; [done|]. split; [done|]. intros _ x y rgb k _ _ Hin. by inversion Hin. }
  destruct (write_pixel_spec w x0 y0 c0 Hok) as (w1 & Hw1 & Hsf & _). cbn [paint]. rewrite Hw1.
  cbn [mbind option_bind]. pose proof (write_pixel_sample w w1 x0 y0 c0 Hok Hw1) as Hsample.
  pose proof Hsf as [Hi _ _ _ Hl].
  destruct (IH w1) as (w2 & Hrun & Hsf2 & Hsame & Hnew); [by rewrite Hi, Hl|]. rewrite Hi in *.
  exists w2. split; [done|]. split; [eauto with sol|]. cbn [map]. split.
  - intros x y k Hon Hk Hnot. rewrite not_elem_of_cons in Hnot. destruct Hnot as [Hne Hnot].
    rewrite Hsame, Hsample by done. apply decide_False. intros [-> ->]. by apply Hne.
  - intros Hnd x y rgb k Hon Hk Hin. apply NoDup_cons in Hnd as [Hfresh Hnd].
    apply elem_of_cons in Hin as [Heq|Hin]; [|by apply Hnew]. injection Heq as -> -> ->.
    rewrite Hsame, Hsample by done. by apply decide_True.
Qed.

(** The points of a rectangle, row by row. *)
Definition rectangle (x0 x1 y0 y1 : nat) : list (nat * nat) :=
  flat_map (fun y => map (fun x => (x, y)) (seq x0 (x1 - x0))) (seq y0 (y1 - y0)).

Lemma elem_of_rectangle (x0 x1 y0 y1 x y : nat) :
  (x, y) ∈ rectangle x0 x1 y0 y1 <-> x0 <= x < x1 /\ y0 <= y < y1.
Proof.
  unfold rectangle. rewrite list_elem_of_In, in_flat_map. setoid_rewrite in_map_iff. setoid_rewrite in_seq.
  split.
  - intros (y' & Hy & x' & Heq & Hx). simplify_eq. lia.
  - intros [Hx Hy]. exists y. split; [lia|]. exists x. split; [done|lia].
Qed.

Lemma rectangle_NoDup (x0 x1 y0 y1 : nat) : NoDup (rectangle x0 x1 y0 y1).
Proof.
  unfold rectangle. generalize (NoDup_seq y0 (y1 - y0)). generalize (seq y0 (y1 - y0)) as ys. intros ys.
  induction ys as [|y ys IH]; intros Hnd; cbn [flat_map]; [constructor|].
  apply NoDup_cons in Hnd as [Hy Hnd]. apply NoDup_app. split; [|split; [|by apply IH]].
  - change (map ?f ?l) with (f <$> l). apply NoDup_fmap; [|apply NoDup_seq]. by intros a b [= ->].
  - intros [a b] Hin Hin'. apply list_elem_of_In, in_map_iff in Hin as (x & Heq & _). simplify_eq.
    apply list_elem_of_In, in_flat_map in Hin' as (y' & Hy' & Hx). apply in_map_iff in Hx as (? & Heq & _).
    simplify_eq. by apply Hy, list_elem_of_In.
Qed.

Lemma for_each_app {A S : Type} (l1 l2 : list A) (body : A -> S -> option S) (s : S) :
  for_each (l1 ++ l2) body s = (s ← for_each l1 body s; for_each l2 body s).
Proof.
  revert s. induction l1 as [|x l1 IH]; intros s; cbn [app for_each]; [done|].
  destruct (body x s); [apply IH|done].
Qed.

Lemma for_each_map {A B S : Type} (f : A -> B) (l : list A) (body : B -> S -> option S) (s : S) :
  for_each (map f l) body s = for_each l (fun x => body (f x)) s.
Proof. revert s. induction l as [|x l IH]; intros s; cbn [map for_each]; [done|]. destruct (body (f x) s); [apply IH|done]. Qed.

Lemma for_each_ext {A S : Type} (l : list A) (f g : A -> S -> option S) (s : S) :
  (forall x s, f x s = g x s) -> for_each l f s = for_each l g s.
Proof. intros Hfg. revert s. induction l as [|x l IH]; intros s; cbn [for_each]; [done|]. rewrite Hfg. destruct (g x s); [apply IH|done]. Qed.

Lemma for_each_flat_map {A B S : Type} (f : A -> list B) (l : list A) (body : B -> S -> option S) (s : S) :
  for_each (flat_map f l) body s = for_each l (fun x s => for_each (f x) body s) s.
Proof.
  revert s. induction l as [|x l IH]; intros s; cbn [flat_map for_each]; [done|].
  rewrite for_each_app. destruct (for_each (f x) body s); [apply IH|done].
Qed.

Lemma for_pixels_flat {S : Type} (x0 x1 y0 y1 : nat) (body : nat -> nat -> S -> option S) (s : S) :
  for_pixels x0 x1 y0 y1 body s =
  for_each (rectangle x0 x1 y0 y1) (fun '(x, y) s => body x y s) s.
Proof.
  unfold for_pixels, rectangle. rewrite for_each_flat_map. apply for_each_ext. intros y s'.
  by rewrite for_each_map.
Qed.

(** Filling a rectangle with the background. *)
Lemma fill_background_spec (x0 x1 y0 y1 : nat) (w : FramebufferWriter) :
  screen_ok (info w) (length (buffer w)) ->
  exists w', fill_background x0 x1 y0 y1 w = Some w' /\ same_frame w w' /\
    forall x y k, on_screen (info w) x y -> k < depth (info w) ->
      sample w' x y k =
        if decide (x0 <= x < x1 /\ y0 <= y < y1)
        then encode_color (pixel_format (info w)) BACKGROUND !! k else sample w x y k.
Proof.
  intros Hok. set (pts := map (fun p => (p, BACKGROUND)) (rectangle x0 x1 y0 y1)).
  assert (Hplace : map place pts = rectangle x0 x1 y0 y1).
  { unfold pts. rewrite map_map. apply map_id. }
  destruct (paint_all pts w Hok) as (w' & Hrun & Hsf & Hsame & Hnew).
  exists w'. split.
  - unfold fill_background. rewrite for_pixels_flat, <- Hrun. unfold pts. rewrite for_each_map.
    apply for_each_ext. by intros [x y] s.
  - split; [done|]. intros x y k Hon Hk. case_decide as Hin.
    + apply (Hnew ltac:(rewrite Hplace; apply rectangle_NoDup)); [done..|].
      apply list_elem_of_In, in_map_iff. exists (x, y). split; [done|]. by apply list_elem_of_In, elem_of_rectangle.
    + apply Hsame; [done..|]. by rewrite Hplace, elem_of_rectangle.
Qed.

(** [clear] paints every pixel of the screen with the background colour, never
    traps, and puts the text position back to the top left corner with the cursor
    hidden. *)
Lemma clear_spec (w : FramebufferWriter) :
  screen_ok (info w) (length (buffer w)) ->
  exists w', clear w = Some w' /\ info w' = info w /\ length (buffer w') = length (buffer w) /\
    column w' = BORDER /\ row w' = BORDER /\ cursor_visible w' = false /\
    forall x y k, on_screen (info w) x y -> k < depth (info w) ->
      sample w' x y k = encode_color (pixel_format (info w)) BACKGROUND !! k.
Proof.
  intros Hok. unfold clear.
  destruct (fill_background_spec 0 (width (info w)) 0 (height (info w)) w Hok) as (w' & -> & [Hi _ _ _ Hl] & Hs).
  cbn [mbind option_bind]. eexists. split; [done|]. split; [done|]. split; [done|].
  do 3 (split; [done|]). intros x y k [Hx Hy] Hk. unfold sample. cbn [buffer info set_visible set_row set_column].
  fold (sample w' x y k). rewrite Hs by done. apply decide_True. lia.
Qed.

(** ** The cursor *)

Definition invert (p : nat * nat) (w : FramebufferWriter) : option FramebufferWriter :=
  invert_pixel w p.1 p.2.

(** Byte [k] of the buffer belongs to the colour of a point of the list. *)
Definition covered (i : FrameBufferInfo) (points : list (nat * nat)) (k : nat) : Prop :=
  Exists (fun p => on_screen i p.1 p.2 /\
                   pixel_offset i p.1 p.2 <= k < pixel_offset i p.1 p.2 + depth i) points.

#[local] Instance on_screen_dec i x y : Decision (on_screen i x y).
Proof. unfold on_screen. apply _. Defined.

#[local] Instance covered_dec i points k : Decision (covered i points k).
Proof. unfold covered. apply _. Defined.

Lemma invert_pixel_spec (w : FramebufferWriter) (p : nat * nat) :
  screen_ok (info w) (length (buffer w)) ->
  exists w', invert p w = Some w' /\ same_frame w w' /\
    forall k, buffer w' !! k =
      if decide (covered (info w) [p] k) then not_w 8 <$> buffer w !! k else buffer w !! k.
Proof.
  intros Hok. destruct p as [x y]. unfold invert, invert_pixel. cbn [fst snd].
  assert (Hcov : forall k, covered (info w) [(x, y)] k <->
      on_screen (info w) x y /\ pixel_offset (info w) x y <= k < pixel_offset (info w) x y + depth (info w)).
  { intros k. unfold covered. rewrite Exists_cons, Exists_nil. cbn [fst snd]. tauto. }
  case_decide as Hoff.
  { exists w. split; [done|]. split; [done|]. intros k. rewrite decide_False; [done|].
    rewrite Hcov. unfold on_screen. lia. }
  pose proof (pixel_fits _ _ x y Hok ltac:(split; lia)) as Hfit.
  set (o := pixel_offset (info w) x y) in *. rewrite slice_take by lia. cbn [mbind option_bind].
  replace (o + bytes_per_pixel (info w) `min` 3 - o) with (depth (info w)) by (unfold depth; lia).
  set (bytes := take (depth (info w)) (drop o (buffer w))).
  assert (Hlen : length (map (not_w 8) bytes) = depth (info w)).
  { rewrite length_map. unfold bytes. rewrite length_take, length_drop. unfold depth in *. lia. }
  destruct (splice (buffer w) o (map (not_w 8) bytes)) as [b|] eqn:Hsp.
  2:{ unfold splice in Hsp. rewrite decide_True in Hsp; [done|]. rewrite Hlen. unfold depth. lia. }
  cbn [mbind option_bind]. eexists. split; [done|].
  split; [constructor; cbn; try done; by eapply length_splice|]. intros k. cbn [buffer set_buffer].
  rewrite (lookup_splice _ _ _ _ k Hsp), Hlen. destruct (decide (o <= k < o + depth (info w))) as [Hk|Hk].
  - rewrite decide_True by (rewrite Hcov; unfold on_screen; fold o; lia).
    change (map (not_w 8) bytes) with (not_w 8 <$> bytes). rewrite list_lookup_fmap. f_equal.
    unfold bytes. rewrite lookup_take_lt, lookup_drop by lia. f_equal. lia.
  - rewrite decide_False; [done|]. rewrite Hcov. fold o. lia.
Qed.

(** Inverting distinct points inverts exactly their bytes. *)
Lemma invert_all (points : list (nat * nat)) (w : FramebufferWriter) :
  screen_ok (info w) (length (buffer w)) -> NoDup points ->
  exists w', for_each points invert w = Some w' /\ same_frame w w' /\
    forall k, buffer w' !! k =
      if decide (covered (info w) points k) then not_w 8 <$> buffer w !! k else buffer w !! k.
Proof.
  revert w. induction points as [|p points IH]; intros w Hok Hnd; cbn [for_each].
  { exists w. split; [done|]. split; [done|]. intros k. rewrite decide_False; [done|]. by intros ?%Exists_nil. }
  apply NoDup_cons in Hnd as [Hfresh Hnd].
  destruct (invert_pixel_spec w p Hok) as (w1 & -> & Hsf & Hb1). cbn [mbind option_bind].
  pose proof Hsf as [Hi _ _ _ Hl].
  destruct (IH w1) as (w2 & -> & Hsf2 & Hb2); [by rewrite Hi, Hl|done|]. rewrite Hi in Hb2.
  exists w2. split; [done|]. split; [eauto with sol|]. intros k. rewrite Hb2, Hb1.
  assert (Hsplit : covered (info w) (p :: points) k <-> covered (info w) [p] k \/ covered (info w) points k).
  { unfold covered. rewrite !Exists_cons, Exists_nil. tauto. }
  assert (Honce : covered (info w) [p] k -> ~ covered (info w) points k).
  { unfold covered. rewrite Exists_cons, Exists_nil, Exists_exists. unfold depth.
    intros [[Hon Hr]|[]] (q & Hq & Hon' & Hr').
    destruct (pixels_apart _ _ p.1 p.2 q.1 q.2 (k - pixel_offset (info w) p.1 p.2)
                (k - pixel_offset (info w) q.1 q.2) Hok Hon Hon') as (H1 & H2 & _); [lia..|].
    apply Hfresh. destruct p, q. simpl in *. by subst. }
  destruct (decide (covered (info w) [p] k)) as [Hp|Hp], (decide (covered (info w) points k)) as [Hps|Hps];
    try (by exfalso; eapply Honce); case_decide as Hc; rewrite Hsplit in Hc; (done || tauto).
Qed.

Definition cursor_points (w : FramebufferWriter) : list (nat * nat) :=
  rectangle (column w) ((column w + CURSOR_WIDTH) `min` width (info w))
            (row w) ((row w + FONT_HEIGHT) `min` height (info w)).

Lemma toggle_cursor_spec (w : FramebufferWriter) :
  screen_ok (info w) (length (buffer w)) ->
  exists w', toggle_cursor w = Some w' /\ same_frame w w' /\
    forall k, buffer w' !! k =
      if decide (covered (info w) (cursor_points w) k) then not_w 8 <$> buffer w !! k else buffer w !! k.
Proof.
  intros Hok. destruct (invert_all (cursor_points w) w Hok (rectangle_NoDup _ _ _ _)) as (w' & Hrun & Hrest).
  exists w'. split; [|done]. unfold toggle_cursor. rewrite for_pixels_flat, <- Hrun.
  apply for_each_ext. by intros [x y] s.
Qed.

Lemma not_w_involutive (w z : Z) : not_w w (not_w w z) = z.
Proof. unfold not_w. lia. Qed.

(** C32: The cursor leaves no trace: showing it and hiding it again gives back the
    writer it started from, every byte of the buffer included, whatever was on the
    screen and wherever the cursor stands; showing it twice shows it once. *)
Theorem cursor_is_reversible (w : FramebufferWriter) :
  screen_ok (info w) (length (buffer w)) -> cursor_visible w = false ->
  exists w1, show_cursor w = Some w1 /\ cursor_visible w1 = true /\
    show_cursor w1 = Some w1 /\ hide_cursor w1 = Some w /\ hide_cursor w = Some w.
Proof.
  intros Hok Hv. unfold show_cursor, hide_cursor. rewrite Hv.
  destruct (toggle_cursor_spec w Hok) as (w1 & -> & Hsf & Hb1). cbn [mbind option_bind].
  eexists. split; [done|]. split; [done|]. cbn [cursor_visible set_visible]. split; [done|]. split; [|done].
  destruct Hsf as [Hi Hc Hr Hvis Hl].
  destruct (toggle_cursor_spec (set_visible w1 true)) as (w2 & -> & [Hi2 Hc2 Hr2 Hv2 Hl2] & Hb2);
    [cbn; by rewrite Hi, Hl|]. cbn [mbind option_bind]. f_equal.
  unfold cursor_points in Hb2. cbn [set_visible info column row buffer cursor_visible] in *.
  rewrite Hi, Hc, Hr in Hb2. fold (cursor_points w) in Hb2.
  assert (Hbuf : buffer w2 = buffer w).
  { apply list_eq. intros k. rewrite Hb2, Hb1. case_decide; [|done].
    rewrite <- option_fmap_compose. destruct (buffer w !! k) as [z|]; [|done]. simpl. f_equal. apply not_w_involutive. }
  destruct w, w2. unfold set_visible. simpl in *. congruence.
Qed.

(** ** Scrolling *)

Definition LINE : nat := FONT_HEIGHT + LINE_SPACING.

(** Scrolling moves the picture up by one text line: every pixel shows what
    the pixel eighteen rows below showed, the last eighteen rows are background,
    and nothing traps as long as the screen is that high. *)
Lemma scroll_spec (w : FramebufferWriter) :
  screen_ok (info w) (length (buffer w)) -> LINE <= height (info w) ->
  exists w', scroll w = Some w' /\ info w' = info w /\ length (buffer w') = length (buffer w) /\
    column w' = column w /\ row w' = row w - LINE /\ cursor_visible w' = cursor_visible w /\
    forall x y k, on_screen (info w) x y -> k < depth (info w) ->
      sample w' x y k =
        if decide (y + LINE < height (info w)) then sample w x (y + LINE) k
        else encode_color (pixel_format (info w)) BACKGROUND !! k.
Proof.
  intros Hok Hh. unfold scroll. cbv zeta. change (FONT_HEIGHT + LINE_SPACING) with LINE.
  set (n := LINE * stride (info w) * bytes_per_pixel (info w)).
  assert (Hn : n <= length (buffer w)).
  { etransitivity; [|apply (so_length _ _ Hok)]. unfold n. apply Nat.mul_le_mono_r, Nat.mul_le_mono_r. done. }
  unfold copy_within. rewrite slice_take by lia. cbn [mbind option_bind].
  rewrite (take_ge (drop n (buffer w))) by (rewrite length_drop; lia).
  rewrite splice_app by (rewrite length_drop; lia). cbn [mbind option_bind]. rewrite take_0. cbn [app].
  set (b := drop n (buffer w) ++ drop (0 + length (drop n (buffer w))) (buffer w)).
  assert (Hlb : length b = length (buffer w)) by (unfold b; rewrite length_app, !length_drop; lia).
  destruct (fill_background_spec 0 (width (info w)) (height (info w) - LINE) (height (info w)) (set_buffer w b))
    as (w' & -> & [Hi Hc Hr Hv Hl] & Hs); [cbn [set_buffer info buffer]; by rewrite Hlb|].
  cbn [mbind option_bind]. cbn [set_buffer info buffer column row cursor_visible] in *.
  eexists. split; [done|]. split; [done|]. split; [cbn; congruence|]. split; [done|].
  split; [cbn; by rewrite Hr|]. split; [done|]. intros x y k [Hx Hy] Hk.
  change (sample (set_row w' (row w' - LINE)) x y k) with (sample w' x y k). rewrite Hs by done.
  destruct (decide (y + LINE < height (info w))) as [Hlow|Hlow].
  - rewrite decide_False by lia. unfold sample. cbn [set_buffer buffer info].
    assert (Hoff : pixel_offset (info w) x (y + LINE) = n + pixel_offset (info w) x y).
    { unfold pixel_offset, n. lia. }
    pose proof (pixel_fits _ _ x (y + LINE) Hok ltac:(split; lia)) as Hfit. unfold depth in Hk.
    rewrite Hoff in *. unfold b. rewrite lookup_app_l by (rewrite length_drop; lia).
    rewrite lookup_drop. f_equal. lia.
  - rewrite decide_True by lia. done.
Qed.
