(* ===== verification/FramebufferText.v ===== *)
(** * FramebufferText: characters, lines and whole outputs

    Glyphs are drawn where they belong, lines break and scroll inside the screen,
    and no text can make the writer trap. *)

From S2P Require Import Prelude Str Console Framebuffer FramebufferPixels.
#[local] Open Scope nat_scope.

(** What the font crate documents: at one size all glyphs have the same width and
    the height asked for, intensities are bytes, and the question mark exists. *)
Class FontSpec `{Font} : Prop := {
  font_glyphs : forall c g, get_raster c = Some g ->
    raster_w g = get_raster_width /\ length (raster g) = FONT_HEIGHT /\
    Forall (fun r => length r = get_raster_width /\ Forall (is_uint 8) r) (raster g);
  font_fallback : is_Some (get_raster 0x3f%Z);
}.

(** ** Blending *)

Lemma blend_channel_spec (b f a : Z) :
  is_uint 8 b -> is_uint 8 f -> is_uint 8 a ->
  blend_channel b f a = Some ((b * (255 - a) + f * a) / 255)%Z /\
  (Z.min b f <= (b * (255 - a) + f * a) / 255 <= Z.max b f)%Z.
Proof.
  unfold is_uint. change (2 ^ 8)%Z with 256%Z. intros Hb Hf Ha. unfold blend_channel.
  assert (Hsum : (Z.min b f * 255 <= b * (255 - a) + f * a <= Z.max b f * 255)%Z) by nia.
  rewrite checked_sub_le by lia. cbn [mbind option_bind].
  rewrite !checked_mul_lt by (change (2 ^ 16)%Z with 65536%Z; nia). cbn [mbind option_bind].
  rewrite checked_add_lt by (change (2 ^ 16)%Z with 65536%Z; lia). cbn [mbind option_bind].
  assert (Hq : (Z.min b f <= (b * (255 - a) + f * a) / 255 <= Z.max b f)%Z).
  { split; [apply Z.div_le_lower_bound; lia|apply Z.div_le_upper_bound; lia]. }
  split; [|done]. f_equal. unfold wrap. apply Z.mod_small. change (2 ^ 8)%Z with 256%Z. lia.
Qed.

Lemma palette_u8 (i : nat) :
  i < 3 -> is_uint 8 (channel BACKGROUND i) /\ is_uint 8 (channel FOREGROUND i).
Proof. intros Hi. destruct i as [|[|[|i]]]; [repeat split; vm_compute; congruence..|lia]. Qed.

(** Blending never overflows its 16-bit arithmetic: each channel of the result
    lies between the two colours, and the ends of the scale give the background
    and the foreground themselves. *)
Lemma blend_between (intensity : Z) :
  is_uint 8 intensity ->
  exists rgb, blend BACKGROUND FOREGROUND intensity = Some rgb /\ length rgb = 3 /\
    (forall i : nat, (i < 3)%nat -> channel BACKGROUND i <= channel rgb i <= channel FOREGROUND i)%Z /\
    (intensity = 0%Z -> rgb = BACKGROUND) /\ (intensity = 255%Z -> rgb = FOREGROUND).
Proof.
  intros Ha. unfold blend.
  destruct (palette_u8 0 ltac:(lia)) as [B0 F0], (palette_u8 1 ltac:(lia)) as [B1 F1],
    (palette_u8 2 ltac:(lia)) as [B2 F2].
  destruct (blend_channel_spec _ _ _ B0 F0 Ha) as [-> R0], (blend_channel_spec _ _ _ B1 F1 Ha) as [-> R1],
    (blend_channel_spec _ _ _ B2 F2 Ha) as [-> R2].
  eexists. split; [done|]. split; [done|]. split.
  - intros [|[|[|i]]] Hi; [| | |lia]; unfold channel, BACKGROUND, FOREGROUND in *; cbn [nth] in *; lia.
  - split; intros ->; done.
Qed.

Lemma blend_between_witness :
  is_uint 8 128 /\ exists rgb, blend BACKGROUND FOREGROUND 128 = Some rgb /\ length rgb = 3.
Proof.
  assert (Hu : is_uint 8 128) by (split; simpl; lia). split; [exact Hu|].
  destruct (blend_between 128 Hu) as (rgb & Hb & Hl & _). exists rgb. split; [exact Hb|exact Hl].
Defined.

Lemma blend_total (a : Z) : is_uint 8 a -> exists rgb, blend BACKGROUND FOREGROUND a = Some rgb.
Proof.
  intros Ha. unfold blend.
  destruct (palette_u8 0 ltac:(lia)) as [B0 F0], (palette_u8 1 ltac:(lia)) as [B1 F1],
    (palette_u8 2 ltac:(lia)) as [B2 F2].
  destruct (blend_channel_spec _ _ _ B0 F0 Ha) as [-> _], (blend_channel_spec _ _ _ B1 F1 Ha) as [-> _],
    (blend_channel_spec _ _ _ B2 F2 Ha) as [-> _]. by eexists.
Qed.

(** ** Glyphs *)

Definition ink (intensity : Z) : list Z := default [] (blend BACKGROUND FOREGROUND intensity).

(** The pixels of a glyph drawn at column [c] and row [r]. *)
Definition glyph_row (c y : nat) (intensities : list Z) : list (nat * nat * list Z) :=
  imap (fun x i => (c + x, y, ink i)) intensities.

Definition glyph_pixels (c r : nat) (rows : list (list Z)) : list (nat * nat * list Z) :=
  concat (imap (fun y intensities => glyph_row c (r + y) intensities) rows).

Lemma write_pixel_position (w w' : FramebufferWriter) (x y : nat) (rgb : list Z) :
  write_pixel w x y rgb = Some w' -> column w' = column w /\ row w' = row w.
Proof.
  unfold write_pixel. case_decide; [by intros [= <-]|]. intros Hw.
  destruct (splice (buffer w) _ _) as [b|]; [|done]. cbn [mbind option_bind] in Hw.
  destruct (if decide _ then _ else _) as [b'|]; [|done]. cbn [mbind option_bind] in Hw. by simplify_eq.
Qed.

Lemma for_each_position {A : Type} (l : list A) (body : A -> FramebufferWriter -> option FramebufferWriter)
    (w w' : FramebufferWriter) :
  (forall x w w', body x w = Some w' -> column w' = column w /\ row w' = row w) ->
  for_each l body w = Some w' -> column w' = column w /\ row w' = row w.
Proof.
  intros Hbody. revert w. induction l as [|x l IH]; intros w Hrun; cbn [for_each] in Hrun; [by simplify_eq|].
  destruct (body x w) as [w1|] eqn:Hx; [|done]. cbn [mbind option_bind] in Hrun.
  destruct (Hbody _ _ _ Hx) as [<- <-]. by apply IH.
Qed.

Lemma for_each_congr {A : Type} (l : list A) (f g : A -> FramebufferWriter -> option FramebufferWriter)
    (c r : nat) (w : FramebufferWriter) :
  (forall x w, column w = c -> row w = r -> x ∈ l -> f x w = g x w) ->
  (forall x w w', g x w = Some w' -> column w' = column w /\ row w' = row w) ->
  column w = c -> row w = r -> for_each l f w = for_each l g w.
Proof.
  intros Hfg Hg. revert w. induction l as [|x l IH]; intros w Hc Hr; cbn [for_each]; [done|].
  rewrite Hfg by (done || apply list_elem_of_here). destruct (g x w) as [w1|] eqn:Hx; [|done].
  cbn [mbind option_bind]. destruct (Hg _ _ _ Hx) as [Hc1 Hr1].
  apply IH; [|congruence..]. intros y w2 H1 H2 Hin. apply Hfg; [done..|by apply list_elem_of_further].
Qed.

Lemma for_each_concat {A S : Type} (ll : list (list A)) (body : A -> S -> option S) (s : S) :
  for_each (concat ll) body s = for_each ll (fun l s => for_each l body s) s.
Proof.
  revert s. induction ll as [|l ll IH]; intros s; cbn [concat for_each]; [done|].
  rewrite for_each_app. destruct (for_each l body s); [apply IH|done].
Qed.

Lemma imap_pair_map {A B : Type} (f : nat -> A -> B) (l : list A) :
  imap f l = map (fun p => f p.1 p.2) (imap pair l).
Proof.
  change (map ?g ?m) with (g <$> m). apply list_eq. intros i.
  rewrite list_lookup_fmap, !list_lookup_imap. by destruct (l !! i).
Qed.

Lemma paint_position (p : nat * nat * list Z) (w w' : FramebufferWriter) :
  paint p w = Some w' -> column w' = column w /\ row w' = row w.
Proof. destruct p as [[x y] c]. apply write_pixel_position. Qed.

(** Drawing a glyph is painting its pixels. *)
Lemma draw_glyph_paint (rows : list (list Z)) (w : FramebufferWriter) :
  Forall (Forall (is_uint 8)) rows ->
  draw_glyph rows w = for_each (glyph_pixels (column w) (row w) rows) paint w.
Proof.
  intros Hu8. unfold draw_glyph, glyph_pixels. rewrite for_each_concat.
  rewrite (imap_pair_map (fun y ints => glyph_row (column w) (row w + y) ints) rows), for_each_map.
  remember (column w) as c eqn:Hcol. remember (row w) as r eqn:Hrow.
  apply (for_each_congr _ _ _ c r); [| |done|done].
  - intros [y ints] w1 Hc Hr Hin. cbn [fst snd]. unfold glyph_row.
    rewrite (imap_pair_map (fun x i => (c + x, r + y, ink i)) ints), for_each_map.
    apply elem_of_lookup_imap in Hin as (j & ints' & Heq & Hl). injection Heq as -> ->.
    pose proof (Forall_lookup_1 _ _ _ _ Hu8 Hl) as Hints.
    apply (for_each_congr _ _ _ c r); [| |done|done].
    + intros [x i] w2 Hc2 Hr2 Hin2. cbn [fst snd paint].
      apply elem_of_lookup_imap in Hin2 as (k & i' & Heq & Hl2). injection Heq as -> ->.
      destruct (blend_total i') as [rgb Hrgb]; [exact (Forall_lookup_1 _ _ _ _ Hints Hl2)|].
      unfold ink. rewrite Hrgb, Hc2, Hr2. done.
    + intros [x i]. apply paint_position.
  - intros [y ints] w1 w2 Hrun. eapply for_each_position; [|exact Hrun]. intros p. apply paint_position.
Qed.

Lemma glyph_row_places (c y : nat) (ints : list Z) :
  map place (glyph_row c y ints) = map (fun x => (x, y)) (seq c (length ints)).
Proof.
  unfold glyph_row. revert c. induction ints as [|i ints IH]; intros c; [done|]. cbn [imap length seq map].
  unfold place at 1. cbn [fst]. rewrite Nat.add_0_r. f_equal. rewrite <- (IH (S c)). f_equal.
  apply imap_ext. intros k x _. unfold compose. do 2 f_equal. lia.
Qed.

Lemma glyph_places (c r n : nat) (rows : list (list Z)) :
  Forall (fun l => length l = n) rows ->
  map place (glyph_pixels c r rows) = rectangle c (c + n) r (r + length rows).
Proof.
  intros Hn. unfold glyph_pixels, rectangle. replace (c + n - c) with n by lia.
  replace (r + length rows - r) with (length rows) by lia. revert r.
  induction Hn as [|l rows Hl _ IH]; intros r; [done|]. cbn [imap concat length seq flat_map].
  rewrite map_app, Nat.add_0_r, glyph_row_places, Hl. f_equal. rewrite <- IH. do 2 f_equal.
  apply imap_ext. intros k x _. unfold compose. f_equal. lia.
Qed.

Lemma elem_of_glyph (c r x y : nat) (rows : list (list Z)) (ints : list Z) (i : Z) :
  rows !! y = Some ints -> ints !! x = Some i -> (c + x, r + y, ink i) ∈ glyph_pixels c r rows.
Proof.
  intros Hy Hx. unfold glyph_pixels. apply list_elem_of_In, in_concat.
  exists (glyph_row c (r + y) ints). split; apply list_elem_of_In, elem_of_lookup_imap; eauto.
Qed.

(** ** The writer's invariant *)

Section Text.
Context `{FontSpec}.

(** The screen holds at least one character and one line inside its border, and
    the text position is on it. *)
Record writer_wf (w : FramebufferWriter) : Prop := {
  ww_screen : screen_ok (info w) (length (buffer w));
  ww_width : BORDER + (get_raster_width + LETTER_SPACING) + BORDER <= width (info w);
  ww_height : BORDER + FONT_HEIGHT + BORDER <= height (info w);
  ww_column : BORDER <= column w /\ column w + BORDER <= width (info w);
  ww_row : row w + FONT_HEIGHT + BORDER <= height (info w);
}.

Lemma writer_wf_same_frame (w w' : FramebufferWriter) : same_frame w w' -> writer_wf w -> writer_wf w'.
Proof. intros [Hi Hc Hr _ Hl] [? ? ? ? ?]. by constructor; rewrite ?Hi, ?Hc, ?Hr, ?Hl. Qed.

Lemma new_line_wf (w : FramebufferWriter) :
  writer_wf w ->
  exists w', new_line w = Some w' /\ writer_wf w' /\ info w' = info w /\
    length (buffer w') = length (buffer w) /\ column w' = BORDER /\ cursor_visible w' = cursor_visible w /\
    (row w' = row w + LINE /\ buffer w' = buffer w \/
     row w' = row w /\ height (info w) < row w + LINE + FONT_HEIGHT + BORDER /\
     forall x y k, on_screen (info w) x y -> k < depth (info w) ->
       sample w' x y k =
         if decide (y + LINE < height (info w)) then sample w x (y + LINE) k
         else encode_color (pixel_format (info w)) BACKGROUND !! k).
Proof.
  intros [Hs Hw Hh Hc Hr]. unfold new_line. cbv zeta. cbn [set_row set_column info row].
  change (FONT_HEIGHT + LINE_SPACING) with LINE. case_decide as Hlow.
  - destruct (scroll_spec (set_row (set_column w BORDER) (row w + LINE))) as
      (w' & -> & Hi & Hl & Hc' & Hr' & Hv & Hsample);
      [done|unfold LINE, FONT_HEIGHT, LINE_SPACING, BORDER in *; cbn; lia|].
    cbn [set_row set_column info buffer column row cursor_visible] in *.
    exists w'. split; [done|]. assert (Hrow : row w' = row w) by lia.
    split; [constructor; rewrite ?Hi, ?Hl, ?Hc', ?Hrow; (done || lia)|].
    do 4 (split; [done|]). right. split; [done|]. split; [done|].
    intros x y k Hon Hk. rewrite Hsample by done. done.
  - eexists. split; [done|]. cbn [set_row set_column info buffer column row cursor_visible].
    split; [constructor; cbn [set_row set_column info buffer column row]; (done || lia)|].
    do 4 (split; [done|]). by left.
Qed.

(** A line feed moves to the beginning of the next text line; when there is no
    room for one, the picture moves up by a line instead, with background below,
    and the text position stays on the last line.  Nothing traps. *)
Lemma new_line_scrolls (w : FramebufferWriter) :
  writer_wf w ->
  exists w', new_line w = Some w' /\ writer_wf w' /\ column w' = BORDER /\
    if decide (row w + LINE + FONT_HEIGHT + BORDER <= height (info w))
    then row w' = row w + LINE /\ buffer w' = buffer w
    else row w' = row w /\
      forall x y k, on_screen (info w) x y -> k < depth (info w) ->
        sample w' x y k =
          if decide (y + LINE < height (info w)) then sample w x (y + LINE) k
          else encode_color (pixel_format (info w)) BACKGROUND !! k.
Proof.
  intros Hwf. destruct (new_line_wf w Hwf) as (w' & Hn & Hwf' & Hi & _ & Hc & _ & Hcase).
  exists w'. split; [done|]. split; [done|]. split; [done|].
  pose proof (ww_row w' Hwf') as Hr. rewrite Hi in Hr.
  destruct Hcase as [[Hrow Hb]|(Hrow & Hlow & Hs)].
  - rewrite decide_True by lia. done.
  - rewrite decide_False by lia. done.
Qed.

Lemma raster_for_total (c : Z) : exists g, raster_for c = Some g /\ exists c', get_raster c' = Some g.
Proof.
  unfold raster_for. destruct (get_raster c) as [g|] eqn:Hg; [by eauto|].
  destruct font_fallback as [g Hf]. rewrite Hf. eauto.
Qed.

(** What drawing a glyph at the text position does. *)
Lemma draw_glyph_spec (c : Z) (g : RasterizedChar) (w : FramebufferWriter) :
  get_raster c = Some g -> screen_ok (info w) (length (buffer w)) ->
  exists w', draw_glyph (raster g) w = Some w' /\ same_frame w w' /\
    (forall x y k, on_screen (info w) x y -> k < depth (info w) ->
       ~ (column w <= x < column w + get_raster_width /\ row w <= y < row w + FONT_HEIGHT) ->
       sample w' x y k = sample w x y k) /\
    (forall x y k ints i, raster g !! y = Some ints -> ints !! x = Some i ->
       on_screen (info w) (column w + x) (row w + y) -> k < depth (info w) ->
       sample w' (column w + x) (row w + y) k = encode_color (pixel_format (info w)) (ink i) !! k).
Proof.
  intros Hg Hs. destruct (font_glyphs c g Hg) as (_ & Hh & Hrows).
  assert (Hu8 : Forall (Forall (is_uint 8)) (raster g)) by (eapply Forall_impl; [exact Hrows|]; by intros ? [_ ?]).
  assert (Hlen : Forall (fun l => length l = get_raster_width) (raster g))
    by (eapply Forall_impl; [exact Hrows|]; by intros ? [? _]).
  rewrite draw_glyph_paint by done.
  destruct (paint_all (glyph_pixels (column w) (row w) (raster g)) w Hs) as (w' & Hrun & Hsf & Hsame & Hnew).
  rewrite (glyph_places _ _ _ _ Hlen), Hh in Hsame, Hnew.
  exists w'. split; [done|]. split; [done|]. split.
  - intros x y k Hon Hk Hout. apply Hsame; [done..|]. by rewrite elem_of_rectangle.
  - intros x y k ints i Hy Hx Hon Hk. apply (Hnew (rectangle_NoDup _ _ _ _)); [done..|]. by eapply elem_of_glyph.
Qed.

Lemma write_character_wf (w : FramebufferWriter) (c : Z) :
  writer_wf w ->
  exists w', write_character w c = Some w' /\ writer_wf w' /\ info w' = info w /\
    length (buffer w') = length (buffer w).
Proof.
  intros Hwf. unfold write_character. destruct (c =? 0x0a)%Z.
  { destruct (new_line_wf w Hwf) as (w' & ? & ? & ? & ? & _). by eauto. }
  destruct (raster_for_total c) as (g & -> & c' & Hg). cbn [mbind option_bind].
  destruct (font_glyphs c' g Hg) as (Hw & _). rewrite Hw.
  assert (Hbreak : exists w1, (if decide (width (info w) < column w + (get_raster_width + LETTER_SPACING) + BORDER)
            then new_line w else Some w) = Some w1 /\ writer_wf w1 /\ info w1 = info w /\
            length (buffer w1) = length (buffer w) /\
            column w1 + (get_raster_width + LETTER_SPACING) + BORDER <= width (info w1)).
  { case_decide.
    - destruct (new_line_wf w Hwf) as (w1 & ? & Hwf1 & Hi & Hl & Hc & _). exists w1.
      do 4 (split; [done|]). rewrite Hc. apply (ww_width w1 Hwf1).
    - exists w. do 4 (split; [done|]). lia. }
  destruct Hbreak as (w1 & -> & Hwf1 & Hi1 & Hl1 & Hfit). cbn [mbind option_bind].
  destruct (draw_glyph_spec c' g w1 Hg (ww_screen w1 Hwf1)) as (w2 & -> & Hsf & _). cbn [mbind option_bind].
  pose proof (writer_wf_same_frame _ _ Hsf Hwf1) as [? ? ? ? ?]. destruct Hsf as [Hi2 Hc2 _ _ Hl2].
  eexists. split; [done|]. cbn [set_column info buffer]. rewrite Hi2, Hl2, Hc2 in *.
  split; [constructor; cbn [set_column info buffer column row]; rewrite ?Hi2, ?Hl2; (done || lia)|]. split; congruence.
Qed.

(** A character that fits: its glyph is drawn and the position moves. *)
Lemma write_character_fits (w : FramebufferWriter) (c : Z) :
  screen_ok (info w) (length (buffer w)) -> c <> 0x0a%Z ->
  column w + (get_raster_width + LETTER_SPACING) + BORDER <= width (info w) ->
  exists g c' w', raster_for c = Some g /\ get_raster c' = Some g /\
    draw_glyph (raster g) w = Some w' /\ same_frame w w' /\
    write_character w c = Some (set_column w' (column w + (get_raster_width + LETTER_SPACING))).
Proof.
  intros Hs Hc Hfit. unfold write_character. rewrite (proj2 (Z.eqb_neq _ _)) by done.
  destruct (raster_for_total c) as (g & Hras & c' & Hg). rewrite Hras. cbn [mbind option_bind].
  destruct (font_glyphs c' g Hg) as (Hw & _). rewrite Hw, decide_False by lia. cbn [mbind option_bind].
  destruct (draw_glyph_spec c' g w Hg Hs) as (w' & Hd & Hsf & _). rewrite Hd. cbn [mbind option_bind].
  exists g, c', w'. rewrite (sf_column _ _ Hsf). done.
Qed.

(** A character that fits on the line is drawn at the text position: the
    pixels of its cell show the glyph, blended between the two colours, or the
    question mark's for a character the font does not have; every other pixel
    keeps its colour, and the position advances by one cell. *)
Lemma write_character_draws (w : FramebufferWriter) (c : Z) :
  writer_wf w -> c <> 0x0a%Z ->
  column w + (get_raster_width + LETTER_SPACING) + BORDER <= width (info w) ->
  exists g w', raster_for c = Some g /\ write_character w c = Some w' /\ writer_wf w' /\
    row w' = row w /\ column w' = column w + get_raster_width + LETTER_SPACING /\
    forall x y k, on_screen (info w) x y -> k < depth (info w) ->
      sample w' x y k =
        if decide (column w <= x < column w + get_raster_width /\ row w <= y < row w + FONT_HEIGHT)
        then ints ← raster g !! (y - row w); i ← ints !! (x - column w);
             encode_color (pixel_format (info w)) (ink i) !! k
        else sample w x y k.
Proof.
  intros Hwf Hc Hfit. destruct (write_character_wf w c Hwf) as (w' & Hrun & Hwf' & _).
  destruct (write_character_fits w c (ww_screen w Hwf) Hc Hfit) as (g & c' & w2 & Hras & Hg & Hd & Hsf & Hrun').
  rewrite Hrun' in Hrun. injection Hrun as <-.
  exists g. eexists. split; [done|]. split; [exact Hrun'|]. split; [done|]. cbn [set_column row column].
  split; [apply Hsf|]. split; [lia|]. intros x y k Hon Hk.
  change (sample (set_column w2 _) x y k) with (sample w2 x y k).
  destruct (font_glyphs c' g Hg) as (_ & Hh & Hrows).
  destruct (draw_glyph_spec c' g w Hg (ww_screen w Hwf)) as (w3 & Hd3 & _ & Hsame & Hnew).
  rewrite Hd in Hd3. injection Hd3 as <-. case_decide as Hin; [|by apply Hsame].
  destruct (lookup_lt_is_Some_2 (raster g) (y - row w)) as [ints Hy]; [lia|].
  pose proof (Forall_lookup_1 _ _ _ _ Hrows Hy) as [Hlen _].
  destruct (lookup_lt_is_Some_2 ints (x - column w)) as [i Hx]; [lia|].
  rewrite Hy. cbn [mbind option_bind]. rewrite Hx. cbn [mbind option_bind].
  rewrite <- (Hnew (x - column w) (y - row w) k ints i Hy Hx); [|by replace (column w + _) with x by lia;
    replace (row w + _) with y by lia|done].
  f_equal; lia.
Qed.

(** ** Whole outputs *)

(** A step that keeps the invariant and the size of the screen. *)
Definition keeps (w : FramebufferWriter) (r : option FramebufferWriter) : Prop :=
  exists w', r = Some w' /\ writer_wf w' /\ info w' = info w /\ length (buffer w') = length (buffer w).

Lemma keeps_for_each {A : Type} (l : list A) (body : A -> FramebufferWriter -> option FramebufferWriter)
    (w : FramebufferWriter) :
  (forall x w, writer_wf w -> keeps w (body x w)) -> writer_wf w -> keeps w (for_each l body w).
Proof.
  intros Hbody. revert w. induction l as [|x l IH]; intros w Hwf; cbn [for_each]; [by exists w|].
  destruct (Hbody x w Hwf) as (w1 & -> & Hwf1 & Hi1 & Hl1). cbn [mbind option_bind].
  destruct (IH w1 Hwf1) as (w2 & -> & Hwf2 & Hi2 & Hl2). exists w2. split; [done|]. split; [done|]. split; congruence.
Qed.

Lemma keeps_column (w : FramebufferWriter) (c : nat) :
  writer_wf w -> BORDER <= c /\ c + BORDER <= width (info w) -> keeps w (Some (set_column w c)).
Proof. intros [? ? ? ? ?] Hc. eexists. split; [done|]. split; [by constructor|done]. Qed.

Lemma keeps_frame (w w' : FramebufferWriter) : writer_wf w -> same_frame w w' -> keeps w (Some w').
Proof.
  intros Hwf Hsf. exists w'. split; [done|]. split; [by eapply writer_wf_same_frame|]. split; apply Hsf.
Qed.

Lemma backspace_keeps (w : FramebufferWriter) : writer_wf w -> keeps w (backspace w).
Proof.
  intros Hwf. unfold backspace. cbv zeta. case_decide; [by exists w|].
  destruct (keeps_column w ((column w - (get_raster_width + LETTER_SPACING)) `max` BORDER) Hwf)
    as (w1 & [= <-] & Hwf1 & Hi & Hl); [destruct Hwf; lia|].
  destruct (fill_background_spec
    (column (set_column w ((column w - (get_raster_width + LETTER_SPACING)) `max` BORDER)))
    ((column (set_column w ((column w - (get_raster_width + LETTER_SPACING)) `max` BORDER)) +
      (get_raster_width + LETTER_SPACING)) `min` width (info w)) (row w)
    ((row w + FONT_HEIGHT) `min` height (info w)) _ (ww_screen _ Hwf1)) as (w2 & Hrun & Hsf & _).
  cbn [set_column info column row] in *. rewrite Hrun.
  by destruct (keeps_frame _ _ Hwf1 Hsf) as (w3 & [= <-] & ? & ? & ?); exists w2.
Qed.

Lemma write_str_keeps (s : str) (w : FramebufferWriter) : writer_wf w -> keeps w (write_str s w).
Proof.
  apply keeps_for_each. clear w. intros c w Hwf. unfold write_char.
  assert (Hc : forall c w, writer_wf w -> keeps w (write_character w c)) by (intros; by apply write_character_wf).
  destruct (c =? 0x0d)%Z; [apply keeps_column; [done|]; destruct Hwf; lia|].
  destruct (c =? 0x08)%Z; [by apply backspace_keeps|].
  destruct (c =? 0x09)%Z; [apply keeps_for_each; [auto|done]|]. destruct (is_ascii c); auto.
Qed.

Lemma toggled_keeps (w : FramebufferWriter) (v : bool) :
  writer_wf w -> keeps w (w' ← toggle_cursor w; Some (set_visible w' v)).
Proof.
  intros Hwf. destruct (toggle_cursor_spec w (ww_screen w Hwf)) as (w1 & -> & Hsf & _). cbn [mbind option_bind].
  destruct (writer_wf_same_frame _ _ Hsf Hwf) as [? ? ? ? ?]. eexists. split; [done|].
  split; [by constructor|]. split; apply Hsf.
Qed.

Lemma hide_cursor_keeps (w : FramebufferWriter) : writer_wf w -> keeps w (hide_cursor w).
Proof. intros Hwf. unfold hide_cursor. destruct (cursor_visible w); [by apply toggled_keeps|by exists w]. Qed.

Lemma clear_keeps (w : FramebufferWriter) : writer_wf w -> keeps w (clear w).
Proof.
  intros Hwf. unfold clear.
  destruct (fill_background_spec 0 (width (info w)) 0 (height (info w)) w (ww_screen w Hwf)) as (w1 & -> & Hsf & _).
  cbn [mbind option_bind]. destruct (writer_wf_same_frame _ _ Hsf Hwf) as [? ? ? ? ?].
  eexists. split; [done|]. split; [|split; apply Hsf].
  constructor; cbn [set_visible set_row set_column info buffer column row]; (done || lia).
Qed.

Lemma fb_action_keeps (a : action) (w : FramebufferWriter) : writer_wf w -> keeps w (fb_action a w).
Proof.
  intros Hwf. destruct a as [s|s| |]; cbn [fb_action].
  - unfold fb_print. destruct (hide_cursor_keeps w Hwf) as (w1 & -> & Hwf1 & Hi1 & Hl1). cbn [mbind option_bind].
    destruct (write_str_keeps s w1 Hwf1) as (w2 & -> & Hwf2 & Hi2 & Hl2). exists w2.
    split; [done|]. split; [done|]. split; congruence.
  - by exists w.
  - by apply clear_keeps.
  - unfold show_cursor. destruct (cursor_visible w); [by exists w|by apply toggled_keeps].
Qed.

(** C24: No output can crash the screen: whatever the kernel prints, text with any
    characters at all, clearing and showing the cursor, in any order, the writer
    never indexes outside the buffer, keeps its size, and keeps the text position
    inside the border. *)
Theorem output_never_panics (acts : list action) (w : FramebufferWriter) :
  writer_wf w ->
  exists w', for_each acts fb_action w = Some w' /\ writer_wf w' /\
    info w' = info w /\ length (buffer w') = length (buffer w).
Proof. apply keeps_for_each, fb_action_keeps. Qed.
End Text.
