(* ===== verification/FramebufferShell.v ===== *)
(** * FramebufferShell: the command line on the screen

    The shell redraws its line with carriage returns, which only works as long as
    the line never wraps; this file proves that on the smallest screen it
    supports, with the colour of every pixel afterwards, and instantiates the
    theorems about the screen. *)

From S2P Require Import Prelude Str Console Framebuffer FramebufferPixels FramebufferText History Shell.
From S2P Require Import ShellEditor.
#[local] Open Scope nat_scope.

Section Row.
Context `{FontSpec}.

Definition cell : nat := get_raster_width + LETTER_SPACING.

(** ** Pixels of a line of text *)

(** Byte [k] of the colour of point [x], [y] of a character's glyph. *)
Definition glyph_pixel (i : FrameBufferInfo) (c : Z) (x y k : nat) : option Z :=
  g ← raster_for c; ints ← raster g !! y; v ← ints !! x; encode_color (pixel_format i) (ink v) !! k.

(** The pixel lies in the glyph of cell [j] of the text row at [r]. *)
Definition in_glyph (r j x y : nat) : Prop :=
  BORDER + j * cell <= x < BORDER + j * cell + get_raster_width /\ r <= y < r + FONT_HEIGHT.

(** The pixel of a row at [r] where the text [s] starts in cell [n], over an older
    picture. *)
Fixpoint text_pixel (i : FrameBufferInfo) (r n : nat) (s : str) (x y k : nat) (old : option Z) : option Z :=
  match s with
  | [] => old
  | c :: s =>
      if decide (in_glyph r n x y) then glyph_pixel i c (x - (BORDER + n * cell)) (y - r) k
      else text_pixel i r (S n) s x y k old
  end.

(** The pixel is under the cursor. *)
Definition under_cursor (w : FramebufferWriter) (x y : nat) : Prop :=
  column w <= x < column w + CURSOR_WIDTH /\ row w <= y < row w + FONT_HEIGHT.

(** A pixel with the cursor taken off. *)
Definition bare_pixel (w : FramebufferWriter) (x y k : nat) : option Z :=
  if decide (cursor_visible w = true /\ under_cursor w x y) then not_w 8 <$> sample w x y k
  else sample w x y k.

Lemma glyphs_apart (r n j x y : nat) : in_glyph r n x y -> in_glyph r j x y -> n = j.
Proof.
  unfold in_glyph, cell, LETTER_SPACING. intros [Hn _] [Hj _].
  destruct (Nat.lt_trichotomy n j) as [Hlt|[?|Hlt]]; [|done|]; nia.
Qed.

Lemma text_pixel_cell (i : FrameBufferInfo) (r n : nat) (s : str) (x y k j : nat) (old : option Z) :
  in_glyph r j x y ->
  text_pixel i r n s x y k old =
    if decide (n <= j) then
      match s !! (j - n) with
      | Some c => glyph_pixel i c (x - (BORDER + j * cell)) (y - r) k
      | None => old
      end
    else old.
Proof.
  intros Hj. revert n. induction s as [|c s IH]; intros n; cbn [text_pixel].
  { by case_decide. }
  destruct (decide (in_glyph r n x y)) as [Hn|Hn].
  - rewrite (glyphs_apart _ _ _ _ _ Hn Hj), decide_True, Nat.sub_diag by lia. done.
  - assert (n <> j) by (intros ->; done). rewrite IH. destruct (decide (n <= j)).
    + rewrite decide_True by lia. replace (j - n) with (S (j - S n)) by lia. done.
    + by rewrite decide_False by lia.
Qed.

Lemma text_pixel_gap (i : FrameBufferInfo) (r n : nat) (s : str) (x y k : nat) (old : option Z) :
  (forall j, ~ in_glyph r j x y) -> text_pixel i r n s x y k old = old.
Proof.
  intros Hj. revert n. induction s as [|c s IH]; intros n; cbn [text_pixel]; [done|].
  by rewrite decide_False by auto.
Qed.

(** The cell of a pixel, if any. *)
Lemma in_glyph_dec (r x y : nat) : (exists j, in_glyph r j x y) \/ forall j, ~ in_glyph r j x y.
Proof.
  destruct (decide (in_glyph r ((x - BORDER) / cell) x y)) as [Hin|Hout]; [by left; eexists|]. right.
  intros j Hj. apply Hout. pose proof Hj as [Hx _]. replace ((x - BORDER) / cell) with j; [done|].
  apply (Nat.div_unique _ _ _ (x - BORDER - j * cell)); unfold cell, LETTER_SPACING in *; lia.
Qed.

(** Text written over the beginning of the same text changes nothing. *)
Lemma text_pixel_again (i : FrameBufferInfo) (r : nat) (s t : str) (x y k : nat) (old : option Z) :
  s `prefix_of` t ->
  text_pixel i r 0 s x y k (text_pixel i r 0 t x y k old) = text_pixel i r 0 t x y k old.
Proof.
  intros [t' ->]. destruct (in_glyph_dec r x y) as [[j Hj]|Hno]; [|by rewrite text_pixel_gap].
  rewrite !(text_pixel_cell _ _ _ _ _ _ _ j) by done. rewrite !decide_True by lia.
  destruct (s !! (j - 0)) eqn:Hs; [|done]. by rewrite (lookup_app_l_Some _ _ _ _ Hs).
Qed.

(** ** Writing it *)

(** The writer after the text [s] is written from cell [n] of its row. *)
Record drawn (n : nat) (s : str) (w w' : FramebufferWriter) : Prop := {
  dr_wf : writer_wf w';
  dr_info : info w' = info w;
  dr_row : row w' = row w;
  dr_column : column w' = BORDER + (n + length s) * cell;
  dr_visible : cursor_visible w' = false;
  dr_pixels : forall x y k, on_screen (info w) x y -> k < depth (info w) ->
    sample w' x y k = text_pixel (info w) (row w) n s x y k (sample w x y k);
}.

(** A hidden cursor in cell [n]. *)
Definition at_cell (n : nat) (w : FramebufferWriter) : Prop :=
  writer_wf w /\ column w = BORDER + n * cell /\ cursor_visible w = false.

Lemma drawn_nothing (n : nat) (w : FramebufferWriter) : at_cell n w -> drawn n [] w w.
Proof. intros (? & ? & ?). constructor; cbn [length]; rewrite ?Nat.add_0_r; done. Qed.

Lemma drawn_at (n : nat) (s : str) (w w' : FramebufferWriter) : drawn n s w w' -> at_cell (n + length s) w'.
Proof. by intros [? ? ? ? ? ?]. Qed.

Lemma drawn_trans (n : nat) (s1 s2 : str) (w1 w2 w3 : FramebufferWriter) :
  drawn n s1 w1 w2 -> drawn (n + length s1) s2 w2 w3 -> drawn n (s1 ++ s2) w1 w3.
Proof.
  intros [? Hi1 Hr1 ? ? Hp1] [? Hi2 Hr2 Hc ? Hp2].
  constructor; [done|congruence|congruence|rewrite Hc, length_app; lia|done|].
  intros x y k Hon Hk. rewrite Hp2, Hi1, Hr1, Hp1 by (by rewrite ?Hi1).
  destruct (in_glyph_dec (row w1) x y) as [[j Hj]|Hno]; [|by rewrite !text_pixel_gap].
  rewrite !(text_pixel_cell _ _ _ _ _ _ _ j) by done.
  destruct (decide (n <= j)); [|by rewrite decide_False by lia].
  destruct (decide (n + length s1 <= j)).
  - rewrite (lookup_ge_None_2 s1) by lia. rewrite lookup_app_r by lia.
    by replace (j - n - length s1) with (j - (n + length s1)) by lia.
  - by rewrite lookup_app_l by lia.
Qed.

Lemma write_char_draws (c : Z) (n : nat) (w : FramebufferWriter) :
  printable c -> at_cell n w -> BORDER + (n + 1) * cell + BORDER <= width (info w) ->
  exists w', write_char c w = Some w' /\ drawn n [c] w w'.
Proof.
  intros Hc (Hwf & Hcol & Hv) Hfit. unfold printable in Hc. unfold write_char, is_ascii.
  rewrite !(proj2 (Z.eqb_neq _ _)), (proj2 (Z.ltb_lt _ _)) by lia.
  assert (Hroom : column w + (get_raster_width + LETTER_SPACING) + BORDER <= width (info w)) by (fold cell; lia).
  destruct (write_character_draws w c Hwf ltac:(lia) Hroom) as (g & w' & Hg & Hrun & Hwf' & Hr & Hcol' & Hpix).
  destruct (write_character_fits w c (ww_screen w Hwf) ltac:(lia) Hroom) as (g' & c' & w2 & _ & _ & _ & Hsf & Hrun').
  pose proof Hrun' as Heq. rewrite Hrun in Heq. injection Heq as Heq. destruct Hsf as [Hi2 _ _ Hv2 _].
  exists w'. split; [done|]. constructor; [done|by subst w'|done|cbn [length]; unfold cell in *; lia|subst w'; cbn; congruence|].
  intros x y k Hon Hk. rewrite Hpix by done. cbn [text_pixel]. unfold in_glyph, glyph_pixel.
  rewrite Hcol, Hg. by destruct (decide _).
Qed.

Lemma write_str_draws (s : str) (n : nat) (w : FramebufferWriter) :
  Forall printable s -> at_cell n w -> BORDER + (n + length s) * cell + BORDER <= width (info w) ->
  exists w', write_str s w = Some w' /\ drawn n s w w'.
Proof.
  intros Hs. revert n w. induction Hs as [|c s Hc _ IH]; intros n w Hat Hfit; unfold write_str; cbn [for_each length] in *.
  { exists w. split; [done|]. by apply drawn_nothing. }
  destruct (write_char_draws c n w Hc Hat ltac:(nia)) as (w1 & -> & Hd1). cbn [mbind option_bind].
  destruct (IH (n + 1) w1 (drawn_at _ _ _ _ Hd1) ltac:(rewrite (dr_info _ _ _ _ Hd1); nia)) as (w2 & Hrun & Hd2).
  exists w2. split; [exact Hrun|]. exact (drawn_trans n [c] s _ _ _ Hd1 Hd2).
Qed.

Lemma prints_draw (strs : list str) (n : nat) (w : FramebufferWriter) :
  Forall (Forall printable) strs -> at_cell n w ->
  BORDER + (n + length (concat strs)) * cell + BORDER <= width (info w) ->
  exists w', for_each (map Print strs) fb_action w = Some w' /\ drawn n (concat strs) w w'.
Proof.
  intros Hs. revert n w. induction Hs as [|s strs Hs _ IH]; intros n w Hat Hfit; cbn [map for_each concat] in *.
  { exists w. split; [done|]. by apply drawn_nothing. }
  rewrite length_app in Hfit. pose proof Hat as (_ & _ & Hv).
  cbn [fb_action]. unfold fb_print, hide_cursor. rewrite Hv. cbn [mbind option_bind].
  destruct (write_str_draws s n w Hs Hat ltac:(nia)) as (w1 & -> & Hd1). cbn [mbind option_bind].
  destruct (IH (n + length s) w1 (drawn_at _ _ _ _ Hd1) ltac:(rewrite (dr_info _ _ _ _ Hd1); nia)) as (w2 & -> & Hd2).
  exists w2. split; [done|]. by eapply drawn_trans.
Qed.

(** Characters one by one, then blanks. *)
Lemma print_cells_draw (s : str) (b n : nat) (w : FramebufferWriter) :
  Forall printable s -> at_cell n w -> BORDER + (n + (length s + b)) * cell + BORDER <= width (info w) ->
  exists w', for_each (print_ascii s ++ replicate b (Print [0x20%Z])) fb_action w = Some w' /\
    drawn n (s ++ replicate b 0x20%Z) w w'.
Proof.
  intros Hs Hat Hfit. set (strs := map (fun c => [c]) (s ++ replicate b 0x20%Z)).
  assert (Hacts : print_ascii s ++ replicate b (Print [0x20%Z]) = map Print strs).
  { unfold strs. rewrite map_map, map_app. f_equal. symmetry. apply (fmap_replicate (fun c => Print [c])%Z b 0x20%Z). }
  assert (Hcat : concat strs = s ++ replicate b 0x20%Z).
  { unfold strs. generalize (s ++ replicate b 0x20%Z) as l. induction l as [|c l IH]; [done|]. simpl. by rewrite IH. }
  rewrite Hacts, <- Hcat. apply prints_draw; [|done|by rewrite Hcat, length_app, length_replicate].
  apply Forall_fmap, Forall_app. split.
  - eapply Forall_impl; [exact Hs|]. intros c Hc. by constructor.
  - apply Forall_replicate. constructor; [unfold printable; lia|constructor].
Qed.

(** ** The cursor *)

Lemma cursor_covers (w : FramebufferWriter) (x y k : nat) :
  screen_ok (info w) (length (buffer w)) -> on_screen (info w) x y -> k < depth (info w) ->
  covered (info w) (cursor_points w) (pixel_offset (info w) x y + k) <-> under_cursor w x y.
Proof.
  intros Hok Hon Hk. unfold covered, cursor_points, under_cursor. rewrite Exists_exists. split.
  - intros ([x' y'] & Hin & Hon' & Hb). apply elem_of_rectangle in Hin. cbn [fst snd] in *. unfold depth in *.
    destruct (pixels_apart _ _ x y x' y' k (pixel_offset (info w) x y + k - pixel_offset (info w) x' y') Hok Hon Hon')
      as (-> & -> & _); [lia..|]. lia.
  - intros Hu. exists (x, y). split; [|cbn [fst snd]; split; [done|lia]]. apply elem_of_rectangle. destruct Hon. lia.
Qed.

Lemma toggle_cursor_pixels (w w' : FramebufferWriter) (x y k : nat) :
  screen_ok (info w) (length (buffer w)) -> toggle_cursor w = Some w' ->
  on_screen (info w) x y -> k < depth (info w) ->
  sample w' x y k = if decide (under_cursor w x y) then not_w 8 <$> sample w x y k else sample w x y k.
Proof.
  intros Hok Hrun Hon Hk. destruct (toggle_cursor_spec w Hok) as (w1 & Hrun' & Hsf & Hb).
  rewrite Hrun in Hrun'. injection Hrun' as <-. unfold sample. rewrite (sf_info _ _ Hsf), Hb.
  pose proof (cursor_covers w x y k Hok Hon Hk). by repeat case_decide; try tauto.
Qed.

Lemma hide_cursor_bare (w : FramebufferWriter) :
  writer_wf w ->
  exists w', hide_cursor w = Some w' /\ writer_wf w' /\ info w' = info w /\ row w' = row w /\
    cursor_visible w' = false /\
    forall x y k, on_screen (info w) x y -> k < depth (info w) -> sample w' x y k = bare_pixel w x y k.
Proof.
  intros Hwf. pose proof (ww_screen w Hwf) as Hok. unfold hide_cursor, bare_pixel. destruct (cursor_visible w) eqn:Hv.
  - destruct (toggle_cursor_spec w (ww_screen w Hwf)) as (w1 & Hrun & Hsf & _). rewrite Hrun. cbn [mbind option_bind].
    eexists. split; [done|]. pose proof (writer_wf_same_frame _ _ Hsf Hwf) as [? ? ? ? ?].
    split; [by constructor|]. do 2 (split; [apply Hsf|]). split; [done|]. intros x y k Hon Hk.
    change (sample (set_visible w1 false) x y k) with (sample w1 x y k).
    rewrite (toggle_cursor_pixels w w1 x y k Hok Hrun Hon Hk). by repeat case_decide; try tauto.
  - exists w. do 5 (split; [done|]). intros x y k _ _. rewrite decide_False; [done|]. by intros [? _].
Qed.

Lemma show_cursor_pixels (w : FramebufferWriter) :
  writer_wf w -> cursor_visible w = false ->
  exists w', fb_action ShowCursor w = Some w' /\ writer_wf w' /\ info w' = info w /\ row w' = row w /\
    column w' = column w /\ cursor_visible w' = true /\
    forall x y k, on_screen (info w) x y -> k < depth (info w) -> bare_pixel w' x y k = sample w x y k.
Proof.
  intros Hwf Hv. pose proof (ww_screen w Hwf) as Hok. cbn [fb_action]. unfold show_cursor. rewrite Hv.
  destruct (toggle_cursor_spec w (ww_screen w Hwf)) as (w1 & Hrun & Hsf & _). rewrite Hrun. cbn [mbind option_bind].
  eexists. split; [done|]. pose proof (writer_wf_same_frame _ _ Hsf Hwf) as [? ? ? ? ?].
  split; [by constructor|]. do 3 (split; [apply Hsf|]). split; [done|]. intros x y k Hon Hk.
  unfold bare_pixel. change (sample (set_visible w1 true) x y k) with (sample w1 x y k).
  rewrite (toggle_cursor_pixels w w1 x y k Hok Hrun Hon Hk).
  unfold under_cursor. cbn [set_visible cursor_visible row column]. destruct Hsf as [_ -> -> _ _].
  fold (under_cursor w x y). destruct (decide (under_cursor w x y)) as [Hu|Hu].
  - rewrite decide_True by done. destruct (sample w x y k) as [z|]; [|done]. cbn. by rewrite not_w_involutive.
  - rewrite decide_False; [done|]. by intros [_ ?].
Qed.

(** Returning to the border and printing the prompt. *)
Lemma return_prompt (w : FramebufferWriter) :
  writer_wf w -> BORDER + 5 * cell + BORDER <= width (info w) ->
  exists w', fb_action (Print (0x0d :: lit "sol> ")%Z) w = Some w' /\ at_cell 5 w' /\
    info w' = info w /\ row w' = row w /\
    forall x y k, on_screen (info w) x y -> k < depth (info w) ->
      sample w' x y k = text_pixel (info w) (row w) 0 (lit "sol> ") x y k (bare_pixel w x y k).
Proof.
  intros Hwf Hfit. cbn [fb_action]. unfold fb_print.
  destruct (hide_cursor_bare w Hwf) as (w1 & -> & Hwf1 & Hi1 & Hr1 & Hv1 & Hp1). cbn [mbind option_bind].
  change (write_str (0x0d :: lit "sol> ")%Z w1) with (write_str (lit "sol> ") (set_column w1 BORDER)).
  assert (Hat : at_cell 0 (set_column w1 BORDER)).
  { destruct (keeps_column w1 BORDER Hwf1) as (w2 & [= <-] & ? & _); [split; [done|]; rewrite Hi1; lia|].
    split; [done|]. split; [cbn [set_column column]; lia|done]. }
  destruct (write_str_draws (lit "sol> ") 0 (set_column w1 BORDER)) as (w2 & -> & Hd); [|done|..].
  - apply (bool_decide_unpack _). by vm_compute.
  - cbn [set_column info]. rewrite Hi1. change (length (lit "sol> ")) with 5. lia.
  - exists w2. split; [done|]. split; [exact (drawn_at _ _ _ _ Hd)|]. destruct Hd as [_ Hi2 Hr2 _ _ Hp2].
    cbn [set_column info row] in *. split; [congruence|]. split; [congruence|]. intros x y k Hon Hk.
    rewrite Hp2 by (by rewrite Hi1). rewrite Hi1, Hr1. f_equal. exact (Hp1 x y k Hon Hk).
Qed.

(** Drawing a line, prompt included, from anywhere on the row. *)
Lemma line_draws (s : str) (b : nat) (w : FramebufferWriter) :
  writer_wf w -> Forall printable s -> BORDER + (5 + (length s + b)) * cell + BORDER <= width (info w) ->
  exists w', for_each (Print (0x0d :: lit "sol> ")%Z :: print_ascii s ++ replicate b (Print [0x20%Z])) fb_action w = Some w' /\
    at_cell (5 + (length s + b)) w' /\ info w' = info w /\ row w' = row w /\
    forall x y k, on_screen (info w) x y -> k < depth (info w) ->
      sample w' x y k =
        text_pixel (info w) (row w) 0 (lit "sol> " ++ s ++ replicate b 0x20%Z) x y k (bare_pixel w x y k).
Proof.
  intros Hwf Hs Hfit. cbn [for_each].
  destruct (return_prompt w Hwf ltac:(nia)) as (w1 & -> & Hat1 & Hi1 & Hr1 & Hp1). cbn [mbind option_bind].
  destruct (print_cells_draw s b 5 w1 Hs Hat1 ltac:(by rewrite Hi1)) as (w2 & -> & Hd). exists w2. split; [done|].
  pose proof (drawn_at _ _ _ _ Hd) as Hat2. rewrite length_app, length_replicate in Hat2. split; [exact Hat2|].
  destruct Hd as [_ Hi2 Hr2 _ _ Hp2]. split; [congruence|]. split; [congruence|]. intros x y k Hon Hk.
  rewrite Hp2, Hi1, Hr1, Hp1 by (by rewrite ?Hi1).
  destruct (in_glyph_dec (row w) x y) as [[j Hj]|Hno]; [|by rewrite !text_pixel_gap].
  rewrite !(text_pixel_cell _ _ _ _ _ _ _ j) by done. rewrite (decide_True (P := 0 <= j)), Nat.sub_0_r by lia.
  pose proof (eq_refl : length (lit "sol> ") = 5) as H5. destruct (decide (5 <= j)).
  - rewrite decide_True, (lookup_app_r (lit "sol> ")), H5 by lia.
    destruct (_ !! (j - 5)); [done|]. by rewrite lookup_ge_None_2 by lia.
  - by rewrite decide_True, (lookup_app_l (lit "sol> ")) by lia.
Qed.

(** C23: Redrawing the command line, pixel by pixel.  On a screen at least 1024 pixels
    wide, with a font at most ten pixels wide, the actions of [redraw] for a text of
    up to eighty printable characters over one of up to eighty never leave the row:
    afterwards the text position is on the same row, in the cell of the cursor, which
    is visible, and, the cursor taken off, the row shows the prompt, the text and a
    blank in every cell the older text had beyond it, each glyph in its own cell;
    every other pixel of the screen is what it was before with the old cursor taken
    off. *)
Theorem redraw_stays_on_row (w : FramebufferWriter) (line : list Z) (len cursor displayed : nat) :
  writer_wf w -> 1024 <= width (info w) -> get_raster_width <= 10 ->
  cursor <= len <= length line -> len <= 80 -> displayed <= 80 -> Forall printable (take len line) ->
  exists acts w', redraw line len cursor displayed = Some (len, acts) /\
    for_each acts fb_action w = Some w' /\ writer_wf w' /\ info w' = info w /\
    row w' = row w /\ column w' = BORDER + (5 + cursor) * (get_raster_width + LETTER_SPACING) /\
    cursor_visible w' = true /\
    forall x y k, on_screen (info w) x y -> k < depth (info w) ->
      bare_pixel w' x y k =
        text_pixel (info w) (row w) 0 (lit "sol> " ++ take len line ++ replicate (displayed - len) 0x20%Z)
          x y k (bare_pixel w x y k).
Proof.
  intros Hwf Hwidth Hfont [Hcl Hll] Hl Hs Hp. unfold redraw.
  rewrite !slice_take by lia. rewrite !Nat.sub_0_r, !drop_0. cbn [mbind option_bind].
  eexists. fold cell.
  assert (Hroom : forall n, n <= 85 -> BORDER + n * cell + BORDER <= width (info w)).
  { assert (cell <= 11) by (unfold cell, LETTER_SPACING; lia). unfold BORDER. nia. }
  set (b := displayed - len). set (s := take len line) in *.
  assert (Hlen : length s = len) by (unfold s; rewrite length_take; lia).
  assert (Hbefore : take cursor line = take cursor s) by (unfold s; rewrite take_take; f_equal; lia).
  rewrite Hbefore. set (t := take cursor s).
  assert (Htl : length t = cursor) by (unfold t; rewrite length_take; lia).
  destruct (line_draws s b w Hwf Hp (Hroom (5 + (length s + b)) ltac:(unfold b; lia))) as (w1 & Hrun1 & (Hwf1 & _ & Hv1) & Hi1 & Hr1 & Hp1).
  destruct (line_draws t 0 w1 Hwf1) as (w2 & Hrun2 & (Hwf2 & Hc2 & Hv2) & Hi2 & Hr2 & Hp2).
  { by apply Forall_take. }
  { rewrite Hi1. apply Hroom. lia. }
  destruct (show_cursor_pixels w2 Hwf2 Hv2) as (w3 & Hrun3 & Hwf3 & Hi3 & Hr3 & Hc3 & Hv3 & Hp3).
  exists w3. split; [done|]. split.
  { cbn [replicate] in Hrun2. rewrite app_nil_r in Hrun2.
    change (for_each ((Print (0x0d :: lit "sol> ")%Z :: print_ascii s) ++
      replicate b (Print [0x20%Z]) ++ (Print (0x0d :: lit "sol> ")%Z :: print_ascii t) ++ [ShowCursor])
      fb_action w = Some w3).
    rewrite app_assoc, for_each_app, <- (app_comm_cons (print_ascii s)), Hrun1. cbn [mbind option_bind]. rewrite for_each_app, Hrun2.
    cbn [mbind option_bind for_each]. by rewrite Hrun3. }
  split; [done|]. split; [congruence|]. split; [congruence|]. split; [rewrite Hc3, Hc2, Htl; lia|]. split; [done|].
  intros x y k Hon Hk. rewrite Hp3, Hp2 by (by rewrite ?Hi2, ?Hi1). rewrite Hi1, Hr1.
  assert (Hbare : bare_pixel w1 x y k = sample w1 x y k).
  { unfold bare_pixel. rewrite decide_False; [done|]. rewrite Hv1. by intros [? _]. }
  rewrite Hbare, Hp1 by done. apply text_pixel_again. apply prefix_app. cbn [replicate]. rewrite app_nil_r.
  apply prefix_app_r. apply prefix_take.
Qed.
End Row.

(** ** A small screen *)

(** A font whose every glyph is a solid block. *)
#[export] Instance block_font : Font := {
  get_raster_width := 9;
  get_raster c := if (c <? 0x80)%Z
                  then Some {| raster_w := 9; raster := replicate 16 (replicate 9 255%Z) |} else None;
}.

#[export] Instance block_font_spec : FontSpec.
Proof.
  constructor; [|by eexists]. intros c g. simpl. destruct (c <? 0x80)%Z; [|done]. intros [= <-].
  split; [done|]. split; [done|]. apply (bool_decide_unpack _). by vm_compute.
Qed.

Definition small_info : FrameBufferInfo :=
  {| width := 40; height := 40; pixel_format := Bgr; bytes_per_pixel := 4; stride := 48 |}.

Definition small_writer : FramebufferWriter := writer_new (replicate (40 * 48 * 4) 7%Z) small_info.

Lemma small_screen_ok : screen_ok (info small_writer) (length (buffer small_writer)).
Proof. constructor; apply Nat.leb_le; by vm_compute. Qed.

Lemma small_writer_wf : writer_wf small_writer.
Proof. constructor; [apply small_screen_ok|..]; repeat split; apply Nat.leb_le; by vm_compute. Qed.

Lemma clear_spec_witness :
  exists w', clear small_writer = Some w' /\ sample w' 39 39 0 = Some 0x20%Z.
Proof.
  destruct (clear_spec small_writer small_screen_ok) as (w' & Hc & _ & _ & _ & _ & _ & Hs).
  exists w'. split; [exact Hc|]. rewrite Hs; [reflexivity|split; cbn; lia|cbn; lia].
Defined.

Lemma cursor_is_reversible_witness :
  exists w1, show_cursor small_writer = Some w1 /\ hide_cursor w1 = Some small_writer.
Proof.
  destruct (cursor_is_reversible small_writer small_screen_ok eq_refl) as (w1 & Hs & _ & _ & Hh & _).
  exists w1. split; [exact Hs|exact Hh].
Defined.

Lemma new_line_scrolls_witness :
  exists w', new_line small_writer = Some w' /\ row w' = 8 /\ sample w' 3 2 1 = Some 7%Z.
Proof.
  destruct (new_line_scrolls small_writer small_writer_wf) as (w' & Hn & _ & _ & Hcase).
  rewrite decide_False in Hcase by (cbn; lia). destruct Hcase as [Hr Hs].
  exists w'. split; [exact Hn|]. split; [exact Hr|].
  rewrite Hs; [vm_compute; reflexivity|split; cbn; lia|cbn; lia].
Defined.

Lemma write_character_draws_witness :
  exists w', write_character small_writer 0x41%Z = Some w' /\ column w' = 18 /\
    sample w' 10 10 0 = Some 0xf3%Z.
Proof.
  assert (Hfit : column small_writer + (get_raster_width + LETTER_SPACING) + BORDER <= width (info small_writer))
    by (apply Nat.leb_le; reflexivity).
  destruct (write_character_draws small_writer 0x41%Z small_writer_wf ltac:(lia) Hfit) as (g & w' & Hg & Hw & _ & _ & Hc & Hs).
  exists w'. split; [exact Hw|]. split; [exact Hc|].
  vm_compute in Hg. injection Hg as <-. rewrite Hs; [vm_compute; reflexivity|split; cbn; lia|cbn; lia].
Defined.

Lemma output_never_panics_witness :
  writer_wf small_writer /\
  exists w', for_each [Print (lit "hi"); ShowCursor; ClearScreen] fb_action small_writer = Some w'.
Proof.
  split; [exact small_writer_wf|].
  destruct (output_never_panics [Print (lit "hi"); ShowCursor; ClearScreen] small_writer small_writer_wf)
    as (w' & Hw & _).
  exists w'. exact Hw.
Defined.

(** The smallest screen the shell supports. *)
Definition wide_writer : FramebufferWriter :=
  writer_new (replicate (32 * 1024) 0%Z)
    {| width := 1024; height := 32; pixel_format := U8; bytes_per_pixel := 1; stride := 1024 |}.

Lemma wide_writer_wf : writer_wf wide_writer.
Proof.
  constructor; [constructor|..]; repeat split; apply Nat.leb_le; by vm_compute.
Qed.

Lemma redraw_stays_on_row_witness :
  exists acts w', redraw (lit "ls -l") 2 1 80 = Some (2, acts) /\
    for_each acts fb_action wide_writer = Some w' /\ column w' = 68 /\ row w' = 8 /\
    bare_pixel w' 60 10 0 = text_pixel (info wide_writer) 8 0 (lit "sol> ls" ++ replicate 78 0x20%Z) 60 10 0 (Some 0%Z).
Proof.
  destruct (redraw_stays_on_row wide_writer (lit "ls -l") 2 1 80 wide_writer_wf)
    as (acts & w' & Hr & Hw & _ & _ & Hrow & Hc & _ & Hpix).
  - apply Nat.leb_le. reflexivity.
  - apply Nat.leb_le. reflexivity.
  - cbn. lia.
  - lia.
  - lia.
  - apply (bool_decide_unpack _). by vm_compute.
  - exists acts, w'. split; [exact Hr|]. split; [exact Hw|]. split; [exact Hc|]. split; [exact Hrow|].
    rewrite (Hpix 60 10 0); [vm_compute; reflexivity|split; apply Nat.ltb_lt; reflexivity|apply Nat.ltb_lt; reflexivity].
Defined.
