(* ===== verification/Terminal.v ===== *)
(** * Terminal: the two sinks of the console

    Runs the output of [kernel/src/console.rs]: a [print!] writes the serial line,
    which is a conversation with the UART's ports ([Serial.v]), and then the screen,
    which stores pixels ([Framebuffer.v]) and may trap; the other actions reach one
    of the two.  The locks around the sinks are in [Faults.v]; here nobody else holds
    them, as during the whole of bring-up. *)

From S2P Require Import Prelude Str Ports Console Serial Framebuffer FramebufferPixels FramebufferText.
#[local] Open Scope Z_scope.

(** The ports, and what [WRITER] holds. *)
Record terminal (M : Type) : Type := { ports : machine M; writer : option FramebufferWriter }.

Arguments ports {M} _.
Arguments writer {M} _.
Arguments Build_terminal {M} _ _.

(** The text of an action that goes to the serial line. *)
Definition serial_share (a : action) : str := match a with Print s | SerialPrint s => s | _ => [] end.

Definition serial_text (acts : list action) : str := concat (map serial_share acts).

Lemma serial_text_app (l1 l2 : list action) : serial_text (l1 ++ l2) = serial_text l1 ++ serial_text l2.
Proof. unfold serial_text. by rewrite map_app, concat_app. Qed.

Section Terminal.
Context `{Font} {M : Type} `{Hardware M}.

Definition set_ports (t : terminal M) (m : machine M) : terminal M := {| ports := m; writer := writer t |}.

(** [serial::print], its lock free. *)
Definition serial_print (text : str) (t : terminal M) : terminal M :=
  set_ports t (serial_write_str text (ports t)).2.

(** [if let Some(writer) = WRITER.lock().as_mut() { ... }]; [None] is a panic. *)
Definition with_writer (operation : FramebufferWriter -> option FramebufferWriter) (t : terminal M)
  : option (terminal M) :=
  match writer t with
  | None => Some t
  | Some w => w ← operation w; Some {| ports := ports t; writer := Some w |}
  end.

(** [console::print] *)
Definition console_print (text : str) (t : terminal M) : option (terminal M) :=
  with_writer (fb_print text) (serial_print text t).

Definition console_action (a : action) (t : terminal M) : option (terminal M) :=
  match a with
  | Print text => console_print text t
  | SerialPrint text => Some (serial_print text t)
  | ClearScreen => with_writer clear t
  | ShowCursor => with_writer show_cursor t
  end.

Definition console_all (acts : list action) (t : terminal M) : option (terminal M) :=
  for_each acts console_action t.
End Terminal.

(** ** What an output leaves behind *)

Section Output.
Context `{FontSpec} {M : Type} `{Hardware M}.

(** A writer, where there is one, that no output makes trap. *)
Definition terminal_wf (t : terminal M) : Prop := forall w, writer t = Some w -> writer_wf w.

(** The actions have been carried out between two terminals: the text has been sent,
    less what a busy line refused, and the screen has been drawn on. *)
Record printed (acts : list action) (t t' : terminal M) : Prop := {
  pr_wf : terminal_wf t';
  pr_serial : exists evs, log (ports t') = log (ports t) ++ evs /\ transmits M (crlf (encode (serial_text acts))) evs;
  pr_screen : writer t' = (w ← writer t; for_each acts fb_action w);
  pr_present : is_Some (writer t) -> is_Some (writer t');
}.

Lemma crlf_app (b1 b2 : list Z) : crlf (b1 ++ b2) = crlf b1 ++ crlf b2.
Proof. apply flat_map_app. Qed.

Lemma printed_nil (t : terminal M) : terminal_wf t -> printed [] t t.
Proof.
  intros Hwf. constructor; [done|exists []; rewrite app_nil_r; split; [done|apply transmits_nil]| |done].
  by destruct (writer t).
Qed.

Lemma printed_app (a1 a2 : list action) (t1 t2 t3 : terminal M) :
  printed a1 t1 t2 -> printed a2 t2 t3 -> printed (a1 ++ a2) t1 t3.
Proof.
  intros [_ (e1 & L1 & S1) W1 P1] [Hwf (e2 & L2 & S2) W2 P2]. constructor; [done| | |by auto].
  - exists (e1 ++ e2). rewrite L2, L1, app_assoc. split; [done|].
    rewrite serial_text_app, encode_app, crlf_app. by apply transmits_app.
  - rewrite W2, W1. destruct (writer t1) as [w|]; [|done]. cbn. rewrite for_each_app.
    by destruct (for_each a1 fb_action w).
Qed.

Lemma serial_print_sends (text : str) (t : terminal M) :
  exists evs, log (ports (serial_print text t)) = log (ports t) ++ evs /\ transmits M (crlf (encode text)) evs.
Proof. exact (serial_write_str_transmits text (ports t)). Qed.

Lemma with_writer_runs (a : action) (t : terminal M) :
  terminal_wf t ->
  exists w', with_writer (fb_action a) t = Some {| ports := ports t; writer := w' |} /\
    (forall w, w' = Some w -> writer_wf w) /\ (is_Some (writer t) -> is_Some w') /\
    w' = (w ← writer t; fb_action a w).
Proof.
  intros Hwf. unfold with_writer. destruct (writer t) as [w|] eqn:Hw; [|by exists None; destruct t; simplify_eq/=].
  destruct (keeps_for_each [a] fb_action w fb_action_keeps (Hwf w Hw)) as (w1 & Hrun & Hwf1 & _).
  cbn [for_each] in Hrun. destruct (fb_action a w) as [w2|] eqn:Ha; [|done]. cbn [mbind option_bind] in Hrun |- *.
  injection Hrun as ->. exists (Some w1). split; [done|]. split; [by intros ? [= <-]|]. by cbn; split.
Qed.

Lemma console_action_printed (a : action) (t : terminal M) :
  terminal_wf t -> exists t', console_action a t = Some t' /\ printed [a] t t'.
Proof.
  intros Hwf. unfold console_action.
  assert (Hone : forall t' : terminal M, (w ← writer t; fb_action a w) = writer t' ->
            writer t' = (w ← writer t; for_each [a] fb_action w)).
  { intros t' <-. destruct (writer t) as [w|]; [|done]. cbn. by destruct (fb_action a w). }
  assert (Hquiet : serial_text [a] = [] -> forall w', exists evs,
            log (ports {| ports := ports t; writer := w' |}) = log (ports t) ++ evs /\
            transmits M (crlf (encode (serial_text [a]))) evs).
  { intros Hs w'. rewrite Hs. exists []. rewrite app_nil_r. split; [done|apply transmits_nil]. }
  destruct a as [s|s| |].
  - destruct (with_writer_runs (Print s) (serial_print s t) Hwf) as (w' & Hrun & Hwf' & Hsome & Hw).
    eexists. split; [exact Hrun|]. constructor; [done| |by apply Hone|done].
    destruct (serial_print_sends s t) as (evs & Hl & Hs). exists evs. split; [done|].
    unfold serial_text. cbn. by rewrite app_nil_r.
  - eexists. split; [done|]. constructor; [done| | |done].
    + destruct (serial_print_sends s t) as (evs & Hl & Hs). exists evs. split; [done|].
      unfold serial_text. cbn. by rewrite app_nil_r.
    + cbn. by destruct (writer t).
  - destruct (with_writer_runs ClearScreen t Hwf) as (w' & Hrun & Hwf' & Hsome & Hw).
    eexists. split; [exact Hrun|]. constructor; [done|by apply Hquiet|by apply Hone|done].
  - destruct (with_writer_runs ShowCursor t Hwf) as (w' & Hrun & Hwf' & Hsome & Hw).
    eexists. split; [exact Hrun|]. constructor; [done|by apply Hquiet|by apply Hone|done].
Qed.

(** No output traps on a sound writer. *)
Lemma console_all_printed (acts : list action) (t : terminal M) :
  terminal_wf t -> exists t', console_all acts t = Some t' /\ printed acts t t'.
Proof.
  revert t. induction acts as [|a acts IH]; intros t Hwf; cbn [console_all for_each].
  { exists t. split; [done|]. by apply printed_nil. }
  destruct (console_action_printed a t Hwf) as (t1 & -> & Hp1). cbn [mbind option_bind].
  destruct (IH t1 (pr_wf _ _ _ Hp1)) as (t2 & Hrun & Hp2). exists t2. split; [exact Hrun|].
  exact (printed_app [a] acts t t1 t2 Hp1 Hp2).
Qed.

End Output.
