(* ===== verification/Interrupts.v ===== *)
(** * Interrupts: the vector table and the handlers

    Models [kernel/src/interrupts.rs].  The text of a stack frame or of a page
    fault's error code is formatted by the [x86_64] crate and is a parameter. *)

From S2P Require Import Prelude Str Ports Keyboard Console Timer Pic.
#[local] Open Scope Z_scope.

Inductive handler : Type :=
| breakpoint_handler
| double_fault_handler
| general_protection_fault_handler
| page_fault_handler
| timer_interrupt_handler
| keyboard_interrupt_handler.

(** [idt[vector].set_handler_fn(...)], the later of two settings of one vector
    winning; the second component is the stack index, if any. *)
Definition set_handler (v : Z) (h : handler) (ist : option Z) (idt : Z -> option (handler * option Z))
  : Z -> option (handler * option Z) :=
  fun x => if x =? v then Some (h, ist) else idt x.

Definition BREAKPOINT : Z := 3.
Definition DOUBLE_FAULT : Z := 8.
Definition GENERAL_PROTECTION : Z := 13.
Definition PAGE_FAULT : Z := 14.
Definition DOUBLE_FAULT_IST_INDEX : Z := 0.

Definition IDT : Z -> option (handler * option Z) :=
  set_handler DOUBLE_FAULT double_fault_handler (Some DOUBLE_FAULT_IST_INDEX) (
  set_handler PAGE_FAULT page_fault_handler None (
  set_handler GENERAL_PROTECTION general_protection_fault_handler None (
  set_handler KEYBOARD_INTERRUPT_ID keyboard_interrupt_handler None (
  set_handler TIMER_INTERRUPT_ID timer_interrupt_handler None (
  set_handler BREAKPOINT breakpoint_handler None (fun _ => None)))))).

(** [{:#x}] *)
Definition hex (z : Z) : str := lit "0x" ++ map digit (rev (digits 16 16 z)).

(** ** Exceptions: what is printed before the CPU stops *)

Definition serial_println (s : str) : list action := [SerialPrint (s ++ [0x0a])].

Definition breakpoint_text (instruction_pointer : str) : list action :=
  serial_println (lit "EXCEPTION_BREAKPOINT_OK ip=" ++ instruction_pointer).

Definition general_protection_fault_text (stack_frame : str) (error_code : Z) : list action :=
  serial_println (lit "EXCEPTION_GENERAL_PROTECTION_FAULT") ++
  println (0x0a :: lit "GENERAL PROTECTION FAULT") ++
  println (lit "error code: " ++ hex error_code) ++
  println stack_frame.

Definition page_fault_text (stack_frame error_code : str) (cr2 : Z) : list action :=
  serial_println (lit "EXCEPTION_PAGE_FAULT") ++
  println (0x0a :: lit "PAGE FAULT") ++
  println (lit "address: " ++ hex cr2) ++
  println (lit "error: " ++ error_code) ++
  println stack_frame.

Definition double_fault_text (stack_frame : str) (error_code : Z) : list action :=
  serial_println (lit "EXCEPTION_DOUBLE_FAULT_IST_OK") ++
  println (0x0a :: lit "DOUBLE FAULT (dedicated IST stack)") ++
  println (lit "error code: " ++ hex error_code) ++
  println stack_frame.

(** ** Device interrupts *)

Section Device.
Context {M : Type} `{Hardware M}.

(** Everything up to [interrupts::enable()]. *)
Definition initialize_hardware : IO M unit :=
  _ ← pic_initialize;
  timer_initialize.

Definition timer_interrupt (TICKS : Z) : IO M Z :=
  let TICKS := tick TICKS in
  _ ← end_of_interrupt TIMER_INTERRUPT_ID;
  mret TICKS.

(** [None] is a panic of the decoder. *)
Definition keyboard_interrupt (k : Keyboard) : IO M (option Keyboard) :=
  scancode ← in8 0x60;
  let k := handle_scancode k scancode in
  _ ← end_of_interrupt KEYBOARD_INTERRUPT_ID;
  mret k.
End Device.

(** What the writes of [initialize_hardware] leave in the controllers, whatever was in
    them, and that it talks to nothing but the controllers and the timer. *)
Lemma initialize_hardware_pics {M : Type} `{Hardware M} (m : machine M) :
  exists evs, log (initialize_hardware m).2 = log m ++ evs /\
    Forall (fun w => w.1 ∈ [0x20; 0x21; 0xa0; 0xa1; 0x40; 0x43]) (writes evs) /\
    forall pics, let pics' := fold_left pic_write (writes evs) pics in
      forall irq, 0 <= irq < 16 -> vector pics' irq = 32 + irq /\ unmasked pics' irq = (irq <? 2).
Proof.
  eexists. split.
  { unfold initialize_hardware, pic_initialize, timer_initialize, write_port, mbind, IO_bind, out8. simpl.
    rewrite <- !app_assoc. done. }
  split; [apply (bool_decide_unpack _); by vm_compute|].
  intros [c1 c2] pics' irq Hirq. split.
  - unfold vector. subst pics'. simpl. unfold PIC_2_OFFSET, PIC_1_OFFSET. destruct (Z.ltb_spec irq 8); lia.
  - assert (Hall : Forall (fun irq => unmasked pics' irq = (irq <? 2)) (seqZ 0 16)) by (repeat constructor).
    rewrite Forall_seqZ in Hall. apply Hall. lia.
Qed.

(** The table at the vectors of the request lines. *)
Lemma IDT_requests (irq : Z) :
  0 <= irq < 16 ->
  IDT (32 + irq) = if irq =? 0 then Some (timer_interrupt_handler, None)
                   else if irq =? 1 then Some (keyboard_interrupt_handler, None) else None.
Proof.
  intros Hirq. unfold IDT, set_handler, DOUBLE_FAULT, PAGE_FAULT, GENERAL_PROTECTION, BREAKPOINT,
    KEYBOARD_INTERRUPT_ID, TIMER_INTERRUPT_ID, PIC_1_OFFSET.
  destruct (Z.eqb_spec irq 0) as [->|]; [done|]. destruct (Z.eqb_spec irq 1) as [->|]; [done|]. by decide_tests.
Qed.

(** Controllers in which exactly the lines with a handler are unmasked. *)
Definition serves (pics : i8259 * i8259) : Prop :=
  (forall irq, 0 <= irq < 16 -> (unmasked pics irq = true <-> IDT (vector pics irq) <> None)) /\
  IDT (vector pics 0) = Some (timer_interrupt_handler, None) /\
  IDT (vector pics 1) = Some (keyboard_interrupt_handler, None) /\
  (forall irq, 0 <= irq < 16 -> 32 <= vector pics irq).

Lemma initialized_serves (pics : i8259 * i8259) :
  (forall irq, 0 <= irq < 16 -> vector pics irq = 32 + irq /\ unmasked pics irq = (irq <? 2)) -> serves pics.
Proof.
  intros Hp. assert (Hv : forall irq, 0 <= irq < 16 -> vector pics irq = 32 + irq) by (intros; by apply Hp).
  split; [|split; [|split]].
  - intros irq Hirq. destruct (Hp irq Hirq) as [-> ->]. rewrite IDT_requests by done.
    destruct (Z.ltb_spec irq 2); destruct (Z.eqb_spec irq 0); destruct (Z.eqb_spec irq 1); split; (done || lia).
  - by rewrite Hv, IDT_requests.
  - by rewrite Hv, IDT_requests.
  - intros irq Hirq. rewrite Hv by done. lia.
Qed.

(** C33: Every interrupt that can arrive has its handler: after
    [initialize_hardware], whatever state the controllers were in, a request line
    is unmasked exactly if the table has a device handler at its vector; the timer
    and the keyboard have their own, no request shares a vector with an exception,
    and the double fault alone runs on the dedicated stack. *)
Theorem interrupts_have_handlers {M : Type} `{Hardware M} (m : machine M) (pics : i8259 * i8259) :
  exists evs, log (initialize_hardware m).2 = log m ++ evs /\
    let pics' := fold_left pic_write (writes evs) pics in
    (forall irq, 0 <= irq < 16 ->
       (unmasked pics' irq = true <-> IDT (vector pics' irq) <> None)) /\
    IDT (vector pics' 0) = Some (timer_interrupt_handler, None) /\
    IDT (vector pics' 1) = Some (keyboard_interrupt_handler, None) /\
    (forall irq, 0 <= irq < 16 -> 32 <= vector pics' irq) /\
    (forall v h ist, IDT v = Some (h, Some ist) <-> v = DOUBLE_FAULT /\ h = double_fault_handler /\ ist = 0).
Proof.
  destruct (initialize_hardware_pics m) as (evs & Hl & _ & Hp). exists evs. split; [done|].
  destruct (initialized_serves _ (Hp pics)) as (H1 & H2 & H3 & H4). split; [done|]. split; [done|]. split; [done|].
  split; [done|]. intros v h ist. unfold IDT, set_handler. destruct (Z.eqb_spec v DOUBLE_FAULT) as [->|Hne].
  - split; [by intros [= <- <-]|by intros (_ & -> & ->)].
  - split; [|by intros [? _]]. repeat case_match; by intros [=].
Qed.
