(* ===== verification/Gdt.v ===== *)
(** * Gdt: the segments and the double-fault stack

    Models [kernel/src/gdt.rs].  The descriptor table, the task-state segment and
    virtual addresses belong to the [x86_64] crate: they are classes of
    operations, with their documented behaviour in the classes named [Spec]. *)

From S2P Require Import Prelude VirtAddr Ports Interrupts.
#[local] Open Scope Z_scope.

(** ** The crate *)

(** [TaskStateSegment], [Descriptor] and [GlobalDescriptorTable]; [append] panics
    ([None]) when the table is full.  [selected] is the descriptor the CPU finds in
    a table for a selector, and [task_state] the segment a descriptor points to. *)
Class SegmentTables (T D G : Type) : Type := {
  tss_new : T;
  interrupt_stack_table : T -> list Z;
  set_interrupt_stack_table : T -> list Z -> T;
  kernel_code_segment : D;
  kernel_data_segment : D;
  tss_segment : T -> D;
  gdt_new : G;
  append : G -> D -> option (Z * G);
  selected : G -> Z -> option D;
  task_state : D -> option T;
}.

(** Eight slots, the first of them null; a task-state descriptor takes two. *)
Class SegmentTablesSpec (T D G : Type) `{SegmentTables T D G} : Type := {
  tss_new_stacks : length (interrupt_stack_table tss_new) = 7%nat;
  tss_set_stacks : forall t l, interrupt_stack_table (set_interrupt_stack_table t l) = l;
  task_state_segment : forall t, task_state (tss_segment t) = Some t;
  slots : G -> nat;
  slots_of : D -> nat;
  slots_new : slots gdt_new = 1%nat;
  slots_code : slots_of kernel_code_segment = 1%nat;
  slots_data : slots_of kernel_data_segment = 1%nat;
  slots_tss : forall t, slots_of (tss_segment t) = 2%nat;
  append_fits : forall g d, (slots g + slots_of d <= 8)%nat ->
    exists s g', append g d = Some (s, g') /\ slots g' = (slots g + slots_of d)%nat /\
      selected g' s = Some d /\ forall s' d', selected g s' = Some d' -> selected g' s' = Some d';
}.

(** ** The module *)

Definition DOUBLE_FAULT_STACK_SIZE : Z := 5 * 4096.

Record Selectors : Type := { code : Z; data : Z; tss : Z }.

Section Init.
Context `{VirtAddrs} {T D G : Type} `{SegmentTables T D G}.

(** Where the linker put [DOUBLE_FAULT_STACK]. *)
Variable stack_address : Z.

(** The two [Once] cells. *)
Record statics : Type := { TSS : option T; GDT : option (G * Selectors) }.

(** The registers of the CPU that the module loads. *)
Record segments : Type := { gdtr : option G; cs : Z; ds : Z; es : Z; ss : Z; tr : Z }.

(** [Once::call_once]: the closure runs on the first call only; it may panic. *)
Definition call_once {A : Type} (cell : option A) (f : unit -> option A) : option A :=
  match cell with
  | Some a => Some a
  | None => f ()
  end.

Definition make_tss (_ : unit) : option T :=
  let tss := tss_new in
  stack_end ← virt_add stack_address DOUBLE_FAULT_STACK_SIZE;
  table ← set_index (interrupt_stack_table tss) (Z.to_nat DOUBLE_FAULT_IST_INDEX) stack_end;
  Some (set_interrupt_stack_table tss table).

Definition make_gdt (tss : T) (_ : unit) : option (G * Selectors) :=
  '(code, gdt) ← append gdt_new kernel_code_segment;
  '(data, gdt) ← append gdt kernel_data_segment;
  '(tss, gdt) ← append gdt (tss_segment tss);
  Some (gdt, {| code := code; data := data; tss := tss |}).

Definition gdt_init (st : statics) (cpu : segments) : option (statics * segments) :=
  t ← call_once (TSS st) make_tss;
  '(gdt, selectors) ← call_once (GDT st) (make_gdt t);
  Some ({| TSS := Some t; GDT := Some (gdt, selectors) |},
        {| gdtr := Some gdt; cs := code selectors; ds := data selectors; es := data selectors;
           ss := data selectors; tr := tss selectors |}).

Definition statics_new : statics := {| TSS := None; GDT := None |}.
End Init.

Arguments statics : clear implicits.
Arguments segments : clear implicits.

(** ** What the CPU finds *)

Section Correct.
Context `{VirtAddrsSpec} {T D G : Type} `{SegmentTablesSpec T D G}.

(** The stack the CPU switches to for an interrupt whose table entry has this
    index: through the task register, the table and the task-state segment. *)
Definition interrupt_stack (cpu : segments G) (index : Z) : option Z :=
  g ← gdtr cpu;
  d ← selected g (tr cpu);
  t ← task_state d;
  interrupt_stack_table t !! Z.to_nat index.

Lemma make_tss_spec (stack_address : Z) :
  canonical stack_address -> canonical (stack_address + DOUBLE_FAULT_STACK_SIZE) ->
  make_tss (T := T) stack_address () =
    Some (set_interrupt_stack_table tss_new
            (<[0%nat := stack_address + DOUBLE_FAULT_STACK_SIZE]> (interrupt_stack_table tss_new))).
Proof.
  intros Hs He. unfold make_tss. rewrite virt_add_canonical by done. cbn [mbind option_bind].
  change (Z.to_nat DOUBLE_FAULT_IST_INDEX) with 0%nat. unfold set_index.
  by rewrite decide_True by (rewrite tss_new_stacks; lia).
Qed.

(** The three descriptors fit, and each selector still selects its own in the end. *)
Lemma make_gdt_spec (t : T) :
  exists g sel, make_gdt (G := G) t () = Some (g, sel) /\ selected g (code sel) = Some kernel_code_segment /\
    selected g (data sel) = Some kernel_data_segment /\ selected g (tss sel) = Some (tss_segment t).
Proof.
  unfold make_gdt.
  destruct (append_fits gdt_new kernel_code_segment) as (c & g1 & -> & Hn1 & Hc & _).
  { rewrite slots_new, slots_code. lia. }
  rewrite slots_new, slots_code in Hn1. cbn [mbind option_bind].
  destruct (append_fits g1 kernel_data_segment) as (d & g2 & -> & Hn2 & Hd & Hold2).
  { rewrite Hn1, slots_data. lia. }
  rewrite Hn1, slots_data in Hn2. cbn [mbind option_bind].
  destruct (append_fits g2 (tss_segment t)) as (s & g3 & -> & _ & Hs & Hold3).
  { rewrite Hn2, slots_tss. lia. }
  cbn [mbind option_bind]. do 2 eexists. split; [done|]. cbn [code data tss]. auto.
Qed.

(** What a first call leaves. *)
Lemma gdt_init_spec (stack_address : Z) (cpu : segments G) :
  canonical stack_address -> canonical (stack_address + DOUBLE_FAULT_STACK_SIZE) ->
  exists st cpu' g, gdt_init (T := T) stack_address statics_new cpu = Some (st, cpu') /\
    gdtr cpu' = Some g /\ selected g (cs cpu') = Some kernel_code_segment /\
    Forall (fun s => selected g s = Some kernel_data_segment) [ds cpu'; es cpu'; ss cpu'] /\
    (forall i, interrupt_stack cpu' i =
       <[0%nat := stack_address + DOUBLE_FAULT_STACK_SIZE]> (interrupt_stack_table tss_new) !! Z.to_nat i) /\
    forall cpu2, gdt_init stack_address st cpu2 = Some (st, cpu').
Proof.
  intros Hs He. unfold gdt_init at 1, statics_new, call_once. cbn [TSS GDT].
  rewrite make_tss_spec by done. cbn [mbind option_bind].
  set (t := set_interrupt_stack_table _ _). destruct (make_gdt_spec t) as (g & sel & -> & Hc & Hd & Ht).
  cbn [mbind option_bind]. do 3 eexists. split; [done|]. cbn [gdtr cs ds es ss tr].
  split; [done|]. split; [done|]. split; [by repeat constructor|]. split; [|done].
  intros i. unfold interrupt_stack. cbn [gdtr tr mbind option_bind]. rewrite Ht. cbn [mbind option_bind].
  rewrite task_state_segment. cbn [mbind option_bind]. unfold t. by rewrite tss_set_stacks.
Qed.

(** What the rest of boot relies on. *)
Lemma gdt_init_stack (stack_address : Z) (cpu : segments G) :
  canonical stack_address -> canonical (stack_address + DOUBLE_FAULT_STACK_SIZE) ->
  exists st cpu', gdt_init (T := T) stack_address statics_new cpu = Some (st, cpu') /\
    interrupt_stack cpu' DOUBLE_FAULT_IST_INDEX = Some (stack_address + DOUBLE_FAULT_STACK_SIZE).
Proof.
  intros Hs He. destruct (gdt_init_spec stack_address cpu Hs He) as (st & cpu' & g & Hrun & _ & _ & _ & Hist & _).
  exists st, cpu'. split; [done|]. rewrite Hist. apply list_lookup_insert_eq. rewrite tss_new_stacks. cbn. lia.
Qed.

(** C34: The segments and the dedicated stack.  [gdt::init] does not panic: the three
    descriptors fit the table.  Afterwards every segment register selects the
    descriptor meant for it, and a double fault, whose table entry names a stack,
    is taken on the top of the static stack reserved for it, which is 16-byte
    aligned, while the other six interrupt stacks stay unused.  A second call
    changes nothing. *)
Theorem double_fault_has_its_stack (stack_address : Z) (cpu : segments G) :
  stack_address mod 16 = 0 -> canonical stack_address ->
  canonical (stack_address + DOUBLE_FAULT_STACK_SIZE) ->
  exists st cpu', gdt_init (T := T) stack_address statics_new cpu = Some (st, cpu') /\
    (exists g, gdtr cpu' = Some g /\ selected g (cs cpu') = Some kernel_code_segment /\
       Forall (fun s => selected g s = Some kernel_data_segment) [ds cpu'; es cpu'; ss cpu']) /\
    (exists ist top, IDT DOUBLE_FAULT = Some (double_fault_handler, Some ist) /\
       interrupt_stack cpu' ist = Some top /\ top = stack_address + 20480 /\ top mod 16 = 0 /\
       forall i, 0 <= i < 7 -> i <> ist -> interrupt_stack cpu' i = interrupt_stack_table tss_new !! Z.to_nat i) /\
    forall cpu2, gdt_init stack_address st cpu2 = Some (st, cpu').
Proof.
  intros Hal Hs He. destruct (gdt_init_spec stack_address cpu Hs He)
    as (st & cpu' & g & Hrun & Hg & Hc & Hd & Hist & Htwice).
  exists st, cpu'. split; [done|]. split; [by exists g|]. split; [|done].
  exists 0, (stack_address + 20480). split; [done|]. split.
  { rewrite Hist. apply list_lookup_insert_eq. rewrite tss_new_stacks. lia. }
  split; [done|]. split; [zlia|]. intros i Hi Hne. rewrite Hist. apply list_lookup_insert_ne. lia.
Qed.
End Correct.

(** ** A table *)

Inductive demo_descriptor : Type := NullSegment | CodeSegment | DataSegment | TaskSegment (stacks : list Z).

Definition demo_slots (d : demo_descriptor) : list demo_descriptor :=
  match d with TaskSegment _ => [d; NullSegment] | _ => [d] end.

#[export] Instance demo_tables : SegmentTables (list Z) demo_descriptor (list demo_descriptor) := {
  tss_new := replicate 7 0;
  interrupt_stack_table t := t;
  set_interrupt_stack_table _ l := l;
  kernel_code_segment := CodeSegment;
  kernel_data_segment := DataSegment;
  tss_segment := TaskSegment;
  gdt_new := [NullSegment];
  append g d := if decide (length (g ++ demo_slots d) <= 8)%nat
                then Some (8 * Z.of_nat (length g), g ++ demo_slots d) else None;
  selected g s := g !! Z.to_nat (s / 8);
  task_state d := match d with TaskSegment l => Some l | _ => None end;
}.

#[export] Program Instance demo_tables_spec : SegmentTablesSpec (list Z) demo_descriptor (list demo_descriptor) := {
  slots := length;
  slots_of d := length (demo_slots d);
}.
Solve Obligations with try done.
Next Obligation.
  intros g d Hfit. cbn [append selected demo_tables]. rewrite length_app, decide_True by exact Hfit.
  do 2 eexists. split; [done|]. split; [apply length_app|]. split.
  - replace (Z.to_nat (8 * Z.of_nat (length g) / 8)) with (length g) by zlia.
    rewrite lookup_app_r, Nat.sub_diag by lia. by destruct d.
  - intros s' d' Hl. by apply lookup_app_l_Some.
Qed.

Lemma double_fault_has_its_stack_witness :
  exists st cpu, gdt_init (T := list Z) (D := demo_descriptor) 0x8000012340 statics_new
      {| gdtr := None; cs := 0; ds := 0; es := 0; ss := 0; tr := 0 |} = Some (st, cpu) /\
    interrupt_stack cpu 0 = Some 0x8000017340 /\ interrupt_stack cpu 1 = Some 0.
Proof.
  destruct (double_fault_has_its_stack (T := list Z) (D := demo_descriptor) 0x8000012340
      {| gdtr := None; cs := 0; ds := 0; es := 0; ss := 0; tr := 0 |}
      eq_refl ltac:(left; lia) ltac:(left; unfold DOUBLE_FAULT_STACK_SIZE; lia))
    as (st & cpu & Hrun & _ & (ist & top & Hidt & Hstack & -> & _ & Hothers) & _).
  injection Hidt as <-. exists st, cpu. split; [exact Hrun|]. split; [exact Hstack|].
  apply (Hothers 1); unfold DOUBLE_FAULT_IST_INDEX; lia.
Defined.
