(* ===== verification/Faults.v ===== *)
(** * Faults: exceptions, panics and the deliberate fault tests

    Models how [kernel/src/interrupts.rs], the panic handler and the fault tests of
    [kernel/src/main.rs] report a fatal error and stop.  Three things decide what
    becomes of such a report: the stack the CPU can deliver the exception on, the
    spin locks around the serial line and the screen ([serial.rs],
    [framebuffer.rs]), which the interrupted code may hold on the only CPU, and the
    line itself, on which a byte that cannot be sent in 100000 polls is dropped. *)

From S2P Require Import Prelude VirtAddr Str Ports Keyboard Console Timer Pic Serial Interrupts Gdt.
From S2P Require Import Framebuffer FramebufferPixels FramebufferText FramebufferShell Terminal.
#[local] Open Scope Z_scope.

(** ** Output behind the locks *)

(** The CPU's interrupt flag, whether [SERIAL_LOCK] and the lock of [WRITER] are held,
    and the two sinks they guard. *)
Record system (M : Type) : Type := {
  interrupts_enabled : bool;
  serial_locked : bool;
  writer_locked : bool;
  console : terminal M;
}.

Arguments interrupts_enabled {M} _.
Arguments serial_locked {M} _.
Arguments writer_locked {M} _.
Arguments console {M} _.
Arguments Build_system {M} _ _ _ _.

(** How a routine ends: it returns; it waits for a lock nobody will release; it
    panics; it halts and runs on at every interrupt; or it halts with interrupts
    disabled, for good. *)
Inductive fate : Type := Returned | Spins | Traps | Idles | Halted.

Section Crash.
Context `{Font} {M : Type} `{Hardware M}.

Definition routine : Type := system M -> fate * system M.

(** One call after the other, up to one that does not return. *)
Definition then_do (first second : routine) : routine := fun s =>
  match first s with
  | (Returned, s) => second s
  | stopped => stopped
  end.

Definition set_console (s : system M) (t : terminal M) : system M :=
  {| interrupts_enabled := interrupts_enabled s; serial_locked := serial_locked s;
     writer_locked := writer_locked s; console := t |}.

(** [x86_64::instructions::interrupts::disable] *)
Definition interrupts_disable : routine := fun s =>
  (Returned, {| interrupts_enabled := false; serial_locked := serial_locked s;
                writer_locked := writer_locked s; console := console s |}).

Definition serial_print (text : str) : routine := fun s =>
  if serial_locked s then (Spins, s)
  else (Returned, set_console s (Terminal.serial_print text (console s))).

(** What is done with the writer while its lock is held; after a panic there the
    lock stays held. *)
Definition locked_writer (operation : FramebufferWriter -> option FramebufferWriter) : routine := fun s =>
  match with_writer operation (console s) with
  | Some t => (Returned, set_console s t)
  | None => (Traps, {| interrupts_enabled := interrupts_enabled s; serial_locked := serial_locked s;
                       writer_locked := true; console := console s |})
  end.

Definition framebuffer_print (text : str) : routine := fun s =>
  if writer_locked s then (Spins, s) else locked_writer (fb_print text) s.

Definition framebuffer_panic_print (text : str) : routine := fun s =>
  if writer_locked s then (Returned, s) else locked_writer (fb_print text) s.

Definition console_print (text : str) : routine := then_do (serial_print text) (framebuffer_print text).

Definition console_panic_print (text : str) : routine := framebuffer_panic_print text.

(** [framebuffer::clear] and [framebuffer::show_cursor] *)
Definition framebuffer_call (operation : FramebufferWriter -> option FramebufferWriter) : routine := fun s =>
  if writer_locked s then (Spins, s) else locked_writer operation s.

Fixpoint perform (acts : list action) : routine :=
  match acts with
  | [] => fun s => (Returned, s)
  | Print text :: acts => then_do (console_print text) (perform acts)
  | SerialPrint text :: acts => then_do (serial_print text) (perform acts)
  | ClearScreen :: acts => then_do (framebuffer_call clear) (perform acts)
  | ShowCursor :: acts => then_do (framebuffer_call show_cursor) (perform acts)
  end.

(** ** Stopping *)

(** [loop { hlt() }]: an enabled interrupt ends the wait of a [hlt]. *)
Definition hlt_loop : routine := fun s => (if interrupts_enabled s then Idles else Halted, s).

(** [info] is the formatted [PanicInfo]. *)
Definition panic (info : str) : routine :=
  then_do interrupts_disable
    (then_do (serial_print (lit "KERNEL PANIC: " ++ info ++ [0x0a]))
       (then_do (console_panic_print (0x0a :: lit "KERNEL PANIC: " ++ info ++ [0x0a])) hlt_loop)).

(** What the CPU and the crate supply to a handler, already formatted. *)
Record fault_info : Type := {
  stack_frame : str;
  error_code : Z;
  error_flags : str;
  cr2 : Z;
  instruction_pointer : str;
}.

(** What a handler prints. *)
Definition fault_report (h : handler) (i : fault_info) : list action :=
  match h with
  | breakpoint_handler => breakpoint_text (instruction_pointer i)
  | general_protection_fault_handler => general_protection_fault_text (stack_frame i) (error_code i)
  | page_fault_handler => page_fault_text (stack_frame i) (error_flags i) (cr2 i)
  | double_fault_handler => double_fault_text (stack_frame i) (error_code i)
  | timer_interrupt_handler | keyboard_interrupt_handler => []
  end.

(** The three handlers that do not return: their bodies; [None] for the others. *)
Definition fatal_fault (h : handler) (i : fault_info) (s : system M) : option (fate * system M) :=
  match h with
  | general_protection_fault_handler =>
      Some (then_do interrupts_disable
              (then_do (perform (general_protection_fault_text (stack_frame i) (error_code i))) hlt_loop) s)
  | page_fault_handler =>
      Some (then_do interrupts_disable
              (then_do (perform (page_fault_text (stack_frame i) (error_flags i) (cr2 i))) hlt_loop) s)
  | double_fault_handler =>
      Some (then_do interrupts_disable
              (then_do (perform (double_fault_text (stack_frame i) (error_code i))) hlt_loop) s)
  | breakpoint_handler | timer_interrupt_handler | keyboard_interrupt_handler => None
  end.
End Crash.

Definition fatal (h : handler) : bool :=
  match h with
  | general_protection_fault_handler | page_fault_handler | double_fault_handler => true
  | _ => false
  end.

(** ** Delivering an exception *)

Section Delivery.
(** Whether the 40 bytes below a stack pointer can be written. *)
Variable stack_usable : Z -> bool.
(** The stacks of the task-state segment. *)
Variable interrupt_stacks : Z -> option Z.

Inductive delivery : Type :=
| Delivered (h : handler) (stack : Z)
| PushFails
| NoHandler.

Definition try_deliver (rsp vector : Z) : delivery :=
  match IDT vector with
  | None => NoHandler
  | Some (h, None) => if stack_usable rsp then Delivered h rsp else PushFails
  | Some (h, Some ist) =>
      match interrupt_stacks ist with
      | Some top => if stack_usable top then Delivered h top else PushFails
      | None => PushFails
      end
  end.

(** What handles an exception in the end; [None] is a triple fault, which resets
    the machine.  A push that fails raises a page fault, which is delivered in turn
    unless it was a page fault that could not be delivered: that is a double fault,
    and so is a missing entry of the table. *)
Definition deliver_double (rsp : Z) : option (handler * Z) :=
  match try_deliver rsp DOUBLE_FAULT with
  | Delivered h stack => Some (h, stack)
  | _ => None
  end.

Definition deliver (rsp vector : Z) : option (handler * Z) :=
  match try_deliver rsp vector with
  | Delivered h stack => Some (h, stack)
  | failure =>
      if vector =? DOUBLE_FAULT then None
      else
        match failure with
        | NoHandler => deliver_double rsp
        | _ =>
            if vector =? PAGE_FAULT then deliver_double rsp
            else
              match try_deliver rsp PAGE_FAULT with
              | Delivered h stack => Some (h, stack)
              | _ => deliver_double rsp
              end
        end
  end.
End Delivery.

(** ** The fault tests *)

Record features : Type := { fault_test_double : bool; fault_test_gpf : bool; fault_test_page : bool }.

(** The [compile_error!] guard. *)
Definition features_ok (f : features) : bool :=
  negb (fault_test_double f && fault_test_gpf f || fault_test_double f && fault_test_page f ||
        fault_test_gpf f && fault_test_page f).

Definition UNMAPPED_ADDRESS : Z := 0x0000444444440000.
Definition NON_CANONICAL_ADDRESS : Z := 0x0200000000000000.

(** How the test ends: it returns, it panics, or the CPU raises an exception with
    the stack pointer the test has then. *)
Inductive test_end : Type :=
| TestReturns
| TestPanics (message : str)
| Raises (vector rsp : Z).

Section FaultTest.
(** Whether the page tables map an address writable. *)
Variable mapped : Z -> bool.

Definition run_requested_fault_test (f : features) (rsp : Z) : list action * test_end :=
  if fault_test_page f then
    (serial_println (lit "FAULT_TEST_PAGE_BEGIN"),
     if mapped UNMAPPED_ADDRESS then TestPanics (lit "page-fault test unexpectedly returned")
     else Raises PAGE_FAULT rsp)
  else if fault_test_gpf f then
    (serial_println (lit "FAULT_TEST_GPF_BEGIN"),
     if decide (canonical NON_CANONICAL_ADDRESS) then
       (if mapped NON_CANONICAL_ADDRESS then TestReturns else Raises PAGE_FAULT rsp)
     else Raises GENERAL_PROTECTION rsp)
  else if fault_test_double f then
    (serial_println (lit "FAULT_TEST_DOUBLE_BEGIN"), Raises BREAKPOINT 0)
  else ([], TestReturns).
End FaultTest.

(** ** Complete reports *)

(** A line of output. *)
Definition line (text : str) : str := text ++ [0x0a].

(** What a report of an exception has to say: a marker for the serial line, then
    lines for both sinks, with the numbers readable in hexadecimal. *)
Inductive reports (i : fault_info) : handler -> str -> list str -> Prop :=
| reports_page_fault address :
    parse_hex address = cr2 i ->
    reports i page_fault_handler (lit "EXCEPTION_PAGE_FAULT")
      [0x0a :: lit "PAGE FAULT"; lit "address: 0x" ++ address; lit "error: " ++ error_flags i; stack_frame i]
| reports_general_protection code :
    parse_hex code = error_code i ->
    reports i general_protection_fault_handler (lit "EXCEPTION_GENERAL_PROTECTION_FAULT")
      [0x0a :: lit "GENERAL PROTECTION FAULT"; lit "error code: 0x" ++ code; stack_frame i]
| reports_double_fault code :
    parse_hex code = error_code i ->
    reports i double_fault_handler (lit "EXCEPTION_DOUBLE_FAULT_IST_OK")
      [0x0a :: lit "DOUBLE FAULT (dedicated IST stack)"; lit "error code: 0x" ++ code; stack_frame i].

Section Reports.
Context `{FontSpec} {M : Type} `{Hardware M}.

(** Between two states the text went to the serial line: nothing else was written
    there, and of the text nothing is missing if the line was always ready. *)
Definition sent (text : str) (s s' : system M) : Prop :=
  exists evs, log (ports (console s')) = log (ports (console s)) ++ evs /\
    transmits M (crlf (encode text)) evs.

(** The texts were printed on the screen, where there is one. *)
Definition drawn_on (texts : list str) (s s' : system M) : Prop :=
  writer (console s') = (w ← writer (console s); for_each texts fb_print w).

Lemma then_do_returned (r1 r2 : routine) (s s' : system M) :
  r1 s = (Returned, s') -> then_do r1 r2 s = r2 s'.
Proof. unfold then_do. by intros ->. Qed.

(** With both locks free a report is what the console prints. *)
Lemma perform_unlocked (acts : list action) (s : system M) :
  serial_locked s = false -> writer_locked s = false ->
  perform acts s = match console_all acts (console s) with
                   | Some t => (Returned, set_console s t)
                   | None => perform acts s
                   end.
Proof.
  revert s. induction acts as [|a acts IH]; intros s Hs Hw; cbn [perform console_all for_each]; [by destruct s|].
  destruct a as [text|text| |]; cbn [console_action];
    unfold console_print, Terminal.console_print, framebuffer_print, framebuffer_call, then_do, serial_print, locked_writer;
    rewrite ?Hs; cbn [set_console writer_locked console]; rewrite ?Hw; cbn [mbind option_bind];
    try (match goal with |- context [with_writer ?op ?t] => destruct (with_writer op t) as [t'|] end; [|done]);
    cbn [mbind option_bind]; (rewrite IH by done); unfold console_all; cbn [set_console console]; by case_match.
Qed.

(** A report of one line for the serial line and more for both sinks. *)
Lemma report_runs (first : str) (texts : list str) (s : system M) :
  serial_locked s = false -> writer_locked s = false -> terminal_wf (console s) ->
  exists s', perform (SerialPrint first :: map Print texts) s = (Returned, s') /\
    interrupts_enabled s' = interrupts_enabled s /\ sent (first ++ concat texts) s s' /\ drawn_on texts s s'.
Proof.
  intros Hs Hw Hwf. rewrite perform_unlocked by done.
  destruct (console_all_printed (SerialPrint first :: map Print texts) (console s) Hwf) as (t & -> & [_ Hser Hscr _]).
  eexists. split; [done|]. split; [done|]. unfold sent, drawn_on. cbn [set_console console]. split.
  - destruct Hser as (evs & Hl & Ht). exists evs. split; [done|].
    assert (Htext : serial_text (SerialPrint first :: map Print texts) = first ++ concat texts)
      by (unfold serial_text; cbn [map concat serial_share]; by rewrite map_map, map_id).
    by rewrite Htext in Ht.
  - rewrite Hscr. destruct (writer (console s)) as [w|]; [|done]. cbn [mbind option_bind for_each fb_action].
    by rewrite for_each_map.
Qed.

Lemma fault_report_lines (h : handler) (i : fault_info) :
  fatal h = true -> is_uint 64 (cr2 i) -> is_uint 64 (error_code i) ->
  exists marker lines, reports i h marker lines /\
    fault_report h i = SerialPrint (line marker) :: map Print (map line lines).
Proof.
  intros Hf Ha Hc. destruct h; try done; do 2 eexists;
    (split; [econstructor; first [exact (hex_digits_roundtrip _ Ha)|exact (hex_digits_roundtrip _ Hc)]|]);
    unfold fault_report, general_protection_fault_text, page_fault_text, double_fault_text, println, serial_println, hex, line;
    cbn [app map]; by rewrite ?app_assoc.
Qed.

Lemma fatal_fault_body (h : handler) (i : fault_info) (s : system M) :
  fatal_fault h i s =
    if fatal h then Some (then_do interrupts_disable (then_do (perform (fault_report h i)) hlt_loop) s) else None.
Proof. by destruct h. Qed.


(** C36: A fatal exception while the screen is being written is not reported: the
    handler prints through the lock the interrupted code holds, sends its first two
    lines to the serial line, and then spins for ever with interrupts disabled and the
    screen as it was, so that the error code, the faulting address and the stack frame
    are never shown anywhere. *)
Theorem fault_during_output_spins (h : handler) (i : fault_info) (s : system M) :
  fatal h = true -> serial_locked s = false -> writer_locked s = true ->
  exists s', fatal_fault h i s = Some (Spins, s') /\ interrupts_enabled s' = false /\
    writer (console s') = writer (console s) /\
    exists first second rest, fault_report h i = SerialPrint first :: Print second :: rest /\
      shown_all rest <> [] /\ sent (first ++ second) s s'.
Proof.
  intros Hf Hs Hw. rewrite fatal_fault_body, Hf.
  assert (Hrep : exists first second rest, fault_report h i = SerialPrint first :: Print second :: rest /\
            shown_all rest <> []) by (destruct h; try done; do 3 eexists; by split).
  destruct Hrep as (first & second & rest & -> & Hrest).
  destruct (serial_print_sends first (console s)) as (e1 & L1 & T1).
  destruct (serial_print_sends second (Terminal.serial_print first (console s))) as (e2 & L2 & T2).
  unfold then_do, interrupts_disable. cbn [perform]. unfold then_do, console_print, then_do, serial_print, framebuffer_print.
  cbn [serial_locked writer_locked set_console console]. rewrite Hs. cbn [serial_locked writer_locked set_console console].
  rewrite Hw. eexists. split; [done|]. split; [done|]. split; [done|]. exists first, second, rest.
  split; [done|]. split; [done|]. exists (e1 ++ e2). cbn [console set_console]. rewrite L2, L1, app_assoc. split; [done|].
  rewrite encode_app, crlf_app. by apply transmits_app.
Qed.
End Reports.

(** ** The fault tests end where they should *)

Section Tests.
Variables (mapped stack_usable : Z -> bool) (interrupt_stacks : Z -> option Z) (rsp top : Z).

(** The state of the machine when the tests run: the kernel's own stack and the
    dedicated one are mapped, the test address and the top page are not. *)
Record test_machine : Prop := {
  tm_unmapped : mapped UNMAPPED_ADDRESS = false;
  tm_stack : stack_usable rsp = true;
  tm_zero : stack_usable 0 = false;
  tm_ist : interrupt_stacks DOUBLE_FAULT_IST_INDEX = Some top;
  tm_top : stack_usable top = true;
}.

(** The fault tests.  A kernel built without a test feature runs none; one built
    with a feature (the build refuses two) announces the test on the serial line and
    ends in the handler the test is for: the page-fault and protection tests on the
    kernel's stack, the double-fault test, in which neither the breakpoint nor the
    page fault it causes can be delivered on a zero stack pointer, on the dedicated
    stack.  None of them returns. *)
Lemma fault_tests_reach_handlers (f : features) :
  test_machine -> features_ok f = true ->
  let '(acts, result) := run_requested_fault_test mapped f rsp in
  match result with
  | TestReturns => acts = [] /\ f = {| fault_test_double := false; fault_test_gpf := false; fault_test_page := false |}
  | TestPanics _ => False
  | Raises vector sp =>
      exists name h stack, acts = serial_println (lit "FAULT_TEST_" ++ name ++ lit "_BEGIN") /\
        deliver stack_usable interrupt_stacks sp vector = Some (h, stack) /\ fatal h = true /\
        (fault_test_page f = true /\ name = lit "PAGE" /\ h = page_fault_handler /\ stack = rsp \/
         fault_test_gpf f = true /\ name = lit "GPF" /\ h = general_protection_fault_handler /\ stack = rsp \/
         fault_test_double f = true /\ name = lit "DOUBLE" /\ h = double_fault_handler /\ stack = top)
  end.
Proof.
  intros [Hun Hrsp Hzero Hist Htop] Hok. destruct f as [double gpf page]. unfold features_ok in Hok.
  unfold run_requested_fault_test. cbn [fault_test_double fault_test_gpf fault_test_page] in *.
  assert (Hnc : ~ canonical NON_CANONICAL_ADDRESS) by (unfold canonical, NON_CANONICAL_ADDRESS; lia).
  destruct page.
  { rewrite Hun. exists (lit "PAGE"). do 2 eexists. split; [done|].
    unfold deliver, try_deliver. cbn. rewrite Hrsp. split; [done|]. split; [done|]. by left. }
  destruct gpf.
  { rewrite decide_False by done. exists (lit "GPF"). do 2 eexists. split; [done|].
    unfold deliver, try_deliver. cbn. rewrite Hrsp. split; [done|]. split; [done|]. right. by left. }
  destruct double; [|done]. exists (lit "DOUBLE"), double_fault_handler, top. split; [done|]. split.
  - unfold deliver, deliver_double, try_deliver. cbn. rewrite Hzero. cbn.
    change (interrupt_stacks DOUBLE_FAULT_IST_INDEX) with (interrupt_stacks 0) in *. rewrite Hist, Htop. done.
  - split; [done|]. right. by right.
Qed.
End Tests.

Lemma fault_tests_reach_handlers_witness :
  exists acts, run_requested_fault_test (fun _ => false)
      {| fault_test_double := true; fault_test_gpf := false; fault_test_page := false |} 0x8000 =
      (acts, Raises BREAKPOINT 0) /\
    deliver (fun sp => negb (sp =? 0)) (fun _ => Some 0x9000) 0 BREAKPOINT = Some (double_fault_handler, 0x9000).
Proof.
  pose proof (fault_tests_reach_handlers (fun _ => false) (fun sp => negb (sp =? 0)) (fun _ => Some 0x9000)
    0x8000 0x9000 {| fault_test_double := true; fault_test_gpf := false; fault_test_page := false |}
    ltac:(by constructor) eq_refl) as (name & h & stack & Hacts & Hdel & _ & [(Hf & _)|[(Hf & _)|(_ & _ & -> & ->)]]);
    [discriminate Hf|discriminate Hf|].
  eexists. split; [reflexivity|exact Hdel].
Defined.

(** ** A crash *)

(** A line that is always ready. *)
Inductive ready_line : Type := ReadyLine.

#[export] Instance ready_line_hardware : Hardware ready_line := {
  hw_in8 _ u := (0x60, u); hw_out8 _ _ u := u; hw_in32 _ u := (0, u); hw_out32 _ _ u := u;
}.

Definition demo_system (busy : bool) : system ready_line := {|
  interrupts_enabled := true; serial_locked := false; writer_locked := busy;
  console := {| ports := Build_machine ReadyLine []; writer := Some small_writer |};
|}.

Definition demo_fault : fault_info := {|
  stack_frame := lit "InterruptStackFrame"; error_code := 2; error_flags := lit "CAUSED_BY_WRITE";
  cr2 := UNMAPPED_ADDRESS; instruction_pointer := [];
|}.


Lemma fault_during_output_spins_witness :
  exists s', fatal_fault page_fault_handler demo_fault (demo_system true) = Some (Spins, s') /\
    map snd (writes (log (ports (console s')))) =
      crlf (lit "EXCEPTION_PAGE_FAULT" ++ [0x0a; 0x0a] ++ lit "PAGE FAULT" ++ [0x0a]).
Proof.
  destruct (fault_during_output_spins page_fault_handler demo_fault (demo_system true) eq_refl eq_refl eq_refl)
    as (s' & Hrun & _ & _ & first & second & rest & Hreport & _ & evs & Hlog & Htr).
  exists s'. split; [exact Hrun|]. injection Hreport as <- <- <-.
  rewrite Hlog. cbn [demo_system console ports log app].
  rewrite (tr_ready _ _ Htr) by (intros []; reflexivity). reflexivity.
Defined.
