(* ===== verification/Kernel.v ===== *)
(** * Kernel: interrupts and the shell together

    The running system after boot, as a step relation: the timer and keyboard
    interrupts of [Interrupts.v] arrive between any two steps of the shell's loop
    (its atomic accesses to the queue are interleaved in [QueueSteps.v]), and the
    loop takes one event at a time from the queue or halts until the next
    interrupt. *)

From S2P Require Import Prelude Storage Str Fat32 Fat32Geometry Ports Keyboard KeyboardQueue.
From S2P Require Import KeyboardDecode Console Allocator Timer Pic Interrupts History Shell ShellEditor.
#[local] Open Scope Z_scope.

(** A sublist that leaves nothing out. *)
Lemma sublist_same_length {A : Type} (l1 l2 : list A) :
  l1 `sublist_of` l2 -> length l1 = length l2 -> l1 = l2.
Proof.
  intros Hs. induction Hs as [|x l1 l2 Hs IH|x l1 l2 Hs IH]; simpl; intros Hlen; [done| |].
  - f_equal. apply IH. lia.
  - apply sublist_length in Hs. lia.
Qed.

Section System.
Context {D : Type} `{BlockDeviceSpec D} (fs : Fat32 D) (system : SystemInfo) (heap : BumpAllocator).
Context {M : Type} `{Hardware M}.

(** [handled], [arrived] and [timer_irqs] record the run: the events the shell
    took, the scancodes the controller delivered and the timer interrupts. *)
Record kernel : Type := {
  hardware : machine M;
  keyboard : Keyboard;
  clock : Z;
  editor : Editor;
  state : fate;
  output : list action;
  handled : list KeyEvent;
  arrived : list Z;
  timer_irqs : nat;
}.

Definition boot (m : machine M) : kernel := {|
  hardware := m; keyboard := keyboard_new; clock := 0; editor := editor_new; state := Returns;
  output := banner; handled := []; arrived := []; timer_irqs := 0;
|}.

(** The readings a command takes: the clock may advance between its two loads. *)
Definition readings_at (k : kernel) (later : Z) : readings :=
  {| ticks_first := clock k; ticks_second := later; heap_now := heap |}.

(** One step of the shell on the event it took; [None] is a panic. *)
Definition shell_event (k : kernel) (later : Z) (event : KeyEvent) (kb : Keyboard) : option kernel :=
  '(f, e, acts) ← handle_event fs system (readings_at k later) (editor k) event;
  Some {| hardware := hardware k; keyboard := kb; clock := clock k; editor := e; state := f;
          output := output k ++ acts; handled := handled k ++ [event]; arrived := arrived k;
          timer_irqs := timer_irqs k |}.

Definition key_irq (k : kernel) : option kernel :=
  let '(kb, m) := keyboard_interrupt (keyboard k) (hardware k) in
  let scancode := (in8 0x60 (hardware k)).1 in
  kb ← kb;
  Some {| hardware := m; keyboard := kb; clock := clock k; editor := editor k; state := state k;
          output := output k; handled := handled k; arrived := arrived k ++ [scancode];
          timer_irqs := timer_irqs k |}.

Definition timer_irq (k : kernel) : kernel :=
  let '(clock, m) := timer_interrupt (clock k) (hardware k) in
  {| hardware := m; keyboard := keyboard k; clock := clock; editor := editor k; state := state k;
     output := output k; handled := handled k; arrived := arrived k; timer_irqs := S (timer_irqs k) |}.

(** A command that reboots or halts disables interrupts first. *)
Inductive kernel_step : kernel -> kernel -> Prop :=
| step_timer k : state k = Returns -> kernel_step k (timer_irq k)
| step_key k k' : state k = Returns -> key_irq k = Some k' -> kernel_step k k'
| step_event k event kb later k' :
    state k = Returns -> next_event (keyboard k) = Some (Some event, kb) ->
    shell_event k later event kb = Some k' -> kernel_step k k'
| step_idle k kb :
    state k = Returns -> next_event (keyboard k) = Some (None, kb) -> kernel_step k k.

(** ** The invariant *)

Definition decoder_after (scancodes : list Z) : decoder :=
  foldl (fun d c => (decode1 d c).1) released scancodes.

Lemma decode_snoc (d : decoder) (scancodes : list Z) (c : Z) :
  decode d (scancodes ++ [c]) =
  decode d scancodes ++ option_list (decode1 (foldl (fun d c => (decode1 d c).1) d scancodes) c).2.
Proof.
  revert d. induction scancodes as [|s scancodes IH]; intros d; cbn [app decode foldl].
  - destruct (decode1 d c). simpl. by rewrite app_nil_r.
  - destruct (decode1 d s) as [d' ev]. simpl. by rewrite IH, app_assoc.
Qed.

Record kernel_inv (k : kernel) : Prop := {
  ki_keyboard : keyboard_wf (keyboard k);
  ki_decoder : abs (keyboard k) = decoder_after (arrived k);
  ki_editor : represents (editor k) (type_keys blank (handled k));
  ki_typed : typed_ok (type_keys blank (handled k));
  ki_order : handled k ++ contents (INPUT_QUEUE (keyboard k)) `sublist_of` decode released (arrived k);
  ki_dropped : dropped_chars (keyboard k) =
    wrap 64 (Z.of_nat (length (decode released (arrived k))) -
             Z.of_nat (length (handled k ++ contents (INPUT_QUEUE (keyboard k)))));
  ki_clock : clock k = wrap 64 (Z.of_nat (timer_irqs k));
}.

Lemma boot_inv (m : machine M) : kernel_inv (boot m).
Proof.
  constructor; [apply keyboard_new_wf|done|apply editor_new_represents|by repeat constructor|done..].
Qed.

Hypothesis Hfs : fs_wf fs.

Lemma timer_irq_inv (k : kernel) : kernel_inv k -> kernel_inv (timer_irq k).
Proof.
  intros [? ? ? ? ? ? Hc]. constructor; try done.
  change (clock (timer_irq k)) with (tick (clock k)).
  change (timer_irqs (timer_irq k)) with (S (timer_irqs k)). rewrite Hc. unfold tick, wrap.
  rewrite Zplus_mod_idemp_l. f_equal. lia.
Qed.

(** The keyboard interrupt never panics. *)
Lemma key_irq_inv (k : kernel) : kernel_inv k -> exists k', key_irq k = Some k' /\ kernel_inv k'.
Proof.
  intros [Hkb Hdec Hed Hty Hord Hdr Hcl]. unfold key_irq, keyboard_interrupt, mbind, IO_bind.
  assert (Hu : is_uint 8 (in8 0x60 (hardware k)).1).
  { unfold in8. destruct (hw_in8 0x60 (devices (hardware k))). apply Z.mod_pos_bound. lia. }
  destruct (in8 0x60 (hardware k)) as [sc m1]. simpl in Hu |- *.
  destruct (handle_scancode_spec (keyboard k) sc Hkb Hu) as (kb & -> & Hkb' & Habs & Hq).
  cbn [mret IO_ret]. eexists. split; [done|].
  assert (Hd64 : is_uint 64 (dropped (INPUT_QUEUE (keyboard k)))).
  { unfold dropped_chars in Hdr. rewrite Hdr. apply Z.mod_pos_bound. lia. }
  destruct (queue_after_spec _ _ _ (kwf_queue _ Hkb) Hd64 Hq) as (_ & Hc & Hdrop).
  rewrite Hdec in Habs, Hc, Hdrop. unfold decoder_after in *.
  set (ev := (decode1 (foldl (fun d c => (decode1 d c).1) released (arrived k)) sc).2) in *.
  pose proof (contents_le _ (kwf_queue _ Hkb)) as Hle.
  constructor; cbn [keyboard editor handled arrived clock timer_irqs]; try done.
  - rewrite Habs. unfold decoder_after. by rewrite foldl_app.
  - rewrite decode_snoc, Hc. fold ev.
    transitivity (handled k ++ contents (INPUT_QUEUE (keyboard k)) ++ option_list ev).
    + apply sublist_app; [done|apply sublist_take].
    + rewrite app_assoc. by apply sublist_app.
  - unfold dropped_chars in *. rewrite Hdrop, Hdr, decode_snoc, Hc. fold ev. unfold excess, wrap.
    rewrite Zplus_mod_idemp_l. f_equal. rewrite !length_app, length_take, length_app.
    assert (length (option_list ev) <= 1)%nat by (destruct ev; simpl; lia). lia.
Qed.

(** Nor does the shell on the event it takes. *)
Lemma shell_event_inv (k : kernel) (event : KeyEvent) (kb : Keyboard) (later : Z) :
  kernel_inv k -> next_event (keyboard k) = Some (Some event, kb) ->
  exists k', shell_event k later event kb = Some k' /\ kernel_inv k'.
Proof.
  intros [Hkb Hdec Hed Hty Hord Hdr Hcl] Hnext. pose proof Hkb as [Hq Hkeys Hmod].
  unfold next_event in Hnext. destruct (pop_spec _ Hq) as (q' & Hpop & Hq' & Hc & Hdrop).
  rewrite Hpop in Hnext. cbn [mbind option_bind] in Hnext.
  destruct (contents (INPUT_QUEUE (keyboard k))) as [|ev rest] eqn:Hcont; [done|].
  cbn [hd_error List.tl] in *. injection Hnext as -> <-. apply Forall_cons in Hkeys as [Hev Hrest].
  unfold shell_event.
  destruct (handle_event_represents fs system Hfs (readings_at k later) (editor k) _ event Hed)
    as (f1 & e1 & a1 & -> & Hr). cbn [mbind option_bind]. eexists. split; [done|].
  constructor; cbn [keyboard editor handled arrived clock timer_irqs set_queue INPUT_QUEUE]; try done.
  - constructor; cbn [set_queue INPUT_QUEUE MODIFIERS]; [done|by rewrite Hc|done].
  - rewrite type_keys_app. exact Hr.
  - rewrite type_keys_app. by apply type_key_ok.
  - by rewrite Hc, <- app_assoc.
  - unfold dropped_chars in *. cbn [set_queue INPUT_QUEUE]. rewrite Hdrop, Hc, <- app_assoc. exact Hdr.
Qed.

(** C1: The running kernel.  However the timer and keyboard interrupts and the
    shell's steps interleave, and whatever bytes the controller delivers, nothing
    ever panics: in every reachable state each interrupt handler and the shell's
    step on the next event succeed.  The shell works on exactly the keys that were
    typed, in order: the events it has taken followed by those waiting are what
    the reference decoder reads in the scancodes that arrived, except for events
    dropped because 255 were waiting, whose number is the drop counter; the editor
    is in the state those keys produce, and the clock counts the timer
    interrupts. *)
Theorem kernel_is_safe (m : machine M) (k : kernel) :
  rtc kernel_step (boot m) k ->
  (exists k', key_irq k = Some k') /\
  (forall event kb later, next_event (keyboard k) = Some (Some event, kb) ->
     exists k', shell_event k later event kb = Some k') /\
  (exists event kb, next_event (keyboard k) = Some (event, kb)) /\
  represents (editor k) (type_keys blank (handled k)) /\
  Forall printable (text (type_keys blank (handled k))) /\
  let waiting := contents (INPUT_QUEUE (keyboard k)) in
  let typed := decode released (arrived k) in
  handled k ++ waiting `sublist_of` typed /\
  (length (handled k ++ waiting) = length typed -> handled k ++ waiting = typed) /\
  dropped_chars (keyboard k) =
    wrap 64 (Z.of_nat (length typed) - Z.of_nat (length (handled k ++ waiting))) /\
  ticks (clock k) = wrap 64 (Z.of_nat (timer_irqs k)).
Proof.
  intros Hrun. assert (Hinv : kernel_inv k).
  { revert Hrun. apply (rtc_preserves kernel_step kernel_inv); [|apply boot_inv].
    intros k1 k2 [k0 _|k0 k' _ Hk|k0 event kb later k' _ Hn Hs|k0 kb _ _] Hi.
    - by apply timer_irq_inv.
    - destruct (key_irq_inv k0 Hi) as (k3 & Hk3 & ?). by simplify_eq.
    - destruct (shell_event_inv k0 event kb later Hi Hn) as (k3 & Hk3 & ?). by simplify_eq.
    - done. }
  destruct (key_irq_inv k Hinv) as (k1 & Hk1 & _). split; [by eauto|]. split.
  { intros event kb later Hn. destruct (shell_event_inv k event kb later Hinv Hn) as (k2 & Hk2 & _). eauto. }
  destruct Hinv as [Hkb _ Hed Hty Hord Hdr Hcl]. split.
  { unfold next_event. destruct (pop_spec _ (kwf_queue _ Hkb)) as (q & -> & _). cbn. eauto. }
  split; [done|]. split; [apply Hty|]. intros waiting typed. split; [done|]. split; [|done].
  intros Hlen. by apply sublist_same_length.
Qed.
End System.
