(* ===== verification/Boot.v ===== *)
(** * Boot: from the boot information to the shell

    Models [kernel_main] of [kernel/src/main.rs]: every step of bring-up in order,
    each [expect] an error with its message, with all its output run on the serial
    port and on the pixels of the screen.  Parameters are what other crates and the
    machine supply: the screen's memory, the font, the page tables, the text of an
    instruction pointer. *)

From S2P Require Import Gdt.
From S2P Require Import Prelude VirtAddr Storage Str Fat32 Fat32Geometry Fat32Files FatTypes Ports Keyboard.
From S2P Require Import KeyboardController Console Allocator Memory Timer Pic Serial.
From S2P Require Import Framebuffer FramebufferPixels FramebufferText Terminal Interrupts Shell.
#[local] Open Scope Z_scope.

Record BootInfo : Type := {
  framebuffer : option (list Z * FrameBufferInfo);
  ramdisk_addr : option Z;
  ramdisk_len : Z;
  physical_memory_offset : option Z;
  boot_memory_regions : list MemoryRegion;
}.

(** The system [shell::run] starts with; the terminal is what has been printed on so
    far. *)
Record booted (M PT G : Type) : Type := {
  boot_cpu : segments G;
  boot_fs : Fat32 RamDiskBlockDevice;
  boot_system : SystemInfo;
  boot_heap : BumpAllocator;
  boot_tables : PT;
  boot_terminal : terminal M;
}.

Arguments Build_booted {M PT G} _ _ _ _ _ _.
Arguments boot_cpu {M PT G} _.
Arguments boot_fs {M PT G} _.
Arguments boot_system {M PT G} _.
Arguments boot_heap {M PT G} _.
Arguments boot_tables {M PT G} _.
Arguments boot_terminal {M PT G} _.

(** [option.expect(message)] and [result.expect(message)] *)
Definition expect_some {A : Type} (message : str) (o : option A) : outcome str A := ok_or message o.

Definition expect_ok {E A : Type} (message : str) (r : outcome E A) : outcome str A :=
  map_err (fun _ => message) r.

Definition show_bool (b : bool) : str := if b then lit "true" else lit "false".

(** An allocation Rust's [alloc] crate makes; a null pointer is an allocation
    error, which panics. *)
Definition rust_alloc (l : Layout) (a : BumpAllocator) : outcome str BumpAllocator :=
  let '(ptr, a) := alloc a l in if ptr =? 0 then Panic else Ok a.

(** The buffer of a [Vec<u64>] that first grows to hold [n] elements (its capacity
    is at least 4), a [String] of [n] bytes and a boxed [u64]. *)
Definition vec_u64_layout (n : Z) : Layout := {| size := 8 * Z.max 4 n; align := 8 |}.
Definition string_layout (n : Z) : Layout := {| size := n; align := 1 |}.
Definition box_u64_layout : Layout := {| size := 8; align := 8 |}.

Section KernelMain.
Context `{VirtAddrs} `{Font} {M : Type} `{Hardware M} {PT : Type} (containing_frame : Z -> option Z) `{Mapper PT}.
Context {T D G : Type} `{SegmentTables T D G}.

(** Physical memory through the higher-half map, the root of the page tables in
    use and the crate's view of them. *)
Variable ram : Z -> Z.
Variable cr3 : Z.
Variable offset_page_table : Z -> Z -> PT.
Variable instruction_pointer : str.
(** Where the double-fault stack is, and the segment registers at entry. *)
Variables (stack_address : Z) (cpu : segments G).
(** The counters when the last line is printed, interrupts being enabled. *)
Variable early : readings.
Variable early_dropped : Z.

(** The two closures of the volume test.  A panic in a closure leaves no terminal to
    go on with; the listing then ends. *)
Definition boot_list_visitor (entry : DirEntry) (t : option (terminal M)) : bool * option (terminal M) :=
  let t := t ← t;
    console_all
      (println (lit "  " ++ (if is_directory entry then lit "<DIR>" else lit "     ") ++ lit " " ++
                pad_left 7 (decimal (de_size entry)) ++ lit " " ++ entry_name entry)) t in
  (bool_decide (is_Some t), t).

Definition boot_read_visitor (bytes : list Z) (t : option (terminal M)) : option (terminal M) :=
  t ← t; console_all (print (default (lit "<non-UTF-8 file data>") (from_utf8 bytes))) t.

(** The test of the mounted volume. *)
Definition volume_test (data_device : RamDiskBlockDevice) (data_filesystem : Fat32 RamDiskBlockDevice)
    (t : terminal M) : outcome str (terminal M) :=
  t ← or_panic (console_all
    (println (lit "FAT32 data volume mounted: " ++ decimal (sector_count data_device) ++
              lit " sectors, root cluster " ++ decimal (root_cluster data_filesystem))) t);
  let '(listed, t) := list_dir data_filesystem (lit "/") boot_list_visitor (Some t) in
  t ← or_panic t;
  _ ← expect_ok (lit "root directory read failed") listed;
  t ← or_panic (console_all (print (lit "HELLO.TXT: ")) t);
  let '(hello, t) := read_file data_filesystem (lit "HELLO.TXT") boot_read_visitor (Some t) in
  t ← or_panic t;
  _ ← expect_ok (lit "HELLO.TXT read failed") hello;
  or_panic (console_all (println [] ++ serial_println (lit "SOL_OS_M7_OK root_and_hello_read")) t).

(** The default build, in which [run_requested_fault_test] ([Faults.v]) does
    nothing.  [interrupts::init] loads the table [IDT]; the text printed by the
    breakpoint comes from its handler. *)
Definition kernel_main (boot_info : BootInfo) (m : machine M) : outcome str (booted M PT G) :=
  let '(_, m) := serial_init m in
  '(pixels, info) ← expect_some (lit "UEFI did not provide a framebuffer") (framebuffer boot_info);
  let t := {| ports := m; writer := Some (writer_new pixels info) |} in
  t ← or_panic (console_all
    ([ClearScreen] ++ println (lit "Hello from kernel") ++
     println (lit "Sol OS: x86_64 UEFI framebuffer online")) t);
  '(_, cpu) ← or_panic (gdt_init stack_address statics_new cpu);
  t ← or_panic (console_all
    (breakpoint_text instruction_pointer ++
     println (lit "GDT/TSS/IDT initialized; breakpoint handler returned")) t);
  offset ← expect_some (lit "bootloader did not map physical memory") (physical_memory_offset boot_info);
  address ← or_panic (virt_new offset);
  mapper ← or_panic (memory_init cr3 offset_page_table address);
  let frame_allocator := frame_allocator_init (boot_memory_regions boot_info) in
  let '(mapped, frame_allocator) := init_heap containing_frame mapper frame_allocator allocator_new in
  '(tables, allocator) ← expect_ok (lit "heap mapping failed") mapped;
  let values := [3; 1; 4; 1; 5] in
  allocator ← rust_alloc (vec_u64_layout (Z.of_nat (length values))) allocator;
  let greeting := lit "alloc online" in
  allocator ← rust_alloc (string_layout (Z.of_nat (length greeting))) allocator;
  let boxed_value := 42 in
  allocator ← rust_alloc box_u64_layout allocator;
  count ← or_panic (usable_frame_count containing_frame frame_allocator);
  t ← or_panic (console_all
    (println (lit "Heap: " ++ decimal (capacity allocator / 1024) ++ lit " KiB mapped, " ++ decimal count ++
              lit " usable frames (" ++ decimal (allocated_frames frame_allocator) ++
              lit " consumed); " ++ greeting) ++
     serial_println (lit "SOL_OS_M3_OK vec_len=" ++ decimal (Z.of_nat (length values)) ++
                     lit " box=" ++ decimal boxed_value ++
                     lit " heap_used=" ++ decimal (used allocator))) t);
  data_device ← expect_ok (lit "bootloader did not provide the FAT32 ramdisk")
                  (from_boot_info ram (ramdisk_addr boot_info) (ramdisk_len boot_info));
  data_filesystem ← expect_ok (lit "FAT32 mount failed") (mount data_device);
  t ← volume_test data_device data_filesystem t;
  let '(ps2_configured, m) := initialize_controller (ports t) in
  let '(_, m) := initialize_hardware m in
  t ← or_panic (console_all
    (println (lit "PIT and PS/2 IRQ1 enabled; keyboard input will echo below.") ++
     serial_println (lit "SOL_OS_M4_READY ps2_set1=" ++ show_bool ps2_configured ++
                     lit " ticks=" ++ decimal (ticks (ticks_first early)) ++
                     lit " uptime=" ++ decimal (uptime_seconds (ticks_second early)) ++
                     lit " dropped=" ++ decimal early_dropped)) (set_ports t m));
  Ok {| boot_cpu := cpu; boot_fs := data_filesystem;
        boot_system := {| Shell.usable_frames := count;
                          frames_consumed_at_boot := allocated_frames frame_allocator |};
        boot_heap := allocator; boot_tables := tables; boot_terminal := t |}.

(** ** What boot guarantees *)

(** The seven [expect]s that can fail, each with its message and its cause. *)
Inductive boot_failure (boot_info : BootInfo) : str -> Prop :=
| no_framebuffer :
    framebuffer boot_info = None ->
    boot_failure boot_info (lit "UEFI did not provide a framebuffer")
| no_physical_map :
    physical_memory_offset boot_info = None ->
    boot_failure boot_info (lit "bootloader did not map physical memory")
| no_heap offset e :
    physical_memory_offset boot_info = Some offset ->
    (init_heap containing_frame (offset_page_table (offset + cr3) offset)
       (frame_allocator_init (boot_memory_regions boot_info)) allocator_new).1 = Err e ->
    boot_failure boot_info (lit "heap mapping failed")
| no_ramdisk e :
    from_boot_info ram (ramdisk_addr boot_info) (ramdisk_len boot_info) = Err e ->
    boot_failure boot_info (lit "bootloader did not provide the FAT32 ramdisk")
| no_volume d e :
    from_boot_info ram (ramdisk_addr boot_info) (ramdisk_len boot_info) = Ok d -> mount d = Err e ->
    boot_failure boot_info (lit "FAT32 mount failed")
| no_root d fs t e :
    from_boot_info ram (ramdisk_addr boot_info) (ramdisk_len boot_info) = Ok d -> mount d = Ok fs ->
    (list_dir fs (lit "/") boot_list_visitor (Some t)).1 = Err e ->
    boot_failure boot_info (lit "root directory read failed")
| no_hello d fs t e :
    from_boot_info ram (ramdisk_addr boot_info) (ramdisk_len boot_info) = Ok d -> mount d = Ok fs ->
    (read_file fs (lit "HELLO.TXT") boot_read_visitor (Some t)).1 = Err e ->
    boot_failure boot_info (lit "HELLO.TXT read failed").

Context `{!VirtAddrsSpec} `{!FontSpec} `{!MapperSpec containing_frame PT} `{!SegmentTablesSpec T D G}.
Hypothesis containing_frame_spec :
  forall a, 0 <= a < 2 ^ 52 -> containing_frame a = Some (a / FRAME_SIZE * FRAME_SIZE).

Lemma rust_alloc_at (l : Layout) (s e n p q : Z) :
  alloc_attempt l e n = Some (p, q) -> p <> 0 ->
  rust_alloc l {| start := s; end_ := e; next := n |} = Ok {| start := s; end_ := e; next := q |}.
Proof.
  intros Ha Hp. unfold rust_alloc, alloc. cbn [end_ next start]. rewrite Ha.
  by apply Z.eqb_neq in Hp as ->.
Qed.

(** ** The screen and the log of the ports *)

(** A framebuffer whose memory holds its picture, with room for a character inside
    the border. *)
Definition screen_usable (pixels : list Z) (info : FrameBufferInfo) : Prop :=
  screen_ok info (length pixels) /\
  (8 + (get_raster_width + 1) + 8 <= width info)%nat /\ (8 + 16 + 8 <= height info)%nat.

Lemma writer_new_wf (pixels : list Z) (info : FrameBufferInfo) :
  screen_usable pixels info -> writer_wf (writer_new pixels info).
Proof.
  intros (Hs & Hw & Hh). constructor; cbn [writer_new buffer Framebuffer.info column row];
    unfold BORDER, FONT_HEIGHT, LETTER_SPACING in *; (done || lia).
Qed.

Lemma print_more (before acts : list action) (t0 t : terminal M) :
  printed before t0 t -> exists t', console_all acts t = Some t' /\ printed (before ++ acts) t0 t'.
Proof.
  intros Hp. destruct (console_all_printed acts t (pr_wf _ _ _ Hp)) as (t' & Hrun & Hp').
  exists t'. split; [done|]. by eapply printed_app.
Qed.

(** Some output after a known beginning. *)
Definition printed_since (first : list action) (t0 : terminal M) (o : option (terminal M)) : Prop :=
  exists rest t, o = Some t /\ printed (first ++ rest) t0 t.

Lemma list_visitor_prints (first : list action) (t0 : terminal M) (entry : DirEntry) (o : option (terminal M)) :
  printed_since first t0 o -> printed_since first t0 (boot_list_visitor entry o).2.
Proof.
  intros (rest & t & -> & Hp). unfold boot_list_visitor. cbn [mbind option_bind snd].
  destruct (print_more _ (println (lit "  " ++ (if is_directory entry then lit "<DIR>" else lit "     ") ++ lit " " ++
    pad_left 7 (decimal (de_size entry)) ++ lit " " ++ entry_name entry)) _ _ Hp) as (t' & Hrun & Hp').
  rewrite <- app_assoc in Hp'. by do 2 eexists.
Qed.

Lemma read_visitor_prints (first : list action) (t0 : terminal M) (bytes : list Z) (o : option (terminal M)) :
  printed_since first t0 o -> printed_since first t0 (boot_read_visitor bytes o).
Proof.
  intros (rest & t & -> & Hp). unfold boot_read_visitor. cbn [mbind option_bind].
  destruct (print_more _ (print (default (lit "<non-UTF-8 file data>") (from_utf8 bytes))) _ _ Hp) as (t' & Hrun & Hp').
  rewrite <- app_assoc in Hp'. by do 2 eexists.
Qed.

Lemma filter_all {A : Type} (P : A -> Prop) `{!forall x, Decision (P x)} (l : list A) :
  Forall P l -> filter P l = l.
Proof. intros Hl. induction Hl as [|x l Hx _ IH]; [done|]. by rewrite filter_cons_True, IH. Qed.

(** What was written to the keyboard controller. *)
Definition keyboard_writes (evs : list port_event) : list (Z * Z) :=
  filter (fun w => w.1 = 0x60 \/ w.1 = 0x64) (writes evs).

(** The state the ports have been brought to: the interrupt controllers, whatever was
    in them, let exactly the lines through that have a handler; the keyboard
    controller has been sent its setup, and nothing else, or never got ready for it. *)
Definition devices_ready (evs : list port_event) : Prop :=
  (forall pics, serves (fold_left pic_write (writes evs) pics)) /\
  exists command_byte, keyboard_writes evs `prefix_of` setup_writes command_byte /\
    (keyboard_writes evs = setup_writes command_byte \/
     exists until after, evs = until ++ after /\ gave_up until).

Lemma serial_init_ports (m : machine M) :
  exists evs, log (serial_init m).2 = log m ++ evs /\ Forall (fun w => 0x3f8 <= w.1 < 0x400) (writes evs).
Proof.
  eexists. split; [unfold serial_init, mbind, IO_bind, out8; simpl; rewrite <- !app_assoc; done|].
  cbn. unfold COM1. repeat (constructor; [cbn; lia|]). constructor.
Qed.

Lemma serial_ports_quiet (evs : list port_event) :
  Forall (fun w => 0x3f8 <= w.1 < 0x400) (writes evs) ->
  keyboard_writes evs = [] /\ Forall (fun w => w.1 ∉ [0x20; 0x21; 0xa0; 0xa1]) (writes evs).
Proof.
  intros Hev. split.
  - unfold keyboard_writes. induction Hev as [|w ws Hw _ IH]; [done|].
    rewrite filter_cons_False by lia. exact IH.
  - eapply Forall_impl; [exact Hev|]. intros w Hw. cbn beta in Hw. rewrite !not_elem_of_cons, elem_of_nil. lia.
Qed.

Lemma devices_ready_log (e1 ek eh e2 : list port_event) (ok : bool) :
  Forall (fun w => 0x3f8 <= w.1 < 0x400) (writes e1) -> Forall (fun w => 0x3f8 <= w.1 < 0x400) (writes e2) ->
  setup_result ok ek -> (ok = false -> gave_up ek) ->
  Forall (fun w => w.1 ∈ [0x20; 0x21; 0xa0; 0xa1; 0x40; 0x43]) (writes eh) ->
  (forall pics, serves (fold_left pic_write (writes eh) pics)) ->
  devices_ready (e1 ++ ek ++ eh ++ e2).
Proof.
  intros [K1 _]%serial_ports_quiet [K2 Q2]%serial_ports_quiet (cb & [_ Hw _] & _ & Hok) Hgave Hh Hserves. split.
  - intros pics. rewrite !writes_app, !fold_left_app. rewrite (pic_write_elsewhere (writes e2)) by done. apply Hserves.
  - assert (Hkb : keyboard_writes (e1 ++ ek ++ eh ++ e2) = writes ek).
    { unfold keyboard_writes in *. rewrite !writes_app, !filter_app, K1, K2.
      assert (Hek : filter (fun w : Z * Z => w.1 = 0x60 \/ w.1 = 0x64) (writes ek) = writes ek).
      { apply filter_all. rewrite Hw. apply Forall_take. unfold setup_writes, PS2_DATA, PS2_STATUS_COMMAND.
        repeat (constructor; [cbn; auto|]). constructor. }
      assert (Heh : filter (fun w : Z * Z => w.1 = 0x60 \/ w.1 = 0x64) (writes eh) = []).
      { clear -Hh. induction Hh as [|w ws Hw _ IH]; [done|]. rewrite filter_cons_False; [exact IH|].
        rewrite !elem_of_cons, elem_of_nil in Hw. lia. }
      by rewrite Hek, Heh, app_nil_r. }
    exists cb. rewrite Hkb. split; [rewrite Hw; apply prefix_take|]. destruct ok.
    + left. rewrite Hw, (proj1 Hok eq_refl). done.
    + right. exists (e1 ++ ek), (eh ++ e2). rewrite <- app_assoc. split; [done|]. by apply gave_up_app, Hgave.
Qed.

(** ** The result *)

Definition first_lines : list action :=
  [ClearScreen; Print (lit "Hello from kernel" ++ [0x0a]); Print (lit "Sol OS: x86_64 UEFI framebuffer online" ++ [0x0a])].

(** The terminal the shell gets: the screen is the framebuffer, cleared and printed on
    without a trap, and the devices have been set up. *)
Definition terminal_ready (boot_info : BootInfo) (m : machine M) (t : terminal M) : Prop :=
  (exists pixels info rest w, framebuffer boot_info = Some (pixels, info) /\
     for_each (first_lines ++ rest) fb_action (writer_new pixels info) = Some w /\
     writer t = Some w /\ writer_wf w) /\
  exists evs, log (ports t) = log m ++ evs /\ devices_ready evs.

Lemma terminal_ready_after (boot_info : BootInfo) (m m1 : machine M) (pixels : list Z) (info : FrameBufferInfo)
    (rest last : list action) (t t' : terminal M) :
  framebuffer boot_info = Some (pixels, info) -> m1 = (serial_init m).2 ->
  printed (first_lines ++ rest) {| ports := m1; writer := Some (writer_new pixels info) |} t ->
  printed last (set_ports t (initialize_hardware (initialize_controller (ports t)).2).2) t' ->
  terminal_ready boot_info m t'.
Proof.
  intros Hfb -> Hp1 Hp2. split.
  - destruct Hp1 as [_ _ W1 P1], Hp2 as [Hwf _ W2 P2]. cbn [set_ports writer] in *.
    destruct (P2 (P1 ltac:(by eexists))) as [w Hw]. exists pixels, info, (rest ++ last), w.
    rewrite app_assoc, for_each_app. cbn [mbind option_bind] in W1. rewrite Hw in W2.
    split; [done|]. split; [|split; [done|by apply Hwf]].
    destruct (for_each (first_lines ++ rest) fb_action (writer_new pixels info)) as [w1|]; rewrite W1 in W2; [|done].
    cbn [mbind option_bind] in *. done.
  - destruct Hp1 as [_ (e1 & L1 & [[_ S1 _ _] _]) _ _], Hp2 as [_ (e2 & L2 & [[_ S2 _ _] _]) _ _].
    cbn [set_ports ports] in *.
    destruct (serial_init_ports m) as (e0 & L0 & S0).
    destruct (initialize_controller_log (ports t)) as (ek & Lk & Sk & Gk).
    destruct (initialize_hardware_pics (initialize_controller (ports t)).2) as (eh & Lh & Sh & Ph).
    exists ((e0 ++ e1) ++ ek ++ eh ++ e2). split; [by rewrite L2, Lh, Lk, L1, L0, <- !app_assoc|].
    assert (Hcom : forall e, Forall (fun w : Z * Z => w.1 = COM1) (writes e) ->
              Forall (fun w => 0x3f8 <= w.1 < 0x400) (writes e)).
    { intros e He. eapply Forall_impl; [exact He|]. unfold COM1. cbn beta. lia. }
    eapply devices_ready_log; [rewrite writes_app; apply Forall_app; auto|auto|exact Sk|exact Gk|exact Sh|].
    intros pics. by apply initialized_serves, Ph.
Qed.

(** The volume test prints and returns, or fails for the volume. *)
Lemma volume_test_result (first : list action) (d : RamDiskBlockDevice) (fs : Fat32 RamDiskBlockDevice)
    (t0 t : terminal M) (rest : list action) :
  fs_wf fs -> printed (first ++ rest) t0 t ->
  match volume_test d fs t with
  | Ok t' =>
      (exists t, (list_dir fs (lit "/") boot_list_visitor (Some t)).1 = Ok tt) /\
      (exists t size, (read_file fs (lit "HELLO.TXT") boot_read_visitor (Some t)).1 = Ok size) /\
      printed_since first t0 (Some t')
  | Err message =>
      message = lit "root directory read failed" /\
        (exists t e, (list_dir fs (lit "/") boot_list_visitor (Some t)).1 = Err e) \/
      message = lit "HELLO.TXT read failed" /\
        (exists t e, (read_file fs (lit "HELLO.TXT") boot_read_visitor (Some t)).1 = Err e)
  | Panic => False
  end.
Proof.
  intros Hfs P3. unfold volume_test.
  assert (Hnext : forall acts rest t, printed (first ++ rest) t0 t ->
            exists t', console_all acts t = Some t' /\ printed (first ++ (rest ++ acts)) t0 t').
  { intros acts rest' t' Hp. rewrite app_assoc. by apply print_more. }
  edestruct Hnext as (t4 & -> & P4); [exact P3|]. cbn [or_panic mbind outcome_bind].
  pose proof (list_dir_no_panic fs (lit "/") boot_list_visitor (Some t4) Hfs) as Hls.
  assert (Hlt : printed_since first t0 (list_dir fs (lit "/") boot_list_visitor (Some t4)).2).
  { apply (list_dir_typed (printed_since first t0)); [|done|by do 2 eexists].
    intros entry o _. apply list_visitor_prints. }
  destruct (list_dir fs (lit "/") boot_list_visitor (Some t4)) as [listed o] eqn:Hlist.
  cbn [snd] in Hlt. destruct Hlt as (rest5 & t5 & -> & P5). cbn [or_panic mbind outcome_bind].
  destruct listed as [[]|e|]; [|left; split; [done|]; exists t4, e; by rewrite Hlist|done].
  cbn [expect_ok map_err mbind outcome_bind].
  edestruct Hnext as (t6 & -> & P6); [exact P5|]. cbn [or_panic mbind outcome_bind].
  pose proof (read_file_no_panic fs (lit "HELLO.TXT") boot_read_visitor (Some t6) Hfs) as Hrd.
  assert (Hrt : printed_since first t0 (read_file fs (lit "HELLO.TXT") boot_read_visitor (Some t6)).2).
  { apply (read_file_typed (printed_since first t0)); [|done|by do 2 eexists].
    intros chunk o _. apply read_visitor_prints. }
  destruct (read_file fs (lit "HELLO.TXT") boot_read_visitor (Some t6)) as [hello o] eqn:Hread.
  cbn [snd] in Hrt. destruct Hrt as (rest7 & t7 & -> & P7). cbn [or_panic mbind outcome_bind].
  destruct hello as [size|e|]; [|right; split; [done|]; exists t6, e; by rewrite Hread|done].
  cbn [expect_ok map_err mbind outcome_bind].
  edestruct Hnext as (t8 & -> & P8); [exact P7|]. cbn [or_panic].
  split; [exists t4; by rewrite Hlist|]. split; [exists t6, size; by rewrite Hread|]. by do 2 eexists.
Qed.

(** What the shell starts with: the file system is the one of the RAM disk. *)
Lemma kernel_main_result (boot_info : BootInfo) (m : machine M) :
  regions_wf (boot_memory_regions boot_info) -> 0 <= ramdisk_len boot_info -> 0 <= cr3 ->
  (forall offset, physical_memory_offset boot_info = Some offset ->
     canonical offset /\ canonical (offset + cr3)) ->
  (forall pixels info, framebuffer boot_info = Some (pixels, info) -> screen_usable pixels info) ->
  canonical stack_address -> canonical (stack_address + DOUBLE_FAULT_STACK_SIZE) ->
  match kernel_main boot_info m with
  | Ok b =>
      (exists d, from_boot_info ram (ramdisk_addr boot_info) (ramdisk_len boot_info) = Ok d /\ mount d = Ok (boot_fs b)) /\
      interrupt_stack (boot_cpu b) DOUBLE_FAULT_IST_INDEX = Some (stack_address + DOUBLE_FAULT_STACK_SIZE) /\
      fs_wf (boot_fs b) /\
      (exists t, (list_dir (boot_fs b) (lit "/") boot_list_visitor (Some t)).1 = Ok tt) /\
      (exists t size, (read_file (boot_fs b) (lit "HELLO.TXT") boot_read_visitor (Some t)).1 = Ok size) /\
      boot_heap b = {| start := HEAP_START; end_ := HEAP_START + HEAP_SIZE; next := HEAP_START + 64 |} /\
      Shell.usable_frames (boot_system b) =
        Z.of_nat (length (frames (boot_memory_regions boot_info))) /\
      512 <= frames_consumed_at_boot (boot_system b) <= 2048 /\
      terminal_ready boot_info m (boot_terminal b)
  | Err message => boot_failure boot_info message
  | Panic => False
  end.
Proof.
  intros Hregions Hlen Hcr3 Hmap Hscreen Hst1 Hst2. unfold kernel_main. destruct (serial_init m) as [[] m1] eqn:Hm1.
  destruct (framebuffer boot_info) as [[pixels i]|] eqn:Hfb; [|by apply no_framebuffer].
  cbn [expect_some ok_or mbind outcome_bind]. set (t0 := {| ports := m1; writer := Some (writer_new pixels i) |}).
  assert (Hwf0 : terminal_wf t0) by (intros w [= <-]; by apply writer_new_wf, Hscreen).
  destruct (console_all_printed first_lines t0 Hwf0) as (t1 & Hrun1 & P1).
  change ([ClearScreen] ++ _) with first_lines. rewrite Hrun1. clear Hrun1. cbn [or_panic mbind outcome_bind].
  destruct (gdt_init_stack (T := T) stack_address cpu Hst1 Hst2) as (st & cpu' & -> & Hist).
  cbn [or_panic mbind outcome_bind]. rewrite <- (app_nil_r first_lines) in P1.
  assert (Hnext : forall acts rest t, printed (first_lines ++ rest) t0 t ->
            exists t', console_all acts t = Some t' /\ printed (first_lines ++ (rest ++ acts)) t0 t').
  { intros acts rest t Hp. rewrite app_assoc. by apply print_more. }
  edestruct Hnext as (t2 & -> & P2); [exact P1|]. cbn [or_panic mbind outcome_bind].
  destruct (physical_memory_offset boot_info) as [offset|] eqn:Hoff; [|by apply no_physical_map].
  destruct (Hmap offset eq_refl) as [Hc1 Hc2]. unfold memory_init, active_level_4_table.
  cbn [expect_some ok_or mbind outcome_bind]. rewrite virt_new_canonical by done.
  cbn [or_panic mbind outcome_bind]. rewrite virt_add_canonical by done.
  cbn [or_panic option_bind mbind outcome_bind].
  pose proof (init_heap_result containing_frame containing_frame_spec _ Hregions
    (offset_page_table (offset + cr3) offset)) as Hheap.
  destruct (init_heap containing_frame (offset_page_table (offset + cr3) offset)
              (frame_allocator_init (boot_memory_regions boot_info)) allocator_new) as [mapped fa] eqn:Hrun.
  destruct mapped as [[tables a]|e|]; [|apply (no_heap _ _ e Hoff); by rewrite Hrun|done].
  destruct Hheap as (-> & Hr & Hcount). cbn [expect_ok map_err mbind outcome_bind].
  do 3 (erewrite rust_alloc_at by done; cbn [mbind outcome_bind]).
  rewrite usable_frame_count_spec, Hr by (try done; by rewrite Hr). cbn [or_panic mbind outcome_bind].
  edestruct Hnext as (t3 & -> & P3); [exact P2|]. cbn [or_panic mbind outcome_bind].
  pose proof (from_boot_info_no_panic ram (ramdisk_addr boot_info) (ramdisk_len boot_info)) as Hdp.
  destruct (from_boot_info _ _ _) as [d|e|] eqn:Hd; [|by apply (no_ramdisk _ e)|done].
  cbn [expect_ok map_err mbind outcome_bind].
  pose proof (from_boot_info_ok _ _ _ _ Hlen Hd) as Hok. change (device_ok d) in Hok.
  pose proof (proj1 (mount_never_panics d Hok)) as Hmp.
  destruct (mount d) as [fs|e|] eqn:Hmount; [|by apply (no_volume _ d e)|done].
  cbn [expect_ok map_err mbind outcome_bind]. destruct (mount_establishes_wf d fs Hok Hmount) as (Hfs & _ & _).
  pose proof (volume_test_result first_lines d fs t0 t3 _ Hfs P3) as Hvt.
  destruct (volume_test d fs t3) as [t8|message|]; cbn [mbind outcome_bind]; [| |done].
  2: { destruct Hvt as [(-> & t & e & He)|(-> & t & e & He)]; [by apply (no_root _ d fs t e)|by apply (no_hello _ d fs t e)]. }
  destruct Hvt as (Hlist & Hread & rest8 & t8' & [= <-] & P8).
  destruct (initialize_controller (ports t8)) as [ps2 m2] eqn:Hps2.
  destruct (initialize_hardware m2) as [[] m3] eqn:Hhw.
  assert (Hm3 : m3 = (initialize_hardware (initialize_controller (ports t8)).2).2) by by rewrite Hps2; cbn; rewrite Hhw.
  match goal with |- context [console_all ?acts (set_ports t8 m3)] =>
    destruct (console_all_printed acts (set_ports t8 m3)) as (t9 & -> & P9) end.
  { intros w Hw. by apply (pr_wf _ _ _ P8). }
  cbn [or_panic mbind outcome_bind].
  cbn [boot_cpu boot_fs boot_heap boot_system boot_terminal Shell.usable_frames frames_consumed_at_boot].
  split; [by exists d|]. split; [exact Hist|]. split; [done|]. do 5 (split; [done|]).
  rewrite Hm3 in P9. eapply terminal_ready_after; [exact Hfb| |exact P8|exact P9]. by rewrite Hm1.
Qed.

End KernelMain.
