(* ===== verification/KernelDemo.v ===== *)
(** * KernelDemo: boot and the running kernel on a concrete machine

    A machine whose keyboard controller answers and whose serial line is ready, with
    a small screen, for the start of the kernel; one whose controller delivers a key
    press takes its interrupts and hands the key to the shell. *)

From S2P Require Import Gdt.
From S2P Require Import Prelude VirtAddr Storage Str DemoVolume Fat32 Fat32Geometry Fat32Files Fat32Demo Ring.
From S2P Require Import Ports Keyboard KeyboardQueue KeyboardDecode KeyboardController Console Allocator.
From S2P Require Import Memory Timer Pic Interrupts Serial Framebuffer FramebufferPixels FramebufferText Terminal History Shell ShellEditor ShellDemo.
From S2P Require Import Kernel Boot.
#[local] Open Scope Z_scope.

(** ** A machine to boot *)

(** A font of vertical strokes. *)
#[export] Instance stroke_font : Font := {
  get_raster_width := 1;
  get_raster c := if c <? 0x80 then Some {| raster_w := 1; raster := replicate 16 [255] |} else None;
}.

#[export] Instance stroke_font_spec : FontSpec.
Proof.
  constructor; [|by eexists]. intros c g. cbn. destruct (c <? 0x80); [|done]. intros [= <-].
  split; [done|]. split; [done|]. apply (bool_decide_unpack _). by vm_compute.
Qed.

Definition demo_boot_info : BootInfo := {|
  framebuffer := Some (replicate 1280 0,
    {| width := 40; height := 32; bytes_per_pixel := 1; stride := 40; pixel_format := U8 |});
  ramdisk_addr := Some demo_base;
  ramdisk_len := 66043 * 512;
  physical_memory_offset := Some 0;
  boot_memory_regions := demo_regions;
|}.

Lemma demo_screen_usable (pixels : list Z) (info : FrameBufferInfo) :
  framebuffer demo_boot_info = Some (pixels, info) -> screen_usable pixels info.
Proof. intros [= <- <-]. split; [constructor|split]; apply Nat.leb_le; by vm_compute. Qed.

Definition demo_cpu : segments (list demo_descriptor) :=
  {| gdtr := None; cs := 0; ds := 0; es := 0; ss := 0; tr := 0 |}.

(** The keyboard controller and a serial line that is always ready. *)
Record board : Type := { controller : i8042 }.

#[export] Instance board_hardware : Hardware board := {
  hw_in8 port b :=
    if port =? 0x3fd then (0x60, b)
    else let '(v, c) := hw_in8 port (controller b) in (v, {| controller := c |});
  hw_out8 port v b :=
    if (port =? 0x60) || (port =? 0x64) then {| controller := hw_out8 port v (controller b) |} else b;
  hw_in32 _ b := (0, b);
  hw_out32 _ _ b := b;
}.

Definition demo_machine : machine board :=
  {| devices := {| controller := {| config := 0x47; KeyboardController.output := None; expecting := false |} |};
     log := [] |}.

(** ** One key *)

(** A controller that delivers the press of the A key. *)
Inductive a_key : Type := AKey.

#[export] Instance a_key_hardware : Hardware a_key := {
  hw_in8 _ m := (0x1e, m);
  hw_out8 _ _ m := m;
  hw_in32 _ m := (0, m);
  hw_out32 _ _ m := m;
}.

Definition demo_start : kernel := boot {| devices := AKey; log := [] |}.

(** The timer fires, the key arrives, and the shell takes the event. *)
Definition demo_kernel_run : option kernel :=
  k ← key_irq (timer_irq demo_start);
  '(event, kb) ← next_event (keyboard k);
  event ← event;
  shell_event demo_fs demo_system (heap_now demo_readings) k 2 event kb.

Lemma demo_kernel_steps (k : kernel) :
  demo_kernel_run = Some k ->
  rtc (kernel_step demo_fs demo_system (heap_now demo_readings)) demo_start k /\
  handled k = [Key.Character 0x61].
Proof.
  unfold demo_kernel_run. intros Hrun.
  destruct (key_irq (timer_irq demo_start)) as [k1|] eqn:Hk1; [|done]. cbn [mbind option_bind] in Hrun.
  assert (Hr : state k1 = Returns /\ handled k1 = [] /\
               (next_event (keyboard k1)) ≫= (fun x => x.1) = Some (Key.Character 0x61)).
  { vm_compute in Hk1. injection Hk1 as <-. by vm_compute. }
  destruct Hr as (Hret & Hh & Hev). destruct (next_event (keyboard k1)) as [[ev kb]|] eqn:Hn; [|done].
  cbn [mbind option_bind] in Hrun, Hev. cbn in Hev. subst ev. cbn [mbind option_bind] in Hrun. split.
  - eapply rtc_l; [by apply (step_timer _ _ _ demo_start)|].
    eapply rtc_l; [by eapply step_key|]. apply rtc_once. by eapply step_event.
  - unfold shell_event in Hrun. destruct (handle_event _ _ _ _ _) as [[[f e] acts]|]; [|done].
    injection Hrun as <-. cbn [handled]. by rewrite Hh.
Qed.

Lemma kernel_is_safe_witness :
  exists k, rtc (kernel_step demo_fs demo_system (heap_now demo_readings)) demo_start k /\
    represents (editor k) (type_keys blank [Key.Character 0x61]) /\
    exists k', key_irq k = Some k'.
Proof.
  destruct demo_kernel_run as [k|] eqn:Hrun; [|by vm_compute in Hrun].
  destruct (demo_kernel_steps k Hrun) as [Hsteps Hhandled].
  destruct (kernel_is_safe demo_fs demo_system (heap_now demo_readings) demo_fs_wf
              {| devices := AKey; log := [] |} k Hsteps) as (Hirq & _ & _ & Hrep & _).
  exists k. split; [exact Hsteps|]. rewrite Hhandled in Hrep. split; [exact Hrep|exact Hirq].
Defined.
