(* ===== verification/Loader.v ===== *)
(** * Loader: the data partition the boot loader hands to the kernel

    Models the part of [vendor/bootloader/uefi/src/main.rs] the project added to
    its boot loader: it finds the GPT partition named sol-data, reads all of it
    through the firmware's Block I/O into pages of its own, and passes the pages to
    the kernel in the ramdisk fields.  UEFI boot services are the class [Firmware];
    [FirmwareSpec] states what Block I/O documents. *)

From S2P Require Import Prelude Storage Console.
#[local] Open Scope Z_scope.

Inductive BootMode : Type := Disk | Tftp.

(** A GUID as the 128-bit number its text denotes. *)
Definition SOL_DATA_PARTITION_TYPE : Z := 0xebd0a0a2b9e5443387c068b6b72699c7.
Definition SOL_DATA_PARTITION_NAME : list Z := lit "sol-data".
Definition PAGE_SIZE : Z := 4096.
Definition SOL_DATA_BYTES : Z := 64 * 1024 * 1024.
Definition BLOCK_IO_CHUNK_BYTES : Z := 64 * 1024.

(** The fields of [GptPartitionEntry] that are looked at; the name is UCS-2. *)
Record GptPartitionEntry : Type := { partition_type_guid : Z; partition_name : list Z }.

Record BlockIOMedia : Type := {
  media_id : Z;
  is_media_present : bool;
  is_logical_partition : bool;
  block_size : Z;
  io_align : Z;
  last_block : Z;
}.

(** Boot services, for one boot: [None] is an error status.  A block is read into
    a buffer of the given size, and its bytes are returned. *)
Class Firmware (U : Type) : Type := {
  locate_partition_handles : U -> option (list Z);
  open_partition_info : U -> Z -> option (option GptPartitionEntry);
  open_block_io : U -> Z -> option BlockIOMedia;
  allocate_pages : U -> Z -> option Z;
  read_blocks : U -> Z -> Z -> Z -> Z -> option (list Z);
}.

(** The test for a name too short makes the indexing below it total. *)
Definition is_sol_data_partition_entry (entry : GptPartitionEntry) : bool :=
  let n := length SOL_DATA_PARTITION_NAME in
  let name := partition_name entry in
  if negb (partition_type_guid entry =? SOL_DATA_PARTITION_TYPE) then false
  else if (length name <=? n)%nat then false
  else forallb (fun ce => ce.1 =? ce.2) (zip (take n name) SOL_DATA_PARTITION_NAME) &&
       (nth n name 0 =? 0).

(** [data.chunks_mut(BLOCK_IO_CHUNK_BYTES).enumerate()]: the index and size of
    every chunk. *)
Definition chunk_spans (byte_len : Z) : list (Z * Z) :=
  map (fun i => (i, Z.min BLOCK_IO_CHUNK_BYTES (byte_len - i * BLOCK_IO_CHUNK_BYTES)))
    (seqZ 0 ((byte_len + BLOCK_IO_CHUNK_BYTES - 1) / BLOCK_IO_CHUNK_BYTES)).

(** Bytes stored in memory from an address on. *)
Definition store_bytes (m : Z -> Z) (address : Z) (bytes : list Z) : Z -> Z :=
  fun x => if (address <=? x) && (x <? address + Z.of_nat (length bytes))
           then nth (Z.to_nat (x - address)) bytes 0 else m x.

Section Load.
Context {U : Type} `{Firmware U} (st : U).

(** The result of the function: the slice it returns (address and length), with
    the memory it leaves. *)
Abbreviation loaded := (option (Z * Z) * (Z -> Z))%type.

Definition load_chunk (handle : Z) (media : BlockIOMedia) (data_ptr : Z) (span : Z * Z) (m : Z -> Z)
  : control loaded (Z -> Z) :=
  let '(index, size) := span in
  match checked_mul 64 index (BLOCK_IO_CHUNK_BYTES / block_size media) with
  | None => Break (None, m)
  | Some lba =>
      match read_blocks st handle (media_id media) lba size with
      | None => Break (None, m)
      | Some bytes => Continue (store_bytes m (data_ptr + index * BLOCK_IO_CHUNK_BYTES) bytes)
      end
  end.

Definition unsupported_geometry (media : BlockIOMedia) (byte_len : Z) : bool :=
  negb (is_media_present media) || negb (is_logical_partition media) || negb (block_size media =? 512) ||
  (PAGE_SIZE <? io_align media) || negb (byte_len =? SOL_DATA_BYTES).

(** The geometry tests and the pages for the data; [None] stands for every [?] and
    early return. *)
Definition prepare_buffer (handle : Z) : option (BlockIOMedia * Z * Z) :=
  media ← open_block_io st handle;
  block_count ← checked_add 64 (last_block media) 1;
  byte_len ← checked_mul 64 block_count (block_size media);
  if unsupported_geometry media byte_len then None
  else
    let page_count := byte_len / PAGE_SIZE in
    data_ptr ← allocate_pages st page_count;
    Some (media, byte_len, data_ptr).

Definition load_partition (handle : Z) (m : Z -> Z) : loaded :=
  match prepare_buffer handle with
  | None => (None, m)
  | Some (media, byte_len, data_ptr) =>
      match for_in (load_chunk handle media data_ptr) (chunk_spans byte_len) m with
      | Break r => r
      | Continue m => (Some (data_ptr, byte_len), m)
      end
  end.

Definition try_handle (handle : Z) (m : Z -> Z) : control loaded (Z -> Z) :=
  match open_partition_info st handle with
  | None => Continue m
  | Some entry =>
      if negb (from_option is_sol_data_partition_entry false entry) then Continue m
      else Break (load_partition handle m)
  end.

Definition load_sol_data_partition_from_disk (m : Z -> Z) : loaded :=
  match locate_partition_handles st with
  | None => (None, m)
  | Some handles =>
      match for_in try_handle handles m with
      | Break r => r
      | Continue m => (None, m)
      end
  end.

Definition load_sol_data_partition (boot_mode : BootMode) (m : Z -> Z) : loaded :=
  match boot_mode with
  | Disk => load_sol_data_partition_from_disk m
  | Tftp => (None, m)
  end.
End Load.

(** The ramdisk fields of the boot information: [ramdisk_addr], [ramdisk_len]. *)
Definition ramdisk_fields (ramdisk : option (Z * Z)) : option Z * Z :=
  match ramdisk with
  | Some (address, len) => (Some address, len)
  | None => (None, 0)
  end.

(** ** What is read *)

(** [EFI_BLOCK_IO_PROTOCOL.ReadBlocks] fills the whole buffer with the bytes of the
    medium from block [lba] on, or fails. *)
Class FirmwareSpec (U : Type) `{Firmware U} : Type := {
  medium : U -> Z -> Z -> Z;
  medium_byte : forall st handle offset, is_uint 8 (medium st handle offset);
  read_blocks_spec : forall st handle media id lba size bytes,
    open_block_io st handle = Some media -> read_blocks st handle id lba size = Some bytes ->
    Z.of_nat (length bytes) = size /\
    forall i, 0 <= i < size -> nth (Z.to_nat i) bytes 0 = medium st handle (lba * block_size media + i);
}.

(** The partition the project's image has: this type and this name, terminated. *)
Lemma is_sol_data_iff (entry : GptPartitionEntry) :
  is_sol_data_partition_entry entry = true <->
  partition_type_guid entry = SOL_DATA_PARTITION_TYPE /\
  exists rest, partition_name entry = lit "sol-data" ++ 0 :: rest.
Proof.
  destruct entry as [type name]. unfold is_sol_data_partition_entry.
  cbn [partition_type_guid partition_name].
  change (length SOL_DATA_PARTITION_NAME) with 8%nat. change SOL_DATA_PARTITION_NAME with (lit "sol-data").
  destruct (Z.eqb_spec type SOL_DATA_PARTITION_TYPE) as [->|Hne]; cbn [negb]; [|by split; [|intros [? _]]].
  destruct (Nat.leb_spec (length name) 8) as [Hshort|Hlong].
  { split; [done|]. intros (_ & rest & ->). simpl in Hshort. lia. }
  split.
  - intros [Hall Hend]%andb_true_iff. split; [done|].
    do 9 (destruct name as [|? name]; [simpl in Hlong; lia|]).
    exists name. cbn in Hall, Hend |- *. to_prop. repeat match goal with Hx : (_ && _) = true |- _ => apply andb_true_iff in Hx as [? ?] end.
    to_prop. by subst.
  - by intros (_ & rest & ->).
Qed.

Lemma store_bytes_spec (m : Z -> Z) (address : Z) (bytes : list Z) (x : Z) :
  store_bytes m address bytes x =
  if decide (address <= x < address + Z.of_nat (length bytes))
  then nth (Z.to_nat (x - address)) bytes 0 else m x.
Proof.
  unfold store_bytes.
  destruct (Z.leb_spec address x), (Z.ltb_spec x (address + Z.of_nat (length bytes))); simpl;
    by case_decide; try lia.
Qed.

Lemma ramdisk_sector_bytes (d : RamDiskBlockDevice) (lba : Z) :
  ramdisk_ok d -> 0 <= lba < 2 ^ 32 -> 512 * lba + 512 <= len (bytes d) ->
  ramdisk_read_sector d lba =
    Ok (map (fun i => load8 (mem (bytes d)) (Storage.ptr (bytes d) + i)) (seqZ (512 * lba) 512)).
Proof.
  intros Hok Hlba Hend.
  destruct (ramdisk_read_in_range d lba Hok ltac:(done)) as [-> _].
  - unfold ramdisk_sector_count. change (Z.of_nat SECTOR_SIZE) with 512. zlia.
  - unfold slice_get. decide_tests. cbn [andb ok_or].
    by replace (512 * lba + 512 - 512 * lba) with 512 by lia.
Qed.

Section Correct.
Context {U : Type} `{FirmwareSpec U} (st : U).

Definition is_sol_data (handle : Z) : bool :=
  from_option (from_option is_sol_data_partition_entry false) false (open_partition_info st handle).

(** The first of the handles that is a sol-data partition. *)
Definition chosen (handle : Z) : Prop :=
  exists handles before after, locate_partition_handles st = Some handles /\
    handles = before ++ handle :: after /\ is_sol_data handle = true /\
    Forall (fun h => is_sol_data h = false) before.

(** A medium of 131072 blocks of 512 bytes. *)
Definition sol_data_geometry (media : BlockIOMedia) : Prop :=
  is_media_present media = true /\ is_logical_partition media = true /\ block_size media = 512 /\
  io_align media <= 4096 /\ last_block media = 131071.

(** What the loader needs of a partition: its geometry, pages for 64 MiB at [ptr],
    and every read to succeed. *)
Definition readable (h ptr : Z) : Prop :=
  exists media, open_block_io st h = Some media /\ sol_data_geometry media /\
    allocate_pages st 16384 = Some ptr /\
    forall i, 0 <= i < 1024 -> is_Some (read_blocks st h (media_id media) (128 * i) 65536).

Lemma for_in_try (handles : list Z) (m : Z -> Z) :
  for_in (try_handle st) handles m =
  match find is_sol_data handles with
  | Some h => Break (load_partition st h m)
  | None => Continue m
  end.
Proof.
  induction handles as [|h handles IH]; [done|]. cbn [for_in find]. unfold try_handle at 1, is_sol_data at 1.
  destruct (open_partition_info st h) as [entry|]; [|exact IH]. cbn [from_option].
  by destruct (from_option is_sol_data_partition_entry false entry).
Qed.

Lemma find_chosen (h : Z) :
  chosen h <-> exists handles, locate_partition_handles st = Some handles /\ find is_sol_data handles = Some h.
Proof.
  unfold chosen. setoid_rewrite find_first. split.
  - intros (handles & before & after & Hloc & -> & Hh & Hbefore). eauto 8.
  - intros (handles & Hloc & Hh & before & after & -> & Hbefore). eauto 8.
Qed.

Lemma load_chunks (h : Z) (media : BlockIOMedia) (ptr : Z) (n : nat) (k : Z) (m : Z -> Z) :
  open_block_io st h = Some media -> block_size media = 512 -> 0 <= k -> k + Z.of_nat n <= 1024 ->
  match for_in (load_chunk st h media ptr) (map (fun i => (i, 65536)) (seqZ k (Z.of_nat n))) m with
  | Break r => r.1 = None /\
      exists i, k <= i < k + Z.of_nat n /\ read_blocks st h (media_id media) (128 * i) 65536 = None
  | Continue m' =>
      (forall i, k <= i < k + Z.of_nat n -> is_Some (read_blocks st h (media_id media) (128 * i) 65536)) /\
      forall x, m' x = if decide (ptr + k * 65536 <= x < ptr + (k + Z.of_nat n) * 65536)
                       then medium st h (x - ptr) else m x
  end.
Proof.
  intros Hopen Hbs. revert k m. induction n as [|n IH]; intros k m Hk Hn.
  { split; [lia|]. intros x. rewrite decide_False by lia. done. }
  rewrite seqZ_cons by lia. cbn [map for_in].
  replace (Z.pred (Z.of_nat (S n))) with (Z.of_nat n) by lia. rewrite <- Z.add_1_r.
  unfold load_chunk at 1. rewrite Hbs. change (BLOCK_IO_CHUNK_BYTES / 512) with 128.
  rewrite checked_mul_lt by lia. rewrite (Z.mul_comm k 128).
  destruct (read_blocks st h (media_id media) (128 * k) 65536) as [bytes|] eqn:Hread.
  2: { split; [done|]. exists k. split; [lia|done]. }
  destruct (read_blocks_spec _ _ _ _ _ _ _ Hopen Hread) as [Hlen Hbytes]. rewrite Hbs in Hbytes.
  specialize (IH (k + 1) (store_bytes m (ptr + k * BLOCK_IO_CHUNK_BYTES) bytes) ltac:(lia) ltac:(lia)).
  destruct (for_in _ _ _) as [r|m'].
  - destruct IH as [Hr (i & Hi & Hnone)]. split; [done|]. exists i. split; [lia|done].
  - destruct IH as [Hsome Hm]. split.
    + intros i Hi. destruct (decide (i = k)) as [->|]; [by rewrite Hread|]. apply Hsome. lia.
    + intros x. rewrite Hm, store_bytes_spec, Hlen. unfold BLOCK_IO_CHUNK_BYTES.
      repeat case_decide; try lia. rewrite Hbytes by lia. f_equal. lia.
Qed.

Lemma sol_data_spans : chunk_spans SOL_DATA_BYTES = map (fun i => (i, 65536)) (seqZ 0 1024).
Proof.
  unfold chunk_spans. change (_ / BLOCK_IO_CHUNK_BYTES) with 1024. apply map_ext_in.
  intros i Hi%list_elem_of_In%elem_of_seqZ. f_equal.
  unfold BLOCK_IO_CHUNK_BYTES, SOL_DATA_BYTES. lia.
Qed.

Lemma prepare_buffer_iff (h : Z) (media : BlockIOMedia) (byte_len ptr : Z) :
  prepare_buffer st h = Some (media, byte_len, ptr) <->
  open_block_io st h = Some media /\ sol_data_geometry media /\ byte_len = SOL_DATA_BYTES /\
  allocate_pages st 16384 = Some ptr.
Proof.
  unfold prepare_buffer. split.
  - intros Hs. inv_some. destruct (unsupported_geometry _ _) eqn:Hg; [done|]. inv_some. simplify_eq.
    unfold unsupported_geometry in Hg. to_prop.
    apply checked_add_Some in E0 as [? _]. apply checked_mul_Some in E1 as [? _].
    unfold sol_data_geometry, PAGE_SIZE, SOL_DATA_BYTES in *. subst.
    split; [done|]. split; [repeat split; (done || lia)|]. split; [done|].
    match goal with Ha : allocate_pages st (?len / 4096) = Some _ |- _ =>
      by replace (len / 4096) with 16384 in Ha by zlia end.
  - intros (-> & (Hp & Hl & Hbs & Hal & Hlast) & -> & Ha). cbn [mbind option_bind].
    rewrite Hlast, checked_add_lt by lia. cbn [mbind option_bind].
    rewrite Hbs, checked_mul_lt by lia. cbn [mbind option_bind].
    unfold unsupported_geometry, PAGE_SIZE. rewrite Hp, Hl, Hbs. decide_tests. simpl.
    change (_ / 4096) with 16384. by rewrite Ha.
Qed.

Lemma load_partition_result (h : Z) (m : Z -> Z) :
  match load_partition st h m with
  | (Some (ptr, len), m') => readable h ptr /\ len = SOL_DATA_BYTES /\
      forall x, m' x = if decide (ptr <= x < ptr + SOL_DATA_BYTES) then medium st h (x - ptr) else m x
  | (None, _) => forall ptr, ~ readable h ptr
  end.
Proof.
  unfold load_partition. destruct (prepare_buffer st h) as [[[media byte_len] ptr]|] eqn:Hp.
  - apply prepare_buffer_iff in Hp as (Hopen & Hgeo & -> & Ha). rewrite sol_data_spans.
    pose proof (load_chunks h media ptr 1024 0 m Hopen ltac:(apply Hgeo) ltac:(lia) ltac:(lia)) as Hload.
    change (Z.of_nat 1024) with 1024 in Hload. destruct (for_in _ _ _) as [[r m']|m'].
    + destruct Hload as [Hr (i & Hi & Hnone)]. simpl in Hr. subst r. intros p (media' & Hopen' & _ & _ & Hall).
      simplify_eq. rewrite <- (Z.add_0_l 1024) in Hall. by destruct (Hall i Hi) as [? ?]; simplify_eq.
    + destruct Hload as [Hall Hm]. split; [by exists media|]. split; [done|]. intros x. rewrite Hm.
      rewrite Z.mul_0_l, Z.add_0_r. done.
  - intros p (media & Hopen & Hgeo & Ha & _).
    by rewrite (proj2 (prepare_buffer_iff h media SOL_DATA_BYTES p)) in Hp.
Qed.

Lemma chosen_unique (h h' : Z) : chosen h -> chosen h' -> h = h'.
Proof. rewrite !find_chosen. intros (? & ? & ?) (? & ? & ?). congruence. Qed.

Lemma readable_unique (h p p' : Z) : readable h p -> readable h p' -> p = p'.
Proof. intros (? & _ & _ & ? & _) (? & _ & _ & ? & _). congruence. Qed.

Lemma load_from_disk_unfold (m : Z -> Z) :
  match load_sol_data_partition st Disk m with
  | (Some (ptr, len), m') => exists h, chosen h /\ load_partition st h m = (Some (ptr, len), m')
  | (None, _) => forall h ptr, chosen h -> ~ readable h ptr
  end.
Proof.
  cbn [load_sol_data_partition]. unfold load_sol_data_partition_from_disk.
  destruct (locate_partition_handles st) as [handles|] eqn:Hloc.
  2: { intros h p (handles & ? & _)%find_chosen. congruence. }
  rewrite for_in_try. destruct (find is_sol_data handles) as [h|] eqn:Hfind.
  - assert (Hc : chosen h) by (apply find_chosen; eauto).
    pose proof (load_partition_result h m) as Hr.
    destruct (load_partition st h m) as [[[p len]|] m'] eqn:Hload; [by exists h|].
    intros h' p Hc'. by rewrite (chosen_unique h' h Hc' Hc).
  - intros h p Hc. apply find_chosen in Hc as (? & ? & ?). congruence.
Qed.

(** C25: What the boot loader hands over.  It takes the first partition of the
    Basic Data type whose name is exactly sol-data, and succeeds exactly if that
    partition is a present logical partition of 131072 blocks of 512 bytes, the
    pages can be allocated and every one of the 1024 reads succeeds; it then
    returns 64 MiB that hold the whole medium, byte for byte, and has written
    nothing else.  A network boot hands over nothing. *)
Theorem loader_reads_partition (m : Z -> Z) :
  let '(slice, m') := load_sol_data_partition st Disk m in
  (forall h, is_sol_data h = true <->
     exists entry rest, open_partition_info st h = Some (Some entry) /\
       partition_type_guid entry = SOL_DATA_PARTITION_TYPE /\
       partition_name entry = lit "sol-data" ++ 0 :: rest) /\
  (forall ptr len, slice = Some (ptr, len) <->
     len = 64 * 2 ^ 20 /\ exists h, chosen h /\ readable h ptr) /\
  (forall h ptr len, chosen h -> slice = Some (ptr, len) ->
     forall x, m' x = if decide (ptr <= x < ptr + len) then medium st h (x - ptr) else m x) /\
  load_sol_data_partition st Tftp m = (None, m).
Proof.
  pose proof (load_from_disk_unfold m) as Hdisk.
  destruct (load_sol_data_partition st Disk m) as [slice m']. split; [|split; [|split; [|done]]].
  - intros h. unfold is_sol_data. destruct (open_partition_info st h) as [[entry|]|]; cbn [from_option].
    + rewrite is_sol_data_iff. split; [intros (? & rest & ?); eauto 6|].
      intros (e & rest & ? & ? & ?). simplify_eq. eauto.
    + split; [done|]. intros (? & ? & ? & _). done.
    + split; [done|]. intros (? & ? & ? & _). done.
  - intros ptr len. destruct slice as [[p l]|].
    + destruct Hdisk as (h & Hc & Hl). pose proof (load_partition_result h m) as Hr. rewrite Hl in Hr.
      destruct Hr as (Hread & -> & _). split.
      * intros [= -> <-]. split; [done|]. by exists h.
      * intros (-> & h' & Hc' & Hread'). rewrite (chosen_unique h h' Hc Hc') in Hread.
        by rewrite (readable_unique _ _ _ Hread Hread').
    + split; [done|]. intros (_ & h & Hc & Hread). by destruct (Hdisk h ptr Hc).
  - intros h ptr len Hc ->. destruct Hdisk as (h' & Hc' & Hl). rewrite (chosen_unique h h' Hc Hc').
    pose proof (load_partition_result h' m) as Hr. rewrite Hl in Hr. by destruct Hr as (_ & -> & Hm).
Qed.

(** What the kernel finds there.  When the loader has returned a slice and the
    kernel's mapping of it shows the same bytes, the kernel accepts it as a block
    device of 131072 sectors, whose sectors are those of the sol-data partition. *)
Lemma kernel_sees_partition (m m' : Z -> Z) (slice : Z * Z) (h : Z) (ram : Z -> Z) (address : Z) :
  load_sol_data_partition st Disk m = (Some slice, m') -> chosen h ->
  (forall i, 0 <= i < slice.2 -> ram (address + i) = m' (slice.1 + i)) ->
  let '(addr, len) := ramdisk_fields (Some (address, slice.2)) in
  exists d, from_boot_info ram addr len = Ok d /\ device_ok d /\ sector_count d = 131072 /\
    forall lba, 0 <= lba < 131072 ->
      read_sector d lba = Ok (map (medium st h) (seqZ (512 * lba) 512)).
Proof.
  intros Hload Hc Hram. pose proof (load_from_disk_unfold m) as Hdisk. rewrite Hload in Hdisk.
  destruct slice as [ptr len]. destruct Hdisk as (h' & Hc' & Hl). pose proof (chosen_unique h h' Hc Hc') as <-.
  pose proof (load_partition_result h m) as Hr. rewrite Hl in Hr. destruct Hr as (_ & -> & Hm).
  cbn [fst snd ramdisk_fields] in *. eexists. split; [done|].
  match goal with |- device_ok ?d /\ _ => assert (Hok : ramdisk_ok d) end.
  { unfold ramdisk_ok, is_uint, SOL_DATA_BYTES. simpl. change (Z.of_nat SECTOR_SIZE) with 512. zlia. }
  split; [exact Hok|]. split; [done|]. intros lba Hlba.
  change (read_sector ?d lba) with (ramdisk_read_sector d lba).
  rewrite ramdisk_sector_bytes by first [done | unfold SOL_DATA_BYTES; cbn; lia].
  cbn [bytes mem Storage.ptr]. f_equal. apply map_ext_in.
  intros i Hi%list_elem_of_In%elem_of_seqZ. unfold load8. rewrite Hram, Hm by (unfold SOL_DATA_BYTES; lia).
  rewrite decide_True by (unfold SOL_DATA_BYTES; lia). replace (ptr + i - ptr) with i by lia.
  apply Z.mod_small, medium_byte.
Qed.
End Correct.

(** ** A boot medium *)

(** Firmware with two partitions, the boot partition first; the bytes of the data
    partition count up. *)
Inductive demo_firmware : Type := DemoFirmware.

Definition demo_entry (type : Z) (name : list Z) : GptPartitionEntry :=
  {| partition_type_guid := type; partition_name := name ++ replicate (36 - length name) 0 |}.

Definition demo_media : BlockIOMedia := {|
  media_id := 7; is_media_present := true; is_logical_partition := true;
  block_size := 512; io_align := 0; last_block := 131071;
|}.

#[export] Instance demo_boot_services : Firmware demo_firmware := {
  locate_partition_handles _ := Some [1; 2];
  open_partition_info _ h :=
    Some (Some (if h =? 1 then demo_entry 0xc12a7328f81f11d2ba4b00a0c93ec93b (lit "sol-boot")
                else demo_entry SOL_DATA_PARTITION_TYPE (lit "sol-data")));
  open_block_io _ _ := Some demo_media;
  allocate_pages _ _ := Some 0x1000000;
  read_blocks _ _ _ lba size :=
    if size <? 0 then None else Some (map (fun i => i mod 256) (seqZ (lba * 512) size));
}.

#[export] Program Instance demo_boot_services_spec : FirmwareSpec demo_firmware := {
  medium _ _ offset := offset mod 256;
}.
Next Obligation. intros st h offset. apply Z.mod_pos_bound. lia. Qed.
Next Obligation.
  intros st h media id lba size bytes [= <-] Hread. cbn in Hread |- *.
  destruct (Z.ltb_spec size 0); [done|]. injection Hread as <-. split.
  - rewrite length_map, length_seqZ. lia.
  - intros i Hi. apply nth_lookup_Some. change (map ?f ?l) with (f <$> l).
    rewrite list_lookup_fmap, lookup_seqZ_lt by lia. cbn. do 2 f_equal. lia.
Qed.

Lemma demo_chosen : chosen DemoFirmware 2.
Proof. exists [1; 2], [1], []. split; [done|]. split; [done|]. split; [done|]. by repeat constructor. Qed.

Lemma demo_readable : readable DemoFirmware 2 0x1000000.
Proof.
  exists demo_media. split; [done|]. split; [by repeat split|]. split; [done|]. intros i Hi. cbn. by eexists.
Qed.

Lemma kernel_sees_partition_witness :
  exists m' d, (load_sol_data_partition DemoFirmware Disk (fun _ => 0)) = (Some (0x1000000, 64 * 2 ^ 20), m') /\
    from_boot_info m' (Some 0x1000000) (64 * 2 ^ 20) = Ok d /\ sector_count d = 131072 /\
    read_sector d 130000 = Ok (map (fun i => i mod 256) (seqZ (512 * 130000) 512)).
Proof.
  pose proof (load_from_disk_unfold DemoFirmware (fun _ => 0)) as Hload.
  destruct (load_sol_data_partition DemoFirmware Disk (fun _ => 0)) as [[[ptr len]|] m'] eqn:Hrun.
  2: { exfalso. exact (Hload 2 0x1000000 demo_chosen demo_readable). }
  destruct Hload as (h & Hc & Hl). pose proof (load_partition_result DemoFirmware h (fun _ => 0)) as Hr.
  rewrite Hl in Hr. destruct Hr as (Hread & -> & _).
  rewrite (chosen_unique _ _ _ Hc demo_chosen) in Hread.
  rewrite (readable_unique _ _ _ _ Hread demo_readable) in Hrun |- *.
  destruct (kernel_sees_partition DemoFirmware (fun _ => 0) m' (0x1000000, SOL_DATA_BYTES) 2 m' 0x1000000
              Hrun demo_chosen ltac:(done)) as (d & Hd & _ & Hcount & Hsectors).
  exists m', d. split; [reflexivity|]. split; [exact Hd|]. split; [exact Hcount|]. apply Hsectors. lia.
Defined.
