(* ===== verification/Launcher.v ===== *)
(** * Launcher: the host program that starts QEMU

    Models [src/main.rs].  Arguments, environment variables and paths are text;
    what the operating system does (whether a file exists, whether a copy or a
    process succeeds) is the record [host], and everything the program asks of it is
    recorded as a list of effects. *)

From S2P Require Import Prelude Str Console.
#[local] Open Scope Z_scope.

Definition path : Type := str.

Inductive output : Type :=
| Stdout (line : str)
| Stderr (line : str).

Inductive effect : Type :=
| Copy (source target : path)
| RemoveFile (file : path)
| Spawn (program : path) (arguments : list str).

(** ** Arguments *)

Record options : Type := { headless : bool; print_image : bool; monitor : option path }.

Definition options_new : options := {| headless := false; print_image := false; monitor := None |}.

Inductive parsed : Type :=
| Launch (o : options)
| Exit (out : list output) (code : Z)
| BadUnicode.

Definition help_line : output :=
  Stdout (lit "Usage: cargo run -- [--headless] [--monitor PATH] [--print-image]").

(** The loop over [env::args().skip(1)]; an argument that is not UTF-8 panics when
    the iterator reaches it. *)
Fixpoint parse_arguments (arguments : list (list Z)) (o : options) : parsed :=
  match arguments with
  | [] => Launch o
  | raw :: arguments =>
      match from_utf8 raw with
      | None => BadUnicode
      | Some argument =>
          if bool_decide (argument = lit "--headless") then
            parse_arguments arguments {| headless := true; print_image := print_image o; monitor := monitor o |}
          else if bool_decide (argument = lit "--print-image") then
            parse_arguments arguments {| headless := headless o; print_image := true; monitor := monitor o |}
          else if bool_decide (argument = lit "--monitor") then
            match arguments with
            | [] => Exit [Stderr (lit "--monitor requires a UNIX socket path")] 2
            | raw :: arguments =>
                match from_utf8 raw with
                | None => BadUnicode
                | Some path =>
                    parse_arguments arguments
                      {| headless := headless o; print_image := print_image o; monitor := Some path |}
                end
            end
          else if bool_decide (argument = lit "--help") || bool_decide (argument = lit "-h") then
            Exit [help_line] 0
          else Exit [Stderr (lit "unknown argument: " ++ argument); help_line] 2
      end
  end.

(** ** Paths *)

Definition is_slash (c : Z) : bool := c =? 0x2f.

(** [Path::parent], of a path without "." components. *)
Definition parent (p : path) : option path :=
  let p := trim_end_matches is_slash p in
  if is_empty p then None
  else
    let directory := rev (skip_while (fun c => negb (is_slash c)) (rev p)) in
    let trimmed := trim_end_matches is_slash directory in
    Some (if is_empty trimmed && negb (is_empty directory) then lit "/" else trimmed).

(** [Path::join] with a relative name. *)
Definition join (p : path) (name : str) : path :=
  match last p with
  | None => name
  | Some c => if is_slash c then p ++ name else p ++ lit "/" ++ name
  end.

(** ** Running *)

(** An [io::Error], as its message. *)
Record host : Type := {
  var_os : str -> option path;
  is_file : path -> bool;
  copy : path -> path -> str + unit;
  status : path -> list str -> str + option Z;
}.

Section Launch.
Variable h : host.
(** [env!("SOL_OS_IMAGE")] *)
Variable IMAGE : path.

Definition firmware_path (variable : str) (candidates : list path) : outcome str path :=
  let search :=
    ok_or (variable ++ lit " firmware file was not found; set " ++ variable) (find (is_file h) candidates) in
  match var_os h variable with
  | Some path => if is_file h path then Ok path else search
  | None => search
  end.

Definition CODE_CANDIDATES : list path := [
  lit "/opt/homebrew/share/qemu/edk2-x86_64-code.fd"; lit "/usr/share/OVMF/OVMF_CODE.fd";
  lit "/usr/share/edk2/x64/OVMF_CODE.fd"; lit "/usr/share/edk2/ovmf/OVMF_CODE.fd"].

Definition VARS_CANDIDATES : list path := [
  lit "/opt/homebrew/share/qemu/edk2-i386-vars.fd"; lit "/usr/share/OVMF/OVMF_VARS.fd";
  lit "/usr/share/edk2/x64/OVMF_VARS.fd"; lit "/usr/share/edk2/ovmf/OVMF_VARS.fd"].

Definition qemu_arguments (code vars : path) (headless : bool) (monitor : option path) : list str :=
  [lit "-machine"; lit "q35,accel=tcg,i8042=on,pic=on,pit=on"; lit "-cpu"; lit "max"; lit "-smp"; lit "1";
   lit "-m"; lit "512M"; lit "-drive"] ++
  [lit "if=pflash,unit=0,format=raw,readonly=on,file=" ++ code] ++
  [lit "-drive"] ++ [lit "if=pflash,unit=1,format=raw,file=" ++ vars] ++
  [lit "-drive"; lit "if=none,id=boot,format=raw,file=" ++ IMAGE] ++
  [lit "-device"; lit "qemu-xhci,id=xhci"; lit "-device"; lit "usb-storage,drive=boot,bus=xhci.0,bootindex=1";
   lit "-serial"; lit "stdio"] ++
  match monitor with
  | Some monitor => [lit "-monitor"; lit "unix:" ++ monitor ++ lit ",server=on,wait=off"]
  | None => [lit "-monitor"; lit "none"]
  end ++
  (if headless then [lit "-display"; lit "none"] else []).

(** The process's status, with the effects; [Panic] is the failed [expect]. *)
Definition launch_qemu (headless : bool) (monitor : option path) : outcome str (option Z) * list effect :=
  match
    code ← firmware_path (lit "OVMF_CODE") CODE_CANDIDATES;
    vars_template ← firmware_path (lit "OVMF_VARS") VARS_CANDIDATES;
    build_dir ← or_panic (parent IMAGE);
    Ok (code, vars_template, join build_dir (lit "OVMF_VARS.fd"))
  with
  | Err e => (Err e, [])
  | Panic => (Panic, [])
  | Ok (code, vars_template, vars) =>
      match copy h vars_template vars with
      | inl e => (Err e, [Copy vars_template vars])
      | inr _ =>
          let program := default (lit "qemu-system-x86_64") (var_os h (lit "QEMU")) in
          let arguments := qemu_arguments code vars headless monitor in
          (match status h program arguments with inl e => Err e | inr code => Ok code end,
           [Copy vars_template vars] ++ (match monitor with Some m => [RemoveFile m] | None => [] end) ++
           [Spawn program arguments])
      end
  end.

(** [env::args().skip(1)]: the program's name is decoded too. *)
Definition arguments (args : list (list Z)) : parsed :=
  match args with
  | [] => Launch options_new
  | name :: args =>
      match from_utf8 name with
      | None => BadUnicode
      | Some _ => parse_arguments args options_new
      end
  end.

(** The match on the launch's result. *)
Definition exit_code (result : outcome str (option Z)) : option (list output * Z) :=
  match result with
  | Ok (Some 0) => Some ([], 0)
  | Ok code => Some ([], wrap 8 (default 1 code))
  | Err error => Some ([Stderr (lit "failed to launch QEMU: " ++ error)], 1)
  | Panic => None
  end.

(** What is printed, what is done, and the exit code; [None] is a panic. *)
Definition main (args : list (list Z)) : option (list output * list effect * Z) :=
  match arguments args with
  | BadUnicode => None
  | Exit out code => Some (out, [], code)
  | Launch o =>
      if print_image o then Some ([Stdout IMAGE], [], 0)
      else
        let '(result, effects) := launch_qemu (headless o) (monitor o) in
        '(out, code) ← exit_code result;
        Some (out, effects, code)
  end.
End Launch.

(** ** Which command lines are accepted *)

(** Words that are options, each with the options it leaves. *)
Inductive accepted : list str -> options -> options -> Prop :=
| accept_nothing o : accepted [] o o
| accept_headless ws o o' :
    accepted ws {| headless := true; print_image := print_image o; monitor := monitor o |} o' ->
    accepted (lit "--headless" :: ws) o o'
| accept_print_image ws o o' :
    accepted ws {| headless := headless o; print_image := true; monitor := monitor o |} o' ->
    accepted (lit "--print-image" :: ws) o o'
| accept_monitor p ws o o' :
    accepted ws {| headless := headless o; print_image := print_image o; monitor := Some p |} o' ->
    accepted (lit "--monitor" :: p :: ws) o o'.

Definition option_words : list str :=
  [lit "--headless"; lit "--print-image"; lit "--monitor"; lit "--help"; lit "-h"].

(** The four ways the loop ends, after the options read so far. *)
Inductive finishes : list str -> options -> parsed -> Prop :=
| all_read o : finishes [] o (Launch o)
| asks_help w ws o : w = lit "--help" \/ w = lit "-h" -> finishes (w :: ws) o (Exit [help_line] 0)
| lacks_path o : finishes [lit "--monitor"] o (Exit [Stderr (lit "--monitor requires a UNIX socket path")] 2)
| unknown_word w ws o : w ∉ option_words ->
    finishes (w :: ws) o (Exit [Stderr (lit "unknown argument: " ++ w); help_line] 2).

Definition decodes (raw : list (list Z)) (words : list str) : Prop :=
  Forall2 (fun r w => from_utf8 r = Some w) raw words.

(** One word of the loop. *)
Lemma parse_word (r : list Z) (raw : list (list Z)) (w : str) (o : options) :
  from_utf8 r = Some w ->
  parse_arguments (r :: raw) o =
    if decide (w = lit "--headless") then
      parse_arguments raw {| headless := true; print_image := print_image o; monitor := monitor o |}
    else if decide (w = lit "--print-image") then
      parse_arguments raw {| headless := headless o; print_image := true; monitor := monitor o |}
    else if decide (w = lit "--monitor") then
      match raw with
      | [] => Exit [Stderr (lit "--monitor requires a UNIX socket path")] 2
      | r :: raw =>
          match from_utf8 r with
          | None => BadUnicode
          | Some p => parse_arguments raw
                        {| headless := headless o; print_image := print_image o; monitor := Some p |}
          end
      end
    else if decide (w = lit "--help" \/ w = lit "-h") then Exit [help_line] 0
    else Exit [Stderr (lit "unknown argument: " ++ w); help_line] 2.
Proof.
  intros Hw. cbn [parse_arguments]. rewrite Hw.
  repeat (case_bool_decide; [by rewrite decide_True|rewrite decide_False by done]).
  destruct (decide (w = lit "--help" \/ w = lit "-h")) as [Hh|Hh].
  - by destruct Hh as [-> | ->].
  - by rewrite !bool_decide_eq_false_2 by tauto.
Qed.

Lemma parse_accepted (n : nat) (raw : list (list Z)) (words : list str) (o : options) :
  (length words <= n)%nat -> decodes raw words ->
  exists read rest o', words = read ++ rest /\ accepted read o o' /\
    finishes rest o' (parse_arguments raw o).
Proof.
  revert raw words o. induction n as [|n IH]; intros raw words o Hlen Hd.
  { destruct words; [|simpl in Hlen; lia]. inversion Hd; subst.
    exists [], [], o. by repeat constructor. }
  inversion Hd as [|r w raw' words' Hw Hd']; subst.
  { exists [], [], o. by repeat constructor. }
  rewrite (parse_word r raw' w o Hw). simpl in Hlen.
  repeat case_decide; subst.
  - edestruct (IH raw' words') as (read & rest & o' & -> & Ha & Hf); [lia|done|].
    exists (lit "--headless" :: read), rest, o'. split; [done|]. split; [by constructor|exact Hf].
  - edestruct (IH raw' words') as (read & rest & o' & -> & Ha & Hf); [lia|done|].
    exists (lit "--print-image" :: read), rest, o'. split; [done|]. split; [by constructor|exact Hf].
  - inversion Hd' as [|r2 p raw2 words2 Hp Hd2]; subst.
    { exists [], [lit "--monitor"], o. split; [done|]. split; constructor. }
    simpl in Hlen. rewrite Hp.
    edestruct (IH raw2 words2) as (read & rest & o' & -> & Ha & Hf); [lia|done|].
    exists (lit "--monitor" :: p :: read), rest, o'. split; [done|]. split; [by constructor|exact Hf].
  - exists [], (w :: words'), o. split; [done|]. split; [constructor|by constructor].
  - exists [], (w :: words'), o. split; [done|]. split; [constructor|]. constructor.
    unfold option_words. rewrite !not_elem_of_cons. split_and!; try tauto. apply not_elem_of_nil.
Qed.

Lemma accepted_parse (read rest : list str) (o o' : options) (raw : list (list Z)) :
  accepted read o o' -> decodes raw (read ++ rest) ->
  exists raw', decodes raw' rest /\ parse_arguments raw o = parse_arguments raw' o'.
Proof.
  intros Ha. revert raw. induction Ha as [o|ws o o' _ IH|ws o o' _ IH|p ws o o' _ IH]; intros raw Hd.
  - by exists raw.
  - inversion Hd as [|r w raw' ? Hw Hd']; subst. rewrite (parse_word _ _ _ _ Hw). by apply IH.
  - inversion Hd as [|r w raw' ? Hw Hd']; subst. rewrite (parse_word _ _ _ _ Hw). by apply IH.
  - inversion Hd as [|r w raw' ? Hw Hd']; subst. inversion Hd' as [|r2 p2 raw2 ? Hp Hd2]; subst.
    rewrite (parse_word _ _ _ _ Hw). cbn. rewrite Hp. by apply IH.
Qed.

Lemma finishes_parse (rest : list str) (o : options) (p : parsed) (raw : list (list Z)) :
  finishes rest o p -> decodes raw rest -> parse_arguments raw o = p.
Proof.
  intros Hf Hd. destruct Hf as [o|w ws o Hh|o|w ws o Hn]; inversion Hd as [|r ? raw' ? Hw Hd']; subst; [done|..];
    rewrite (parse_word _ _ _ _ Hw).
  - by destruct Hh as [-> | ->].
  - by inversion Hd'; subst.
  - unfold option_words in Hn. rewrite !not_elem_of_cons in Hn. destruct Hn as (? & ? & ? & ? & ? & _).
    rewrite !decide_False by tauto. done.
Qed.

(** The command line.  The launcher reads options as long as they are valid and
    then ends in exactly one of four ways: it launches with the options read when
    nothing is left, and otherwise exits, with 0 for a request for help and with 2
    for a missing socket path or an unknown word, whatever follows it. *)
Lemma arguments_classified (name : list Z) (raw : list (list Z)) (words : list str) (p : parsed) :
  from_utf8 name <> None -> decodes raw words ->
  arguments (name :: raw) = p <->
  exists read rest o, words = read ++ rest /\ accepted read options_new o /\ finishes rest o p.
Proof.
  intros Hname Hd. cbn [arguments]. destruct (from_utf8 name); [|done]. split.
  - intros <-. by apply (parse_accepted (length words)).
  - intros (read & rest & o & -> & Ha & Hf).
    destruct (accepted_parse read rest _ _ raw Ha Hd) as (raw' & Hd' & ->). by apply (finishes_parse rest).
Qed.

Lemma arguments_classified_witness :
  arguments [encode (lit "sol-os"); encode (lit "--headless"); encode (lit "--monitor"); encode (lit "/tmp/m")] =
    Launch {| headless := true; print_image := false; monitor := Some (lit "/tmp/m") |}.
Proof.
  apply (arguments_classified _ _ [lit "--headless"; lit "--monitor"; lit "/tmp/m"]);
    [by vm_compute|by repeat constructor|].
  exists [lit "--headless"; lit "--monitor"; lit "/tmp/m"], [].
  exists {| headless := true; print_image := false; monitor := Some (lit "/tmp/m") |}.
  split; [reflexivity|]. split; [by repeat constructor|constructor].
Defined.

(** ** What is launched *)

(** The values given to a flag, the arguments being pairs of a flag and a value. *)
Fixpoint flag_values (flag : str) (arguments : list str) : list str :=
  match arguments with
  | f :: v :: arguments => (if decide (f = flag) then [v] else []) ++ flag_values flag arguments
  | _ => []
  end.

Section Launched.
Variables (h : host) (IMAGE : path).

(** The file a firmware search settles on. *)
Definition firmware_found (variable : str) (candidates : list path) (p : path) : Prop :=
  is_file h p = true /\
  (var_os h variable = Some p \/
   (forall q, var_os h variable = Some q -> is_file h q = false) /\
   exists before after, candidates = before ++ p :: after /\ Forall (fun q => is_file h q = false) before).

Lemma firmware_path_iff (variable : str) (candidates : list path) (p : path) :
  firmware_path h variable candidates = Ok p <-> firmware_found variable candidates p.
Proof.
  unfold firmware_path, firmware_found. set (e := variable ++ _).
  assert (Hsearch : ok_or e (find (is_file h) candidates) = Ok p <->
    is_file h p = true /\ exists before after, candidates = before ++ p :: after /\
      Forall (fun q => is_file h q = false) before).
  { rewrite <- find_first. destruct (find (is_file h) candidates); simpl; split; congruence. }
  destruct (var_os h variable) as [q|]; [destruct (is_file h q) eqn:Hq|].
  - split; [intros [= ->]; auto|]. intros (Hp & [?|[Hn _]]); [congruence|]. specialize (Hn q eq_refl). congruence.
  - rewrite Hsearch. split.
    + intros [Hp Hs]. split; [done|]. right. split; [by intros ? [= <-]|done].
    + intros (Hp & [?|[_ Hs]]); [congruence|done].
  - rewrite Hsearch. split.
    + intros [Hp Hs]. split; [done|]. by right.
    + intros (Hp & [?|[_ Hs]]); [congruence|done].
Qed.

Lemma firmware_path_no_panic (variable : str) (candidates : list path) :
  firmware_path h variable candidates <> Panic.
Proof.
  unfold firmware_path. destruct (var_os h variable) as [q|]; [destruct (is_file h q)|]; try done;
    by destruct (find _ _).
Qed.

(** The files that are looked for, most preferred first. *)
Definition known_code_files : list path := [
  lit "/opt/homebrew/share/qemu/edk2-x86_64-code.fd";
  lit "/usr/share/OVMF/OVMF_CODE.fd";
  lit "/usr/share/edk2/x64/OVMF_CODE.fd";
  lit "/usr/share/edk2/ovmf/OVMF_CODE.fd"].

Definition known_vars_files : list path := [
  lit "/opt/homebrew/share/qemu/edk2-i386-vars.fd";
  lit "/usr/share/OVMF/OVMF_VARS.fd";
  lit "/usr/share/edk2/x64/OVMF_VARS.fd";
  lit "/usr/share/edk2/ovmf/OVMF_VARS.fd"].

Definition code_file (p : path) : Prop := firmware_found (lit "OVMF_CODE") known_code_files p.
Definition vars_file (p : path) : Prop := firmware_found (lit "OVMF_VARS") known_vars_files p.

Definition lacking (file : path -> Prop) : Prop := forall p, ~ file p.

(** The one line a failed launch prints. *)
Definition complaint (error : str) : list output := [Stderr (lit "failed to launch QEMU: " ++ error)].

Lemma firmware_path_cases (variable : str) (candidates : list path) :
  (exists p, firmware_path h variable candidates = Ok p /\ firmware_found variable candidates p) \/
  firmware_path h variable candidates =
    Err (variable ++ lit " firmware file was not found; set " ++ variable) /\
  lacking (firmware_found variable candidates).
Proof.
  destruct (firmware_path h variable candidates) as [p|e|] eqn:Hp.
  - left. exists p. split; [done|]. by apply firmware_path_iff.
  - right. split; [|intros p Hf; apply firmware_path_iff in Hf; congruence].
    unfold firmware_path in Hp. destruct (var_os h variable) as [q|]; [destruct (is_file h q)|];
      try destruct (find _ _); simplify_eq/=; done.
  - by destruct (firmware_path_no_panic variable candidates).
Qed.

Lemma exit_code_status (s : str + option Z) :
  exit_code (match s with inl e => Err e | inr code => Ok code end) =
    Some (match s with inl e => complaint e | inr _ => [] end,
          match s with inr (Some n) => n mod 256 | _ => 1 end).
Proof. by destruct s as [e|[[]|]]. Qed.

(** C39: What a launch does.  With [--print-image] it prints the image's path and does
    nothing else.  Otherwise it looks for the two firmware files (the file that
    OVMF_CODE or OVMF_VARS names if it exists, else the first known place that does),
    and without one of them, or when the copy of the variable store fails, says so and
    exits with 1.  Else it runs, once and as the last thing it does, the program that
    QEMU names (qemu-system-x86_64 if it is not set): a q35 machine under TCG with the
    8042, PIC and PIT the kernel drives, one processor of the fullest model, 512 MiB,
    the firmware read-only, the fresh copy of the variable store, the image as the
    boot drive on USB, the serial line on the terminal, and a monitor and a display as
    asked for, with no other argument; it exits with that program's own code and
    prints only a failure to start it.  The only files it touches are that copy and
    the monitor's socket. *)
Theorem launcher_runs_image (args : list (list Z)) (o : options) (dir : path) :
  arguments args = Launch o -> parent IMAGE = Some dir ->
  exists out effects code, main h IMAGE args = Some (out, effects, code) /\
  (print_image o = true -> out = [Stdout IMAGE] /\ effects = [] /\ code = 0) /\
  (print_image o = false ->
   lacking code_file /\ effects = [] /\ code = 1 /\
     out = complaint (lit "OVMF_CODE firmware file was not found; set OVMF_CODE") \/
   (exists firmware, code_file firmware) /\ lacking vars_file /\ effects = [] /\ code = 1 /\
     out = complaint (lit "OVMF_VARS firmware file was not found; set OVMF_VARS") \/
   exists firmware template, let vars := join dir (lit "OVMF_VARS.fd") in
     code_file firmware /\ vars_file template /\
     ((exists e, copy h template vars = inl e /\ out = complaint e) /\
        effects = [Copy template vars] /\ code = 1 \/
      exists program argv, copy h template vars = inr () /\
        effects = Copy template vars :: map RemoveFile (option_list (monitor o)) ++ [Spawn program argv] /\
        out = match status h program argv with inl e => complaint e | inr _ => [] end /\
        code = match status h program argv with inr (Some n) => n mod 256 | _ => 1 end /\
        program = match var_os h (lit "QEMU") with Some p => p | None => lit "qemu-system-x86_64" end /\
        flag_values (lit "-machine") argv = [lit "q35,accel=tcg,i8042=on,pic=on,pit=on"] /\
        flag_values (lit "-cpu") argv = [lit "max"] /\
        flag_values (lit "-smp") argv = [lit "1"] /\
        flag_values (lit "-m") argv = [lit "512M"] /\
        flag_values (lit "-drive") argv =
          [lit "if=pflash,unit=0,format=raw,readonly=on,file=" ++ firmware;
           lit "if=pflash,unit=1,format=raw,file=" ++ vars;
           lit "if=none,id=boot,format=raw,file=" ++ IMAGE] /\
        flag_values (lit "-device") argv =
          [lit "qemu-xhci,id=xhci"; lit "usb-storage,drive=boot,bus=xhci.0,bootindex=1"] /\
        flag_values (lit "-serial") argv = [lit "stdio"] /\
        flag_values (lit "-monitor") argv =
          [match monitor o with Some m => lit "unix:" ++ m ++ lit ",server=on,wait=off" | None => lit "none" end] /\
        flag_values (lit "-display") argv = (if headless o then [lit "none"] else []) /\
        length argv = if headless o then 24%nat else 22%nat)).
Proof.
  intros Hargs Hdir. unfold main. rewrite Hargs. destruct (print_image o); [by do 3 eexists|].
  unfold launch_qemu. rewrite Hdir.
  destruct (firmware_path_cases (lit "OVMF_CODE") CODE_CANDIDATES) as [(c & -> & Hc)|[-> Hno]].
  2: { do 3 eexists. split; [done|]. split; [done|]. intros _. by left. }
  cbn [mbind outcome_bind].
  destruct (firmware_path_cases (lit "OVMF_VARS") VARS_CANDIDATES) as [(t & -> & Ht)|[-> Hno]].
  2: { do 3 eexists. split; [done|]. split; [done|]. intros _. right. left. by split; [exists c|]. }
  cbn [mbind outcome_bind or_panic]. set (vars := join dir (lit "OVMF_VARS.fd")).
  destruct (copy h t vars) as [e|[]] eqn:Hcopy.
  { do 3 eexists. split; [done|]. split; [done|]. intros _. right. right. exists c, t.
    split; [exact Hc|]. split; [exact Ht|]. left. eauto. }
  set (program := default _ _). set (argv := qemu_arguments _ _ _ _ _).
  rewrite (exit_code_status (status h program argv)).
  do 3 eexists. split; [done|]. split; [done|].
  intros _. right. right. exists c, t. split; [exact Hc|]. split; [exact Ht|]. right.
  exists program, argv. split; [done|]. split; [by destruct (monitor o)|].
  do 2 (split; [done|]). split; [by unfold program; destruct (var_os h (lit "QEMU"))|].
  unfold argv, qemu_arguments. destruct (monitor o), (headless o); by repeat split.
Qed.
End Launched.

(** ** A host *)

Definition demo_host : host := {|
  var_os v := if decide (v = lit "OVMF_CODE") then Some (lit "/missing.fd") else None;
  is_file p := bool_decide (p ∈ [lit "/usr/share/OVMF/OVMF_CODE.fd"; lit "/usr/share/OVMF/OVMF_VARS.fd"]);
  copy _ _ := inr ();
  status _ _ := inr (Some 3);
|}.

Lemma launcher_runs_image_witness :
  exists argv,
    main demo_host (lit "/sol/build/sol-os.img") [encode (lit "sol-os"); encode (lit "--headless")] =
      Some ([], [Copy (lit "/usr/share/OVMF/OVMF_VARS.fd") (lit "/sol/build/OVMF_VARS.fd");
                 Spawn (lit "qemu-system-x86_64") argv], 3) /\
    flag_values (lit "-m") argv = [lit "512M"] /\ flag_values (lit "-display") argv = [lit "none"].
Proof.
  destruct (launcher_runs_image demo_host (lit "/sol/build/sol-os.img")
    [encode (lit "sol-os"); encode (lit "--headless")]
    {| headless := true; print_image := false; monitor := None |} (lit "/sol/build") eq_refl eq_refl)
    as (out & effects & code & Hmain & _ & Hrun).
  destruct (Hrun eq_refl) as [(Hno & _)|[(_ & Hno & _)|(c & t & Hc & Ht & Hcase)]].
  - exfalso. apply (Hno (lit "/usr/share/OVMF/OVMF_CODE.fd")). apply firmware_path_iff. by vm_compute.
  - exfalso. apply (Hno (lit "/usr/share/OVMF/OVMF_VARS.fd")). apply firmware_path_iff. by vm_compute.
  - apply firmware_path_iff in Ht. vm_compute in Ht. injection Ht as <-.
    destruct Hcase as [([e [He _]] & _)|(program & argv & _ & Heff & Hout & Hcode & Hprog & _ & _ & _ & Hmem
      & _ & _ & _ & _ & Hdisp & _)]; [discriminate He|].
    exists argv. rewrite Hmain, Hcode, Hout, Heff, Hprog. split; [reflexivity|]. split; [exact Hmem|exact Hdisp].
Defined.
