(* ===== verification/HostFs.v ===== *)
(** * HostFs: the host files the image builder works on

    What [build.rs] uses of [std::fs] and [std::io], as a state and error monad.  A
    file is its length and its bytes; any call may fail for a reason of the
    operating system's own, which the state supplies call by call.  A call that
    fails so changes no file, and a position is passed along instead of being kept
    in a handle. *)

From S2P Require Import Prelude Str Console.
From stdpp Require Import gmap.
#[local] Open Scope Z_scope.

(** Bytes of a file, of a buffer or of a device. *)
Record blob : Type := { blob_len : Z; blob_at : Z -> Z }.

Definition blob_empty : blob := {| blob_len := 0; blob_at := fun _ => 0 |}.

(** The [n] bytes from [pos] on. *)
Definition blob_slice (b : blob) (pos n : Z) : blob :=
  {| blob_len := n; blob_at := fun x => blob_at b (pos + x) |}.

(** [src] written at [pos]; a gap before it reads as zeros. *)
Definition blob_write (b : blob) (pos : Z) (src : blob) : blob := {|
  blob_len := Z.max (blob_len b) (pos + blob_len src);
  blob_at := fun x => if decide (pos <= x < pos + blob_len src) then blob_at src (x - pos)
                      else if decide (x < blob_len b) then blob_at b x else 0;
|}.

Definition blob_resize (b : blob) (n : Z) : blob :=
  {| blob_len := n; blob_at := fun x => if decide (x < blob_len b) then blob_at b x else 0 |}.

Inductive IoError : Type :=
| NotFound
| UnexpectedEof
| InvalidData (message : str)
| CrateError
| Os (code : Z).

(** The files, the lines printed, the calls made so far, and the failures the system
    will inject. *)
Record filesystem : Type := {
  files : gmap (list Z) blob;
  stdout : list str;
  calls : nat;
  faults : nat -> option Z;
}.

Definition Build (A : Type) : Type := filesystem -> outcome IoError A * filesystem.

#[export] Instance Build_ret : MRet Build := fun _ a fs => (Ok a, fs).

#[export] Instance Build_bind : MBind Build := fun _ _ k c fs =>
  match c fs with
  | (Ok a, fs) => k a fs
  | (Err e, fs) => (Err e, fs)
  | (Panic, fs) => (Panic, fs)
  end.

(** A result of a pure computation: of a crate, of a checked operation, an error. *)
Definition crate {A : Type} (o : option A) : Build A := fun fs => (ok_or CrateError o, fs).
Definition checked {A : Type} (o : option A) : Build A := fun fs => (or_panic o, fs).
Definition fail {A : Type} (e : IoError) : Build A := fun fs => (Err e, fs).

Definition put (fs : filesystem) (p : list Z) (b : blob) : filesystem :=
  {| files := <[p := b]> (files fs); stdout := stdout fs; calls := calls fs; faults := faults fs |}.

(** [println!] *)
Definition println_line (line : str) : Build unit := fun fs =>
  (Ok tt, {| files := files fs; stdout := stdout fs ++ [line]; calls := calls fs; faults := faults fs |}).

(** [Result::expect] and [Option::expect] *)
Definition expect {A : Type} (c : Build A) : Build A := fun fs =>
  match c fs with
  | (Err _, fs) => (Panic, fs)
  | r => r
  end.

Definition syscall {A : Type} (k : filesystem -> outcome IoError A * filesystem) : Build A := fun fs =>
  let fs' := {| files := files fs; stdout := stdout fs; calls := S (calls fs); faults := faults fs |} in
  match faults fs (calls fs) with
  | Some e => (Err (Os e), fs')
  | None => k fs'
  end.

(** A call on a file that must exist. *)
Definition with_file {A : Type} (p : list Z) (k : blob -> outcome IoError A * option blob) : Build A :=
  syscall (fun fs =>
    match files fs !! p with
    | None => (Err NotFound, fs)
    | Some b => let '(r, b') := k b in (r, from_option (put fs p) fs b')
    end).

(** [OpenOptions] with [create] and [truncate], and without *)
Definition create_file (p : list Z) : Build unit := syscall (fun fs => (Ok tt, put fs p blob_empty)).
Definition open_file (p : list Z) : Build unit := with_file p (fun _ => (Ok tt, None)).

Definition set_len (p : list Z) (n : Z) : Build unit := with_file p (fun b => (Ok tt, Some (blob_resize b n))).
Definition metadata_len (p : list Z) : Build Z := with_file p (fun b => (Ok (blob_len b), None)).
Definition seek (p : list Z) (pos : Z) : Build Z := with_file p (fun _ => (Ok pos, None)).
Definition flush (p : list Z) : Build unit := with_file p (fun _ => (Ok tt, None)).

Definition read_exact (p : list Z) (pos n : Z) : Build blob :=
  with_file p (fun b =>
    (if decide (pos + n <= blob_len b) then Ok (blob_slice b pos n) else Err UnexpectedEof, None)).

Definition write_all (p : list Z) (pos : Z) (src : blob) : Build unit :=
  with_file p (fun b => (Ok tt, Some (blob_write b pos src))).

(** [io::copy] of a whole file to the position in another. *)
Definition copy_into (source target : list Z) (pos : Z) : Build Z :=
  src ← with_file source (fun b => (Ok b, None));
  _ ← write_all target pos src;
  mret (blob_len src).

(** An operation of a crate on the device it was given. *)
Definition on_device {A : Type} (p : list Z) (f : blob -> option (A * blob)) : Build A :=
  with_file p (fun b =>
    match f b with
    | None => (Err CrateError, None)
    | Some (a, b') => (Ok a, Some b')
    end).

(** ** Running a build

    From a file system with the files [m], the computation does not panic, fails
    with an injected fault or an error [E] allows, or ends in a result, files and
    further printed lines that satisfy [Q]. *)
Definition prints {A : Type} (c : Build A) (m : gmap (list Z) blob)
    (Q : A -> gmap (list Z) blob -> list str -> Prop) (E : IoError -> Prop) : Prop :=
  forall fs, files fs = m ->
    match c fs with
    | (Ok a, fs') => faults fs' = faults fs /\ exists out, stdout fs' = stdout fs ++ out /\ Q a (files fs') out
    | (Err (Os e), _) => exists n, faults fs n = Some e
    | (Err e, _) => E e
    | (Panic, _) => False
    end.

(** The same, printing nothing. *)
Definition runs {A : Type} (c : Build A) (m : gmap (list Z) blob) (Q : A -> gmap (list Z) blob -> Prop)
    (E : IoError -> Prop) : Prop :=
  prints c m (fun a m' out => out = [] /\ Q a m') E.

Section Rules.
Context {A B : Type}.
Implicit Types (m : gmap (list Z) blob) (E : IoError -> Prop).

Lemma prints_weaken (c : Build A) m (Q Q' : A -> _ -> _ -> Prop) E (E' : IoError -> Prop) :
  prints c m Q E -> (forall a m' out, Q a m' out -> Q' a m' out) -> (forall e, E e -> E' e) -> prints c m Q' E'.
Proof.
  intros Hc HQ HE fs Hfs. specialize (Hc fs Hfs). destruct (c fs) as [[a|e|] fs']; [|destruct e; auto|done].
  destruct Hc as (? & out & ? & ?). eauto 6.
Qed.

Lemma prints_bind (c : Build A) (k : A -> Build B) m Q E :
  prints c m (fun a m' out => prints (k a) m' (fun b m'' out' => Q b m'' (out ++ out')) E) E ->
  prints (c ≫= k) m Q E.
Proof.
  intros Hc fs Hfs. specialize (Hc fs Hfs). unfold mbind, Build_bind.
  destruct (c fs) as [[a|e|] fs']; [|by destruct e|done].
  destruct Hc as (Hf & out & Hout & Hk). specialize (Hk fs' eq_refl).
  destruct (k a fs') as [[b|e|] fs'']; [|by destruct e; try rewrite Hf in Hk|done].
  rewrite Hf in Hk. destruct Hk as (Hf' & out' & Hout' & HQ). split; [done|]. exists (out ++ out').
  by rewrite Hout', Hout, app_assoc.
Qed.

Lemma runs_prints (c : Build A) m Q (Q' : A -> _ -> _ -> Prop) E :
  runs c m Q E -> (forall a m', Q a m' -> Q' a m' []) -> prints c m Q' E.
Proof. intros Hc HQ. eapply prints_weaken; [exact Hc| |done]. intros a m' out [-> ?]. auto. Qed.

Lemma prints_ret (a : A) m Q E : Q a m [] -> prints (mret a) m Q E.
Proof. intros HQ fs <-. split; [done|]. exists []. by rewrite app_nil_r. Qed.

Lemma runs_ret (a : A) m Q E : Q a m -> runs (mret a) m Q E.
Proof. intros HQ. by apply prints_ret. Qed.

Lemma runs_bind (c : Build A) (k : A -> Build B) m Q E :
  runs c m (fun a m' => runs (k a) m' Q E) E -> runs (c ≫= k) m Q E.
Proof.
  intros Hc. apply prints_bind. eapply prints_weaken; [exact Hc| |done]. intros a m' out [-> Hk]. exact Hk.
Qed.

Lemma runs_pure (c : Build A) (a : A) m Q E : (forall fs, c fs = (Ok a, fs)) -> Q a m -> runs c m Q E.
Proof. intros Hc HQ fs <-. rewrite Hc. split; [done|]. exists []. by rewrite app_nil_r. Qed.

Lemma runs_crate (o : option A) (a : A) m Q E : o = Some a -> Q a m -> runs (crate o) m Q E.
Proof. intros -> HQ. by apply (runs_pure _ a). Qed.

Lemma runs_checked (o : option A) (a : A) m Q E : o = Some a -> Q a m -> runs (checked o) m Q E.
Proof. intros -> HQ. by apply (runs_pure _ a). Qed.

Lemma runs_fail (message : str) m (Q : A -> _ -> Prop) E :
  E (InvalidData message) -> runs (fail (InvalidData message)) m Q E.
Proof. by intros HE fs <-. Qed.

Lemma runs_with_file (p : list Z) (b : blob) (k : blob -> outcome IoError A * option blob) (a : A) b' m Q E :
  m !! p = Some b -> k b = (Ok a, b') -> Q a (from_option (fun x => <[p := x]> m) m b') ->
  runs (with_file p k) m Q E.
Proof.
  intros Hp Hk HQ fs Hfs. subst m. unfold with_file, syscall.
  destruct (faults fs (calls fs)) as [e|] eqn:Hfault; [by exists (calls fs)|].
  cbn [files]. rewrite Hp, Hk. split; [by destruct b'|]. exists []. rewrite app_nil_r. by destruct b'.
Qed.

Lemma runs_create (p : list Z) m Q E : Q tt (<[p := blob_empty]> m) -> runs (create_file p) m Q E.
Proof.
  intros HQ fs <-. unfold create_file, syscall.
  destruct (faults fs (calls fs)) as [e|] eqn:Hfault; [by exists (calls fs)|].
  split; [done|]. exists []. by rewrite app_nil_r.
Qed.

Lemma runs_weaken (c : Build A) m (Q Q' : A -> _ -> Prop) E (E' : IoError -> Prop) :
  runs c m Q E -> (forall a m', Q a m' -> Q' a m') -> (forall e, E e -> E' e) -> runs c m Q' E'.
Proof.
  intros Hc HQ HE. eapply prints_weaken; [exact Hc| |done]. intros a m' out [-> ?]. auto.
Qed.
End Rules.

(** What a run means for a state: the result, the errors, and success without them. *)
Lemma runs_outcome {A : Type} (c : Build A) (fs : filesystem) Q (E : IoError -> Prop) :
  runs c (files fs) Q E ->
  let '(r, fs') := c fs in
  (forall a, r = Ok a -> Q a (files fs')) /\
  (forall e, r = Err e -> (exists n code, faults fs n = Some code /\ e = Os code) \/ E e) /\
  r <> Panic /\
  ((forall n, faults fs n = None) -> (forall e, ~ E e) -> exists a, r = Ok a).
Proof.
  intros Hc. specialize (Hc fs eq_refl). destruct (c fs) as [[a|e|] fs']; [| |done].
  - destruct Hc as (_ & out & _ & _ & HQ). split; [by intros ? [= <-]|]. split; [done|]. split; [done|]. eauto.
  - assert (He : (exists n code, faults fs n = Some code /\ e = Os code) \/ E e).
    { destruct e; try by right. destruct Hc as [k Hk]. left. by exists k, code. }
    split; [done|]. split; [by intros ? [= <-]|]. split; [done|]. intros Hno HE.
    destruct He as [(k & code & Hk & _)|Hx]; [by rewrite Hno in Hk|by destruct (HE e)].
Qed.

Lemma prints_line (line : str) (m : gmap (list Z) blob) Q (E : IoError -> Prop) :
  Q tt m [line] -> prints (println_line line) m Q E.
Proof. intros HQ fs <-. split; [done|]. by exists [line]. Qed.

Lemma runs_write_all (p : list Z) (pos : Z) (src b : blob) m Q E :
  m !! p = Some b -> Q tt (<[p := blob_write b pos src]> m) -> runs (write_all p pos src) m Q E.
Proof. intros Hp HQ. by eapply runs_with_file. Qed.

Lemma runs_copy_into (source target : list Z) (pos : Z) (src b : blob) m Q E :
  m !! source = Some src -> m !! target = Some b ->
  Q (blob_len src) (<[target := blob_write b pos src]> m) -> runs (copy_into source target pos) m Q E.
Proof.
  intros Hs Ht HQ. apply runs_bind. eapply runs_with_file; [done|done|]. cbn [from_option].
  apply runs_bind. eapply runs_write_all; [done|]. by apply runs_ret.
Qed.

Lemma runs_on_device {A : Type} (p : list Z) (f : blob -> option (A * blob)) (a : A) (b b' : blob) m Q E :
  m !! p = Some b -> f b = Some (a, b') -> Q a (<[p := b']> m) -> runs (on_device p f) m Q E.
Proof. intros Hp Hf HQ. eapply runs_with_file; [done|by rewrite Hf|done]. Qed.

Lemma runs_device {A : Type} (p : list Z) (f : blob -> option (A * blob)) (b : blob) m Q E :
  m !! p = Some b ->
  match f b with Some (a, b') => Q a (<[p := b']> m) | None => E CrateError end ->
  runs (on_device p f) m Q E.
Proof.
  intros Hp Hf. destruct (f b) as [[a b']|] eqn:Hb; [by eapply runs_on_device|].
  intros fs <-. unfold on_device, with_file, syscall.
  destruct (faults fs (calls fs)) as [e|] eqn:Hfault; [by exists (calls fs)|]. cbn [files]. by rewrite Hp, Hb.
Qed.

(** One call on a file, on a device, or of a crate; the last one by the equation of
    its result. *)
Ltac file_step :=
  apply runs_bind; eapply runs_with_file; [first [apply lookup_insert_eq | done]|done|];
  cbn [from_option]; rewrite ?insert_insert_eq.
Ltac device_step H :=
  apply runs_bind; eapply runs_on_device; [first [apply lookup_insert_eq | done]|by rewrite H|];
  rewrite ?insert_insert_eq.
Ltac crate_step H := apply runs_bind; eapply runs_crate; [apply H|].

(** Bytes under writes. *)
Lemma blob_write_inside (b : blob) (pos : Z) (src : blob) :
  pos + blob_len src <= blob_len b -> 0 <= blob_len src ->
  blob_len (blob_write b pos src) = blob_len b /\
  (forall x, pos <= x < pos + blob_len src -> blob_at (blob_write b pos src) x = blob_at src (x - pos)) /\
  (forall x, x < blob_len b -> ~ (pos <= x < pos + blob_len src) -> blob_at (blob_write b pos src) x = blob_at b x).
Proof.
  intros Hfit Hlen. cbn [blob_write blob_len blob_at]. split; [lia|]. split; intros x Hx.
  - by rewrite decide_True.
  - intros Hout. by rewrite decide_False, decide_True.
Qed.
