(* ===== verification/ImageBuilder.v ===== *)
(** * ImageBuilder: the disk image

    Models the part of [build.rs] that assembles the image: a GPT with the EFI
    partition of the boot loader's own image and the FAT32 data volume.  The [gpt]
    crate is the class [GptCrate]; [GptSpec] states what it documents and what the
    GPT format fixes. *)

From S2P Require Import Prelude Str Console HostFs.
From stdpp Require Import gmap.
#[local] Open Scope Z_scope.

Definition MIB : Z := 1024 * 1024.
Definition SECTOR_SIZE : Z := 512.
Definition PARTITION_ALIGNMENT_LBAS : Z := MIB / SECTOR_SIZE.
Definition DATA_PARTITION_BYTES : Z := 64 * MIB.

Record Partition : Type := {
  part_type_guid : Z;
  first_lba : Z;
  last_lba : Z;
  part_name : str;
}.

(** A table knows its device's usable blocks; partitions are listed by their ids. *)
Class GptCrate (Tb : Type) : Type := {
  EFI : Z;
  BASIC : Z;
  overwrite_lba0 : Z -> blob -> option blob;
  create_from_device : blob -> option Tb;
  open_device : blob -> option Tb;
  update_partitions : Tb -> list (Z * Partition) -> option Tb;
  add_partition : Tb -> str -> Z -> Z -> Z -> option Z -> option (Z * Tb);
  partitions : Tb -> list (Z * Partition);
  write_table : Tb -> blob -> option blob;
  bytes_start : Partition -> option Z;
  bytes_len : Partition -> option Z;
}.

(** [value.div_ceil(alignment) * alignment] *)
Definition align_up (value alignment : Z) : option Z :=
  checked_mul 64 ((value + alignment - 1) / alignment) alignment.

(** [table.partitions()[&id]] *)
Definition partition_at (ps : list (Z * Partition)) (id : Z) : option Partition :=
  snd <$> find (fun p => p.1 =? id) ps.

Section Assemble.
Context {Tb : Type} `{GptCrate Tb}.

(** [usize] has 64 bits, so the conversion of [len] for the buffer cannot fail. *)
Definition extract_efi_partition (image : list Z) : Build (blob * Z) :=
  table ← on_device image (fun b => t ← open_device b; Some (t, b));
  partition ← (match find (fun p => part_type_guid p.2 =? EFI) (partitions table) with
               | Some p => mret p.2
               | None => fail (InvalidData (lit "EFI partition is missing"))
               end);
  start ← crate (bytes_start partition);
  len ← crate (bytes_len partition);
  _ ← open_file image;
  start ← seek image start;
  bytes ← read_exact image start len;
  mret (bytes, len).

Definition copy_data_partition (data_volume image : list Z) (partition : Partition) : Build unit :=
  start ← crate (bytes_start partition);
  len ← crate (bytes_len partition);
  volume_len ← metadata_len data_volume;
  if negb (volume_len =? len) then
    fail (InvalidData (lit "data volume size does not match the GPT data partition"))
  else
    _ ← open_file data_volume;
    _ ← open_file image;
    start ← seek image start;
    _ ← copy_into data_volume image start;
    flush image.

(** [MIB + align_up(size, MIB) + MIB + DATA_PARTITION_BYTES + MIB] *)
Definition image_size (boot_partition_size : Z) : option Z :=
  aligned ← align_up boot_partition_size MIB;
  sum ← checked_add 64 MIB aligned;
  sum ← checked_add 64 sum MIB;
  sum ← checked_add 64 sum DATA_PARTITION_BYTES;
  checked_add 64 sum MIB.

Definition assemble_two_partition_image (base_image output_image data_volume : list Z) : Build unit :=
  '(boot_partition_bytes, boot_partition_size) ← extract_efi_partition base_image;
  disk_size ← checked (image_size boot_partition_size);
  _ ← create_file output_image;
  _ ← set_len output_image disk_size;
  let last := disk_size / SECTOR_SIZE - 1 in
  let last_lba := if last <? 2 ^ 32 then last else 2 ^ 32 - 1 in
  _ ← on_device output_image (fun b => b ← overwrite_lba0 last_lba b; Some (tt, b));
  table ← on_device output_image (fun b => t ← create_from_device b; Some (t, b));
  table ← crate (update_partitions table []);
  '(boot_id, table) ← crate (add_partition table (lit "sol-boot") boot_partition_size EFI 0 (Some PARTITION_ALIGNMENT_LBAS));
  '(data_id, table) ← crate (add_partition table (lit "sol-data") DATA_PARTITION_BYTES BASIC 0 (Some PARTITION_ALIGNMENT_LBAS));
  boot_partition ← checked (partition_at (partitions table) boot_id);
  data_partition ← checked (partition_at (partitions table) data_id);
  _ ← on_device output_image (fun b => b ← write_table table b; Some (tt, b));
  _ ← open_file output_image;
  start ← crate (bytes_start boot_partition);
  start ← seek output_image start;
  _ ← write_all output_image start boot_partition_bytes;
  _ ← flush output_image;
  copy_data_partition data_volume output_image data_partition.
End Assemble.

(** ** What the builder relies on

    The documented behaviour of the crate and the format: a table of 128 entries
    leaves the blocks 34 to [n - 34] of [n] to partitions; a partition is added at
    the lowest aligned free place; a written table is read back as long as the
    bytes outside the usable blocks stay. *)

Definition blocks (p : Partition) : Z := last_lba p - first_lba p + 1.

(** No block of the partition is one of the [n] blocks from [s] on. *)
Definition apart (s n : Z) (p : Partition) : Prop := s + n <= first_lba p \/ last_lba p < s.

#[export] Instance apart_dec (s n : Z) (p : Partition) : Decision (apart s n p) := _.

(** [n] free blocks from the aligned block [s] on. *)
Definition free_at (usable : Z * Z) (ps : list (Z * Partition)) (n alignment s : Z) : Prop :=
  usable.1 <= s /\ s + n - 1 <= usable.2 /\ s mod alignment = 0 /\ Forall (fun p => apart s n p.2) ps.

#[export] Instance free_at_dec (u : Z * Z) (ps : list (Z * Partition)) (n alignment s : Z) :
  Decision (free_at u ps n alignment s) := _.

Class GptSpec (Tb : Type) `{GptCrate Tb} : Type := {
  usable : Tb -> Z * Z;
  device_len : Tb -> Z;
  EFI_guid : EFI = 0xc12a7328f81f11d2ba4b00a0c93ec93b;
  BASIC_guid : BASIC = 0xebd0a0a2b9e5443387c068b6b72699c7;
  bytes_start_spec : forall p, 0 <= first_lba p < 2 ^ 55 -> bytes_start p = Some (first_lba p * 512);
  bytes_len_spec : forall p, 0 < blocks p < 2 ^ 55 -> bytes_len p = Some (blocks p * 512);
  overwrite_lba0_spec : forall last b, 512 <= blob_len b ->
    exists b', overwrite_lba0 last b = Some b' /\ blob_len b' = blob_len b;
  create_spec : forall b, 2 ^ 20 <= blob_len b ->
    exists t t', create_from_device b = Some t /\ update_partitions t [] = Some t' /\ partitions t' = [] /\
      usable t' = (34, blob_len b / 512 - 34) /\ device_len t' = blob_len b;
  add_partition_spec : forall t name n type alignment s,
    0 < n -> 0 < default 1 alignment -> (length name <= 36)%nat ->
    free_at (usable t) (partitions t) n (default 1 alignment) s ->
    (forall s', free_at (usable t) (partitions t) n (default 1 alignment) s' -> s <= s') ->
    exists id t', add_partition t name (n * 512) type 0 alignment = Some (id, t') /\
      (id ∉ (partitions t).*1) /\
      partitions t' ≡ₚ (id, {| part_type_guid := type; first_lba := s; last_lba := s + n - 1;
                               part_name := name |}) :: partitions t /\
      usable t' = usable t /\ device_len t' = device_len t;
  write_table_spec : forall t b, blob_len b = device_len t -> 2 ^ 20 <= blob_len b ->
    exists b', write_table t b = Some b' /\ blob_len b' = blob_len b /\
      forall b'', blob_len b'' = blob_len b' ->
        (forall x, 0 <= x < blob_len b' -> ~ (usable t).1 * 512 <= x < ((usable t).2 + 1) * 512 ->
                   blob_at b'' x = blob_at b' x) ->
        exists t', open_device b'' = Some t' /\ partitions t' = partitions t;
}.

(** The bytes of [src] are found at [pos]. *)
Definition blob_holds (b : blob) (pos : Z) (src : blob) : Prop :=
  forall x, 0 <= x < blob_len src -> blob_at b (pos + x) = blob_at src x.

Definition boot_entry (size : Z) : Partition := {|
  part_type_guid := 0xc12a7328f81f11d2ba4b00a0c93ec93b; first_lba := 2048; last_lba := 2048 + size - 1;
  part_name := lit "sol-boot";
|}.

(** [size] blocks, rounded up to whole mebibytes *)
Definition aligned_blocks (size : Z) : Z := (size + 2047) / 2048 * 2048.

Definition data_entry (size : Z) : Partition := {|
  part_type_guid := 0xebd0a0a2b9e5443387c068b6b72699c7; first_lba := 2048 + aligned_blocks size;
  last_lba := 2048 + aligned_blocks size + 131071; part_name := lit "sol-data";
|}.

Lemma NoDup_two {A : Type} (x y : A) : x <> y -> NoDup [x; y].
Proof.
  intros Hxy. apply NoDup_cons. split; [|apply NoDup_singleton]. by intros ->%list_elem_of_singleton.
Qed.

Lemma partition_at_elem (ps : list (Z * Partition)) (id : Z) (p : Partition) :
  NoDup ps.*1 -> (id, p) ∈ ps -> partition_at ps id = Some p.
Proof.
  unfold partition_at. induction ps as [|[i q] ps IH]; intros Hnd Hin; [by apply elem_of_nil in Hin|].
  apply NoDup_cons in Hnd as [Hi Hnd]. cbn [find fst]. destruct (Z.eqb_spec i id) as [->|Hne].
  - apply elem_of_cons in Hin as [[= ->]|Hin]; [done|].
    destruct Hi. by apply (list_elem_of_fmap_2 fst) in Hin.
  - apply elem_of_cons in Hin as [[= ? ?]|Hin]; [congruence|auto].
Qed.

Section Image.
Context {Tb : Type} `{GptSpec Tb}.
Implicit Types (m : gmap (list Z) blob) (E : IoError -> Prop).

(** The blocks a bootable image's EFI partition is found in. *)
Definition efi_partition (base : blob) (p : Partition) : Prop :=
  exists t i, open_device base = Some t /\
    find (fun p => part_type_guid p.2 =? EFI) (partitions t) = Some (i, p) /\
    0 <= first_lba p <= last_lba p /\ (last_lba p + 1) * 512 <= blob_len base /\ blob_len base < 2 ^ 62.

Definition efi_bytes (base : blob) (p : Partition) : blob :=
  blob_slice base (first_lba p * 512) (blocks p * 512).

(** What the image is to be. *)
Definition two_partitions (image boot volume : blob) (size : Z) : Prop :=
  (exists t i j, open_device image = Some t /\ i <> j /\
     partitions t ≡ₚ [(i, boot_entry size); (j, data_entry size)]) /\
  blob_len image = 512 * (2048 + aligned_blocks size + 2048 + 131072 + 2048) /\
  blob_holds image (2048 * 512) boot /\ blob_holds image ((2048 + aligned_blocks size) * 512) volume.

Lemma image_size_eq (n : Z) :
  0 < n < 2 ^ 53 ->
  image_size (n * 512) = Some (512 * (2048 + aligned_blocks n + 2048 + 131072 + 2048)).
Proof.
  intros Hn. unfold image_size, align_up, aligned_blocks, DATA_PARTITION_BYTES, MIB.
  replace ((n * 512 + 1024 * 1024 - 1) / (1024 * 1024)) with ((n + 2047) / 2048).
  2: { change (1024 * 1024) with (512 * 2048). rewrite <- Z.div_div by lia. f_equal.
       apply Z.div_unique with 511; lia. }
  set (k := (n + 2047) / 2048). assert (0 < k < 2 ^ 43) by (subst k; zlia).
  rewrite checked_mul_lt by lia. cbn [mbind option_bind].
  repeat (rewrite checked_add_lt by lia; cbn [mbind option_bind]). f_equal. lia.
Qed.

Lemma runs_extract (base_image : list Z) (base : blob) (p : Partition) m Q E :
  m !! base_image = Some base -> efi_partition base p ->
  Q (efi_bytes base p, blocks p * 512) m -> runs (extract_efi_partition base_image) m Q E.
Proof.
  intros Hm (t & i & Ht & Hfind & Hp & Hend & Hlen) HQ. unfold extract_efi_partition, blocks in *.
  device_step Ht. rewrite insert_id by done.
  apply runs_bind. rewrite Hfind. apply runs_ret. cbn [snd].
  apply runs_bind. eapply runs_crate; [apply bytes_start_spec; lia|].
  apply runs_bind. eapply runs_crate; [apply bytes_len_spec; unfold blocks; lia|].
  file_step.
  file_step.
  apply runs_bind. eapply runs_with_file; [done| |].
  { by rewrite decide_True by (unfold blocks; lia). }
  by apply runs_ret.
Qed.

(** The places of the two partitions are the lowest free ones. *)
Lemma free_boot (usable : Z * Z) (n : Z) :
  usable.1 = 34 -> 2048 + n - 1 <= usable.2 ->
  free_at usable [] n 2048 2048 /\ forall s, free_at usable [] n 2048 s -> 2048 <= s.
Proof.
  intros Hlow Hhigh. split; [unfold free_at; split_and!; [lia|lia|done|constructor]|]. intros s (Hs & _ & Hmod & _). zlia.
Qed.

Lemma free_data (usable : Z * Z) (i n : Z) :
  0 < n -> usable.1 = 34 -> 2048 + aligned_blocks n + 131072 - 1 <= usable.2 ->
  free_at usable [(i, boot_entry n)] 131072 2048 (2048 + aligned_blocks n) /\
  forall s, free_at usable [(i, boot_entry n)] 131072 2048 s -> 2048 + aligned_blocks n <= s.
Proof.
  unfold aligned_blocks. intros Hn Hlow Hhigh. split.
  - unfold free_at. split_and!; [zlia|lia|zlia|]. apply Forall_singleton. right. cbn. zlia.
  - intros s (Hs & _ & Hmod & [Ha _]%Forall_cons). unfold apart in Ha. cbn in Ha. zlia.
Qed.

Lemma two_partition_table (len n : Z) (t : Tb) :
  0 < n -> partitions t = [] -> usable t = (34, len / 512 - 34) ->
  len = 512 * (2048 + aligned_blocks n + 2048 + 131072 + 2048) ->
  exists i j t1 t2,
    add_partition t (lit "sol-boot") (n * 512) EFI 0 (Some PARTITION_ALIGNMENT_LBAS) = Some (i, t1) /\
    add_partition t1 (lit "sol-data") DATA_PARTITION_BYTES BASIC 0 (Some PARTITION_ALIGNMENT_LBAS) = Some (j, t2) /\
    i <> j /\ partitions t2 ≡ₚ [(i, boot_entry n); (j, data_entry n)] /\
    usable t2 = usable t /\ device_len t2 = device_len t.
Proof.
  intros Hn Ht Hu ->. rewrite Z.mul_comm, Z.div_mul in Hu by lia.
  assert (Ha : 0 < aligned_blocks n /\ n <= aligned_blocks n) by (unfold aligned_blocks; zlia).
  destruct (free_boot (usable t) n) as [Hf1 Hl1]; [by rewrite Hu|rewrite Hu; cbn; lia|].
  rewrite <- Ht in Hf1, Hl1.
  destruct (add_partition_spec t (lit "sol-boot") n EFI (Some 2048) 2048) as (i & t1 & Hadd1 & _ & Hp1 & Hu1 & Hd1);
    [done|done|cbn; lia|done|done|].
  rewrite EFI_guid, Ht in Hp1. apply Permutation_singleton_r in Hp1. change (partitions t1 = [(i, boot_entry n)]) in Hp1.
  rewrite <- Hu1 in Hu.
  destruct (free_data (usable t1) i n) as [Hf2 Hl2]; [done|by rewrite Hu|rewrite Hu; cbn; lia|].
  rewrite <- Hp1 in Hf2, Hl2.
  destruct (add_partition_spec t1 (lit "sol-data") 131072 BASIC (Some 2048) (2048 + aligned_blocks n))
    as (j & t2 & Hadd2 & Hj & Hp2 & Hu2 & Hd2); [done|done|cbn; lia|done|done|].
  rewrite Hp1 in Hp2, Hj. exists i, j, t1, t2. split; [done|]. split; [done|].
  split; [intros ->; by apply Hj; left|].
  split; [|split; congruence]. rewrite Hp2, BASIC_guid. unfold data_entry.
  replace (2048 + aligned_blocks n + 131072 - 1) with (2048 + aligned_blocks n + 131071) by lia.
  apply Permutation_swap.
Qed.

(** The error for a volume of another size than the partition's. *)
Definition size_mismatch (volume : blob) (e : IoError) : Prop :=
  blob_len volume <> 64 * 2 ^ 20 /\
  e = InvalidData (lit "data volume size does not match the GPT data partition").

Lemma runs_copy_data (data_volume image : list Z) (n : Z) (volume img : blob) m Q :
  0 < n < 2 ^ 53 -> m !! data_volume = Some volume -> m !! image = Some img ->
  (blob_len volume = 64 * 2 ^ 20 ->
   Q tt (<[image := blob_write img ((2048 + aligned_blocks n) * 512) volume]> m)) ->
  runs (copy_data_partition data_volume image (data_entry n)) m Q (size_mismatch volume).
Proof.
  intros Hn Hv Hi HQ. assert (0 <= aligned_blocks n < 2 ^ 54) by (unfold aligned_blocks; zlia).
  unfold copy_data_partition.
  apply runs_bind. eapply runs_crate; [apply bytes_start_spec; cbn; lia|].
  apply runs_bind. eapply runs_crate; [apply bytes_len_spec; unfold blocks; cbn; lia|].
  replace (blocks (data_entry n) * 512) with (64 * 2 ^ 20) by (unfold blocks; cbn; lia).
  file_step.
  destruct (Z.eqb_spec (blob_len volume) (64 * 2 ^ 20)) as [Heq|Hne]; [|by apply runs_fail]. cbn [negb].
  file_step.
  file_step.
  file_step.
  apply runs_bind. eapply runs_copy_into; [done|done|].
  eapply runs_with_file; [apply lookup_insert_eq|done|]. by apply HQ.
Qed.

(** Writing both partitions into an image that has its table. *)
Lemma partitions_written (t : Tb) (i j n : Z) (img boot volume : blob) :
  0 < n -> i <> j -> partitions t ≡ₚ [(i, boot_entry n); (j, data_entry n)] ->
  usable t = (34, 2048 + aligned_blocks n + 2048 + 131072 + 2048 - 34) ->
  blob_len img = 512 * (2048 + aligned_blocks n + 2048 + 131072 + 2048) ->
  (forall b, blob_len b = blob_len img ->
     (forall x, 0 <= x < blob_len img -> ~ (usable t).1 * 512 <= x < ((usable t).2 + 1) * 512 ->
                blob_at b x = blob_at img x) ->
     exists t', open_device b = Some t' /\ partitions t' = partitions t) ->
  blob_len boot = n * 512 -> blob_len volume = 64 * 2 ^ 20 ->
  two_partitions (blob_write (blob_write img (2048 * 512) boot) ((2048 + aligned_blocks n) * 512) volume)
    boot volume n.
Proof.
  intros Hn Hij Hp Hu Hlen Hopen Hboot Hvolume. rewrite Hu in Hopen. cbn [fst snd] in Hopen.
  assert (n <= aligned_blocks n) by (unfold aligned_blocks; zlia).
  destruct (blob_write_inside img (2048 * 512) boot) as (Hl1 & Hin1 & Hout1); [lia|lia|].
  set (b1 := blob_write img (2048 * 512) boot) in *.
  destruct (blob_write_inside b1 ((2048 + aligned_blocks n) * 512) volume) as (Hl2 & Hin2 & Hout2); [lia|lia|].
  split; [|split; [congruence|split]].
  - destruct (Hopen (blob_write b1 ((2048 + aligned_blocks n) * 512) volume)) as (t' & Ht' & Hp'); [congruence| |].
    + intros x Hx Hout. rewrite Hout2, Hout1 by lia. done.
    + exists t', i, j. by rewrite Hp'.
  - intros x Hx. rewrite Hout2, Hin1 by lia. f_equal. lia.
  - intros x Hx. rewrite Hin2 by lia. f_equal. lia.
Qed.

Lemma runs_assemble (base_image output_image data_volume : list Z) (base volume : blob) (p : Partition) m :
  m !! base_image = Some base -> efi_partition base p -> m !! data_volume = Some volume ->
  output_image <> data_volume ->
  runs (assemble_two_partition_image base_image output_image data_volume) m
    (fun _ m' => blob_len volume = 64 * 2 ^ 20 /\ exists image,
       m' = <[output_image := image]> m /\ two_partitions image (efi_bytes base p) volume (blocks p))
    (size_mismatch volume).
Proof.
  intros Hbase Hefi Hvolume Hne.
  assert (Hn : 0 < blocks p < 2 ^ 53) by (destruct Hefi as (? & ? & _ & _ & Hp & Hend & Hlen); unfold blocks; lia).
  apply runs_bind. eapply runs_extract; [done|done|]. set (n := blocks p) in *.
  apply runs_bind. eapply runs_checked; [by apply image_size_eq|].
  set (len := 512 * (2048 + aligned_blocks n + 2048 + 131072 + 2048)).
  assert (Hlen : 2 ^ 20 <= len) by (subst len; unfold aligned_blocks; zlia).
  apply runs_bind, runs_create. file_step.
  destruct (overwrite_lba0_spec (if len / SECTOR_SIZE - 1 <? 2 ^ 32 then len / SECTOR_SIZE - 1 else 2 ^ 32 - 1)
              (blob_resize blob_empty len)) as (b1 & Hb1 & Hlen1); [cbn; lia|]. cbn [blob_len blob_resize] in Hlen1.
  device_step Hb1.
  destruct (create_spec b1) as (t0 & t & Ht0 & Ht & Hparts & Husable & Hdevice); [lia|]. rewrite Hlen1 in Husable, Hdevice.
  device_step Ht0.
  crate_step Ht.
  destruct (two_partition_table len n t) as (i & j & t1 & t2 & Hadd1 & Hadd2 & Hij & Hp2 & Hu2 & Hd2); [lia|done|done|done|].
  crate_step Hadd1. crate_step Hadd2.
  assert (Hnd : NoDup (partitions t2).*1).
  { rewrite Hp2. cbn. by apply NoDup_two. }
  apply runs_bind. eapply runs_checked; [apply (partition_at_elem _ i (boot_entry n)); [done|by rewrite Hp2; left]|].
  apply runs_bind. eapply runs_checked; [apply (partition_at_elem _ j (data_entry n)); [done|by rewrite Hp2; right; left]|].
  destruct (write_table_spec t2 b1) as (b2 & Hb2 & Hlen2 & Hopen); [congruence|lia|].
  device_step Hb2.
  file_step.
  apply runs_bind. eapply runs_crate; [apply bytes_start_spec; cbn; lia|].
  file_step.
  apply runs_bind. eapply runs_write_all; [apply lookup_insert_eq|]. rewrite insert_insert_eq.
  file_step.
  eapply runs_copy_data; [done|by rewrite lookup_insert_ne|apply lookup_insert_eq|].
  rewrite insert_insert_eq. intros Hv. split; [done|]. eexists. split; [done|].
  apply (partitions_written t2 i j); try done; [lia| |by rewrite Hlen2].
  rewrite Hu2, Husable. subst len. rewrite Z.mul_comm, Z.div_mul by lia. done.
Qed.

(** C16: What the image is.  Given a boot loader image with an EFI partition inside
    it and a data volume, assembling never panics and fails only with an error of
    the operating system or, exactly when the volume is not 64 MiB long, with the
    error for that; without such errors it succeeds.  The output file is then an
    image whose table lists exactly two partitions, the EFI one named sol-boot at
    block 2048 and the Basic Data one named sol-data at the next whole mebibyte,
    which hold the bytes of the EFI partition and of the volume; no other file has
    changed. *)
Theorem image_is_assembled (fs : filesystem) (base_image output_image data_volume : list Z) (base volume : blob)
    (p : Partition) :
  files fs !! base_image = Some base -> efi_partition base p -> files fs !! data_volume = Some volume ->
  output_image <> data_volume ->
  let '(r, fs') := assemble_two_partition_image base_image output_image data_volume fs in
  (r = Ok tt -> blob_len volume = 64 * 2 ^ 20 /\ exists image,
     files fs' = <[output_image := image]> (files fs) /\
     two_partitions image (efi_bytes base p) volume (blocks p)) /\
  (forall e, r = Err e -> (exists n code, faults fs n = Some code /\ e = Os code) \/ size_mismatch volume e) /\
  r <> Panic /\
  ((forall n, faults fs n = None) -> blob_len volume = 64 * 2 ^ 20 -> r = Ok tt).
Proof.
  intros Hbase Hefi Hvolume Hne.
  pose proof (runs_outcome _ fs _ _ (runs_assemble base_image output_image data_volume base volume p (files fs)
                Hbase Hefi Hvolume Hne)) as Hr.
  destruct (assemble_two_partition_image _ _ _ fs) as [r fs']. destruct Hr as (HQ & HE & Hp & Hall).
  split; [exact (HQ tt)|]. split; [done|]. split; [done|]. intros Hno Hv.
  destruct (Hall Hno) as [[] ->]; [|done]. by intros e [? _].
Qed.
End Image.
