(* ===== verification/BootImage.v ===== *)
(** * BootImage: the boot loader's own disk image

    Models [create_gpt_disk] of [vendor/bootloader/src/gpt.rs], the image the builder
    takes the EFI partition from. *)

From S2P Require Import Prelude Str Console HostFs ImageBuilder.
From stdpp Require Import gmap.
#[local] Open Scope Z_scope.

Section Gpt.
Context {Tb : Type} `{GptCrate Tb}.

Definition create_gpt_disk (fat_image out_gpt_path : list Z) : Build unit :=
  _ ← create_file out_gpt_path;
  partition_size ← metadata_len fat_image;
  disk_size ← checked (checked_add 64 partition_size (1024 * 64));
  _ ← set_len out_gpt_path disk_size;
  let last := disk_size / 512 - 1 in
  let lb_size := if last <? 2 ^ 32 then last else 0xffffffff in
  _ ← on_device out_gpt_path (fun b => b ← overwrite_lba0 lb_size b; Some (tt, b));
  gpt ← on_device out_gpt_path (fun b => t ← create_from_device b; Some (t, b));
  gpt ← crate (update_partitions gpt []);
  '(partition_id, gpt) ← crate (add_partition gpt (lit "boot") partition_size EFI 0 None);
  partition ← crate (partition_at (partitions gpt) partition_id);
  start_offset ← crate (bytes_start partition);
  _ ← on_device out_gpt_path (fun b => b ← write_table gpt b; Some (tt, b));
  start_offset ← seek out_gpt_path start_offset;
  _ ← open_file fat_image;
  _ ← copy_into fat_image out_gpt_path start_offset;
  mret tt.
End Gpt.

(** ** The image has the file system as its EFI partition *)

Definition efi_entry (n : Z) : Partition := {|
  part_type_guid := 0xc12a7328f81f11d2ba4b00a0c93ec93b; first_lba := 34; last_lba := 34 + n - 1;
  part_name := lit "boot";
|}.

Section Correct.
Context {Tb : Type} `{GptSpec Tb}.
Implicit Types (m : gmap (list Z) blob) (E : IoError -> Prop).

(** A boot loader image with the bytes of [fat] in its EFI partition. *)
Definition boot_image (image fat : blob) (n : Z) : Prop :=
  efi_partition image (efi_entry n) /\ blob_len fat = n * 512 /\ blob_holds image (34 * 512) fat.

Lemma free_first (usable : Z * Z) (n : Z) :
  usable.1 = 34 -> 34 + n - 1 <= usable.2 ->
  free_at usable [] n 1 34 /\ forall s, free_at usable [] n 1 s -> 34 <= s.
Proof.
  intros Hlow Hhigh. split; [unfold free_at; split_and!; [lia|lia|done|constructor]|].
  intros s (Hs & _). lia.
Qed.

Lemma efi_written (t : Tb) (i n : Z) (img fat : blob) :
  0 < n < 2 ^ 50 -> partitions t = [(i, efi_entry n)] -> usable t = (34, n + 128 - 34) ->
  blob_len img = n * 512 + 65536 -> blob_len fat = n * 512 ->
  (forall b, blob_len b = blob_len img ->
     (forall x, 0 <= x < blob_len img -> ~ (usable t).1 * 512 <= x < ((usable t).2 + 1) * 512 ->
                blob_at b x = blob_at img x) ->
     exists t', open_device b = Some t' /\ partitions t' = partitions t) ->
  boot_image (blob_write img (34 * 512) fat) fat n.
Proof.
  intros Hn Hp Hu Hlen Hfat Hopen. rewrite Hu in Hopen. cbn [fst snd] in Hopen.
  destruct (blob_write_inside img (34 * 512) fat) as (Hl & Hin & Hout); [lia|lia|].
  split; [|split; [done|]].
  - destruct (Hopen (blob_write img (34 * 512) fat)) as (t' & Ht' & Hp'); [done| |].
    + intros x Hx Hx'. apply Hout; lia.
    + exists t', i. rewrite Hl, Hp', Hp. split; [done|]. split; [cbn; by rewrite EFI_guid|]. cbn. lia.
  - intros x Hx. rewrite Hin by lia. f_equal. lia.
Qed.

Lemma runs_create_gpt_disk (fat_image out_gpt_path : list Z) (fat : blob) (n : Z) m Q E :
  m !! fat_image = Some fat -> fat_image <> out_gpt_path -> blob_len fat = n * 512 -> 2048 <= n < 2 ^ 50 ->
  (forall image, boot_image image fat n -> Q tt (<[out_gpt_path := image]> m)) ->
  runs (create_gpt_disk fat_image out_gpt_path) m Q E.
Proof.
  intros Hm Hne Hfat Hn HQ. apply runs_bind, runs_create.
  assert (Hfile : forall b, <[out_gpt_path := b]> m !! fat_image = Some fat) by (intros; by rewrite lookup_insert_ne).
  apply runs_bind. eapply runs_with_file; [done|done|]. cbn [from_option]. rewrite Hfat.
  apply runs_bind. eapply runs_checked; [apply checked_add_lt; lia|]. file_step.
  set (len := n * 512 + 1024 * 64).
  destruct (overwrite_lba0_spec (if len / 512 - 1 <? 2 ^ 32 then len / 512 - 1 else 0xffffffff)
              (blob_resize blob_empty len)) as (b1 & Hb1 & Hlen1); [cbn; lia|]. cbn [blob_len blob_resize] in Hlen1.
  device_step Hb1.
  destruct (create_spec b1) as (t0 & t & Ht0 & Ht & Hparts & Husable & Hdevice); [lia|]. rewrite Hlen1 in Husable, Hdevice.
  replace (len / 512 - 34) with (n + 128 - 34) in Husable by (subst len; zlia).
  device_step Ht0. crate_step Ht.
  destruct (free_first (usable t) n) as [Hfree Hleast]; [by rewrite Husable|rewrite Husable; cbn; lia|].
  rewrite <- Hparts in Hfree, Hleast.
  destruct (add_partition_spec t (lit "boot") n EFI None 34) as (i & t1 & Hadd & _ & Hp1 & Hu1 & Hd1);
    [lia|done|cbn; lia|done|done|].
  rewrite EFI_guid, Hparts in Hp1. apply Permutation_singleton_r in Hp1.
  change (partitions t1 = [(i, efi_entry n)]) in Hp1. crate_step Hadd.
  apply runs_bind. eapply runs_crate; [rewrite Hp1; cbn; by rewrite Z.eqb_refl|].
  crate_step (bytes_start_spec (efi_entry n)); [cbn; lia|].
  destruct (write_table_spec t1 b1) as (b2 & Hb2 & Hlen2 & Hopen); [congruence|lia|]. device_step Hb2.
  file_step. apply runs_bind. eapply runs_with_file; [done|done|]. cbn [from_option].
  apply runs_bind. eapply runs_copy_into; [done|apply lookup_insert_eq|]. rewrite insert_insert_eq.
  apply runs_ret, HQ. apply (efi_written t1 i); [lia|done|congruence| |done|done]. by rewrite Hlen2.
Qed.
End Correct.
