(* ===== verification/ImageBoot.v ===== *)
(** * ImageBoot: from the data volume to the kernel's block device

    Composes the image builder, the boot loader's hand-off and the kernel's RAM
    disk: what the firmware has to present of the assembled image for the kernel to
    read the builder's data volume. *)

From S2P Require Import Prelude Storage Console Loader HostFs ImageBuilder.
From stdpp Require Import gmap.
#[local] Open Scope Z_scope.

Section Boot.
Context {Tb : Type} `{GptSpec Tb} {U : Type} `{FirmwareSpec U} (st : U).

(** The entry of a handle is the partition's: its type, and its name with the
    terminating zero. *)
Definition entry_of (p : Partition) (entry : GptPartitionEntry) : Prop :=
  partition_type_guid entry = part_type_guid p /\ exists rest, partition_name entry = part_name p ++ 0 :: rest.

(** A handle through which the firmware shows the partition [p] of the image. *)
Definition shows (image : blob) (p : Partition) (h : Z) : Prop :=
  (exists entry, open_partition_info st h = Some (Some entry) /\ entry_of p entry) /\
  forall x, 0 <= x < blocks p * 512 -> medium st h x = blob_at image (first_lba p * 512 + x).

(** The firmware has a handle for every partition of the image; a further handle
    is not of a sol-data partition. *)
Definition presents (image : blob) : Prop :=
  exists t handles, open_device image = Some t /\ locate_partition_handles st = Some handles /\
    (forall h, h ∈ handles -> is_sol_data st h = false \/
       exists i p, (i, p) ∈ partitions t /\ shows image p h) /\
    (forall i p, (i, p) ∈ partitions t -> exists h, h ∈ handles /\ shows image p h).

Lemma shows_sol_data (image : blob) (p : Partition) (h : Z) :
  shows image p h -> is_sol_data st h = true -> part_type_guid p = SOL_DATA_PARTITION_TYPE.
Proof.
  intros [(entry & Hopen & Htype & _) _] Hs. unfold is_sol_data in Hs. rewrite Hopen in Hs. cbn [from_option] in Hs.
  apply is_sol_data_iff in Hs as [Hs _]. congruence.
Qed.

Lemma find_exists {A : Type} (f : A -> bool) (l : list A) (x : A) :
  x ∈ l -> f x = true -> exists y, find f l = Some y /\ y ∈ l /\ f y = true.
Proof.
  intros Hx Hf. destruct (find f l) as [y|] eqn:Hfind.
  - apply find_some in Hfind as [Hin Hy]. exists y. by rewrite list_elem_of_In.
  - apply list_elem_of_In in Hx. by rewrite (find_none _ _ Hfind x Hx) in Hf.
Qed.

Lemma image_chosen (image boot volume : blob) (n : Z) :
  two_partitions image boot volume n -> presents image ->
  exists h, chosen st h /\ shows image (data_entry n) h.
Proof.
  intros ((t & i & j & Ht & _ & Hp) & _) (t' & handles & Ht' & Hloc & Honly & Hall). simplify_eq.
  destruct (Hall j (data_entry n)) as (h0 & Hin0 & Hshow0); [by rewrite Hp; right; left|].
  assert (Hs0 : is_sol_data st h0 = true).
  { destruct Hshow0 as [(entry & Hopen & Htype & Hname) _]. unfold is_sol_data. rewrite Hopen. by apply is_sol_data_iff. }
  destruct (find_exists _ _ _ Hin0 Hs0) as (h & Hfind & Hin & Hs). exists h.
  split; [apply find_chosen; eauto|]. destruct (Honly h Hin) as [Hno|(k & p & Hk & Hshow)]; [congruence|].
  rewrite Hp in Hk. apply elem_of_cons in Hk as [[= -> ->]|Hk].
  - by apply shows_sol_data in Hshow.
  - apply list_elem_of_singleton in Hk. by injection Hk as -> ->.
Qed.

(** The whole way of a file system from the build to the kernel.  When the
    builder has assembled an image and the firmware presents that image's
    partitions, the boot loader chooses the sol-data partition; if it is readable
    the loader returns 64 MiB for it, and the kernel, once these bytes are mapped,
    accepts them as a block device of 131072 sectors that are the sectors of the
    volume the build wrote. *)
Lemma volume_reaches_kernel (fs fs' : filesystem) (base_image output_image data_volume : list Z)
    (base volume image : blob) (p : Partition) (m : Z -> Z) :
  files fs !! base_image = Some base -> efi_partition base p -> files fs !! data_volume = Some volume ->
  output_image <> data_volume ->
  assemble_two_partition_image base_image output_image data_volume fs = (Ok tt, fs') ->
  files fs' !! output_image = Some image -> presents image ->
  blob_len volume = 64 * 2 ^ 20 /\ exists h, chosen st h /\ forall ptr, readable st h ptr ->
    exists m', load_sol_data_partition st Disk m = (Some (ptr, 64 * 2 ^ 20), m') /\
    forall ram address, (forall i, 0 <= i < 64 * 2 ^ 20 -> ram (address + i) = m' (ptr + i)) ->
      let '(addr, len) := ramdisk_fields (Some (address, 64 * 2 ^ 20)) in
      exists d, from_boot_info ram addr len = Ok d /\ device_ok d /\ sector_count d = 131072 /\
        forall lba, 0 <= lba < 131072 ->
          read_sector d lba = Ok (map (blob_at volume) (seqZ (512 * lba) 512)).
Proof.
  intros Hbase Hefi Hvolume Hne Hrun Himage Hpresents.
  pose proof (runs_assemble base_image output_image data_volume base volume p (files fs) Hbase Hefi Hvolume Hne
                fs eq_refl) as Hr.
  rewrite Hrun in Hr. destruct Hr as (_ & out & _ & _ & Hlen & img & Hfiles & Htwo). rewrite Hfiles, lookup_insert_eq in Himage.
  injection Himage as ->. destruct (image_chosen _ _ _ _ Htwo Hpresents) as (h & Hc & Hshow).
  split; [done|]. exists h. split; [done|]. intros ptr Hread. pose proof (load_from_disk_unfold st m) as Hload.
  destruct (load_sol_data_partition st Disk m) as [[[q l]|] m'] eqn:Hl; [|by destruct (Hload h ptr)].
  destruct Hload as (h' & Hc' & Hpart). rewrite (chosen_unique st h' h Hc' Hc) in Hpart.
  pose proof (load_partition_result st h m) as Hres. rewrite Hpart in Hres. destruct Hres as (Hread' & -> & _).
  pose proof (readable_unique st h ptr q Hread Hread') as ->. exists m'. split; [done|]. intros ram address Hram.
  destruct (kernel_sees_partition st m m' (q, SOL_DATA_BYTES) h ram address Hl Hc Hram) as (d & Hd & Hok & Hcount & Hsec).
  exists d. split; [done|]. split; [done|]. split; [done|]. intros lba Hlba. rewrite Hsec by done. f_equal.
  apply map_ext_in. intros x Hx%list_elem_of_In%elem_of_seqZ.
  destruct Htwo as (_ & _ & _ & Hholds), Hshow as [_ Hmedium].
  rewrite Hmedium by (unfold blocks; cbn; lia). apply Hholds. lia.
Qed.
End Boot.
