(* ===== verification/ImageDemo.v ===== *)
(** * ImageDemo: an image assembled and booted

    A [gpt] crate that satisfies [GptSpec], firmware that boots an image file, and
    the theorems of the image builder at a small boot loader image and a volume. *)

From S2P Require Import Prelude Str Storage Console Loader HostFs ImageBuilder ImageBoot.
From stdpp Require Import gmap.
#[local] Open Scope Z_scope.

#[export] Instance Partition_eq_dec : EqDecision Partition.
Proof. solve_decision. Defined.

#[export] Program Instance Partition_countable : Countable Partition :=
  inj_countable' (fun p => (part_type_guid p, first_lba p, last_lba p, part_name p))
    (fun q => {| part_type_guid := q.1.1.1; first_lba := q.1.1.2; last_lba := q.1.2; part_name := q.2 |}) _.
Next Obligation. by intros []. Qed.

(** ** The table

    Its entries are kept, as one number, in the cell at the start of block 2. *)
Record demo_table : Type := { demo_len : Z; demo_parts : list (Z * Partition) }.

Definition demo_usable (t : demo_table) : Z * Z := (34, demo_len t / 512 - 34).

Definition demo_starts (t : demo_table) (alignment : Z) : list Z :=
  map (fun k => alignment * k) (seqZ 0 ((demo_usable t).2 / alignment + 1)).

Definition fresh_id (ps : list (Z * Partition)) : Z := foldr Z.max 0 ps.*1 + 1.

Definition demo_add (t : demo_table) (name : str) (size type alignment : Z) : option (Z * demo_table) :=
  s ← find (fun s => bool_decide (free_at (demo_usable t) (demo_parts t) (size / 512) alignment s))
        (demo_starts t alignment);
  let id := fresh_id (demo_parts t) in
  let p := {| part_type_guid := type; first_lba := s; last_lba := s + size / 512 - 1; part_name := name |} in
  Some (id, {| demo_len := demo_len t; demo_parts := (id, p) :: demo_parts t |}).

Definition demo_write (t : demo_table) (b : blob) : blob := {|
  blob_len := blob_len b;
  blob_at := fun x => if decide (x = 1024) then Z.pos (encode (demo_parts t)) else blob_at b x;
|}.

Definition demo_open (b : blob) : option demo_table :=
  match blob_at b 1024 with
  | Zpos c => ps ← decode c; Some {| demo_len := blob_len b; demo_parts := ps |}
  | _ => None
  end.

#[export] Instance demo_gpt : GptCrate demo_table := {
  EFI := 0xc12a7328f81f11d2ba4b00a0c93ec93b;
  BASIC := 0xebd0a0a2b9e5443387c068b6b72699c7;
  overwrite_lba0 _ b := Some b;
  create_from_device b := Some {| demo_len := blob_len b; demo_parts := [] |};
  open_device := demo_open;
  update_partitions t ps := Some {| demo_len := demo_len t; demo_parts := ps |};
  add_partition t name size type _ alignment := demo_add t name size type (default 1 alignment);
  partitions := demo_parts;
  write_table t b := Some (demo_write t b);
  bytes_start p := Some (first_lba p * 512);
  bytes_len p := Some (blocks p * 512);
}.

Lemma fresh_id_not_in (ps : list (Z * Partition)) : fresh_id ps ∉ ps.*1.
Proof.
  unfold fresh_id. assert (Hle : forall (l : list Z) x, x ∈ l -> x <= foldr Z.max 0 l).
  { induction l as [|y l IH]; intros x Hx; [by apply elem_of_nil in Hx|]. cbn.
    apply elem_of_cons in Hx as [->|Hx]; [lia|]. specialize (IH x Hx). lia. }
  intros Hin%Hle. lia.
Qed.

Lemma find_least (f : Z -> bool) (a k j : Z) (n : nat) :
  0 < a -> k <= j < k + Z.of_nat n -> f (a * j) = true ->
  exists y, find f (map (fun i => a * i) (seqZ k (Z.of_nat n))) = Some y /\ y <= a * j /\ f y = true.
Proof.
  intros Ha. revert k. induction n as [|n IH]; intros k Hj Hf; [lia|].
  rewrite seqZ_cons by lia. cbn [map find]. replace (Z.pred (Z.of_nat (S n))) with (Z.of_nat n) by lia.
  destruct (f (a * k)) eqn:Hk; [exists (a * k); split_and!; [done|nia|done]|].
  apply IH; [|done]. destruct (decide (j = k)) as [->|]; [congruence|lia].
Qed.

Lemma demo_add_lowest (t : demo_table) (n alignment s : Z) :
  0 < n -> 0 < alignment -> free_at (demo_usable t) (demo_parts t) n alignment s ->
  (forall s', free_at (demo_usable t) (demo_parts t) n alignment s' -> s <= s') ->
  find (fun s => bool_decide (free_at (demo_usable t) (demo_parts t) n alignment s)) (demo_starts t alignment) = Some s.
Proof.
  intros Hn Ha Hs Hleast. unfold demo_starts. pose proof Hs as (Hlow & Hhigh & Hmod & _).
  assert (Hj : s = alignment * (s / alignment)) by (pose proof (Z.div_mod s alignment); lia).
  assert (Hlow' : 34 <= s) by exact Hlow.
  assert (Hq : 0 <= s / alignment <= (demo_usable t).2 / alignment).
  { split; [apply Z.div_pos; lia|]. apply Z.div_le_mono; lia. }
  rewrite <- (Z2Nat.id ((demo_usable t).2 / alignment + 1)) by lia.
  destruct (find_least (fun s => bool_decide (free_at (demo_usable t) (demo_parts t) n alignment s))
              alignment 0 (s / alignment) (Z.to_nat ((demo_usable t).2 / alignment + 1))) as (y & -> & Hy & Hf);
    [done|lia|by rewrite <- Hj, bool_decide_eq_true|].
  apply bool_decide_eq_true in Hf. specialize (Hleast y Hf). f_equal. lia.
Qed.

#[export] Program Instance demo_gpt_spec : GptSpec demo_table := {
  usable := demo_usable;
  device_len := demo_len;
}.
Next Obligation. done. Qed.
Next Obligation. done. Qed.
Next Obligation. done. Qed.
Next Obligation. done. Qed.
Next Obligation. intros last b _. by exists b. Qed.
Next Obligation. intros b _. by do 2 eexists. Qed.
Next Obligation.
  intros t name n type alignment s Hn Ha _ Hs Hleast. cbn. unfold demo_add. rewrite Z.div_mul by lia.
  rewrite (demo_add_lowest t n (default 1 alignment) s) by done. cbn. do 2 eexists. split; [done|].
  split; [apply fresh_id_not_in|]. done.
Qed.
Next Obligation.
  intros t b Hlen Hbig. eexists. split; [done|]. split; [done|]. intros b'' Hlen'' Hat.
  cbn [demo_write blob_len blob_at demo_usable usable fst snd open_device demo_gpt] in *. unfold demo_open.
  rewrite (Hat 1024) by lia. rewrite decide_True by done. rewrite decode_encode. by eexists.
Qed.

(** ** Firmware booted from an image

    The state is the image; the handles are the ids of its partitions. *)
Definition image_partition (image : blob) (h : Z) : option Partition :=
  t ← demo_open image; partition_at (demo_parts t) h.

Definition image_medium (image : blob) (h x : Z) : Z :=
  match image_partition image h with
  | Some p => blob_at image (first_lba p * 512 + x) mod 256
  | None => 0
  end.

#[export] Instance image_firmware : Firmware blob := {
  locate_partition_handles image := t ← demo_open image; Some (demo_parts t).*1;
  open_partition_info image h :=
    p ← image_partition image h; Some (Some (demo_entry (part_type_guid p) (part_name p)));
  open_block_io image h :=
    p ← image_partition image h;
    Some {| media_id := h; is_media_present := true; is_logical_partition := true; block_size := 512;
            io_align := 0; last_block := blocks p - 1 |};
  allocate_pages _ _ := Some 0x1000000;
  read_blocks image h _ lba size :=
    if size <? 0 then None else Some (map (image_medium image h) (seqZ (lba * 512) size));
}.

#[export] Program Instance image_firmware_spec : FirmwareSpec blob := {
  medium := image_medium;
}.
Next Obligation.
  intros image h x. unfold image_medium, is_uint. destruct (image_partition image h); [|done].
  apply Z.mod_pos_bound. lia.
Qed.
Next Obligation.
  intros image h media id lba size bytes Hopen Hread. cbn in Hopen, Hread |- *.
  destruct (image_partition image h); [injection Hopen as <-|done]. cbn.
  destruct (Z.ltb_spec size 0); [done|]. injection Hread as <-. split.
  - rewrite length_map, length_seqZ. lia.
  - intros i Hi. apply nth_lookup_Some. change (map ?f ?l) with (f <$> l).
    rewrite list_lookup_fmap, lookup_seqZ_lt by lia. cbn. do 2 f_equal. lia.
Qed.

Definition byte_blob (b : blob) : Prop := forall x, 0 <= x < blob_len b -> 0 <= blob_at b x < 256.

Lemma image_shows (image src : blob) (t : demo_table) (i n : Z) (p : Partition) :
  open_device image = Some t -> partition_at (partitions t) i = Some p -> (length (part_name p) < 36)%nat ->
  blob_holds image (first_lba p * 512) src -> byte_blob src -> blob_len src = blocks p * 512 ->
  shows image image p i.
Proof.
  intros Ht Hi Hname Hholds Hbytes Hlen.
  assert (Hp : image_partition image i = Some p).
  { unfold image_partition. change (demo_open image) with (open_device image). by rewrite Ht. }
  split.
  - cbn. rewrite Hp. cbn. eexists. split; [done|]. split; [done|]. unfold demo_entry. cbn.
    destruct (36 - length (part_name p))%nat as [|k] eqn:Hk; [lia|]. by exists (replicate k 0).
  - intros x Hx. cbn. unfold image_medium. rewrite Hp, Hholds by lia. apply Z.mod_small, Hbytes. lia.
Qed.

Lemma image_presents (image boot volume : blob) (n : Z) :
  two_partitions image boot volume n -> byte_blob boot -> byte_blob volume ->
  blob_len boot = n * 512 -> blob_len volume = 64 * 2 ^ 20 -> presents image image.
Proof.
  intros ((t & i & j & Ht & Hij & Hp) & _ & Hboot & Hvolume) Hb Hv Hlb Hlv.
  assert (Hnd : NoDup (partitions t).*1) by (rewrite Hp; by apply NoDup_two).
  assert (Hall : forall k p, (k, p) ∈ partitions t -> shows image image p k).
  { intros k p Hk. pose proof (partition_at_elem _ _ _ Hnd Hk) as Hat. rewrite Hp in Hk.
    apply elem_of_cons in Hk as [[= -> ->]|[= -> ->]%list_elem_of_singleton].
    - apply (image_shows image boot t i 0); try done; [cbn; lia|]. unfold blocks; cbn; lia.
    - apply (image_shows image volume t j 0); try done; [cbn; lia|]. unfold blocks; cbn; lia. }
  exists t, (partitions t).*1. split; [done|]. split.
  { cbn. change (demo_open image) with (open_device image). by rewrite Ht. }
  split.
  - intros h Hh. right. apply list_elem_of_fmap in Hh as ([k p] & -> & Hk). exists k, p. auto.
  - intros k p Hk. exists k. split; [by apply (list_elem_of_fmap_2 fst) in Hk|auto].
Qed.

Lemma image_readable (image boot volume : blob) (n h : Z) :
  two_partitions image boot volume n -> chosen image h -> readable image h 0x1000000.
Proof.
  intros ((t & i & j & Ht & Hij & Hp) & _) (handles & before & after & Hloc & -> & Hs & _).
  assert (Hnd : NoDup (partitions t).*1) by (rewrite Hp; by apply NoDup_two).
  assert (Hh : h ∈ (partitions t).*1).
  { cbn in Hloc. change (demo_open image) with (open_device image) in Hloc. rewrite Ht in Hloc.
    injection Hloc as Hloc. cbn. rewrite Hloc. apply elem_of_app. right. by left. }
  apply list_elem_of_fmap in Hh as ([k p] & -> & Hk). pose proof (partition_at_elem _ _ _ Hnd Hk) as Hat.
  assert (Hpart : image_partition image k = Some p).
  { unfold image_partition. change (demo_open image) with (open_device image). by rewrite Ht. }
  rewrite Hp in Hk. apply elem_of_cons in Hk as [[= -> ->]|[= -> ->]%list_elem_of_singleton].
  - unfold is_sol_data in Hs. cbn -[demo_entry] in Hs. by rewrite Hpart in Hs.
  - eexists. cbn. rewrite Hpart. cbn. split; [done|]. split; [|split; [done|by eexists]].
    repeat split; try done. unfold blocks; cbn. lia.
Qed.

(** ** A build *)

(** A boot loader image with an EFI partition of six blocks, and a full volume. *)
Definition demo_efi : Partition := {|
  part_type_guid := EFI; first_lba := 40; last_lba := 45; part_name := lit "boot";
|}.

Definition demo_boot_image : blob :=
  demo_write {| demo_len := 2 ^ 20; demo_parts := [(1, demo_efi)] |}
    {| blob_len := 2 ^ 20; blob_at := fun x => x mod 251 |}.

Definition demo_data : blob := {| blob_len := 64 * 2 ^ 20; blob_at := fun x => (7 * x) mod 256 |}.

Definition demo_files (volume : blob) (faults : nat -> option Z) : filesystem := {|
  files := {[ lit "base.img" := demo_boot_image; lit "sol-data.fat" := volume ]};
  stdout := []; calls := 0; faults := faults;
|}.

Lemma demo_boot_image_efi : efi_partition demo_boot_image demo_efi.
Proof.
  exists {| demo_len := 2 ^ 20; demo_parts := [(1, demo_efi)] |}, 1. split; [by vm_compute|].
  split; [done|]. cbn. lia.
Qed.

Lemma demo_efi_bytes : byte_blob (efi_bytes demo_boot_image demo_efi).
Proof.
  intros x Hx. cbn in Hx |- *. rewrite decide_False by (cbn; lia).
  pose proof (Z.mod_pos_bound (20480 + x) 251). cbn. lia.
Qed.

Definition demo_assemble (volume : blob) (faults : nat -> option Z) : outcome IoError unit * filesystem :=
  assemble_two_partition_image (lit "base.img") (lit "out.img") (lit "sol-data.fat") (demo_files volume faults).

(** The build of a full volume succeeds, of a short one reports the size, and a
    fault of the third call is reported. *)
Lemma image_is_assembled_witness :
  (demo_assemble demo_data (fun _ => None)).1 = Ok tt /\
  (exists image, files (demo_assemble demo_data (fun _ => None)).2 !! lit "out.img" = Some image /\
     two_partitions image (efi_bytes demo_boot_image demo_efi) demo_data 6) /\
  size_mismatch blob_empty
    (InvalidData (lit "data volume size does not match the GPT data partition")) /\
  (demo_assemble blob_empty (fun _ => None)).1 =
    Err (InvalidData (lit "data volume size does not match the GPT data partition")) /\
  (demo_assemble demo_data (fun n => if (n =? 2)%nat then Some 28 else None)).1 = Err (Os 28).
Proof.
  pose proof (image_is_assembled (demo_files demo_data (fun _ => None)) (lit "base.img") (lit "out.img")
                (lit "sol-data.fat") demo_boot_image demo_data demo_efi ltac:(reflexivity) demo_boot_image_efi
                ltac:(reflexivity) ltac:(done)) as Hrun.
  unfold demo_assemble at 1 2.
  destruct (assemble_two_partition_image _ _ _ (demo_files demo_data (fun _ => None))) as [r fs'].
  destruct Hrun as (Hok & _ & _ & Hall). specialize (Hall ltac:(done) ltac:(done)). subst r.
  destruct (Hok eq_refl) as (_ & image & Hfiles & Htwo). split; [done|]. split.
  { exists image. cbn [snd]. split; [by rewrite Hfiles, lookup_insert_eq|exact Htwo]. }
  split; [done|]. split; vm_compute; reflexivity.
Defined.

(** The kernel reads the sectors of the volume the build was given. *)
Lemma volume_reaches_kernel_witness :
  exists fs' image m' d, demo_assemble demo_data (fun _ => None) = (Ok tt, fs') /\
    files fs' !! lit "out.img" = Some image /\
    load_sol_data_partition image Disk (fun _ => 0) = (Some (0x1000000, 64 * 2 ^ 20), m') /\
    from_boot_info m' (Some 0x1000000) (64 * 2 ^ 20) = Ok d /\
    read_sector d 7 = Ok (map (fun x => (7 * x) mod 256) (seqZ (512 * 7) 512)).
Proof.
  pose proof (runs_assemble (lit "base.img") (lit "out.img") (lit "sol-data.fat") demo_boot_image demo_data demo_efi
                (files (demo_files demo_data (fun _ => None))) ltac:(reflexivity) demo_boot_image_efi ltac:(reflexivity)
                ltac:(done) (demo_files demo_data (fun _ => None)) eq_refl) as Hrun.
  assert (Hdone : (demo_assemble demo_data (fun _ => None)).1 = Ok tt) by (vm_compute; reflexivity).
  unfold demo_assemble in *.
  destruct (assemble_two_partition_image _ _ _ (demo_files demo_data (fun _ => None))) as [r fs'] eqn:Hassemble.
  cbn [fst] in Hdone. subst r. destruct Hrun as (_ & out & _ & _ & _ & image & Hfiles & Htwo).
  destruct (volume_reaches_kernel image (demo_files demo_data (fun _ => None)) fs' (lit "base.img") (lit "out.img") (lit "sol-data.fat")
              demo_boot_image demo_data image demo_efi (fun _ => 0) ltac:(reflexivity) demo_boot_image_efi ltac:(reflexivity)
              ltac:(done) Hassemble ltac:(by rewrite Hfiles, lookup_insert_eq)
              (image_presents _ _ _ _ Htwo demo_efi_bytes ltac:(intros x _; apply Z.mod_pos_bound; lia)
                 ltac:(reflexivity) ltac:(reflexivity)))
    as (_ & h & Hc & Hload).
  destruct (Hload 0x1000000 (image_readable _ _ _ _ _ Htwo Hc)) as (m' & Hm & Hdev).
  destruct (Hdev m' 0x1000000 ltac:(done)) as (d & Hd & _ & _ & Hsec).
  exists fs', image, m', d. split; [reflexivity|]. split; [by rewrite Hfiles, lookup_insert_eq|].
  split; [exact Hm|]. split; [exact Hd|]. apply Hsec. lia.
Defined.
