(* ===== verification/HostTree.v ===== *)
(** * HostTree: directories of the host

    What [build.rs] sees of the directory [disk_files]: listings in the order the
    operating system returns them, names as bytes, and the tree they describe.
    [watch_host_tree] prints the files the build depends on. *)

From S2P Require Import Prelude Str Console Launcher HostFs.
From Stdlib Require Import Wf_nat.
From stdpp Require Import gmap sorting.
#[local] Open Scope Z_scope.
#[local] Set Warnings "-register-all".

(** ** Names as text *)

Definition REPLACEMENT : Z := 0xfffd.

Definition lead3_byte (b : Z) : bool := (0xe0 <=? b) && (b <=? 0xef).
Definition lead4_byte (b : Z) : bool := (0xf0 <=? b) && (b <=? 0xf4).

(** [String::from_utf8_lossy], which [Path::display] shows: each longest prefix of a
    valid sequence that does not complete becomes one U+FFFD. *)
Fixpoint from_utf8_lossy (l : list Z) : str :=
  match l with
  | [] => []
  | b0 :: r0 =>
      if is_ascii b0 then b0 :: from_utf8_lossy r0
      else if lead2 b0 then
        match r0 with
        | [] => [REPLACEMENT]
        | b1 :: r1 =>
            if is_cont b1 then (b0 - 0xc0) * 64 + (b1 - 0x80) :: from_utf8_lossy r1
            else REPLACEMENT :: from_utf8_lossy r0
        end
      else if lead3_byte b0 then
        match r0 with
        | [] => [REPLACEMENT]
        | b1 :: r1 =>
            if negb (lead3 b0 b1) then REPLACEMENT :: from_utf8_lossy r0
            else match r1 with
            | [] => [REPLACEMENT]
            | b2 :: r2 =>
                if is_cont b2
                then (b0 - 0xe0) * 4096 + (b1 - 0x80) * 64 + (b2 - 0x80) :: from_utf8_lossy r2
                else REPLACEMENT :: from_utf8_lossy r1
            end
        end
      else if lead4_byte b0 then
        match r0 with
        | [] => [REPLACEMENT]
        | b1 :: r1 =>
            if negb (lead4 b0 b1) then REPLACEMENT :: from_utf8_lossy r0
            else match r1 with
            | [] => [REPLACEMENT]
            | b2 :: r2 =>
                if negb (is_cont b2) then REPLACEMENT :: from_utf8_lossy r1
                else match r2 with
                | [] => [REPLACEMENT]
                | b3 :: r3 =>
                    if is_cont b3
                    then (b0 - 0xf0) * 262144 + (b1 - 0x80) * 4096 + (b2 - 0x80) * 64 + (b3 - 0x80)
                         :: from_utf8_lossy r3
                    else REPLACEMENT :: from_utf8_lossy r2
                end
            end
        end
      else REPLACEMENT :: from_utf8_lossy r0
  end.

(** A valid name is shown as it is. *)
Lemma from_utf8_lossy_valid (l : list Z) (s : str) : from_utf8 l = Some s -> from_utf8_lossy l = s.
Proof.
  revert s. induction l as [l IH] using (induction_ltof1 _ (@length Z)).
  intros s Hs. destruct l as [|b0 r0]; cbn [from_utf8 from_utf8_lossy] in *; [by simplify_eq|].
  assert (Hrec : forall c r, (length r < length (b0 :: r0))%nat -> cons c <$> from_utf8 r = Some s ->
                             c :: from_utf8_lossy r = s).
  { intros c r Hlen (t & Ht & ->)%fmap_Some. f_equal. by apply IH. }
  destruct (is_ascii b0) eqn:Ha; [by apply Hrec; [cbn; lia|]|].
  destruct r0 as [|b1 r1]; [done|].
  destruct (lead2 b0 && is_cont b1) eqn:H2.
  { apply andb_true_iff in H2 as [-> ->]. apply Hrec; [cbn; lia|done]. }
  destruct r1 as [|b2 r2]; [done|].
  destruct (lead3 b0 b1 && is_cont b2) eqn:H3.
  { apply andb_true_iff in H3 as [H3 ->].
    assert (lead2 b0 = false /\ lead3_byte b0 = true) as [-> ->]
      by (unfold lead3, lead2, lead3_byte, is_cont in *; lia).
    rewrite H3. apply Hrec; [cbn; lia|done]. }
  destruct r2 as [|b3 r3]; [done|].
  destruct (lead4 b0 b1 && is_cont b2 && is_cont b3) eqn:H4; [|done].
  apply andb_true_iff in H4 as [[H4 ->]%andb_true_iff ->].
  assert (lead2 b0 = false /\ lead3_byte b0 = false /\ lead4_byte b0 = true) as (-> & -> & ->)
    by (unfold lead4, lead2, lead3_byte, lead4_byte, is_cont in *; lia).
  rewrite H4. apply Hrec; [cbn; lia|done].
Qed.

(** The order of [OsString]: bytewise. *)
Fixpoint name_le (a b : list Z) : bool :=
  match a, b with
  | [], _ => true
  | _ :: _, [] => false
  | x :: a, y :: b => (x <? y) || ((x =? y) && name_le a b)
  end.

(** ** Directories *)

Inductive FileType : Type := IsDir | IsFile | IsOther.

(** [entries.sort_by_key(|entry| entry.file_name())], a stable sort of named things. *)
Section Sort.
Context {A : Type}.

Fixpoint insert_by_name (e : list Z * A) (l : list (list Z * A)) : list (list Z * A) :=
  match l with
  | [] => [e]
  | x :: l => if name_le e.1 x.1 then e :: x :: l else x :: insert_by_name e l
  end.

Fixpoint sort_by_name (l : list (list Z * A)) : list (list Z * A) :=
  match l with
  | [] => []
  | e :: l => insert_by_name e (sort_by_name l)
  end.
End Sort.

(** [for entry in entries], with the state the body updates. *)
Fixpoint for_entries {S A : Type} (body : S -> A -> Build S) (l : list A) (s : S) : Build S :=
  match l with
  | [] => mret s
  | e :: l => s ← body s e; for_entries body l s
  end.

(** What the system lists of a directory, by its path. *)
Abbreviation directories := (list Z -> option (list (list Z * FileType))).

Section Listing.
Variable listing : directories.

Definition read_dir (p : list Z) : Build (list (list Z * FileType)) :=
  syscall (fun fs => (ok_or NotFound (listing p), fs)).

Definition file_type (e : list Z * FileType) : Build FileType := syscall (fun fs => (Ok e.2, fs)).

Definition rerun_line (p : list Z) : str := lit "cargo:rerun-if-changed=" ++ from_utf8_lossy p.

(** [fuel] bounds the depth of the tree; running out of it stands for the stack's
    end. *)
Fixpoint watch_host_tree (fuel : nat) (directory : list Z) : Build unit :=
  match fuel with
  | O => checked None
  | S fuel =>
      _ ← println_line (rerun_line directory);
      entries ← read_dir directory;
      for_entries (fun _ entry =>
        let path := Launcher.join directory entry.1 in
        _ ← println_line (rerun_line path);
        t ← file_type entry;
        match t with
        | IsDir => watch_host_tree fuel path
        | _ => mret tt
        end) (sort_by_name entries) tt
  end.
End Listing.

(** ** The tree a listing describes *)

Inductive node : Type :=
| Directory (entries : list (list Z * node))
| Regular (content : blob)
| Special.

Definition kind (n : node) : FileType :=
  match n with
  | Directory _ => IsDir
  | Regular _ => IsFile
  | Special => IsOther
  end.

Fixpoint height (n : node) : nat :=
  match n with
  | Directory es => S (foldr (fun e k => let '(_, c) := e in Nat.max (height c) k) 0%nat es)
  | _ => 0%nat
  end.

(** Every directory lists its entries, each name once. *)
Fixpoint listed (listing : directories) (p : list Z) (n : node) : Prop :=
  match n with
  | Directory es =>
      listing p = Some (map (fun e => (e.1, kind e.2)) es) /\ NoDup es.*1 /\
      foldr (fun e P => let '(x, c) := e in listed listing (Launcher.join p x) c /\ P) True es
  | _ => True
  end.

(** The same tree, its directories listed in another order. *)
Inductive reordered : node -> node -> Prop :=
| reordered_directory es es' es'' :
    Forall2 (fun e e' => e.1 = e'.1 /\ reordered e.2 e'.2) es es' -> es' ≡ₚ es'' ->
    reordered (Directory es) (Directory es'')
| reordered_regular content : reordered (Regular content) (Regular content)
| reordered_special : reordered Special Special.

(** The lines [watch_host_tree] prints for a tree. *)
Fixpoint watch_lines (p : list Z) (n : node) : list str :=
  match n with
  | Directory es =>
      rerun_line p :: concat (map snd (sort_by_name
        (map (fun e => let '(x, c) := e in (x, rerun_line (Launcher.join p x) :: watch_lines (Launcher.join p x) c)) es)))
  | _ => []
  end.

(** ** Lemmas *)

(** Induction with the hypothesis for every entry of a directory. *)
Lemma node_induction (P : node -> Prop) :
  (forall es, Forall (fun e => P e.2) es -> P (Directory es)) -> (forall b, P (Regular b)) -> P Special ->
  forall n, P n.
Proof.
  intros Hd Hr Hs. fix IH 1. intros [es|b|]; [|apply Hr|apply Hs].
  apply Hd. induction es as [|[x c] es IHes]; constructor; [apply IH|exact IHes].
Qed.

Lemma foldr_and {A : Type} (P : A -> Prop) (l : list A) : foldr (fun e Q => P e /\ Q) True l <-> Forall P l.
Proof.
  induction l as [|e l IH]; cbn; [by split|]. rewrite Forall_cons. tauto.
Qed.

Lemma listed_directory (listing : directories) (p : list Z) (es : list (list Z * node)) :
  listed listing p (Directory es) <->
  listing p = Some (map (fun e => (e.1, kind e.2)) es) /\ NoDup es.*1 /\
  Forall (fun e => listed listing (Launcher.join p e.1) e.2) es.
Proof.
  cbn [listed]. rewrite <- (foldr_and (fun e : list Z * node => listed listing (Launcher.join p e.1) e.2)).
  replace (foldr (fun e P => let '(x, c) := e in listed listing (Launcher.join p x) c /\ P) True es)
    with (foldr (fun (e : list Z * node) P => listed listing (Launcher.join p e.1) e.2 /\ P) True es); [done|].
  induction es as [|[x c] es IH]; cbn; [done|]. by rewrite IH.
Qed.

Lemma height_entry (es : list (list Z * node)) (e : list Z * node) :
  e ∈ es -> (height e.2 < height (Directory es))%nat.
Proof.
  cbn [height]. intros He. apply Nat.lt_succ_r. induction es as [|[x c] es IH]; [by apply elem_of_nil in He|].
  cbn. apply elem_of_cons in He as [->|He]; cbn; [lia|]. specialize (IH He). lia.
Qed.

(** *** Sorting *)

Lemma name_le_cons (x y : Z) (a b : list Z) :
  name_le (x :: a) (y :: b) = true <-> x < y \/ x = y /\ name_le a b = true.
Proof. cbn. by rewrite orb_true_iff, andb_true_iff, Z.ltb_lt, Z.eqb_eq. Qed.

Lemma name_le_total (a b : list Z) : name_le a b = true \/ name_le b a = true.
Proof.
  revert b. induction a as [|x a IH]; intros [|y b]; [by left..|by right|]. rewrite !name_le_cons.
  destruct (IH b), (Z.lt_trichotomy x y) as [|[]]; auto.
Qed.

Lemma name_le_antisym (a b : list Z) : name_le a b = true -> name_le b a = true -> a = b.
Proof.
  revert b. induction a as [|x a IH]; intros [|y b]; try done. rewrite !name_le_cons.
  intros [|[-> ?]] [|[? ?]]; try lia. f_equal. auto.
Qed.

Lemma name_le_trans (a b c : list Z) : name_le a b = true -> name_le b c = true -> name_le a c = true.
Proof.
  revert b c. induction a as [|x a IH]; intros [|y b] [|z c]; try done. rewrite !name_le_cons.
  intros [|[-> ?]] [|[-> ?]]; [left; lia|by left|by left|]. right. eauto.
Qed.

Lemma names_functional {A : Type} (l : list (list Z * A)) (x : list Z) (a b : A) :
  NoDup l.*1 -> (x, a) ∈ l -> (x, b) ∈ l -> a = b.
Proof.
  intros Hnd [i Hi]%list_elem_of_lookup [j Hj]%list_elem_of_lookup.
  assert (i = j) as <-; [|congruence].
  eapply NoDup_lookup; [exact Hnd| |]; rewrite list_lookup_fmap; [by rewrite Hi|by rewrite Hj].
Qed.

Section Sorted.
Context {A : Type}.
Implicit Types (l : list (list Z * A)) (e : list Z * A).

Definition by_name (e e' : list Z * A) : Prop := name_le e.1 e'.1 = true.

#[local] Instance by_name_trans : Transitive by_name.
Proof. intros a b c. apply name_le_trans. Qed.

Lemma insert_by_name_perm e l : insert_by_name e l ≡ₚ e :: l.
Proof.
  induction l as [|x l IH]; cbn; [done|]. destruct (name_le e.1 x.1); [done|]. rewrite IH. apply Permutation_swap.
Qed.

Lemma sort_by_name_perm l : sort_by_name l ≡ₚ l.
Proof. induction l as [|e l IH]; cbn; [done|]. by rewrite insert_by_name_perm, IH. Qed.

Lemma insert_by_name_sorted e l : StronglySorted by_name l -> StronglySorted by_name (insert_by_name e l).
Proof.
  induction 1 as [|x l Hl IH Hx]; cbn; [by repeat constructor|].
  destruct (name_le e.1 x.1) eqn:He.
  - constructor; [by constructor|]. constructor; [done|]. eapply Forall_impl; [exact Hx|].
    intros y Hy. by transitivity x.
  - constructor; [done|]. rewrite insert_by_name_perm. constructor; [|done].
    unfold by_name. destruct (name_le_total e.1 x.1); congruence.
Qed.

Lemma sort_by_name_sorted l : StronglySorted by_name (sort_by_name l).
Proof. induction l as [|e l IH]; cbn; [constructor|by apply insert_by_name_sorted]. Qed.

(** With distinct names the sorted list does not depend on the order of the input. *)
Lemma sort_by_name_unique l l' : l ≡ₚ l' -> NoDup l.*1 -> sort_by_name l = sort_by_name l'.
Proof.
  intros Hp Hnd. apply (StronglySorted_unique_strong by_name); try apply sort_by_name_sorted.
  - intros [x a] [y b] H1 H2 Hxy Hyx. rewrite sort_by_name_perm in H1, H2.
    pose proof (name_le_antisym _ _ Hxy Hyx) as Heq. cbn in Heq. subst y.
    rewrite <- Hp in H2. f_equal. by eapply names_functional.
  - by rewrite !sort_by_name_perm.
Qed.
End Sorted.

Lemma sort_by_name_map {A B : Type} (f : list Z * A -> B) (l : list (list Z * A)) :
  sort_by_name (map (fun e => (e.1, f e)) l) = map (fun e => (e.1, f e)) (sort_by_name l).
Proof.
  assert (Hins : forall e l, insert_by_name (e.1, f e) (map (fun e => (e.1, f e)) l) =
                             map (fun e => (e.1, f e)) (insert_by_name e l)).
  { intros e k. induction k as [|x k IH]; cbn; [done|]. destruct (name_le e.1 x.1); cbn; [done|]. by rewrite IH. }
  induction l as [|e l IH]; cbn; [done|]. by rewrite IH, Hins.
Qed.

(** *** Listings *)

Lemma runs_read_dir (listing : directories) (p : list Z) (l : list (list Z * FileType)) (m : gmap (list Z) blob) Q (E : IoError -> Prop) :
  listing p = Some l -> Q l m -> runs (read_dir listing p) m Q E.
Proof.
  intros Hp HQ fs <-. unfold read_dir, syscall. rewrite Hp.
  destruct (faults fs (calls fs)) as [e|] eqn:Hfault; [by exists (calls fs)|].
  split; [done|]. exists []. by rewrite app_nil_r.
Qed.

Lemma runs_file_type (e : list Z * FileType) (m : gmap (list Z) blob) Q (E : IoError -> Prop) :
  Q e.2 m -> runs (file_type e) m Q E.
Proof.
  intros HQ fs <-. unfold file_type, syscall.
  destruct (faults fs (calls fs)) as [c|] eqn:Hfault; [by exists (calls fs)|].
  split; [done|]. exists []. by rewrite app_nil_r.
Qed.

Lemma for_entries_ext {S A : Type} (body body' : S -> A -> Build S) (l : list A) (s : S) (fs : filesystem) :
  (forall s e fs, e ∈ l -> body s e fs = body' s e fs) -> for_entries body l s fs = for_entries body' l s fs.
Proof.
  intros Hbody. revert s fs. induction l as [|e l IH]; intros s fs; [done|]. cbn [for_entries].
  unfold mbind, Build_bind. rewrite Hbody by (by left). destruct (body' s e fs) as [[s'|err|] fs']; [|done..].
  apply IH. intros s0 e0 fs0 He. apply Hbody. by right.
Qed.

(** Two listings of one tree sort to the same entries, whose subtrees again differ
    by their order only. *)
Lemma reordered_entries (es es'' : list (list Z * node)) :
  reordered (Directory es) (Directory es'') -> NoDup es.*1 ->
  sort_by_name (map (fun e => (e.1, kind e.2)) es) = sort_by_name (map (fun e => (e.1, kind e.2)) es'') /\
  forall x c, (x, c) ∈ es -> exists c'', (x, c'') ∈ es'' /\ reordered c c''.
Proof.
  intros Hr Hnd. inversion Hr as [? es' ? Hpair Hperm| |]; subst. split.
  - assert (Heq : map (fun e => (e.1, kind e.2)) es = map (fun e => (e.1, kind e.2)) es').
    { clear Hr Hnd Hperm. induction Hpair as [|[x c] [x' c'] es es' [Hx Hc] _ IH]; [done|]. cbn in *. subst x'.
      f_equal; [|exact IH]. f_equal. by inversion Hc. }
    rewrite Heq. apply sort_by_name_unique; [by rewrite Hperm|]. rewrite <- Heq.
    by rewrite <- list_fmap_compose.
  - intros x c Hin. apply list_elem_of_lookup in Hin as [i Hi].
    destruct (Forall2_lookup_l _ _ _ _ _ Hpair Hi) as ([x' c''] & Hi' & Hx & Hc). cbn in *. subst x'.
    exists c''. split; [|done]. rewrite <- Hperm. by eapply list_elem_of_lookup_2.
Qed.

(** What it takes for a computation that walks a directory to be the same for both
    listings: to be the same for every entry. *)
Lemma read_dir_reordered {S : Type} (L L' : directories) (p : list Z) (es es'' : list (list Z * node)) (s : S)
    (body body' : S -> list Z * FileType -> Build S) (fs : filesystem) :
  listed L p (Directory es) -> listed L' p (Directory es'') -> reordered (Directory es) (Directory es'') ->
  (forall s x c c'' fs, (x, c) ∈ es -> listed L (Launcher.join p x) c -> listed L' (Launcher.join p x) c'' ->
     reordered c c'' -> body s (x, kind c) fs = body' s (x, kind c) fs) ->
  (entries ← read_dir L p; for_entries body (sort_by_name entries) s) fs =
  (entries ← read_dir L' p; for_entries body' (sort_by_name entries) s) fs.
Proof.
  rewrite !listed_directory. intros (HL & Hnd & Hall) (HL' & _ & Hall') Hr Hbody.
  destruct (reordered_entries es es'' Hr Hnd) as [Hsort Hsub].
  unfold mbind, Build_bind, read_dir, syscall. rewrite HL, HL'.
  destruct (faults fs (calls fs)); [done|]. cbn [ok_or]. rewrite <- Hsort.
  apply for_entries_ext. intros s0 e fs0 He. rewrite sort_by_name_perm in He.
  apply list_elem_of_fmap in He as ([x c] & -> & Hin). destruct (Hsub x c Hin) as (c'' & Hin' & Hc).
  rewrite Forall_forall in Hall, Hall'. apply (Hbody s0 x c c''); try done; [by apply (Hall (x, c))|by apply (Hall' (x, c''))].
Qed.

Lemma watch_reordered (L L' : directories) (fuel : nat) (p : list Z) (n n' : node) (fs : filesystem) :
  listed L p n -> listed L' p n' -> reordered n n' -> kind n = IsDir ->
  watch_host_tree L fuel p fs = watch_host_tree L' fuel p fs.
Proof.
  revert p n n' fs. induction fuel as [|fuel IH]; intros p n n' fs HL HL' Hr Hdir; [done|].
  destruct n as [es| |]; [|done..]. destruct n' as [es''| |]; [|by inversion Hr..].
  cbn [watch_host_tree]. unfold mbind at 1 4, Build_bind at 1 4. cbn [println_line].
  apply (read_dir_reordered _ _ _ _ _ _ _ _ _ HL HL' Hr). intros s x c c'' fs0 _ Hc Hc' Hcr.
  unfold mbind, Build_bind, println_line, file_type, syscall. cbn [fst snd faults calls].
  destruct (faults fs0 (calls fs0)); [done|]. destruct (kind c) eqn:Hk; [|done..].
  by apply (IH _ c c'').
Qed.

(** *** What is printed *)

Lemma prints_for_entries {A B : Type} (f : B -> A) (body : unit -> A -> Build unit) (g : B -> list str) (l : list B)
    (m : gmap (list Z) blob) (E : IoError -> Prop) :
  (forall e, e ∈ l -> prints (body tt (f e)) m (fun _ m' out => m' = m /\ out = g e) E) ->
  prints (for_entries body (map f l) tt) m (fun _ m' out => m' = m /\ out = concat (map g l)) E.
Proof.
  intros Hall. induction l as [|e l IH]; [by apply prints_ret|]. cbn [for_entries map concat].
  apply prints_bind. eapply prints_weaken; [apply Hall; by left| |done]. intros [] m' out [-> ->].
  eapply prints_weaken; [apply IH; intros; apply Hall; by right| |done]. intros [] m' out [-> ->]. done.
Qed.

Lemma prints_watch (listing : directories) (n : node) (fuel : nat) (p : list Z) (m : gmap (list Z) blob)
    (E : IoError -> Prop) :
  listed listing p n -> kind n = IsDir -> (height n <= fuel)%nat ->
  prints (watch_host_tree listing fuel p) m (fun _ m' out => m' = m /\ out = watch_lines p n) E.
Proof.
  revert fuel p. induction n as [es IH| |] using node_induction; intros fuel p HL Hdir Hfuel; [|done..].
  destruct fuel as [|fuel]; [cbn in Hfuel; lia|]. apply listed_directory in HL as (HL & _ & Hall).
  rewrite Forall_forall in IH, Hall.
  cbn [watch_host_tree]. apply prints_bind, prints_line, prints_bind.
  eapply runs_prints; [apply (runs_read_dir _ _ _ _ (fun l m' => l = map (fun e => (e.1, kind e.2)) es /\ m' = m) _ HL); done|].
  intros l m' [-> ->]. rewrite (sort_by_name_map (fun e => kind e.2)).
  eapply prints_weaken; [apply (prints_for_entries _ _ (fun e => rerun_line (Launcher.join p e.1) :: watch_lines (Launcher.join p e.1) e.2))| |done].
  - intros [x c] Hin. rewrite sort_by_name_perm in Hin. cbn [fst snd].
    apply prints_bind, prints_line, prints_bind.
    eapply runs_prints; [apply (runs_file_type _ _ (fun t m' => t = kind c /\ m' = m)); done|]. intros t m' [-> ->].
    destruct (kind c) eqn:Hk; [|by destruct c; try done; apply prints_ret..].
    pose proof (height_entry es (x, c) Hin) as Hh. cbn [snd] in Hh.
    eapply prints_weaken; [apply (IH (x, c) Hin fuel (Launcher.join p x)); [by apply (Hall (x, c))|done|cbn [snd]; lia]| |done].
    intros [] m' out [-> ->]. done.
  - intros [] m' out [-> ->]. split; [done|]. cbn [watch_lines app]. do 2 f_equal.
    rewrite (map_ext _ (fun e => (e.1, rerun_line (Launcher.join p e.1) :: watch_lines (Launcher.join p e.1) e.2)))
      by (by intros []).
    rewrite (sort_by_name_map (fun e => rerun_line (Launcher.join p e.1) :: watch_lines (Launcher.join p e.1) e.2)).
    by rewrite map_map.
Qed.
