(* ===== verification/DataVolume.v ===== *)
(** * DataVolume: the FAT32 volume the image carries

    Models the part of [build.rs] that formats the data volume and copies a host
    directory into it.  The [fatfs] crate is the class [FatCrate]; [FatSpec] states
    what it documents of a mounted file system. *)

From S2P Require Import Prelude Str Console Launcher HostFs HostTree ImageBuilder.
From stdpp Require Import gmap.
#[local] Open Scope Z_scope.

Inductive FatType : Type := Fat12 | Fat16 | Fat32.

#[export] Instance FatType_eq_dec : EqDecision FatType.
Proof. solve_decision. Defined.

(** A mounted file system [V] lives on the bytes of its device, which every
    operation may change; [D] and [F] are its directory and file handles. *)
Class FatCrate (V D F : Type) : Type := {
  format_volume : FatType -> list Z -> blob -> option blob;
  FileSystem_new : blob -> option (V * blob);
  fat_type : V -> FatType;
  root_dir : V -> D;
  create_dir : V -> D -> str -> blob -> option (D * V * blob);
  create_fat_file : V -> D -> str -> blob -> option (F * V * blob);
  write_fat_file : V -> F -> blob -> blob -> option (F * V * blob);
  flush_fat_file : V -> F -> blob -> option (V * blob);
  unmount : V -> blob -> option blob;
}.

Section Copy.
Context {V D F : Type} `{FatCrate V D F} (listing : directories).

(** [name.to_str()] *)
Definition utf8_name (name : list Z) : Build str :=
  match from_utf8 name with
  | Some name => mret name
  | None => fail (InvalidData (lit "non-UTF-8 data filename"))
  end.

(** [File::open], [create_file], [io::copy] and [flush] of one regular file. *)
Definition copy_host_file (output path : list Z) (destination : D) (name : str) (v : V) : Build V :=
  _ ← open_file path;
  '(target, v) ← on_device output (create_fat_file v destination name);
  source ← with_file path (fun b => (Ok b, None));
  '(target, v) ← on_device output (write_fat_file v target source);
  on_device output (flush_fat_file v target).

(** The state of the crate is passed along; [fuel] bounds the depth of the tree. *)
Fixpoint copy_host_tree (fuel : nat) (output host_directory : list Z) (destination : D) (v : V) : Build V :=
  match fuel with
  | O => checked None
  | S fuel =>
      entries ← read_dir listing host_directory;
      for_entries (fun v entry =>
        name ← utf8_name entry.1;
        t ← file_type entry;
        let path := Launcher.join host_directory entry.1 in
        match t with
        | IsDir =>
            '(child, v) ← on_device output (create_dir v destination name);
            copy_host_tree fuel output path child v
        | IsFile => copy_host_file output path destination name v
        | IsOther => mret v
        end) (sort_by_name entries) v
  end.

Definition VOLUME_LABEL : list Z := lit "SOL_DATA   ".

(** The slice of the whole file is the file. *)
Definition build_data_volume (fuel : nat) (output data_files : list Z) : Build unit :=
  _ ← create_file output;
  _ ← set_len output DATA_PARTITION_BYTES;
  _ ← seek output 0;
  _ ← on_device output (fun b => b ← format_volume Fat32 VOLUME_LABEL b; Some (tt, b));
  filesystem ← on_device output FileSystem_new;
  if negb (bool_decide (fat_type filesystem = Fat32)) then
    fail (InvalidData (lit "data partition was not formatted as FAT32"))
  else
    filesystem ← copy_host_tree fuel output data_files (root_dir filesystem) filesystem;
    on_device output (fun b => b ← unmount filesystem b; Some (tt, b)).
End Copy.

(** ** What the crate promises *)

(** What a path of the volume names. *)
Inductive fat_node : Type :=
| FatDirectory
| FatFile (content : list Z).

Definition blob_bytes (b : blob) : list Z := map (blob_at b) (seqZ 0 (blob_len b)).

Lemma length_blob_bytes (content : blob) : length (blob_bytes content) = Z.to_nat (blob_len content).
Proof. unfold blob_bytes. by rewrite length_map, length_seqZ. Qed.

(** An 8.3 name in capitals: what the kernel's reader can find again. *)
Definition portable_char (c : Z) : bool := is_ascii_upper c || ((0x30 <=? c) && (c <=? 0x39)) || (c =? 0x5f) || (c =? 0x2d).

Definition portable_part (n : nat) (s : str) : bool :=
  (1 <=? length s)%nat && (length s <=? n)%nat && forallb portable_char s.

Definition portable_name (name : str) : bool :=
  match Str.split (fun c => c =? 0x2e) name with
  | [base] => portable_part 8 base
  | [base; extension] => portable_part 8 base && portable_part 3 extension
  | _ => false
  end.

(** The view of a mounted file system: what it holds, by path, and how many
    clusters of at least one sector are free. *)
Class FatView (V D F : Type) : Type := {
  mounted : V -> blob -> Prop;
  contents : V -> blob -> list str -> option fat_node;
  free_clusters : V -> blob -> Z;
  dir_path : D -> list str;
  file_path : F -> list str;
  at_start : F -> Prop;
}.

Section View.
Context {V D F : Type} `{FatView V D F}.

(** The operation put [n] at the path, took at most [cost] clusters, and changed
    nothing else. *)
Definition becomes (v : V) (b : blob) (cost : Z) (path : list str) (n : fat_node) (v' : V) (b' : blob) : Prop :=
  mounted v' b' /\ blob_len b' = blob_len b /\ free_clusters v b - cost <= free_clusters v' b' /\
  forall q, contents v' b' q = if decide (q = path) then Some n else contents v b q.

(** A name that can be created in the directory. *)
Definition creatable (v : V) (b : blob) (d : D) (name : str) : Prop :=
  mounted v b /\ contents v b (dir_path d) = Some FatDirectory /\ portable_name name = true /\
  contents v b (dir_path d ++ [name]) = None.
End View.

(** Directories take a cluster and may make their parent grow by one; a file of [n]
    bytes takes at most [n / 512 + 1]. *)
Class FatSpec (V D F : Type) `{FatCrate V D F} `{FatView V D F} : Type := {
  format_spec : forall label b, blob_len b = 64 * 2 ^ 20 -> length label = 11%nat ->
    exists b1 v b2, format_volume Fat32 label b = Some b1 /\ FileSystem_new b1 = Some (v, b2) /\
      blob_len b1 = blob_len b /\ blob_len b2 = blob_len b /\ mounted v b2 /\ fat_type v = Fat32 /\
      128000 <= free_clusters v b2 /\
      forall q, contents v b2 q = if decide (q = []) then Some FatDirectory else None;
  root_dir_path : forall v, dir_path (root_dir v) = [];
  create_dir_spec : forall v d name b, creatable v b d name ->
    match create_dir v d name b with
    | Some (d', v', b') =>
        dir_path d' = dir_path d ++ [name] /\ becomes v b 2 (dir_path d ++ [name]) FatDirectory v' b'
    | None => free_clusters v b < 2
    end;
  create_file_spec : forall v d name b, creatable v b d name ->
    match create_fat_file v d name b with
    | Some (f, v', b') => file_path f = dir_path d ++ [name] /\ at_start f /\
        becomes v b 1 (dir_path d ++ [name]) (FatFile []) v' b'
    | None => free_clusters v b < 1
    end;
  write_file_spec : forall v f data b,
    mounted v b -> at_start f -> contents v b (file_path f) = Some (FatFile []) -> 0 <= blob_len data ->
    match write_fat_file v f data b with
    | Some (f', v', b') => file_path f' = file_path f /\
        becomes v b (blob_len data / 512 + 1) (file_path f) (FatFile (blob_bytes data)) v' b'
    | None => free_clusters v b < blob_len data / 512 + 1
    end;
  flush_file_spec : forall v f b n, mounted v b -> contents v b (file_path f) = Some n ->
    exists v' b', flush_fat_file v f b = Some (v', b') /\ becomes v b 0 (file_path f) n v' b';
  unmount_spec : forall v b, mounted v b ->
    exists b', unmount v b = Some b' /\ blob_len b' = blob_len b /\
      exists v'' b'', FileSystem_new b' = Some (v'', b'') /\ mounted v'' b'' /\
        forall q, contents v'' b'' q = contents v b q;
}.

(** ** The tree in the volume *)

Definition assoc (x : list Z) (es : list (list Z * node)) : option node :=
  snd <$> find (fun e => bool_decide (e.1 = x)) es.

(** The node at a path of the host tree, and what the volume is to hold for it. *)
Fixpoint node_at (n : node) (q : list (list Z)) : option node :=
  match q with
  | [] => Some n
  | x :: q =>
      match n with
      | Directory es => c ← assoc x es; node_at c q
      | _ => None
      end
  end.

Definition fat_of (n : node) : option fat_node :=
  match n with
  | Directory _ => Some FatDirectory
  | Regular content => Some (FatFile (blob_bytes content))
  | Special => None
  end.

(** The clusters a node takes at most. *)
Fixpoint cost (n : node) : Z :=
  match n with
  | Directory es => foldr (fun e k => let '(_, c) := e in cost c + k) 2 es
  | Regular content => blob_len content / 512 + 2
  | Special => 0
  end.

Definition costs (l : list (list Z * node)) : Z := foldr (fun e k => cost e.2 + k) 0 l.

(** The files of the tree are there, under 8.3 names, and none is the output. *)
Fixpoint stored (m : gmap (list Z) blob) (output p : list Z) (n : node) : Prop :=
  match n with
  | Directory es =>
      foldr (fun e P => let '(x, c) := e in
               (portable_name x = true /\ stored m output (Launcher.join p x) c) /\ P) True es
  | Regular content => m !! p = Some content /\ p <> output /\ 0 <= blob_len content
  | Special => True
  end.

Lemma stored_directory m (output p : list Z) (es : list (list Z * node)) :
  stored m output p (Directory es) <->
  Forall (fun e => portable_name e.1 = true /\ stored m output (Launcher.join p e.1) e.2) es.
Proof.
  cbn [stored]. rewrite <- foldr_and.
  replace (foldr _ True es) with
    (foldr (fun (e : list Z * node) Q => (portable_name e.1 = true /\ stored m output (Launcher.join p e.1) e.2) /\ Q) True es);
    [done|].
  induction es as [|[x c] es IH]; cbn; [done|]. by rewrite IH.
Qed.

Lemma cost_directory (es : list (list Z * node)) : cost (Directory es) = costs es + 2.
Proof. cbn [cost]. unfold costs. induction es as [|[x c] es IH]; cbn; [done|]. rewrite IH. lia. Qed.

Lemma costs_perm (l l' : list (list Z * node)) : l ≡ₚ l' -> costs l = costs l'.
Proof. unfold costs. induction 1; cbn; lia. Qed.

Lemma assoc_elem (x : list Z) (c : node) (es : list (list Z * node)) :
  NoDup es.*1 -> (x, c) ∈ es -> assoc x es = Some c.
Proof.
  intros Hnd Hin. unfold assoc. destruct (find _ es) as [[y c']|] eqn:Hf.
  - apply find_some in Hf as [Hf Hy]. apply bool_decide_eq_true in Hy. cbn in Hy. subst y.
    apply list_elem_of_In in Hf. cbn. f_equal. by eapply names_functional.
  - apply list_elem_of_In in Hin. pose proof (find_none _ _ Hf _ Hin) as Hn. cbn in Hn.
    by rewrite bool_decide_eq_true_2 in Hn.
Qed.

Lemma assoc_none (x : list Z) (es : list (list Z * node)) : x ∉ es.*1 -> assoc x es = None.
Proof.
  intros Hx. unfold assoc. destruct (find _ es) as [[y c]|] eqn:Hf; [|done].
  apply find_some in Hf as [Hf Hy]. apply bool_decide_eq_true in Hy. cbn in Hy. subst y.
  destruct Hx. apply list_elem_of_In in Hf. by apply (list_elem_of_fmap_2 fst) in Hf.
Qed.

Lemma split_Forall (P : Z -> Prop) (p : Z -> bool) (s : str) :
  (forall c, p c = true -> P c) -> Forall (Forall P) (Str.split p s) -> Forall P s.
Proof.
  intros Hp. induction s as [|c s IH]; [done|]. cbn [Str.split].
  destruct (Str.split p s) as [|field fields] eqn:Hs.
  - rewrite !Forall_singleton. intros Hc. constructor; [done|]. apply IH. constructor.
  - destruct (p c) eqn:Hc.
    + intros [_ Hall]%Forall_cons. constructor; auto.
    + intros [[? ?]%Forall_cons Hall]%Forall_cons. constructor; [done|]. apply IH. by constructor.
Qed.

Lemma portable_part_ascii (n : nat) (s : str) : portable_part n s = true -> ascii_str s.
Proof.
  unfold portable_part. rewrite andb_true_iff, forallb_forall. intros [_ Hall]. apply Forall_forall.
  intros c Hc%list_elem_of_In%Hall. unfold portable_char, is_ascii_upper in Hc. lia.
Qed.

Lemma portable_name_utf8 (name : str) : portable_name name = true -> from_utf8 name = Some name.
Proof.
  unfold portable_name. intros Hs. apply from_utf8_ascii.
  apply (split_Forall _ (fun c => c =? 0x2e)); [intros c Hc%Z.eqb_eq; lia|].
  destruct (Str.split _ name) as [|base [|extension [|]]]; try done.
  - repeat constructor. by eapply portable_part_ascii.
  - apply andb_true_iff in Hs as [? ?]. repeat constructor; by eapply portable_part_ascii.
Qed.

Section Correct.
Context {V D F : Type} `{FatSpec V D F} (listing : directories).
Context (m : gmap (list Z) blob) (output : list Z).

(** The entries [l] were copied into the directory [p]; nothing else changed. *)
Definition copied (v : V) (b : blob) (p : list str) (l : list (list Z * node)) (v' : V) (b' : blob) : Prop :=
  mounted v' b' /\ blob_len b' = blob_len b /\ free_clusters v b - costs l <= free_clusters v' b' /\
  (forall x c r, (x, c) ∈ l -> contents v' b' (p ++ x :: r) = node_at c r ≫= fat_of) /\
  (forall q, (forall x c r, (x, c) ∈ l -> q <> p ++ x :: r) -> contents v' b' q = contents v b q).

(** A directory in which the entries can be created. *)
Definition vacant (v : V) (b : blob) (p : list str) (l : list (list Z * node)) : Prop :=
  mounted v b /\ contents v b p = Some FatDirectory /\
  forall x c r, (x, c) ∈ l -> contents v b (p ++ x :: r) = None.

Lemma app_cons_ne {A : Type} (p r : list A) (x : A) : p <> p ++ x :: r.
Proof. intros Heq%(f_equal length). rewrite length_app in Heq. cbn in Heq. lia. Qed.

Lemma copied_cons (v v1 v' : V) (b b1 b' : blob) (p : list str) (e : list Z * node) (l : list (list Z * node)) :
  e.1 ∉ l.*1 -> copied v b p [e] v1 b1 -> copied v1 b1 p l v' b' -> copied v b p (e :: l) v' b'.
Proof.
  intros Hfresh (Hm1 & Hl1 & Hf1 & Hin1 & Hout1) (Hm & Hl & Hf & Hin & Hout). unfold copied.
  split; [done|]. split; [congruence|]. split; [cbn in Hf1 |- *; unfold costs in *; cbn in *; lia|]. split.
  - intros x c r [<-|Hl']%elem_of_cons; [|by apply Hin]. rewrite Hout.
    + apply (Hin1 x c r). by left.
    + intros y c' r' Hy Hq. apply app_inj_1 in Hq as [_ [= -> ->]]; [|done]. destruct Hfresh.
      by apply (list_elem_of_fmap_2 fst) in Hy.
  - intros q Hq. rewrite Hout, Hout1; [done| |].
    + intros x c r <-%list_elem_of_singleton. apply (Hq x c). by left.
    + intros x c r Hx. apply (Hq x c). by right.
Qed.

Lemma vacant_cons (v v1 : V) (b b1 : blob) (p : list str) (e : list Z * node) (l : list (list Z * node)) :
  e.1 ∉ l.*1 -> vacant v b p (e :: l) -> copied v b p [e] v1 b1 -> vacant v1 b1 p l.
Proof.
  intros Hfresh (Hm & Hp & Hfree) (Hm1 & _ & _ & _ & Hout). split; [done|]. split.
  - rewrite Hout; [done|]. intros x c r _. apply app_cons_ne.
  - intros x c r Hx. rewrite Hout.
    + apply (Hfree x c). by right.
    + intros y c' r' <-%list_elem_of_singleton Hq. apply app_inj_1 in Hq as [_ [= -> ->]]; [|done].
      destruct Hfresh. by apply (list_elem_of_fmap_2 fst) in Hx.
Qed.

Lemma becomes_contents (v v' : V) (b b' : blob) (k : Z) (path q : list str) (n : fat_node) :
  becomes v b k path n v' b' -> contents v' b' q = if decide (q = path) then Some n else contents v b q.
Proof. intros (_ & _ & _ & Hc). apply Hc. Qed.

(** One regular file. *)
Lemma runs_copy_file (path : list Z) (d : D) (name : str) (v : V) (b content : blob) (E : IoError -> Prop) Q :
  m !! path = Some content -> path <> output -> 0 <= blob_len content -> creatable v b d name ->
  (free_clusters v b < blob_len content / 512 + 2 -> E CrateError) ->
  (forall v' b', becomes v b (blob_len content / 512 + 2) (dir_path d ++ [name]) (FatFile (blob_bytes content)) v' b' ->
     Q v' (<[output := b']> m)) ->
  runs (copy_host_file output path d name v) (<[output := b]> m) Q E.
Proof.
  intros Hpath Hne Hlen Hcreate HE HQ.
  assert (Hfile : forall b, <[output := b]> m !! path = Some content) by (intros; by rewrite lookup_insert_ne).
  assert (0 <= blob_len content / 512) by (apply Z.div_pos; lia).
  unfold copy_host_file. apply runs_bind. eapply runs_with_file; [done|done|]. cbn [from_option].
  apply runs_bind. eapply runs_device; [apply lookup_insert_eq|]. pose proof (create_file_spec v d name b Hcreate) as Hc.
  destruct (create_fat_file v d name b) as [[[f v1] b1]|]; [|apply HE; lia]. destruct Hc as (Hpf & Hstart & Hb1).
  rewrite insert_insert_eq. apply runs_bind. eapply runs_with_file; [done|done|]. cbn [from_option].
  apply runs_bind. eapply runs_device; [apply lookup_insert_eq|]. pose proof Hb1 as (Hm1 & Hl1 & Hf1 & Hc1).
  pose proof (write_file_spec v1 f content b1 Hm1 Hstart) as Hw. rewrite Hpf, Hc1, decide_True in Hw by done.
  specialize (Hw eq_refl Hlen). destruct (write_fat_file v1 f content b1) as [[[f2 v2] b2]|]; [|apply HE; lia].
  destruct Hw as (Hpf2 & Hm2 & Hl2 & Hf2 & Hc2). rewrite insert_insert_eq.
  destruct (flush_file_spec v2 f2 b2 (FatFile (blob_bytes content)) Hm2) as (v3 & b3 & Hflush & Hm3 & Hl3 & Hf3 & Hc3).
  { by rewrite Hpf2, Hc2, decide_True. }
  eapply runs_on_device; [apply lookup_insert_eq|exact Hflush|]. rewrite insert_insert_eq. apply HQ.
  split; [done|]. split; [congruence|]. split; [lia|]. intros q.
  rewrite Hc3, Hpf2, Hc2, Hc1. by repeat case_decide.
Qed.

Lemma copied_file (v v' : V) (b b' content : blob) (p : list str) (x : list Z) :
  vacant v b p [(x, Regular content)] ->
  becomes v b (blob_len content / 512 + 2) (p ++ [x]) (FatFile (blob_bytes content)) v' b' ->
  copied v b p [(x, Regular content)] v' b'.
Proof.
  intros (_ & _ & Hfree) (Hm & Hl & Hf & Hc). split; [done|]. split; [done|].
  split; [unfold costs; cbn [foldr cost snd]; lia|]. split.
  - intros y c r [= -> ->]%list_elem_of_singleton. rewrite Hc. destruct r as [|z r]; [by rewrite decide_True|].
    rewrite decide_False by (intros [_ ?]%app_inj_1; done). apply (Hfree x (Regular content)). by left.
  - intros q Hq. rewrite Hc, decide_False; [done|]. intros ->. apply (Hq x (Regular content) []); [by left|done].
Qed.

Lemma copied_special (v : V) (b : blob) (p : list str) (x : list Z) :
  vacant v b p [(x, Special)] -> copied v b p [(x, Special)] v b.
Proof.
  intros (Hm & _ & Hfree). split; [done|]. split; [done|]. split; [unfold costs; cbn; lia|]. split; [|done].
  intros y c r Hy. rewrite (Hfree y c r Hy). apply list_elem_of_singleton in Hy as [= -> ->]. by destruct r.
Qed.

(** A directory created and filled. *)
Lemma copied_directory (v v1 v' : V) (b b1 b' : blob) (p : list str) (x : list Z) (es : list (list Z * node)) :
  NoDup es.*1 -> becomes v b 2 (p ++ [x]) FatDirectory v1 b1 -> copied v1 b1 (p ++ [x]) es v' b' ->
  vacant v b p [(x, Directory es)] -> copied v b p [(x, Directory es)] v' b'.
Proof.
  intros Hnd (_ & Hl1 & Hf1 & Hc1) (Hm & Hl & Hf & Hin & Hout) (_ & _ & Hfree).
  split; [done|]. split; [congruence|].
  split; [unfold costs at 1; cbn [foldr snd]; rewrite cost_directory; lia|]. split.
  - intros y c r [= -> ->]%list_elem_of_singleton. destruct r as [|z r].
    + rewrite Hout, Hc1, decide_True by (done || intros; apply app_cons_ne). done.
    + cbn [node_at]. replace (p ++ x :: z :: r) with ((p ++ [x]) ++ z :: r) by (by rewrite <- app_assoc).
      destruct (decide (z ∈ es.*1)) as [Hz|Hz].
      * apply list_elem_of_fmap in Hz as ([y c] & -> & Hz). cbn [fst]. rewrite (assoc_elem y c) by done. by apply Hin.
      * rewrite assoc_none by done. rewrite Hout, Hc1, decide_False.
        -- rewrite <- app_assoc. apply (Hfree x (Directory es)). by left.
        -- intros Heq. symmetry in Heq. by apply app_cons_ne in Heq.
        -- intros y c r' Hy [_ [= -> ->]]%app_inj_1; [|done]. destruct Hz. by apply (list_elem_of_fmap_2 fst) in Hy.
  - intros q Hq. rewrite Hout, Hc1, decide_False; [done| |].
    + intros ->. apply (Hq x (Directory es) []); [by left|done].
    + intros y c r Hy ->. apply (Hq x (Directory es) (y :: r)); [by left|]. by rewrite <- app_assoc.
Qed.

Lemma copied_perm (v v' : V) (b b' : blob) (p : list str) (l l' : list (list Z * node)) :
  l ≡ₚ l' -> copied v b p l v' b' -> copied v b p l' v' b'.
Proof.
  intros Hp (Hm & Hl & Hf & Hin & Hout). rewrite (costs_perm l l' Hp) in Hf.
  split; [done|]. split; [done|]. split; [done|]. split.
  - intros x c r Hx. rewrite <- Hp in Hx. by apply Hin.
  - intros q Hq. apply Hout. intros x c r Hx. rewrite Hp in Hx. by apply (Hq x c).
Qed.

(** Not enough clusters. *)
Definition full (v : V) (b : blob) (k : Z) (e : IoError) : Prop := e = CrateError /\ free_clusters v b < k.

Definition children (n : node) : list (list Z * node) :=
  match n with
  | Directory es => es
  | _ => []
  end.

(** The directory is copied, with every fuel that its height allows. *)
Definition copies (n : node) : Prop :=
  forall fuel path d v b, kind n = IsDir -> listed listing path n -> stored m output path n ->
    (height n <= fuel)%nat -> vacant v b (dir_path d) (children n) ->
    runs (copy_host_tree listing fuel output path d v) (<[output := b]> m)
      (fun v' m' => exists b', m' = <[output := b']> m /\ copied v b (dir_path d) (children n) v' b')
      (full v b (costs (children n))).

Lemma vacant_creatable (v : V) (b : blob) (d : D) (x : list Z) (c : node) :
  vacant v b (dir_path d) [(x, c)] -> portable_name x = true -> creatable v b d x.
Proof. intros (Hm & Hp & Hfree) Hx. split; [done|]. split; [done|]. split; [done|]. apply (Hfree x c). by left. Qed.

Lemma costs_Forall (l : list (list Z * node)) : Forall (fun e => 0 <= cost e.2) l -> 0 <= costs l.
Proof. unfold costs. induction 1; cbn; lia. Qed.

Lemma cost_nonneg (path : list Z) (n : node) : stored m output path n -> 0 <= cost n.
Proof.
  revert path. induction n as [es IH|content|] using node_induction; intros path; [|cbn; intros; zlia|done].
  rewrite stored_directory, cost_directory, Forall_forall. intros Hs. rewrite Forall_forall in IH.
  cut (0 <= costs es); [lia|]. apply costs_Forall, Forall_forall. intros e He. by eapply (IH e He), (Hs e He).
Qed.

Lemma costs_nonneg (path : list Z) (es : list (list Z * node)) : stored m output path (Directory es) -> 0 <= costs es.
Proof.
  rewrite stored_directory. intros Hs. apply costs_Forall. eapply Forall_impl; [exact Hs|].
  intros e [_ He]. by eapply cost_nonneg.
Qed.

Lemma runs_copy_entry (fuel : nat) (path : list Z) (d : D) (v : V) (b : blob) (x : list Z) (c : node) :
  copies c -> listed listing (Launcher.join path x) c -> portable_name x = true ->
  stored m output (Launcher.join path x) c -> (height c <= fuel)%nat -> vacant v b (dir_path d) [(x, c)] ->
  runs (name ← utf8_name x; t ← file_type (x, kind c);
        match t with
        | IsDir => '(child, v) ← on_device output (create_dir v d name);
                   copy_host_tree listing fuel output (Launcher.join path x) child v
        | IsFile => copy_host_file output (Launcher.join path x) d name v
        | IsOther => mret v
        end) (<[output := b]> m)
    (fun v' m' => exists b', m' = <[output := b']> m /\ copied v b (dir_path d) [(x, c)] v' b')
    (full v b (cost c)).
Proof.
  intros IH HL Hx Hs Hfuel Hvacant. pose proof (vacant_creatable _ _ _ _ _ Hvacant Hx) as Hcreate.
  unfold utf8_name. rewrite portable_name_utf8 by done. apply runs_bind, runs_ret.
  apply runs_bind, runs_file_type. destruct c as [es|content|]; cbn [kind snd].
  - apply runs_bind. eapply runs_device; [apply lookup_insert_eq|].
    pose proof (create_dir_spec v d x b Hcreate) as Hc. pose proof (costs_nonneg _ _ Hs). rewrite cost_directory.
    destruct (create_dir v d x b) as [[[d1 v1] b1]|]; [|by split; [done|lia]].
    destruct Hc as [Hd1 Hb1]. rewrite insert_insert_eq. destruct Hvacant as (Hm & Hp & Hfree).
    pose proof Hb1 as (Hm1 & _ & Hf1 & Hc1).
    eapply runs_weaken; [apply (IH fuel _ d1); [done..|]| |].
    + rewrite Hd1. split; [done|]. split; [by rewrite Hc1, decide_True|]. intros y c r _.
      rewrite Hc1, decide_False by (intros Heq; symmetry in Heq; by apply app_cons_ne in Heq).
      rewrite <- app_assoc. apply (Hfree x (Directory es)). by left.
    + intros v' m' (b' & -> & Hcopied). exists b'. split; [done|]. rewrite Hd1 in Hcopied.
      apply listed_directory in HL as (_ & Hnd & _). by apply (copied_directory v v1 v' b b1 b').
    + intros e [-> Hfull]. split; [done|]. cbn [children] in Hfull. lia.
  - destruct Hs as (Hm & Hne & Hlen). apply (runs_copy_file _ _ _ _ _ content); try done.
    intros v' b' Hb. exists b'. split; [done|]. by apply copied_file.
  - apply runs_ret. exists b. split; [done|]. by apply copied_special.
Qed.

Lemma runs_copy_entries (fuel : nat) (path : list Z) (d : D) (l : list (list Z * node)) (v : V) (b : blob) :
  Forall (fun e => copies e.2 /\ listed listing (Launcher.join path e.1) e.2 /\ portable_name e.1 = true /\
                   stored m output (Launcher.join path e.1) e.2 /\ (height e.2 <= fuel)%nat) l ->
  NoDup l.*1 -> vacant v b (dir_path d) l ->
  runs (for_entries (fun v entry =>
          name ← utf8_name entry.1;
          t ← file_type entry;
          let path := Launcher.join path entry.1 in
          match t with
          | IsDir => '(child, v) ← on_device output (create_dir v d name);
                     copy_host_tree listing fuel output path child v
          | IsFile => copy_host_file output path d name v
          | IsOther => mret v
          end) (map (fun e => (e.1, kind e.2)) l) v) (<[output := b]> m)
    (fun v' m' => exists b', m' = <[output := b']> m /\ copied v b (dir_path d) l v' b')
    (full v b (costs l)).
Proof.
  revert v b. induction l as [|[x c] l IH]; intros v b Hall Hnd Hvacant.
  { apply runs_ret. exists b. split; [done|]. destruct Hvacant as (Hm & _). split; [done|]. split; [done|].
    split; [unfold costs; cbn; lia|]. split; [|done]. intros ? ? ? Hx. by apply elem_of_nil in Hx. }
  apply Forall_cons in Hall as [(Hc & HL & Hx & Hs & Hh) Hall]. apply NoDup_cons in Hnd as [Hfresh Hnd].
  assert (Hcosts : 0 <= costs l).
  { apply costs_Forall. eapply Forall_impl; [exact Hall|]. intros e (_ & _ & _ & He & _). by eapply cost_nonneg. }
  assert (Hcost : costs ((x, c) :: l) = cost c + costs l) by done.
  cbn [for_entries map fst snd]. apply runs_bind.
  eapply runs_weaken; [apply (runs_copy_entry fuel path d v b x c); try done| |].
  { destruct Hvacant as (Hm & Hp & Hfree). split; [done|]. split; [done|]. intros y c' r Hy.
    apply (Hfree y c'). by apply list_elem_of_singleton in Hy as ->; left. }
  - intros v1 m1 (b1 & -> & Hcopied). pose proof Hcopied as (_ & _ & Hf1 & _).
    eapply runs_weaken; [apply IH; [done|done|by eapply vacant_cons]| |].
    + intros v' m' (b' & -> & Hrest). exists b'. split; [done|]. by eapply copied_cons.
    + intros e [-> Hfull]. split; [done|]. unfold costs in Hf1 at 1. cbn in Hf1. lia.
  - intros e [-> Hfull]. split; [done|]. lia.
Qed.

Lemma all_copied (n : node) : copies n.
Proof.
  induction n as [es IH|content|] using node_induction; intros fuel path d v b Hdir HL Hs Hfuel Hvacant; [|done..].
  destruct fuel as [|fuel]; [cbn in Hfuel; lia|]. apply listed_directory in HL as (HL & Hnd & HLs).
  apply stored_directory in Hs. cbn [copy_host_tree children] in *. apply runs_bind.
  eapply runs_read_dir; [exact HL|]. rewrite (sort_by_name_map (fun e => kind e.2)).
  pose proof (sort_by_name_perm es) as Hperm. rewrite Forall_forall in IH, HLs, Hs.
  eapply runs_weaken; [apply (runs_copy_entries fuel path d (sort_by_name es) v b)| |].
  - apply Forall_forall. intros e He. rewrite Hperm in He. destruct (Hs e He). pose proof (height_entry es e He).
    split_and!; [by apply IH|by apply HLs|done|done|lia].
  - by rewrite Hperm.
  - destruct Hvacant as (? & ? & Hfree). split; [done|]. split; [done|]. intros x c r Hx. rewrite Hperm in Hx.
    by apply (Hfree x c).
  - intros v' m' (b' & -> & Hcopied). exists b'. split; [done|]. by apply (copied_perm _ _ _ _ _ (sort_by_name es)).
  - intros e. by rewrite (costs_perm _ _ Hperm).
Qed.

(** What a formatted and filled volume shows when it is mounted again. *)
Definition volume_shows (volume : blob) (n : node) : Prop :=
  blob_len volume = 64 * 2 ^ 20 /\
  exists v b, FileSystem_new volume = Some (v, b) /\ mounted v b /\
    forall q, contents v b q = node_at n q ≫= fat_of.

Lemma copied_root (v v' : V) (b b' : blob) (es : list (list Z * node)) :
  NoDup es.*1 -> (forall q, contents v b q = if decide (q = []) then Some FatDirectory else None) ->
  copied v b [] es v' b' -> forall q, contents v' b' q = node_at (Directory es) q ≫= fat_of.
Proof.
  intros Hnd Hroot (_ & _ & _ & Hin & Hout) [|x q].
  - rewrite Hout, Hroot by done. done.
  - cbn [node_at]. destruct (decide (x ∈ es.*1)) as [Hx|Hx].
    + apply list_elem_of_fmap in Hx as ([y c] & -> & Hx). cbn [fst]. rewrite (assoc_elem y c) by done. by apply Hin.
    + rewrite assoc_none by done. rewrite Hout, Hroot; [done|].
      intros y c r Hy [= -> ->]. destruct Hx. by apply (list_elem_of_fmap_2 fst) in Hy.
Qed.

Lemma runs_build_data_volume (fuel : nat) (data_files : list Z) (n : node) :
  kind n = IsDir -> listed listing data_files n -> stored m output data_files n -> (height n <= fuel)%nat ->
  runs (build_data_volume listing fuel output data_files) m
    (fun _ m' => exists volume, m' = <[output := volume]> m /\ volume_shows volume n)
    (fun e => e = CrateError /\ 128000 < cost n).
Proof.
  intros Hdir HL Hs Hfuel. destruct n as [es| |]; [|done..].
  unfold build_data_volume. apply runs_bind, runs_create. file_step. file_step.
  destruct (format_spec VOLUME_LABEL (blob_resize blob_empty DATA_PARTITION_BYTES))
    as (b1 & v & b2 & Hformat & Hnew & Hl1 & Hl2 & Hm & Htype & Hfree & Hroot); [done|done|].
  device_step Hformat. device_step Hnew. rewrite Htype. cbn [bool_decide decide negb].
  rewrite bool_decide_eq_true_2 by done. cbn [negb]. pose proof (proj1 (listed_directory _ _ _) HL) as (_ & Hnd & _).
  apply runs_bind. eapply runs_weaken; [apply (all_copied (Directory es) fuel data_files (root_dir v) v b2); try done| |].
  - rewrite root_dir_path. split; [done|]. split; [by rewrite Hroot|]. intros x c r _. by rewrite Hroot.
  - intros v' m' (b' & -> & Hcopied). rewrite root_dir_path in Hcopied. pose proof Hcopied as (Hm' & Hl' & _).
    destruct (unmount_spec v' b' Hm') as (b3 & Hunmount & Hl3 & v4 & b4 & Hnew4 & Hm4 & Hc4).
    eapply runs_on_device; [apply lookup_insert_eq|by rewrite Hunmount|]. rewrite insert_insert_eq.
    exists b3. split; [done|]. split; [by rewrite Hl3, Hl', Hl2|]. exists v4, b4. split; [done|]. split; [done|].
    intros q. rewrite Hc4. by apply (copied_root v v' b2 b').
  - intros e [-> Hfull]. split; [done|]. rewrite cost_directory. cbn [children] in Hfull. lia.
Qed.
End Correct.

(** ** The claims *)

Section Claims.
Context {V D F : Type} `{FatSpec V D F}.

(** C15: What the data volume holds.  For a host directory whose names are 8.3 names in
    capitals, building the volume terminates within the height of the tree, never
    panics, and fails only with an error of the operating system or when the tree
    needs more clusters than the volume has; otherwise it succeeds.  The output is then 64
    MiB long and, mounted again, shows at every path exactly what the host tree has
    there: its directories, its regular files with their bytes, and nothing for
    links and devices.  No other file has changed. *)
Theorem volume_holds_tree (listing : directories) (fs : filesystem) (output data_files : list Z) (n : node)
    (fuel : nat) :
  kind n = IsDir -> listed listing data_files n -> stored (files fs) output data_files n -> (height n <= fuel)%nat ->
  let '(r, fs') := build_data_volume listing fuel output data_files fs in
  (r = Ok tt -> exists volume, files fs' = <[output := volume]> (files fs) /\ volume_shows volume n) /\
  (forall e, r = Err e ->
     (exists k code, faults fs k = Some code /\ e = Os code) \/ (e = CrateError /\ 128000 < cost n)) /\
  r <> Panic /\
  ((forall k, faults fs k = None) -> cost n <= 128000 -> r = Ok tt).
Proof.
  intros Hdir HL Hs Hfuel.
  pose proof (runs_outcome _ fs _ _ (runs_build_data_volume listing (files fs) output fuel data_files n Hdir HL Hs Hfuel))
    as Hr.
  destruct (build_data_volume _ _ _ _ fs) as [r fs']. destruct Hr as (HQ & HE & Hp & Hall).
  split; [exact (HQ tt)|]. split; [done|]. split; [done|]. intros Hno Hcost.
  destruct (Hall Hno) as [[] ->]; [|done]. intros e [_ ?]. lia.
Qed.

Lemma copy_reordered (L L' : directories) (fuel : nat) (output p : list Z) (n n' : node) (d : D) (v : V)
    (fs : filesystem) :
  listed L p n -> listed L' p n' -> reordered n n' -> kind n = IsDir ->
  copy_host_tree L fuel output p d v fs = copy_host_tree L' fuel output p d v fs.
Proof.
  revert p n n' d v fs. induction fuel as [|fuel IH]; intros p n n' d v fs HL HL' Hr Hdir; [done|].
  destruct n as [es| |]; [|done..]. destruct n' as [es''| |]; [|by inversion Hr..].
  cbn [copy_host_tree]. apply (read_dir_reordered _ _ _ _ _ _ _ _ _ HL HL' Hr).
  intros v0 x c c'' fs0 _ Hc Hc' Hcr. cbn [fst]. unfold mbind, Build_bind.
  destruct (utf8_name x fs0) as [[name|e|] fs1]; [|done..].
  destruct (file_type (x, kind c) fs1) as [[[]|e|] fs2] eqn:Ht; [|done..].
  destruct (on_device output (create_dir v0 d name) fs2) as [[[child v1]|e|] fs3]; [|done..].
  apply (IH _ c c''); try done. unfold file_type, syscall in Ht. cbn in Ht.
  destruct (faults fs1 (calls fs1)); [done|]. congruence.
Qed.

(** C17: The build does not depend on the order in which the operating system lists
    directories.  For two listings of one tree that differ in the order of their
    entries only, the volume is built with the same result, the same bytes and
    the same errors, and the same lines are printed for Cargo. *)
Theorem build_order_irrelevant (L L' : directories) (fuel : nat) (output data_files : list Z) (n n' : node)
    (fs : filesystem) :
  listed L data_files n -> listed L' data_files n' -> reordered n n' -> kind n = IsDir ->
  build_data_volume L fuel output data_files fs = build_data_volume L' fuel output data_files fs /\
  watch_host_tree L fuel data_files fs = watch_host_tree L' fuel data_files fs.
Proof.
  intros HL HL' Hr Hdir. split; [|by apply (watch_reordered L L' fuel data_files n n')].
  unfold build_data_volume, mbind, Build_bind.
  repeat match goal with |- match ?c with _ => _ end = match ?c with _ => _ end => destruct c as [[|e|] ?]; [|done..] end.
  case_match; [done|]. by rewrite (copy_reordered L L' fuel output data_files n n').
Qed.
End Claims.
