(* ===== verification/FatFormat.v ===== *)
(** * FatFormat: the FAT32 format, and the kernel's reader on it

    The layout of a FAT32 volume as its specification gives it, over the bytes of
    the volume and without reference to the kernel: the boot record, the allocation
    table, cluster chains, and directory records with their padded 8.3 names.  A
    volume holds a tree when its records spell the tree out; on such a volume the
    functions of [kernel/src/fat32.rs] show the tree. *)

From S2P Require Import Prelude Storage Str Fat32 Fat32Geometry Fat32Chain Fat32Dir Fat32Files.
From S2P Require Import Console Launcher HostFs HostTree ImageBuilder DataVolume.
#[local] Open Scope Z_scope.
#[local] Set Warnings "-register-all".

(** ** The format *)

(** The sizes a boot record gives, in sectors and clusters. *)
Record layout : Type := {
  per_cluster : Z;
  reserved : Z;
  fats : Z;
  per_fat : Z;
  all_sectors : Z;
  root : Z;
}.

Section Format.
Context (b : blob) (L : layout).

Definition u16 (x : Z) : Z := blob_at b x + 256 * blob_at b (x + 1).

Definition u32 (x : Z) : Z :=
  blob_at b x + 256 * blob_at b (x + 1) + 65536 * blob_at b (x + 2) + 16777216 * blob_at b (x + 3).

Definition data_start : Z := reserved L + fats L * per_fat L.

Definition clusters : Z := (all_sectors L - data_start) / per_cluster L.

Definition data_cluster (c : Z) : Prop := 2 <= c < clusters + 2.

Definition boot_record : Prop :=
  blob_at b 510 = 0x55 /\ blob_at b 511 = 0xaa /\ u16 11 = 512 /\
  blob_at b 13 = per_cluster L /\ u16 14 = reserved L /\ blob_at b 16 = fats L /\
  u16 17 = 0 /\ u16 19 = 0 /\ u16 22 = 0 /\
  u32 32 = all_sectors L /\ u32 36 = per_fat L /\ u32 44 = root L.

(** FAT32 has at least 65525 clusters; the numbers from 0x0ffffff7 on are marks. *)
Definition layout_ok : Prop :=
  per_cluster L ∈ [1; 2; 4; 8; 16; 32; 64; 128] /\ 1 <= reserved L /\ 1 <= fats L /\ 1 <= per_fat L /\
  data_start < all_sectors L /\ all_sectors L * 512 <= blob_len b /\
  65525 <= clusters /\ clusters + 2 <= per_fat L * 128 /\ clusters + 2 <= 0x0ffffff7 /\
  data_cluster (root L).

(** The entry of a cluster; its four upper bits are reserved. *)
Definition fat (c : Z) : Z := u32 (reserved L * 512 + 4 * c) mod 2 ^ 28.

Inductive chain : Z -> list Z -> Prop :=
| chain_last c : data_cluster c -> 0x0ffffff8 <= fat c -> chain c [c]
| chain_next c cs : data_cluster c -> data_cluster (fat c) -> chain (fat c) cs -> chain c (c :: cs).

Definition cluster_bytes (c : Z) : list Z :=
  map (blob_at b) (seqZ (512 * (data_start + (c - 2) * per_cluster L)) (512 * per_cluster L)).

Definition chain_bytes (cs : list Z) : list Z := concat (map cluster_bytes cs).
End Format.

(** The eleven bytes of a name: base and extension, padded with spaces. *)
Definition pad (n : nat) (s : str) : list Z := s ++ replicate (n - length s) 0x20.

Definition field83 (x : str) : list Z :=
  match Str.split (fun c => c =? 0x2e) x with
  | [base] => pad 8 base ++ pad 3 []
  | [base; extension] => pad 8 base ++ pad 3 extension
  | _ => []
  end.

(** Records that describe nothing of the tree: deleted ones, the links to the
    directory itself and to its parent, the volume label and parts of long names. *)
Definition no_entry (raw : list Z) : bool :=
  (record_byte raw 0 =? 0xe5) || (record_byte raw 0 =? 0x2e) || Z.testbit (record_byte raw 11) 3.

(** A record whose first byte is zero ends the directory. *)
Fixpoint entries_of (raws : list (list Z)) : list (list Z) :=
  match raws with
  | [] => []
  | raw :: raws =>
      if record_byte raw 0 =? 0 then []
      else if no_entry raw then entries_of raws
      else raw :: entries_of raws
  end.

Definition raw16 (raw : list Z) (i : nat) : Z := record_byte raw i + 256 * record_byte raw (i + 1).
Definition raw_size (raw : list Z) : Z := raw16 raw 28 + 65536 * raw16 raw 30.
Definition raw_cluster (raw : list Z) : Z := raw16 raw 20 * 65536 + raw16 raw 26.
Definition raw_directory (raw : list Z) : bool := Z.testbit (record_byte raw 11) 4.

Definition named (raw : list Z) (x : str) : Prop := portable_name x = true /\ take 11 raw = field83 x.

(** The record describes the named node. *)
Inductive describes (b : blob) (L : layout) : list Z -> list Z * node -> Prop :=
| describes_file raw x content cs :
    named raw x -> raw_directory raw = false -> raw_size raw = blob_len content ->
    (0 < blob_len content -> chain b L (raw_cluster raw) cs) ->
    (Z.to_nat (blob_len content) <= length (chain_bytes b L cs))%nat ->
    take (Z.to_nat (blob_len content)) (chain_bytes b L cs) = blob_bytes content ->
    describes b L raw (x, Regular content)
| describes_directory raw x es cs :
    named raw x -> raw_directory raw = true -> chain b L (raw_cluster raw) cs ->
    NoDup es.*1 -> Forall2 (describes b L) (entries_of (chunks_exact 32 (chain_bytes b L cs))) es ->
    describes b L raw (x, Directory es).

(** The directory of the chain from [c]. *)
Definition directory_at (b : blob) (L : layout) (c : Z) (es : list (list Z * node)) : Prop :=
  exists cs, chain b L c cs /\ NoDup es.*1 /\
    Forall2 (describes b L) (entries_of (chunks_exact 32 (chain_bytes b L cs))) es.

(** What is at a path, in the terms of the build. *)
Definition shown_at (n : node) (q : list str) : option fat_node := node_at n q ≫= fat_of.

(** The volume holds the tree; its directories may list their entries in another
    order, and links and devices are not stored. *)
Definition fat32_volume (volume : blob) (n : node) : Prop :=
  exists L es, boot_record volume L /\ layout_ok volume L /\ directory_at volume L (root L) es /\
    forall q, shown_at (Directory es) q = shown_at n q.

(** ** Lists *)

Lemma chunks_exact_fuel_ge {A : Type} (f n : nat) (l : list A) :
  (0 < n)%nat -> (length l <= f)%nat -> chunks_exact_fuel f n l = chunks_exact n l.
Proof.
  intros Hn. unfold chunks_exact. remember (length l) as k eqn:Hk. revert f l Hk.
  induction k as [k IH] using lt_wf_ind. intros f l -> Hf.
  destruct l as [|x l]; [destruct f; cbn; [done|]; case_decide; [cbn in *; lia|done]|].
  destruct f as [|f]; [cbn in Hf; lia|]. cbn [chunks_exact_fuel length]. case_decide as Hle; [|done].
  assert (Hlt : (length (drop n (x :: l)) < length (x :: l))%nat) by (rewrite length_drop; cbn in *; lia).
  f_equal. rewrite (IH _ Hlt f) by (done || cbn in *; lia). symmetry.
  rewrite (IH _ Hlt (length l)) by (done || cbn in *; lia). done.
Qed.

Lemma chunks_exact_cons {A : Type} (n : nat) (l : list A) :
  (0 < n <= length l)%nat -> chunks_exact n l = take n l :: chunks_exact n (drop n l).
Proof.
  intros Hn. unfold chunks_exact at 1. destruct l as [|x l]; [cbn in Hn; lia|]. cbn [length chunks_exact_fuel].
  rewrite decide_True by (cbn in *; lia). f_equal. apply chunks_exact_fuel_ge; [lia|].
  rewrite length_drop. cbn. lia.
Qed.

Lemma chunks_exact_app {A : Type} (k n : nat) (l1 l2 : list A) :
  (0 < n)%nat -> length l1 = (k * n)%nat -> chunks_exact n (l1 ++ l2) = chunks_exact n l1 ++ chunks_exact n l2.
Proof.
  intros Hn. revert l1. induction k as [|k IH]; intros l1 Hl.
  { apply nil_length_inv in Hl as ->. done. }
  cbn [Nat.mul] in Hl. rewrite chunks_exact_cons by (rewrite length_app; lia).
  rewrite (chunks_exact_cons n l1) by lia. cbn [app]. rewrite take_app_le, drop_app_le by lia.
  f_equal. apply IH. rewrite length_drop. lia.
Qed.

Lemma chunks_exact_concat {A : Type} (k n : nat) (ls : list (list A)) :
  (0 < n)%nat -> Forall (fun l => length l = (k * n)%nat) ls ->
  chunks_exact n (concat ls) = concat (map (chunks_exact n) ls).
Proof.
  intros Hn. induction 1 as [|l ls Hl _ IH]; [done|]. cbn [concat map]. by rewrite (chunks_exact_app k), IH.
Qed.

(** Consecutive pieces of [n] numbers. *)
Lemma seqZ_pieces (a n : Z) (k : nat) :
  0 <= n -> seqZ (n * a) (n * Z.of_nat k) = concat (map (fun i => seqZ (n * (a + i)) n) (seqZ 0 (Z.of_nat k))).
Proof.
  intros Hn. induction k as [|k IH]; [by rewrite Z.mul_0_r|].
  replace (Z.of_nat (S k)) with (Z.of_nat k + 1) by lia.
  rewrite (seqZ_app 0) by lia. rewrite map_app, concat_app, <- IH, Z.add_0_l.
  rewrite (seqZ_cons (Z.of_nat k)) by lia. cbn [map concat]. rewrite app_nil_r.
  replace (n * (Z.of_nat k + 1)) with (n * Z.of_nat k + n) by lia. rewrite seqZ_app by lia. do 2 f_equal. lia.
Qed.

(** ** Names *)

Fixpoint join_fields (d : Z) (l : list str) : str :=
  match l with
  | [] => []
  | [x] => x
  | x :: l => x ++ d :: join_fields d l
  end.

Lemma split_not_nil (p : Z -> bool) (s : str) : Str.split p s <> [].
Proof. destruct s as [|c s]; [done|]. cbn. destruct (Str.split p s), (p c); done. Qed.

Lemma join_split (d : Z) (s : str) : join_fields d (Str.split (fun c => c =? d) s) = s.
Proof.
  induction s as [|c s IH]; [done|]. cbn [Str.split].
  destruct (Str.split _ s) as [|x l] eqn:Hs; [by apply split_not_nil in Hs|].
  destruct (Z.eqb_spec c d) as [->|]; [by cbn in *; rewrite IH|].
  rewrite <- IH. by destruct l.
Qed.

Lemma portable_cases (x : str) :
  portable_name x = true ->
  (portable_part 8 x = true /\ field83 x = pad 8 x ++ pad 3 []) \/
  exists base ext, x = base ++ 0x2e :: ext /\ portable_part 8 base = true /\ portable_part 3 ext = true /\
    field83 x = pad 8 base ++ pad 3 ext.
Proof.
  unfold portable_name, field83. pose proof (join_split 0x2e x) as Hj.
  destruct (Str.split _ x) as [|base [|ext [|]]]; try done; cbn [join_fields] in Hj.
  - subst base. by left.
  - intros [? ?]%andb_true_iff. right. by exists base, ext.
Qed.

Lemma portable_part_cons (n : nat) (s : str) :
  portable_part n s = true -> (1 <= length s <= n)%nat /\ Forall (fun c => portable_char c = true) s.
Proof.
  unfold portable_part. rewrite !andb_true_iff, forallb_forall, !Nat.leb_le. intros [[? ?] Hall].
  split; [lia|]. apply Forall_forall. intros c Hc. by apply Hall, list_elem_of_In.
Qed.

Lemma portable_char_range (c : Z) : portable_char c = true -> 0x2d <= c <= 0x5f /\ c <> 0x2e /\ is_ascii_lower c = false.
Proof. unfold portable_char, is_ascii_upper, is_ascii_lower. lia. Qed.

Lemma length_pad (n : nat) (s : str) : (length s <= n)%nat -> length (pad n s) = n.
Proof. intros. unfold pad. rewrite length_app, length_replicate. lia. Qed.

Lemma until_space_pad (n : nat) (s : str) : Forall (fun c => portable_char c = true) s -> until_space (pad n s) = s.
Proof.
  unfold pad. generalize (n - length s)%nat as k. intros k. induction 1 as [|c s Hc _ IH].
  - by destruct k.
  - cbn [app until_space]. apply portable_char_range in Hc. decide_tests. by rewrite IH.
Qed.

Lemma portable_ascii (s : str) : Forall (fun c => portable_char c = true) s -> forallb is_ascii s = true.
Proof.
  intros Hs. apply forallb_forall. intros c Hc%list_elem_of_In. rewrite Forall_forall in Hs.
  pose proof (portable_char_range c (Hs c Hc)). unfold is_ascii. lia.
Qed.

(** The two fields of an eleven-byte name. *)
Lemma named_fields (raw : list Z) (base ext : str) :
  take 11 raw = pad 8 base ++ pad 3 ext -> (length base <= 8)%nat ->
  take 8 raw = pad 8 base /\ take 3 (drop 8 raw) = pad 3 ext.
Proof.
  intros Hraw Hl. assert (H8 : take 8 raw = take 8 (take 11 raw)) by by rewrite take_take.
  rewrite H8, firstn_skipn_comm. change (8 + 3)%nat with 11%nat. rewrite Hraw.
  rewrite take_app_length', drop_app_length' by (by rewrite length_pad). done.
Qed.

Lemma named_short_name (raw : list Z) (x : str) : named raw x -> short_name raw = x /\ has_name raw = true.
Proof.
  intros [Hx Hraw]. unfold has_name, short_name.
  destruct (portable_cases x Hx) as [[Hb Hf]|(base & ext & -> & Hb & He & Hf)]; rewrite Hf in Hraw.
  - apply portable_part_cons in Hb as [Hl Hb]. destruct (named_fields _ _ _ Hraw) as [-> ->]; [lia|].
    rewrite until_space_pad by done. cbn [existsb pad app].
    split; [done|]. destruct x; [cbn in Hl; lia|]. by apply portable_ascii.
  - apply portable_part_cons in Hb as [Hl Hb]. apply portable_part_cons in He as [Hle He].
    destruct (named_fields _ _ _ Hraw) as [-> ->]; [lia|]. rewrite !until_space_pad by done.
    destruct ext as [|c ext]; [cbn in Hle; lia|]. pose proof He as [Hc _]%Forall_cons. apply portable_char_range in Hc.
    replace (existsb _ _) with true by (symmetry; unfold pad; cbn [app existsb]; by rewrite (proj2 (Z.eqb_neq c 32)) by lia).
    split; [done|]. destruct base; [cbn in Hl; lia|]. rewrite !forallb_app. by rewrite (portable_ascii (_ :: base)), (portable_ascii (c :: ext)).
Qed.

(** ** Paths without names *)

Lemma skip_while_nil (p : Z -> bool) (s : str) : skip_while p s = [] <-> Forall (fun c => p c = true) s.
Proof.
  induction s as [|c s IH]; [done|]. cbn. rewrite Forall_cons, <- IH. by destruct (p c); intuition.
Qed.

Lemma skip_while_head (p : Z -> bool) (s t : str) (c : Z) : skip_while p s = c :: t -> p c = false.
Proof. induction s as [|x s IH]; [done|]. cbn. destruct (p x) eqn:Hx; [done|]. by intros [= -> _]. Qed.

Lemma trim_empty (p : Z -> bool) (s : str) : is_empty (trim_matches p s) = true <-> Forall (fun c => p c = true) s.
Proof.
  rewrite <- skip_while_nil. unfold trim_matches, trim_end_matches.
  destruct (skip_while p s) as [|c t] eqn:Hs; [done|]. split; [|done]. intros He.
  destruct (reverse _) eqn:Hr in He; [|done]. apply (f_equal reverse) in Hr. rewrite reverse_involutive in Hr.
  apply skip_while_nil in Hr. rewrite Forall_reverse in Hr. apply Forall_cons in Hr as [Hc _].
  by rewrite (skip_while_head _ _ _ _ Hs) in Hc.
Qed.

Lemma split_nonempty_nil (p : Z -> bool) (s : str) : split_nonempty p s = [] <-> Forall (fun c => p c = true) s.
Proof.
  unfold split_nonempty. induction s as [|c s IH]; [done|]. cbn [Str.split]. rewrite Forall_cons, <- IH.
  destruct (Str.split p s) as [|x l] eqn:Hs; [by apply split_not_nil in Hs|].
  by destruct (p c), x; cbn; intuition.
Qed.

(** ** Records *)

Lemma testbit_mask (x k : Z) : 0 <= k -> negb (Z.land x (2 ^ k) =? 0) = Z.testbit x k.
Proof. intros Hk. rewrite land_pow2_test by done. apply negb_involutive. Qed.

(** The kernel passes over the same records. *)
Lemma skipped_no_entry (raw : list Z) : skipped raw = no_entry raw.
Proof.
  unfold skipped, no_entry. change ATTR_VOLUME_ID with (2 ^ 3). rewrite testbit_mask by lia.
  destruct (Z.eqb_spec (record_byte raw 11) ATTR_LONG_FILE_NAME) as [->|]; [|by rewrite orb_false_r].
  change (Z.testbit ATTR_LONG_FILE_NAME 3) with true. by rewrite !orb_true_r.
Qed.

Lemma dir_scan_entries (raws : list (list Z)) :
  (dir_scan raws).1 = omap (fun raw => mjoin (from_raw raw)) (entries_of raws).
Proof.
  induction raws as [|raw raws IH]; [done|]. cbn [dir_scan entries_of].
  destruct (record_byte raw 0 =? 0); [done|]. destruct (dir_scan raws) as [es ended]. cbn [fst] in *.
  unfold record_entry. rewrite skipped_no_entry. destruct (no_entry raw); [done|].
  cbn. rewrite <- IH. by destruct (mjoin _).
Qed.

Lemma entries_of_sub (raws : list (list Z)) (P : list Z -> Prop) : Forall P raws -> Forall P (entries_of raws).
Proof.
  induction 1 as [|raw raws Hr _ IH]; [constructor|]. cbn. destruct (_ =? 0); [constructor|].
  destruct (no_entry raw); [done|by constructor].
Qed.

Lemma raw16_le_u16 (raw : list Z) (i : nat) (v : Z) : le_u16 raw i = Some v -> raw16 raw i = v.
Proof. unfold le_u16, raw16, record_byte. intros Hv. inv_some. by simplify_option_eq. Qed.

(** What the decoder makes of a record with the name. *)
Lemma named_decodes (raw : list Z) (x : str) :
  record_wf raw -> named raw x ->
  exists e, from_raw raw = Some (Some e) /\ entry_name e = x /\ is_directory e = raw_directory raw /\
    de_first_cluster e = raw_cluster raw /\ de_size e = raw_size raw /\ 0 <= de_size e.
Proof.
  intros Hr [Hs Hn]%named_short_name. pose proof (from_raw_decodes raw Hr) as Hd. rewrite Hn in Hd.
  destruct Hd as (e & high & low & He & Hname & _ & _ & _ & Hattr & Hsize & Hh & Hl & Hc). exists e.
  split; [done|]. split; [congruence|]. split; [|split; [|split]].
  - unfold is_directory, raw_directory, record_byte. rewrite Hattr. apply (testbit_mask _ 4). lia.
  - unfold raw_cluster. by rewrite (raw16_le_u16 raw 20 high), (raw16_le_u16 raw 26 low).
  - unfold raw_size, raw16, record_byte. unfold le_u32 in Hsize. inv_some. cbn.
    repeat match goal with H : raw !! _ = _ |- _ => rewrite H; clear H end. cbn. lia.
  - destruct Hr as [Hlen Hu8]. destruct (le_u32_in raw Hu8 28) as (v & Hv & ? & _); [lia|]. rewrite Hsize in Hv. by injection Hv as ->.
Qed.

(** ** Lookup by name *)

Definition capitals (s : str) : str := map to_ascii_uppercase s.

Lemma portable_no_lower (x : str) : portable_name x = true -> Forall (fun c => is_ascii_lower c = false) x.
Proof.
  assert (Hpart : forall n s, portable_part n s = true -> Forall (fun c => is_ascii_lower c = false) s).
  { intros n s [_ Hs]%portable_part_cons. eapply Forall_impl; [exact Hs|]. by intros c (_ & _ & ?)%portable_char_range. }
  intros [[Hb _]|(base & ext & -> & Hb & He & _)]%portable_cases; [by eapply Hpart|].
  apply Forall_app. split; [by eapply Hpart|]. constructor; [done|by eapply Hpart].
Qed.

(** A name without small letters matches the spellings of itself. *)
Lemma capitals_match (x s : str) :
  Forall (fun c => is_ascii_lower c = false) x -> eq_ignore_ascii_case x s = bool_decide (x = capitals s).
Proof.
  intros Hx. revert s. induction Hx as [|c x Hc _ IH]; intros [|e s]; try done. cbn [eq_ignore_ascii_case capitals map].
  rewrite IH. assert (Heq : (to_ascii_lowercase c =? to_ascii_lowercase e) = (c =? to_ascii_uppercase e)).
  { unfold to_ascii_lowercase, to_ascii_uppercase, is_ascii_lower, is_ascii_upper in *. repeat case_match; lia. }
  rewrite Heq. destruct (Z.eqb_spec c (to_ascii_uppercase e)) as [->|Hne]; cbn [andb].
  - apply bool_decide_ext. unfold capitals. split; [by intros ->|by intros [=]].
  - symmetry. apply bool_decide_eq_false_2. by intros [=].
Qed.

Lemma dot_not_portable (c : str) : is_dot_component c = true -> portable_name (capitals c) = false.
Proof. unfold is_dot_component. rewrite orb_true_iff, !bool_decide_eq_true. by intros [->| ->]. Qed.

(** ** The volume through a block device *)

Section Reader.
Context {D : Type} `{HBD : BlockDevice D} `{HSpec : !BlockDeviceSpec D}.

(** The device's sectors are the volume's. *)
Definition device_shows (d : D) (volume : blob) : Prop :=
  device_ok d /\ sector_count d = blob_len volume / 512 /\
  forall lba, 0 <= lba < sector_count d -> read_sector d lba = Ok (map (blob_at volume) (seqZ (512 * lba) 512)).

Definition bpb_for (L : layout) : bpb := {|
  bpb_bytes_per_sector := 512; bpb_sectors_per_cluster := per_cluster L; bpb_reserved := reserved L;
  bpb_fats := fats L; bpb_root_entries := 0; bpb_total16 := 0; bpb_fat16 := 0; bpb_total32 := all_sectors L;
  bpb_spf := per_fat L; bpb_root := root L;
|}.

Context (b : blob) (L : layout) (d : D).
Context (Hshows : device_shows d b) (Hboot : boot_record b L) (Hlayout : layout_ok b L).

(** The volume as the kernel mounts it. *)
Definition kernel_fs : Fat32.Fat32 D := volume_of d (bpb_for L).

Lemma sector_lookup (lba : Z) (i : nat) :
  (i < 512)%nat -> map (blob_at b) (seqZ (512 * lba) 512) !! i = Some (blob_at b (512 * lba + Z.of_nat i)).
Proof. intros Hi. change (map ?f ?l) with (f <$> l). by rewrite list_lookup_fmap, lookup_seqZ_lt by lia. Qed.

Lemma sector_u16 (lba : Z) (i : nat) :
  (i < 511)%nat -> le_u16 (map (blob_at b) (seqZ (512 * lba) 512)) i = Some (u16 b (512 * lba + Z.of_nat i)).
Proof.
  intros Hi. unfold le_u16, u16. rewrite !sector_lookup by lia. cbn. do 4 f_equal. lia.
Qed.

Lemma sector_u32 (lba : Z) (i : nat) :
  (i < 509)%nat -> le_u32 (map (blob_at b) (seqZ (512 * lba) 512)) i = Some (u32 b (512 * lba + Z.of_nat i)).
Proof.
  intros Hi. unfold le_u32, u32. rewrite !sector_lookup by lia. cbn.
  do 2 f_equal; [f_equal; [f_equal|]|]; f_equal; f_equal; lia.
Qed.

Lemma sector_zero_bpb : bpb_of (map (blob_at b) (seqZ (512 * 0) 512)) = Some (bpb_for L).
Proof using Hboot.
  destruct Hboot as (_ & _ & H11 & H13 & H14 & H16 & H17 & H19 & H22 & H32 & H36 & H44).
  unfold bpb_of. rewrite !sector_u16, !sector_u32, !sector_lookup by lia. cbn [mbind option_bind].
  unfold bpb_for. do 2 f_equal; done.
Qed.

Lemma layout_supported : bpb_supported (bpb_for L) (sector_count d).
Proof using Hshows Hlayout.
  destruct Hshows as (_ & Hcount & _), Hlayout as (Hspc & ? & ? & ? & ? & ? & ? & ? & ? & [? ?]).
  unfold bpb_supported. cbn. split; [done|]. split.
  { repeat (apply elem_of_cons in Hspc as [->|Hspc]; [done|]). by apply elem_of_nil in Hspc. }
  unfold bpb_clusters, bpb_data, bpb_total. cbn. unfold clusters, data_start in *. split_and!; lia.
Qed.

Lemma sectors_positive : 0 < sector_count d.
Proof using Hshows Hlayout.
  destruct layout_supported as (_ & _ & _ & _ & _ & _ & _ & ? & _). destruct Hlayout as (_ & ? & ? & ? & ? & _).
  unfold bpb_data in *. cbn in *. nia.
Qed.

Lemma kernel_mounts : mount d = Ok kernel_fs /\ fs_wf kernel_fs.
Proof using Hshows Hboot Hlayout.
  pose proof Hshows as (Hok & _ & Hread). pose proof sectors_positive as Hpos. specialize (Hread 0 ltac:(split; [done|exact Hpos])).
  destruct (boot_sector_cases d Hok) as [(s & bp & Hr & Hs & Hb & Hw)|Hr]; [|congruence].
  rewrite Hread in Hr. assert (s = map (blob_at b) (seqZ (512 * 0) 512)) as -> by congruence.
  rewrite sector_zero_bpb in Hb. injection Hb as <-.
  cut (mount d = Ok kernel_fs); [intros Hm; split; [done|by apply (mount_establishes_wf d)]|].
  rewrite (mount_unfold d _ _ Hread Hs sector_zero_bpb Hw). destruct Hboot as (H510 & H511 & _).
  rewrite !sector_lookup by lia. rewrite bool_decide_eq_true_2 by (split; f_equal; done).
  apply mount_fields_Ok; [done..|]. split; [apply layout_supported|done].
Qed.

(** ** Chains *)

Lemma kernel_next_cluster (c : Z) : data_cluster L c -> next_cluster kernel_fs c = Ok (fat b L c).
Proof using Hshows Hboot Hlayout.
  intros Hc. destruct kernel_mounts as [_ Hwf]. pose proof Hshows as (_ & _ & Hread).
  destruct layout_supported as (_ & _ & _ & _ & _ & _ & _ & [_ Hend] & _).
  pose proof Hlayout as (_ & Hres & _ & _ & Hdata & _ & _ & Hfit & _).
  destruct (next_cluster_entry kernel_fs c Hwf Hc) as (s & entry & Hs & He & -> & Hlt).
  { cbn. unfold data_cluster in Hc. clear -Hc Hfit. zlia. }
  cbn [device kernel_fs volume_of fat_start_sector bpb_reserved bpb_for first_data_sector] in Hs, Hlt.
  assert (Hq : 0 <= c / 128) by (unfold data_cluster in Hc; clear -Hc; zlia).
  unfold bpb_total in Hend. cbn in Hend. unfold bpb_data in Hlt. cbn in Hlt. unfold data_start in Hdata.
  rewrite Hread in Hs by lia.
  assert (s = map (blob_at b) (seqZ (512 * (reserved L + c / 128)) 512)) as -> by congruence.
  assert (Hm : 0 <= c mod 128 < 128) by (clear; zlia). rewrite sector_u32 in He by (clear -Hm; lia).
  assert (entry = u32 b (512 * (reserved L + c / 128) + Z.of_nat (Z.to_nat (4 * (c mod 128))))) as -> by congruence.
  unfold fat. do 3 f_equal. clear -Hm. zlia.
Qed.

Lemma cluster_not_mark (c : Z) : data_cluster L c -> c < FAT32_EOC /\ c <> FAT32_BAD_CLUSTER.
Proof using Hlayout. destruct Hlayout as (_ & _ & _ & _ & _ & _ & _ & _ & ? & _). unfold data_cluster, FAT32_EOC, FAT32_BAD_CLUSTER. lia. Qed.

Lemma chain_walk (c : Z) (cs : list Z) : chain b L c cs -> walk kernel_fs c cs (Ok tt).
Proof using Hshows Hboot Hlayout.
  induction 1 as [c Hc He|c cs Hc Hn _ IH].
  - apply walk_end; [done|]. eapply end_eoc; [by apply kernel_next_cluster|done].
  - eapply walk_link; [done| |done]. destruct (cluster_not_mark _ Hn).
    split; [by apply kernel_next_cluster|]. done.
Qed.

Lemma data_sector_bytes (c i : Z) :
  data_cluster L c -> 0 <= i < per_cluster L ->
  data_sector kernel_fs c i = map (blob_at b) (seqZ (512 * (data_start L + (c - 2) * per_cluster L + i)) 512).
Proof using Hshows Hboot Hlayout.
  intros Hc Hi. destruct kernel_mounts as [_ Hwf]. pose proof (cluster_base_bounds kernel_fs c i Hwf Hc Hi).
  destruct Hshows as (_ & _ & Hread). pose proof (wf_data_end _ Hwf). pose proof (fs_wf_bounds _ Hwf).
  unfold data_sector. cbn [device kernel_fs volume_of] in *. unfold cluster_base in *. cbn in *.
  rewrite Hread by lia. done.
Qed.

Lemma cluster_sectors_bytes (c : Z) : data_cluster L c -> concat (cluster_sectors kernel_fs c) = cluster_bytes b L c.
Proof using Hshows Hboot Hlayout.
  intros Hc. unfold cluster_sectors, cluster_bytes. cbn [sectors_per_cluster kernel_fs volume_of bpb_sectors_per_cluster bpb_for].
  assert (Hpos : 0 <= per_cluster L).
  { destruct Hlayout as (Hspc & _). rewrite !elem_of_cons, elem_of_nil in Hspc. lia. }
  rewrite <- (Z2Nat.id (per_cluster L)) at 3 by done. rewrite seqZ_pieces by lia. rewrite Z2Nat.id by done.
  rewrite concat_map, map_map. f_equal. apply map_ext_in. intros i Hi%list_elem_of_In%elem_of_seqZ.
  apply data_sector_bytes; [done|lia].
Qed.

Lemma chain_clusters (c : Z) (cs : list Z) : chain b L c cs -> Forall (data_cluster L) cs.
Proof. induction 1; auto. Qed.

Lemma chain_sectors_bytes (cs : list Z) :
  Forall (data_cluster L) cs -> concat (chain_sectors kernel_fs cs) = chain_bytes b L cs.
Proof using Hshows Hboot Hlayout.
  unfold chain_sectors, chain_bytes. induction 1 as [|c cs Hc _ IH]; [done|].
  cbn [map concat]. by rewrite concat_app, cluster_sectors_bytes, IH.
Qed.

Lemma chain_records_bytes (c : Z) (cs : list Z) :
  chain b L c cs -> chain_records kernel_fs cs = chunks_exact 32 (chain_bytes b L cs).
Proof using Hshows Hboot Hlayout.
  intros Hc. rewrite <- chain_sectors_bytes by by eapply chain_clusters. symmetry.
  apply (chunks_exact_concat 16); [lia|]. destruct kernel_mounts as [_ Hwf].
  eapply Forall_impl; [eapply (chain_sectors_wf _ c); [done|]|by intros s []].
  eapply walk_path. by apply chain_walk.
Qed.

(** ** Directories *)

(** The entry the kernel decodes is the named node's. *)
Definition entry_shows (e : DirEntry) (p : list Z * node) : Prop :=
  entry_name e = p.1 /\ portable_name p.1 = true /\
  match p.2 with
  | Regular content =>
      is_directory e = false /\ de_size e = blob_len content /\ 0 <= blob_len content /\
      exists cs, (0 < blob_len content -> chain b L (de_first_cluster e) cs) /\
        (Z.to_nat (blob_len content) <= length (chain_bytes b L cs))%nat /\
        take (Z.to_nat (blob_len content)) (chain_bytes b L cs) = blob_bytes content
  | Directory es => is_directory e = true /\ directory_at b L (de_first_cluster e) es
  | Special => False
  end.

Lemma describes_entry (raw : list Z) (p : list Z * node) :
  record_wf raw -> describes b L raw p -> exists e, mjoin (from_raw raw) = Some e /\ entry_shows e p.
Proof.
  intros Hr Hraw. destruct Hraw as [raw x content cs Hn Hd Hs Hc Hl Hb|raw x es cs Hn Hd Hc Hnd Hes];
    destruct (named_decodes raw x Hr Hn) as (e & He & Hname & Hdir & Hcl & Hsize & Hpos);
    exists e; rewrite He; (split; [done|]); (split; [done|]); (split; [by destruct Hn|]); cbn [snd].
  - rewrite Hcl, Hdir, Hsize in *. split; [done|]. split; [done|]. split; [lia|]. by exists cs.
  - rewrite Hcl, Hdir. split; [done|]. by exists cs.
Qed.

Lemma directory_entries (c : Z) (es : list (list Z * node)) :
  directory_at b L c es -> exists cs, walk kernel_fs c cs (Ok tt) /\ NoDup es.*1 /\
    Forall2 entry_shows (dir_entries kernel_fs cs) es.
Proof using Hshows Hboot Hlayout.
  intros (cs & Hc & Hnd & Hes). exists cs. pose proof (chain_walk c cs Hc) as Hw. split; [done|]. split; [done|].
  unfold dir_entries. rewrite dir_scan_entries, (chain_records_bytes c) by done.
  destruct kernel_mounts as [_ Hwf].
  pose proof (chain_records_wf kernel_fs c cs Hwf (walk_path _ _ _ _ Hw)) as Hrec.
  rewrite (chain_records_bytes c) in Hrec by done. apply entries_of_sub in Hrec.
  induction Hes as [|raw p raws es' Hraw _ IH]; [constructor|].
  apply Forall_cons in Hrec as [Hr Hrec]. apply NoDup_cons in Hnd as [_ Hnd].
  destruct (describes_entry raw p Hr Hraw) as (e & He & Hshow). cbn. rewrite He. constructor; [done|]. by apply IH.
Qed.

Lemma find_entry (name : str) (entries : list DirEntry) (es : list (list Z * node)) :
  Forall2 entry_shows entries es ->
  match assoc (capitals name) es with
  | Some nd => exists e, find (name_matches name) entries = Some e /\ entry_shows e (capitals name, nd)
  | None => find (name_matches name) entries = None
  end.
Proof.
  unfold assoc. induction 1 as [|e [x nd] entries es He _ IH]; [done|]. cbn [find fst].
  pose proof He as (Hname & Hx & _). cbn [fst] in *.
  assert (Hm : name_matches name e = bool_decide (x = capitals name)).
  { unfold name_matches. by rewrite Hname, capitals_match by by apply portable_no_lower. }
  rewrite Hm. destruct (decide (x = capitals name)) as [->|Hc].
  - rewrite !bool_decide_eq_true_2 by done. by exists e.
  - by rewrite !bool_decide_eq_false_2 by done.
Qed.

Lemma kernel_find (c : Z) (es : list (list Z * node)) (name : str) :
  directory_at b L c es ->
  match assoc (capitals name) es with
  | Some nd => exists e, find_in_directory kernel_fs c name = Ok e /\ entry_shows e (capitals name, nd)
  | None => find_in_directory kernel_fs c name = Err Fat32.NotFound
  end.
Proof using Hshows Hboot Hlayout.
  intros (cs & Hw & _ & Hes)%directory_entries. destruct kernel_mounts as [_ Hwf].
  rewrite (find_in_directory_walk kernel_fs c cs (Ok tt)) by done. pose proof (find_entry name _ _ Hes) as Hf.
  destruct (assoc _ _) as [nd|].
  - destruct Hf as (e & -> & He). by exists e.
  - rewrite Hf. cbn. by destruct (dir_scan _).2.
Qed.

(** ** Paths *)

(** The error a path that names nothing gives: [NotDirectory] when it leads through
    a file, and [NotFound] otherwise. *)
Definition through_file (n : node) (q : list str) : bool :=
  existsb (fun k => match shown_at n (take k q) with Some (FatFile _) => true | _ => false end) (seq 0 (length q)).

Definition missing (n : node) (q : list str) : FsError := if through_file n q then NotDirectory else Fat32.NotFound.

Lemma existsb_seq_S (f : nat -> bool) (a n : nat) : existsb f (seq (S a) n) = existsb (fun k => f (S k)) (seq a n).
Proof. revert a. induction n as [|n IH]; intros a; [done|]. cbn. by rewrite IH. Qed.

Lemma existsb_seq_ext (f g : nat -> bool) (l : list nat) : (forall k, f k = g k) -> existsb f l = existsb g l.
Proof. intros Hfg. induction l as [|k l IH]; [done|]. cbn. by rewrite Hfg, IH. Qed.

Lemma through_file_cons (es : list (list Z * node)) (x : str) (q : list str) :
  through_file (Directory es) (x :: q) =
  match assoc x es with
  | Some (Regular _) => match q with [] => false | _ => true end
  | Some nd => through_file nd q
  | None => false
  end.
Proof.
  unfold through_file. cbn [length seq existsb take]. rewrite existsb_seq_S. cbn [shown_at node_at mbind option_bind fat_of orb].
  destruct (assoc x es) as [nd|] eqn:Hx.
  - rewrite (existsb_seq_ext _ (fun k => match shown_at nd (take k q) with Some (FatFile _) => true | _ => false end))
      by (intros k; unfold shown_at; cbn; by rewrite Hx).
    by destruct nd, q.
  - rewrite (existsb_seq_ext _ (fun _ => false)) by (intros k; unfold shown_at; cbn; by rewrite Hx).
    by induction (seq _ _).
Qed.

Lemma missing_cons (es : list (list Z * node)) (x : str) (q : list str) :
  missing (Directory es) (x :: q) =
  match assoc x es with
  | Some (Regular _) => match q with [] => Fat32.NotFound | _ => NotDirectory end
  | Some nd => missing nd q
  | None => Fat32.NotFound
  end.
Proof. unfold missing. rewrite through_file_cons. by destruct (assoc x es) as [[]|], q. Qed.

Lemma dot_absent (c : Z) (es : list (list Z * node)) (name : str) :
  directory_at b L c es -> is_dot_component name = true -> assoc (capitals name) es = None.
Proof using Hshows Hboot Hlayout.
  intros Hdir Hd%dot_not_portable. pose proof (kernel_find _ _ name Hdir) as Hf.
  destruct (assoc (capitals name) es) as [nd|]; [|done]. destruct Hf as (e & _ & _ & Hp & _). cbn [fst] in Hp. congruence.
Qed.

Lemma kernel_resolve (name : str) (rest : list str) (c : Z) (es : list (list Z * node)) :
  directory_at b L c es ->
  let q := map capitals (name :: rest) in
  match node_at (Directory es) q with
  | Some nd => exists e x, resolve_components kernel_fs c name rest = Ok e /\ entry_shows e (x, nd)
  | None => resolve_components kernel_fs c name rest = Err (missing (Directory es) q)
  end.
Proof using Hshows Hboot Hlayout.
  revert name c es. induction rest as [|next rest IH]; intros name c es Hdir; cbn [map]; rewrite missing_cons;
    cbn [node_at resolve_components]; pose proof (kernel_find c es name Hdir) as Hf;
    (destruct (assoc (capitals name) es) as [nd|] eqn:Hnd; cbn [mbind option_bind]; [|by rewrite Hf]);
    destruct Hf as (e & -> & He); cbn [mbind outcome_bind node_at].
  { by exists e, (capitals name). }
  pose proof He as (_ & _ & Hnode). cbn [snd] in Hnode.
  destruct nd as [es'|content|]; [|by destruct Hnode as [-> _]|done]. destruct Hnode as [-> Hdir']. cbn [negb].
  destruct (is_dot_component next) eqn:Hd; [|exact (IH next _ _ Hdir')].
  cbn [node_at]. rewrite missing_cons. by rewrite (dot_absent _ _ _ Hdir' Hd).
Qed.

(** The path as the volume's names: its components in capitals. *)
Definition fat_path (path : str) : list str := map capitals (split_nonempty Fat32.is_slash path).

Lemma kernel_resolve_path (path : str) (es : list (list Z * node)) :
  directory_at b L (root L) es -> fat_path path <> [] ->
  match node_at (Directory es) (fat_path path) with
  | Some nd => exists e x, resolve_path kernel_fs path = Ok e /\ entry_shows e (x, nd)
  | None => resolve_path kernel_fs path = Err (missing (Directory es) (fat_path path))
  end.
Proof using Hshows Hboot Hlayout.
  intros Hdir. unfold resolve_path, fat_path. destruct (split_nonempty Fat32.is_slash path) as [|first rest]; [done|]. intros _.
  pose proof (kernel_resolve first rest (root L) es Hdir) as Hr. cbv zeta in Hr.
  destruct (is_dot_component first) eqn:Hd; [|exact Hr]. cbn [map node_at] in *. rewrite missing_cons. by rewrite (dot_absent _ _ _ Hdir Hd).
Qed.

(** ** What the kernel shows *)

(** The entries of the directory at [q], each with its kind and size. *)
Definition lists (n : node) (q : list str) (entries : list DirEntry) : Prop :=
  NoDup (map entry_name entries) /\
  (forall x, x ∈ map entry_name entries <-> is_Some (shown_at n (q ++ [x]))) /\
  Forall (fun e => match shown_at n (q ++ [entry_name e]) with
                   | Some (FatFile content) => is_directory e = false /\ de_size e = Z.of_nat (length content)
                   | _ => is_directory e = true
                   end) entries.

(** Reading the path and listing it give what the tree has there. *)
Definition kernel_shows (fs : Fat32.Fat32 D) (n : node) (path : str) : Prop :=
  let q := fat_path path in
  match shown_at n q with
  | Some (FatFile content) =>
      (forall T (visitor : list Z -> T -> T) (s : T), exists chunks,
         read_file fs path visitor s = (Ok (Z.of_nat (length content)), deliver visitor chunks s) /\
         concat chunks = content /\ Forall (fun c => (1 <= length c <= 512)%nat) chunks) /\
      (forall T (visitor : DirEntry -> T -> bool * T) (s : T), list_dir fs path visitor s = (Err NotDirectory, s))
  | Some FatDirectory =>
      (forall T (visitor : list Z -> T -> T) (s : T),
         read_file fs path visitor s = (Err (match q with [] => Fat32.NotFound | _ => IsDirectory end), s)) /\
      exists entries, lists n q entries /\
        forall T (visitor : DirEntry -> T -> bool * T) (s : T),
          list_dir fs path visitor s = (Ok tt, (visit_list visitor entries s).2)
  | None =>
      (forall T (visitor : list Z -> T -> T) (s : T), read_file fs path visitor s = (Err (missing n q), s)) /\
      (forall T (visitor : DirEntry -> T -> bool * T) (s : T), list_dir fs path visitor s = (Err (missing n q), s))
  end.

Lemma node_at_app (n : node) (q r : list str) : node_at n (q ++ r) = node_at n q ≫= fun m => node_at m r.
Proof.
  revert n. induction q as [|x q IH]; intros n; [done|]. cbn [app node_at]. destruct n as [es| |]; [|done..].
  destruct (assoc x es); [apply IH|done].
Qed.

Lemma kernel_lists (c : Z) (es : list (list Z * node)) (n : node) (q : list str) :
  node_at n q = Some (Directory es) -> directory_at b L c es ->
  exists entries, lists n q entries /\
    forall T (visitor : DirEntry -> T -> bool * T) (s : T),
      visit_directory kernel_fs c visitor s = (Ok tt, (visit_list visitor entries s).2).
Proof using Hshows Hboot Hlayout.
  intros Hn (cs & Hw & Hnd & Hes)%directory_entries. destruct kernel_mounts as [_ Hwf].
  exists (dir_entries kernel_fs cs). split.
  - assert (Hat : forall x, shown_at n (q ++ [x]) = assoc x es ≫= fat_of).
    { intros x. unfold shown_at. rewrite node_at_app, Hn. cbn. by destruct (assoc x es). }
    assert (Hnames : map entry_name (dir_entries kernel_fs cs) = es.*1).
    { clear -Hes. induction Hes as [|e p ? ? (He & _)]; [done|]. cbn. by f_equal. }
    assert (Hin : forall x nd, (x, nd) ∈ es -> assoc x es = Some nd /\ is_Some (fat_of nd)).
    { intros x nd Hx. split; [by apply assoc_elem|]. apply list_elem_of_lookup in Hx as [i Hi].
      destruct (Forall2_lookup_r _ _ _ _ _ Hes Hi) as (e & _ & _ & _ & Hnd'). cbn in Hnd'. by destruct nd. }
    split; [by rewrite Hnames|]. split.
    + intros x. rewrite Hnames, Hat. split.
      * intros ([y nd] & -> & Hx)%list_elem_of_fmap. cbn. by destruct (Hin y nd Hx) as [-> ?].
      * intros Hx. destruct (decide (x ∈ es.*1)) as [|Hno]; [done|]. rewrite assoc_none in Hx by done. by destruct Hx.
    + apply Forall_forall. intros e [i He]%list_elem_of_lookup.
      destruct (Forall2_lookup_l _ _ _ _ _ Hes He) as ([x nd] & Hi & Hname & _ & Hnode). cbn [fst snd] in *.
      rewrite Hname, Hat. destruct (Hin x nd) as [-> _]; [by eapply list_elem_of_lookup_2|]. cbn.
      destruct nd as [es'|content|]; [by destruct Hnode|cbn|done]. destruct Hnode as (? & -> & ? & _). split; [done|].
      rewrite length_blob_bytes. lia.
  - intros T visitor s. rewrite (visit_directory_walk _ kernel_fs c cs (Ok tt)) by done. unfold scan_result, dir_entries.
    destruct (dir_scan _) as [entries ended]. cbn. destruct (visit_list visitor entries s) as [stopped s'].
    by destruct (stopped || ended).
Qed.

Lemma kernel_reads (path x : str) (e : DirEntry) (content : blob) :
  resolve_path kernel_fs path = Ok e -> entry_shows e (x, Regular content) ->
  forall T (visitor : list Z -> T -> T) (s : T), exists chunks,
    read_file kernel_fs path visitor s = (Ok (blob_len content), deliver visitor chunks s) /\
    concat chunks = blob_bytes content /\ Forall (fun c => (1 <= length c <= 512)%nat) chunks.
Proof using Hshows Hboot Hlayout.
  intros Hres (_ & _ & Hdir & Hsize & Hpos & cs & Hc & Hl & Hb) T visitor s. cbn [snd] in *.
  destruct kernel_mounts as [_ Hwf]. destruct (decide (blob_len content = 0)) as [H0|H0].
  - exists []. unfold read_file. rewrite Hres, Hdir, Hsize, H0. split; [done|]. split; [|done].
    rewrite <- Hb, H0. done.
  - specialize (Hc ltac:(lia)). pose proof (chain_walk _ _ Hc) as Hw. pose proof (walk_path _ _ _ _ Hw) as Hp.
    pose proof (chain_sectors_wf _ _ _ Hwf Hp) as Hsec. pose proof (chain_sectors_bytes cs (chain_clusters _ _ Hc)) as Hcat.
    exists (file_chunks (blob_len content) (chain_sectors kernel_fs cs)). rewrite <- Hsize at 1 2.
    split; [|split; [|by apply file_chunks_sizes]].
    + apply read_file_delivers; try done; [by eapply walk_NoDup|]. rewrite Hsize. split; [lia|].
      unfold chain_capacity. rewrite <- Hcat, length_concat_sectors in Hl by done. lia.
    + by rewrite concat_file_chunks, Hcat.
Qed.

Lemma kernel_shows_root (es : list (list Z * node)) (path : str) :
  directory_at b L (root L) es -> kernel_shows kernel_fs (Directory es) path.
Proof using Hshows Hboot Hlayout.
  intros Hdir. unfold kernel_shows. pose proof (kernel_resolve_path path es Hdir) as Hres.
  assert (Hempty : is_empty (trim_matches Fat32.is_slash path) = true <-> fat_path path = []).
  { rewrite trim_empty, <- split_nonempty_nil. unfold fat_path. by destruct (split_nonempty _ _). }
  unfold list_dir. destruct (fat_path path) as [|y q] eqn:Hq.
  - rewrite (proj2 Hempty) by done. cbn [shown_at node_at mbind option_bind fat_of]. split.
    + intros T visitor s. unfold read_file, resolve_path. unfold fat_path in Hq. by destruct (split_nonempty _ _).
    + by apply (kernel_lists (root L) es).
  - destruct (is_empty _); [by destruct Hempty as [Hno _]; specialize (Hno eq_refl)|]. specialize (Hres ltac:(done)).
    unfold shown_at. destruct (node_at (Directory es) (y :: q)) as [nd|] eqn:Hnd; cbn [mbind option_bind].
    2:{ unfold read_file. rewrite Hres. done. }
    destruct Hres as (e & x & Hres & He). rewrite Hres. cbn [mbind outcome_bind]. pose proof He as (_ & _ & Hnode). cbn [snd] in Hnode.
    destruct nd as [es'|content|]; cbn [fat_of]; [| |done].
    + destruct Hnode as [Hd Hdir']. rewrite Hd. split; [|by apply (kernel_lists _ es')].
      intros T visitor s. unfold read_file. by rewrite Hres, Hd.
    + destruct Hnode as (Hd & _ & Hpos & _). rewrite Hd. split; [|done]. intros T visitor s.
      rewrite length_blob_bytes, Z2Nat.id by done. by eapply kernel_reads.
Qed.
End Reader.

Section Claim.
Context {D : Type} `{HBD : BlockDevice D} `{HSpec : !BlockDeviceSpec D}.

Lemma kernel_shows_ext (fs : Fat32.Fat32 D) (n n' : node) (path : str) :
  (forall q, shown_at n q = shown_at n' q) -> kernel_shows fs n path -> kernel_shows fs n' path.
Proof.
  intros Heq. unfold kernel_shows. rewrite <- Heq.
  assert (Hm : forall q, missing n q = missing n' q).
  { intros q. unfold missing. replace (through_file n' q) with (through_file n q); [done|].
    apply existsb_seq_ext. intros k. by rewrite Heq. }
  destruct (shown_at n (fat_path path)) as [[|content]|]; [|done|by rewrite Hm].
  intros [Hread (entries & (Hnd & Hin & Hall) & Hvisit)]. split; [done|]. exists entries. split; [|done].
  split; [done|]. split; [intros x; by rewrite <- Heq|]. eapply Forall_impl; [exact Hall|]. intros e. cbv beta. by rewrite (Heq (_ ++ _)).
Qed.

Lemma volume_mounts (d : D) (volume : blob) (n : node) :
  device_shows d volume -> fat32_volume volume n -> exists fs, mount d = Ok fs.
Proof. intros Hshows (L & es & Hboot & Hlayout & _). exists (kernel_fs L d). by apply (kernel_mounts volume). Qed.

Lemma mounted_shows (d : D) (volume : blob) (n : node) (fs : Fat32.Fat32 D) (path : str) :
  device_shows d volume -> fat32_volume volume n -> mount d = Ok fs -> kernel_shows fs n path.
Proof.
  intros Hshows (L & es & Hboot & Hlayout & Hdir & Heq) Hfs. apply (kernel_shows_ext _ (Directory es)); [done|].
  destruct (kernel_mounts volume L d Hshows Hboot Hlayout) as [Hm _].
  assert (fs = kernel_fs L d) as -> by congruence. by apply (kernel_shows_root volume).
Qed.

(** C3: The kernel reads what the FAT32 format stores.  A volume whose bytes hold a
    tree of files with 8.3 names, in the layout of the FAT32 specification, is
    mounted; and for every path, in any spelling of capitals and slashes: a file is
    read in chunks that together are its bytes, a directory is listed with exactly
    its entries, their kinds and their sizes, and a path that names nothing is
    reported, as leading through a file or as not found. *)
Theorem kernel_reads_tree (d : D) (volume : blob) (n : node) :
  device_shows d volume -> fat32_volume volume n ->
  exists fs, mount d = Ok fs /\ forall path, kernel_shows fs n path.
Proof.
  intros Hshows Hvolume. destruct (volume_mounts d volume n Hshows Hvolume) as [fs Hfs]. exists fs.
  split; [done|]. intros path. by apply (mounted_shows d volume).
Qed.
End Claim.
