(* ===== verification/DataDemo.v ===== *)
(** * DataDemo: a data volume built

    A [fatfs] crate that satisfies [FatSpec], and the theorems of the data volume at
    a small directory. *)

From S2P Require Import Prelude Str Console Launcher HostFs HostTree ImageBuilder DataVolume.
From stdpp Require Import gmap.
#[local] Open Scope Z_scope.

#[export] Instance fat_node_eq_dec : EqDecision fat_node.
Proof. solve_decision. Defined.

#[export] Program Instance fat_node_countable : Countable fat_node :=
  inj_countable' (fun n => match n with FatDirectory => None | FatFile content => Some content end)
    (fun o => match o with None => FatDirectory | Some content => FatFile content end) _.
Next Obligation. by intros []. Qed.

(** ** The file system

    The nodes by their paths and the clusters in use; the first cell of an
    unmounted device holds both. *)
Definition demo_fat : Type := gmap (list str) fat_node * Z.

Definition demo_free (v : demo_fat) : Z := 128000 - v.2.

Definition demo_put (cost : Z) (path : list str) (n : fat_node) (v : demo_fat) (b : blob)
  : option (list str * demo_fat * blob) :=
  if demo_free v <? cost then None else Some (path, (<[path := n]> v.1, v.2 + cost), b).

Definition demo_store (v : demo_fat) (b : blob) : blob :=
  {| blob_len := blob_len b; blob_at := fun x => if decide (x = 0) then Z.pos (encode v) else blob_at b x |}.

Definition demo_mount (b : blob) : option (demo_fat * blob) :=
  match blob_at b 0 with
  | Zpos c => v ← decode c; Some (v, b)
  | _ => None
  end.

#[export] Instance demo_fatfs : FatCrate demo_fat (list str) (list str) := {
  format_volume _ _ b := Some (demo_store ({[ [] := FatDirectory ]}, 0) b);
  FileSystem_new := demo_mount;
  fat_type _ := Fat32;
  root_dir _ := [];
  create_dir v d name b := demo_put 2 (d ++ [name]) FatDirectory v b;
  create_fat_file v d name b := demo_put 1 (d ++ [name]) (FatFile []) v b;
  write_fat_file v f data b := demo_put (blob_len data / 512 + 1) f (FatFile (blob_bytes data)) v b;
  flush_fat_file v f b := Some (v, b);
  unmount v b := Some (demo_store v b);
}.

#[export] Instance demo_view : FatView demo_fat (list str) (list str) := {
  mounted _ _ := True;
  contents v _ q := v.1 !! q;
  free_clusters v _ := demo_free v;
  dir_path d := d;
  file_path f := f;
  at_start _ := True;
}.

Lemma demo_mount_store (v : demo_fat) (b : blob) : demo_mount (demo_store v b) = Some (v, demo_store v b).
Proof. unfold demo_mount, demo_store. cbn [blob_at]. rewrite decide_True by done. by rewrite decode_encode. Qed.

Lemma demo_put_spec (cost : Z) (path : list str) (n : fat_node) (v : demo_fat) (b : blob) :
  match demo_put cost path n v b with
  | Some (f, v', b') => f = path /\ becomes v b cost path n v' b'
  | None => demo_free v < cost
  end.
Proof.
  unfold demo_put. destruct (Z.ltb_spec (demo_free v) cost); [done|]. split; [done|].
  split; [done|]. split; [done|]. split; [unfold free_clusters; cbn; unfold demo_free; cbn; lia|].
  intros q. cbn. case_decide as Hq; [subst q; apply lookup_insert_eq|by apply lookup_insert_ne].
Qed.

#[export] Program Instance demo_fatfs_spec : FatSpec demo_fat (list str) (list str).
Next Obligation.
  intros label b _ _. do 3 eexists. split; [done|]. split; [apply demo_mount_store|].
  do 5 (split; [done|]). intros q. cbn. case_decide as Hq; [by subst q|by rewrite lookup_singleton_ne].
Qed.
Next Obligation. done. Qed.
Next Obligation. intros v d name b _. apply demo_put_spec. Qed.
Next Obligation.
  intros v d name b _. cbn. pose proof (demo_put_spec 1 (d ++ [name]) (FatFile []) v b) as Hp.
  destruct (demo_put _ _ _ _ _) as [[[f v'] b']|]; [|done]. destruct Hp. done.
Qed.
Next Obligation. intros v f data b _ _ _ _. cbn. apply demo_put_spec. Qed.
Next Obligation.
  intros v f b n _ Hn. do 2 eexists. split; [done|]. split; [done|]. split; [done|]. split; [lia|].
  intros q. by case_decide as Hq; [subst q|].
Qed.
Next Obligation.
  intros v b _. eexists. split; [done|]. split; [done|]. do 2 eexists. split; [apply demo_mount_store|done].
Qed.

(** ** A build *)

Definition text_blob (s : str) : blob := {| blob_len := Z.of_nat (length s); blob_at := fun x => nth (Z.to_nat x) s 0 |}.

Definition hello : blob := text_blob (lit "Hello from the data partition!").
Definition about : blob := text_blob (lit "Sol OS reads this file.").

Definition demo_tree : node :=
  Directory [(lit "HELLO.TXT", Regular hello); (lit "PIPE", Special);
             (lit "DOCS", Directory [(lit "ABOUT.TXT", Regular about)])].

Definition demo_listing (p : list Z) : option (list (list Z * FileType)) :=
  if decide (p = lit "disk_files") then
    Some [(lit "HELLO.TXT", IsFile); (lit "PIPE", IsOther); (lit "DOCS", IsDir)]
  else if decide (p = lit "disk_files/DOCS") then Some [(lit "ABOUT.TXT", IsFile)]
  else None.

(** The same tree as another system lists it. *)
Definition other_tree : node :=
  Directory [(lit "DOCS", Directory [(lit "ABOUT.TXT", Regular about)]);
             (lit "HELLO.TXT", Regular hello); (lit "PIPE", Special)].

Definition other_listing (p : list Z) : option (list (list Z * FileType)) :=
  if decide (p = lit "disk_files") then
    Some [(lit "DOCS", IsDir); (lit "HELLO.TXT", IsFile); (lit "PIPE", IsOther)]
  else demo_listing p.

Definition data_host : filesystem := {|
  files := {[ lit "disk_files/HELLO.TXT" := hello; lit "disk_files/DOCS/ABOUT.TXT" := about ]};
  stdout := []; calls := 0; faults := fun _ => None;
|}.

Lemma demo_listed : listed demo_listing (lit "disk_files") demo_tree.
Proof.
  split; [done|]. split; [by apply (bool_decide_unpack _)|]. cbn [foldr listed]. split_and!; try done.
  by apply (bool_decide_unpack _).
Qed.

Lemma other_listed : listed other_listing (lit "disk_files") other_tree.
Proof.
  split; [done|]. split; [by apply (bool_decide_unpack _)|]. cbn [foldr listed]. split_and!; try done.
  by apply (bool_decide_unpack _).
Qed.

Lemma demo_stored : stored (files data_host) (lit "sol-data.fat") (lit "disk_files") demo_tree.
Proof. cbn [stored demo_tree foldr]. by split_and!. Qed.

Lemma demo_reordered : reordered demo_tree other_tree.
Proof.
  assert (Hrefl : forall content, reordered (Directory [(lit "ABOUT.TXT", Regular content)])
                                            (Directory [(lit "ABOUT.TXT", Regular content)])).
  { intros content. eapply reordered_directory; [|done]. repeat constructor. }
  eapply reordered_directory.
  - repeat (constructor; [split; [done|]|]); [constructor|constructor|apply Hrefl|constructor].
  - apply (Permutation_app_comm [_; _] [_]).
Qed.

(** The demo directory is built, and its files are found in the volume. *)
Lemma volume_holds_tree_witness :
  (build_data_volume (V := demo_fat) (D := list str) (F := list str) demo_listing 2 (lit "sol-data.fat")
     (lit "disk_files") data_host).1 = Ok tt /\
  (exists volume v b, demo_mount volume = Some (v, b) /\
     files (build_data_volume (V := demo_fat) (D := list str) (F := list str) demo_listing 2 (lit "sol-data.fat")
              (lit "disk_files") data_host).2 !! lit "sol-data.fat" = Some volume /\
     v.1 !! [lit "DOCS"; lit "ABOUT.TXT"] = Some (FatFile (lit "Sol OS reads this file.")) /\
     v.1 !! [lit "DOCS"] = Some FatDirectory /\ v.1 !! [lit "PIPE"] = None).
Proof.
  pose proof (volume_holds_tree (V := demo_fat) (D := list str) (F := list str) demo_listing data_host
                (lit "sol-data.fat") (lit "disk_files") demo_tree 2 ltac:(reflexivity) demo_listed demo_stored
                ltac:(cbn; lia)) as Hb.
  destruct (build_data_volume _ _ _ _ data_host) as [r fs']. destruct Hb as (Hok & _ & _ & Hall).
  specialize (Hall ltac:(done) ltac:(vm_compute; done)). subst r. split; [reflexivity|].
  destruct (Hok eq_refl) as (volume & Hfiles & _ & v & b & Hnew & _ & Hc). exists volume, v, b. split; [exact Hnew|].
  split; [cbn [snd]; by rewrite Hfiles, lookup_insert_eq|].
  split; [exact (Hc [lit "DOCS"; lit "ABOUT.TXT"])|]. split; [exact (Hc [lit "DOCS"])|exact (Hc [lit "PIPE"])].
Defined.

(** Both listings give the same volume and the same lines. *)
Lemma build_order_irrelevant_witness :
  build_data_volume (V := demo_fat) (D := list str) (F := list str) demo_listing 2 (lit "sol-data.fat")
    (lit "disk_files") data_host =
  build_data_volume (V := demo_fat) (D := list str) (F := list str) other_listing 2 (lit "sol-data.fat")
    (lit "disk_files") data_host /\
  stdout (watch_host_tree other_listing 2 (lit "disk_files") data_host).2 =
    map (fun p => lit "cargo:rerun-if-changed=" ++ p)
      [lit "disk_files"; lit "disk_files/DOCS"; lit "disk_files/DOCS"; lit "disk_files/DOCS/ABOUT.TXT";
       lit "disk_files/HELLO.TXT"; lit "disk_files/PIPE"].
Proof.
  destruct (build_order_irrelevant (V := demo_fat) (D := list str) (F := list str) demo_listing other_listing 2
              (lit "sol-data.fat") (lit "disk_files") demo_tree other_tree data_host demo_listed other_listed
              demo_reordered ltac:(reflexivity)) as [Hbuild Hwatch].
  split; [exact Hbuild|]. rewrite <- Hwatch. vm_compute. reflexivity.
Defined.
