(* ===== verification/DiskImage.v ===== *)
(** * DiskImage: the boot loader's file system

    Models [DiskImageBuilder] of [vendor/bootloader/src/lib.rs], [fat.rs] and
    [file_data_source.rs]: the files the boot volume is made of, its size and label,
    and their copying into it.  The [fatfs] crate with its operations on paths is
    the class [PathFat]; [PathFatSpec] states what it documents. *)

From S2P Require Import Prelude Str Console Launcher HostFs HostTree ImageBuilder BootImage DataVolume.
From stdpp Require Import gmap.
#[local] Open Scope Z_scope.

(** The fields of the configuration that are set, and the rest of it. *)
Record BootConfig (R : Type) : Type := {
  minimum_framebuffer_width : option Z;
  minimum_framebuffer_height : option Z;
  frame_buffer_logging : bool;
  serial_logging : bool;
  rest : R;
}.

Arguments minimum_framebuffer_width {R}.
Arguments minimum_framebuffer_height {R}.
Arguments frame_buffer_logging {R}.
Arguments serial_logging {R}.
Arguments rest {R}.

(** ** Sources *)

(** A path, a vector or static bytes. *)
Inductive FileDataSource : Type :=
| SourceFile (path : list Z)
| SourceData (data : blob)
| SourceBytes (data : blob).

Definition source_len (s : FileDataSource) : Build Z :=
  match s with
  | SourceFile path => metadata_len path
  | SourceData data | SourceBytes data => mret (blob_len data)
  end.

(** What [copy_to] gives to its target. *)
Definition source_bytes (s : FileDataSource) : Build blob :=
  match s with
  | SourceFile path => _ ← open_file path; with_file path (fun b => (Ok b, None))
  | SourceData data | SourceBytes data => mret data
  end.

(** [BTreeMap::insert]: the value it replaced, and the map, in the order of its keys. *)
Fixpoint btree_insert {A : Type} (key : str) (value : A) (l : list (str * A)) : option A * list (str * A) :=
  match l with
  | [] => (None, [(key, value)])
  | (k, v) :: l' =>
      if bool_decide (key = k) then (Some v, (key, value) :: l')
      else if name_le key k then (None, (key, value) :: l)
      else let '(old, l') := btree_insert key value l' in (old, (k, v) :: l')
  end.

Definition btree_get {A : Type} (key : str) (l : list (str * A)) : option A :=
  snd <$> find (fun e => bool_decide (e.1 = key)) l.

Definition KERNEL_FILE_NAME : str := lit "kernel-x86_64".
Definition CONFIG_FILE_NAME : str := lit "boot.json".
Definition UEFI_BOOT_FILENAME : str := lit "efi/boot/bootx64.efi".

Definition DiskImageBuilder : Type := list (str * FileDataSource).

Definition set_file_source (builder : DiskImageBuilder) (destination : str) (source : FileDataSource) : DiskImageBuilder :=
  (btree_insert destination source builder).2.

Definition builder_new (kernel : list Z) : DiskImageBuilder := set_file_source [] KERNEL_FILE_NAME (SourceFile kernel).

(** ** Paths *)

(** [Path::ancestors] *)
Fixpoint ancestors (fuel : nat) (p : list Z) : list (list Z) :=
  match fuel with
  | O => [p]
  | S fuel => p :: match Launcher.parent p with Some q => ancestors fuel q | None => [] end
  end.

(** The directories above a target, outermost first:
    [ancestors().skip(1)], reversed, [skip(1)]. *)
Definition directories_above (target : list Z) : list (list Z) :=
  drop 1 (reverse (drop 1 (ancestors (S (length target)) target))).

(** [Path::file_name] and [Path::file_stem], of a path without "." components. *)
Definition file_name (p : list Z) : option (list Z) :=
  let p := trim_end_matches Launcher.is_slash p in
  match last (Str.split Launcher.is_slash p) with
  | Some name => if is_empty name || bool_decide (name = lit "..") then None else Some name
  | None => None
  end.

Definition file_stem (p : list Z) : option (list Z) :=
  name ← file_name p;
  let after := length (default [] (last (Str.split (fun c => c =? 0x2e) name))) in
  Some (if (length name <=? S after)%nat then name else take (length name - S after) name).

(** ** The file system *)

(** A mounted file system [V] on a device, with files [F]; paths start at its root.
    Dropping a file flushes it, dropping the file system unmounts it; their errors
    are not seen. *)
Class PathFat (V F : Type) : Type := {
  pf_format : list Z -> blob -> option blob;
  pf_open : blob -> option (V * blob);
  pf_create_dir : V -> str -> blob -> option (V * blob);
  pf_create_file : V -> str -> blob -> option (F * V * blob);
  pf_truncate : V -> F -> blob -> option (F * V * blob);
  pf_write : V -> F -> blob -> blob -> option (F * V * blob);
  pf_close : V -> F -> blob -> V * blob;
  pf_drop : V -> blob -> blob;
}.

Definition MB : Z := 1024 * 1024.

(** [((needed_size + 1024 * 64 - 1) / MB + 1) * MB + MB] *)
Definition fat_size (needed_size : Z) : option Z :=
  padded ← checked_add 64 needed_size (1024 * 64);
  let megabytes := (padded - 1) / MB in
  rounded ← checked_mul 64 (megabytes + 1) MB;
  checked_add 64 rounded MB.

(** The first eleven bytes of the kernel's stem, with zeros after them. *)
Definition volume_label (files : list (str * FileDataSource)) : list Z :=
  match btree_get KERNEL_FILE_NAME files with
  | Some (SourceFile path) =>
      match file_stem path with
      | Some name =>
          let name := take 11 (Str.encode (from_utf8_lossy name)) in
          name ++ replicate (11 - length name) 0
      | None => lit "MY_RUST_OS!"
      end
  | _ => lit "MY_RUST_OS!"
  end.

(** [fs::remove_file] *)
Definition remove_file (p : list Z) : Build unit :=
  syscall (fun fs => (Ok tt, {| files := delete p (files fs); stdout := stdout fs; calls := calls fs; faults := faults fs |})).

(** A [NamedTempFile] in scope: after an error or a panic its drop removes the file,
    and nobody sees whether that worked. *)
Definition dropping {A : Type} (temp : list Z) (c : Build A) : Build A := fun fs =>
  match c fs with
  | (Ok a, fs) => (Ok a, fs)
  | (r, fs) => (r, (remove_file temp fs).2)
  end.

(** A [for] loop over a state. *)
Fixpoint for_each {A S : Type} (body : S -> A -> Build S) (l : list A) (s : S) : Build S :=
  match l with
  | [] => mret s
  | x :: l => s ← body s x; for_each body l s
  end.

Section Library.
Context {V F : Type} `{PathFat V F}.

Definition create_directories (out : list Z) (paths : list (list Z)) (v : V) : Build V :=
  for_each (fun v path => on_device out (pf_create_dir v (from_utf8_lossy path))) paths v.

Definition add_file_to_image (out : list Z) (v : V) (e : str * FileDataSource) : Build V :=
  let '(target_path, source) := e in
  v ← create_directories out (directories_above target_path) v;
  '(new_file, v) ← on_device out (pf_create_file v target_path);
  '(new_file, v) ← expect (on_device out (pf_truncate v new_file));
  bytes ← source_bytes source;
  '(new_file, v) ← on_device out (pf_write v new_file bytes);
  on_device out (fun b => Some (pf_close v new_file b)).

Definition add_files_to_image (out : list Z) (files : list (str * FileDataSource)) (v : V) : Build V :=
  for_each (add_file_to_image out) files v.

Definition needed_size (files : list (str * FileDataSource)) : Build Z :=
  for_each (fun n e => len ← source_len e.2; checked (checked_add 64 n len)) files 0.

Definition create_fat_filesystem (files : list (str * FileDataSource)) (out_fat_path : list Z) : Build unit :=
  needed_size ← needed_size files;
  _ ← expect (create_file out_fat_path);
  size ← checked (fat_size needed_size);
  _ ← expect (set_len out_fat_path size);
  _ ← on_device out_fat_path (fun b => b ← pf_format (volume_label files) b; Some (tt, b));
  filesystem ← on_device out_fat_path pf_open;
  filesystem ← add_files_to_image out_fat_path files filesystem;
  on_device out_fat_path (fun b => Some (tt, pf_drop filesystem b)).

(** The files of the builder, and the internal ones, which must be new. *)
Definition merge_files (builder internal_files : list (str * FileDataSource)) : Build (list (str * FileDataSource)) :=
  let local_map := foldl (fun l e => (btree_insert e.1 e.2 l).2) [] builder in
  for_each (fun l e =>
    match btree_insert e.1 e.2 l with
    | (Some _, _) => fail (InvalidData (lit "Attempted to overwrite internal file: " ++ e.1))
    | (None, l) => mret l
    end) internal_files local_map.

(** [temp] is the path of the temporary file. *)
Definition create_fat_filesystem_image (builder internal_files : list (str * FileDataSource)) (temp : list Z) : Build unit :=
  local_map ← merge_files builder internal_files;
  _ ← create_file temp;
  dropping temp (create_fat_filesystem local_map temp).
End Library.

(** ** What the crate promises *)

Class PathView (V F : Type) : Type := {
  pf_mounted : V -> blob -> Prop;
  pf_contents : V -> blob -> list str -> option fat_node;
  pf_at : F -> list str;
}.

(** The components of a path. *)
Definition path_parts (p : str) : list str := split_nonempty Launcher.is_slash p.

Section View.
Context {V F : Type} `{PathView V F}.

(** The operation put [n] at the path and changed nothing else. *)
Definition puts (v : V) (b : blob) (path : list str) (n : fat_node) (v' : V) (b' : blob) : Prop :=
  pf_mounted v' b' /\ blob_len b' = blob_len b /\
  forall q, pf_contents v' b' q = if decide (q = path) then Some n else pf_contents v b q.

(** A new path in a directory. *)
Definition vacant_path (v : V) (b : blob) (path : list str) : Prop :=
  pf_mounted v b /\ pf_contents v b path = None /\ pf_contents v b (removelast path) = Some FatDirectory.
End View.

(** Every operation may fail for a reason of the crate's own. *)
Class PathFatSpec (V F : Type) `{PathFat V F} `{PathView V F} : Type := {
  pf_format_spec : forall label b b1 v b2, length label = 11%nat -> pf_format label b = Some b1 -> pf_open b1 = Some (v, b2) ->
    blob_len b1 = blob_len b /\ blob_len b2 = blob_len b /\ pf_mounted v b2 /\
    forall q, pf_contents v b2 q = if decide (q = []) then Some FatDirectory else None;
  pf_create_dir_spec : forall v path b v' b', vacant_path v b (path_parts path) ->
    pf_create_dir v path b = Some (v', b') -> puts v b (path_parts path) FatDirectory v' b';
  pf_create_file_spec : forall v path b f v' b', vacant_path v b (path_parts path) ->
    pf_create_file v path b = Some (f, v', b') -> pf_at f = path_parts path /\ puts v b (path_parts path) (FatFile []) v' b';
  pf_truncate_spec : forall v f b, pf_mounted v b -> pf_contents v b (pf_at f) = Some (FatFile []) ->
    exists f' v' b', pf_truncate v f b = Some (f', v', b') /\ pf_at f' = pf_at f /\ puts v b (pf_at f) (FatFile []) v' b';
  pf_write_spec : forall v f data b f' v' b', pf_mounted v b -> pf_contents v b (pf_at f) = Some (FatFile []) ->
    0 <= blob_len data -> pf_write v f data b = Some (f', v', b') ->
    pf_at f' = pf_at f /\ puts v b (pf_at f) (FatFile (blob_bytes data)) v' b';
  pf_close_spec : forall v f b n v' b', pf_mounted v b -> pf_contents v b (pf_at f) = Some n ->
    pf_close v f b = (v', b') -> puts v b (pf_at f) n v' b';
  pf_drop_spec : forall v b, pf_mounted v b ->
    blob_len (pf_drop v b) = blob_len b /\
    exists v' b', pf_open (pf_drop v b) = Some (v', b') /\ pf_mounted v' b' /\ forall q, pf_contents v' b' q = pf_contents v b q;
}.

(** A volume being filled: its nodes are at the paths [allowed], and a file of it is
    empty or holds one of the [sources]. *)
Definition made_of (sources : list blob) (n : fat_node) : Prop :=
  match n with FatDirectory => True | FatFile content => content = [] \/ content ∈ map blob_bytes sources end.

Definition partial (allowed : list (list str)) (sources : list blob) (c : list str -> option fat_node) : Prop :=
  forall q n, c q = Some n -> q ∈ allowed /\ made_of sources n.

(** The crate fails to do one of the steps of filling a volume of [size] bytes. *)
Section Refuses.
Context (V F : Type) `{PathFat V F} `{PathView V F} (size : Z) (allowed : list (list str)) (sources : list blob).

Definition filling (v : V) (b : blob) : Prop :=
  blob_len b = size /\ pf_mounted v b /\ partial allowed sources (pf_contents v b).

Definition can_create (v : V) (b : blob) (path : str) : Prop :=
  filling v b /\ vacant_path v b (path_parts path) /\ path_parts path ∈ allowed.

Inductive crate_refuses : Prop :=
| refuses_format label b : length label = 11%nat -> blob_len b = size -> pf_format label b = None -> crate_refuses
| refuses_open label b b1 :
    length label = 11%nat -> blob_len b = size -> pf_format label b = Some b1 -> pf_open b1 = None -> crate_refuses
| refuses_create_dir v path b : can_create v b path -> pf_create_dir v path b = None -> crate_refuses
| refuses_create_file v path b : can_create v b path -> pf_create_file v path b = None -> crate_refuses
| refuses_write v f data b :
    filling v b -> pf_contents v b (pf_at f) = Some (FatFile []) -> data ∈ sources -> pf_write v f data b = None ->
    crate_refuses.
End Refuses.

(** ** Runs that may stop

    Like [runs], for a computation that may report an error or panic: after an
    injected fault, or when [W] holds. *)
Definition attempts {A : Type} (c : Build A) (m : gmap (list Z) blob) (Q : A -> gmap (list Z) blob -> Prop) (W : Prop) : Prop :=
  forall fs, files fs = m ->
    match c fs with
    | (Ok a, fs') => faults fs' = faults fs /\ stdout fs' = stdout fs /\ Q a (files fs')
    | _ => (exists n code, faults fs n = Some code) \/ W
    end.

Section Attempts.
Context {A B : Type}.
Implicit Types (m : gmap (list Z) blob) (W : Prop).

Lemma attempts_runs (c : Build A) m Q E W : runs c m Q E -> (forall e, E e -> W) -> attempts c m Q W.
Proof.
  intros Hc HE fs Hfs. specialize (Hc fs Hfs). destruct (c fs) as [[a|e|] fs']; [| |done].
  - destruct Hc as (Hf & out & Hout & -> & HQ). rewrite app_nil_r in Hout. done.
  - destruct e; try (right; by eapply HE). left. destruct Hc as [n Hn]. eauto.
Qed.

Lemma attempts_bind (c : Build A) (k : A -> Build B) m Q W :
  attempts c m (fun a m' => attempts (k a) m' Q W) W -> attempts (c ≫= k) m Q W.
Proof.
  intros Hc fs Hfs. specialize (Hc fs Hfs). unfold mbind, Build_bind. destruct (c fs) as [[a|e|] fs']; [|done..].
  destruct Hc as (Hf & Hout & Hk). specialize (Hk fs' eq_refl). rewrite Hf, Hout in Hk. done.
Qed.

Lemma attempts_expect (c : Build A) m Q W : attempts c m Q W -> attempts (expect c) m Q W.
Proof. intros Hc fs Hfs. specialize (Hc fs Hfs). unfold expect. by destruct (c fs) as [[a|e|] fs']. Qed.

Lemma attempts_weaken (c : Build A) m (Q Q' : A -> _ -> Prop) W :
  attempts c m Q W -> (forall a m', Q a m' -> Q' a m') -> attempts c m Q' W.
Proof.
  intros Hc HQ fs Hfs. specialize (Hc fs Hfs). destruct (c fs) as [[a|e|] fs']; [|done..].
  destruct Hc as (? & ? & ?). auto.
Qed.

Lemma attempts_weaken_stop (c : Build A) m Q (W W' : Prop) : attempts c m Q W -> (W -> W') -> attempts c m Q W'.
Proof.
  intros Hc HW fs Hfs. specialize (Hc fs Hfs). destruct (c fs) as [[a|e|] fs']; [done|..]; destruct Hc; auto.
Qed.

Lemma attempts_dropping (temp : list Z) (c : Build A) m Q W : attempts c m Q W -> attempts (dropping temp c) m Q W.
Proof. intros Hc fs Hfs. specialize (Hc fs Hfs). unfold dropping. by destruct (c fs) as [[a|e|] fs']. Qed.

Lemma attempts_ret (a : A) m Q W : Q a m -> attempts (mret a) m Q W.
Proof. intros HQ. apply (attempts_runs _ _ _ (fun _ => False)); [by apply runs_ret|done]. Qed.

Lemma attempts_device (p : list Z) (f : blob -> option (A * blob)) (b : blob) m Q W :
  m !! p = Some b -> match f b with Some (a, b') => Q a (<[p := b']> m) | None => W end ->
  attempts (on_device p f) m Q W.
Proof.
  intros Hp Hf. apply (attempts_runs _ _ _ (fun _ => W)); [|done]. eapply runs_device; [exact Hp|]. by destruct (f b) as [[a b']|].
Qed.
End Attempts.

(** ** The files are in the file system *)

Section Correct.
Context {V F : Type} `{PathFatSpec V F} (out : list Z) (m : gmap (list Z) blob).
Context (size : Z) (allowed : list (list str)) (sources : list blob).
Implicit Types (c : list str -> option fat_node).

Definition with_node (path : str) (n : fat_node) c : list str -> option fat_node :=
  fun q => if decide (q = path_parts path) then Some n else c q.

Definition fits c (path : str) : Prop :=
  c (path_parts path) = None /\ c (removelast (path_parts path)) = Some FatDirectory /\ path_parts path ∈ allowed.

(** The directories can be made one after the other, and then the file. *)
Fixpoint can_add c (paths : list (list Z)) (target : str) : Prop :=
  match paths with
  | [] => fits c target
  | path :: paths => fits c (from_utf8_lossy path) /\ can_add (with_node (from_utf8_lossy path) FatDirectory c) paths target
  end.

Definition with_directories (paths : list (list Z)) c : list str -> option fat_node :=
  foldl (fun c path => with_node (from_utf8_lossy path) FatDirectory c) c paths.

(** The volume, in the output file, shows [c]. *)
Definition shows_boot c (v : V) (m' : gmap (list Z) blob) : Prop :=
  exists b, m' = <[out := b]> m /\ blob_len b = size /\ pf_mounted v b /\ partial allowed sources c /\
    forall q, pf_contents v b q = c q.

(** What a source gives. *)
Definition source_gives (source : FileDataSource) (bytes : blob) : Prop :=
  0 <= blob_len bytes /\ bytes ∈ sources /\
  match source with
  | SourceFile path => m !! path = Some bytes /\ path <> out
  | SourceData data | SourceBytes data => data = bytes
  end.

Lemma puts_with_node (v v' : V) (b b' : blob) (path : str) (n : fat_node) c :
  (forall q, pf_contents v b q = c q) -> puts v b (path_parts path) n v' b' ->
  forall q, pf_contents v' b' q = with_node path n c q.
Proof. intros Hc (_ & _ & Hq) q. rewrite Hq. unfold with_node. by rewrite Hc. Qed.

Lemma partial_with_node (path : str) (n : fat_node) c :
  partial allowed sources c -> path_parts path ∈ allowed -> made_of sources n -> partial allowed sources (with_node path n c).
Proof. intros Hc Hp Hn q n'. unfold with_node. case_decide; [intros [= <-]; by subst q|apply Hc]. Qed.

Lemma shown_filling c (v : V) (b : blob) :
  blob_len b = size -> pf_mounted v b -> partial allowed sources c -> (forall q, pf_contents v b q = c q) ->
  filling V F size allowed sources v b.
Proof. intros Hl Hm Hp Hc. split; [done|]. split; [done|]. intros q n. rewrite Hc. apply Hp. Qed.

Lemma shown_can_create c (v : V) (b : blob) (path : str) :
  blob_len b = size -> pf_mounted v b -> partial allowed sources c -> (forall q, pf_contents v b q = c q) -> fits c path ->
  can_create V F size allowed sources v b path.
Proof.
  intros Hl Hm Hp Hc (Hnone & Hparent & Hin). split; [by eapply shown_filling|]. split; [|done]. by split; [|rewrite !Hc].
Qed.

Lemma attempts_directories (paths : list (list Z)) (target : str) (v : V) c (m' : gmap (list Z) blob) Q :
  shows_boot c v m' -> can_add c paths target ->
  (forall v1 m1, shows_boot (with_directories paths c) v1 m1 -> fits (with_directories paths c) target -> Q v1 m1) ->
  attempts (create_directories out paths v) m' Q (crate_refuses V F size allowed sources).
Proof.
  unfold create_directories, with_directories. revert v c m'. induction paths as [|path paths IH]; intros v c m' Hshow Hadd HQ.
  { apply attempts_ret. by apply HQ. }
  destruct Hshow as (b & -> & Hlen & Hm & Hpart & Hc), Hadd as [Hfits Hadd]. cbn [for_each]. apply attempts_bind.
  eapply attempts_device; [apply lookup_insert_eq|].
  pose proof (shown_can_create c v b _ Hlen Hm Hpart Hc Hfits) as Hcan.
  destruct (pf_create_dir v _ b) as [[v1 b1]|] eqn:Hd; [|by eapply refuses_create_dir].
  destruct (pf_create_dir_spec v (from_utf8_lossy path) b v1 b1) as (Hm1 & Hl1 & Hq1); [apply Hcan|done|].
  rewrite insert_insert_eq.
  eapply IH; [|exact Hadd|exact HQ]. exists b1. split; [done|]. split; [congruence|]. split; [done|].
  split; [apply partial_with_node; [done|apply Hcan|done]|by eapply puts_with_node].
Qed.

Lemma attempts_source (source : FileDataSource) (bytes b : blob) Q (W : Prop) :
  source_gives source bytes -> Q bytes (<[out := b]> m) -> attempts (source_bytes source) (<[out := b]> m) Q W.
Proof.
  intros (_ & _ & Hs) HQ. destruct source as [path|data|data]; cbn [source_bytes]; [|by subst data; apply attempts_ret..].
  destruct Hs as [Hm Hne]. apply (attempts_runs _ _ _ (fun _ => False)); [|done].
  apply runs_bind. eapply runs_with_file; [by rewrite lookup_insert_ne|done|]. cbn [from_option].
  eapply runs_with_file; [by rewrite lookup_insert_ne|done|]. done.
Qed.

Lemma attempts_add_file (target : str) (source : FileDataSource) (bytes : blob) (v : V) c (m' : gmap (list Z) blob) Q :
  shows_boot c v m' -> can_add c (directories_above target) target -> source_gives source bytes ->
  (forall v1 m1, shows_boot (with_node target (FatFile (blob_bytes bytes)) (with_directories (directories_above target) c)) v1 m1 -> Q v1 m1) ->
  attempts (add_file_to_image out v (target, source)) m' Q (crate_refuses V F size allowed sources).
Proof.
  intros Hshow Hadd Hs HQ. unfold add_file_to_image. apply attempts_bind.
  eapply attempts_directories; [exact Hshow|exact Hadd|]. set (c1 := with_directories _ c) in *.
  intros v1 m1 (b1 & -> & Hl1 & Hm1 & Hpart & Hc1) Hfits. apply attempts_bind. eapply attempts_device; [apply lookup_insert_eq|].
  pose proof (shown_can_create c1 v1 b1 _ Hl1 Hm1 Hpart Hc1 Hfits) as (Hfill & Hvac & Hin).
  destruct (pf_create_file v1 target b1) as [[[f v2] b2]|] eqn:Hf; [|by eapply refuses_create_file].
  destruct (pf_create_file_spec v1 target b1 f v2 b2) as (Hat & Hm2 & Hl2 & Hc2); [done|done|].
  rewrite insert_insert_eq. apply attempts_bind, attempts_expect. eapply attempts_device; [apply lookup_insert_eq|].
  destruct (pf_truncate_spec v2 f b2) as (f3 & v3 & b3 & -> & Hat3 & Hm3 & Hl3 & Hc3); [done|by rewrite Hat, Hc2, decide_True|].
  rewrite insert_insert_eq. apply attempts_bind. eapply attempts_source; [exact Hs|]. apply attempts_bind.
  eapply attempts_device; [apply lookup_insert_eq|]. destruct Hs as (Hlen & Hdata & _).
  assert (Hc3' : forall q, pf_contents v3 b3 q = with_node target (FatFile []) c1 q).
  { intros q. rewrite Hc3, Hc2, Hat. unfold with_node. case_decide; [done|apply Hc1]. }
  destruct (pf_write v3 f3 bytes b3) as [[[f4 v4] b4]|] eqn:Hw.
  2: { eapply refuses_write; [|by rewrite Hat3, Hc3, decide_True|exact Hdata|done].
       eapply shown_filling; [congruence|done| |exact Hc3']. apply partial_with_node; [done|done|by left]. }
  destruct (pf_write_spec v3 f3 bytes b3 f4 v4 b4) as (Hat4 & Hm4 & Hl4 & Hc4);
    [done|by rewrite Hat3, Hc3, decide_True|done|done|].
  rewrite insert_insert_eq. eapply attempts_device; [apply lookup_insert_eq|].
  destruct (pf_close v4 f4 b4) as [v5 b5] eqn:Hclose.
  destruct (pf_close_spec v4 f4 b4 (FatFile (blob_bytes bytes)) v5 b5) as (Hm5 & Hl5 & Hc5);
    [done|by rewrite Hat4, Hc4, decide_True|done|].
  rewrite insert_insert_eq. apply HQ. exists b5. split; [done|]. split; [congruence|]. split; [done|].
  split; [apply partial_with_node; [done|done|right; by apply list_elem_of_fmap_2]|].
  intros q. rewrite Hc5, Hc4, Hc3', Hat4, Hat3, Hat. unfold with_node. by case_decide.
Qed.
End Correct.

Lemma volume_label_length (files : list (str * FileDataSource)) : length (volume_label files) = 11%nat.
Proof.
  unfold volume_label. destruct (btree_get _ _) as [[path|data|data]|]; [|done..]. destruct (file_stem path); [|done].
  rewrite length_app, length_replicate, length_take. lia.
Qed.

(** The size: whole mebibytes, with at least one more than the files need. *)
Lemma fat_size_spec (n : Z) :
  0 <= n < 2 ^ 50 -> exists k, fat_size n = Some (k * 2 ^ 20) /\ n + 2 ^ 20 <= k * 2 ^ 20 <= n + 65536 + 2 * 2 ^ 20.
Proof.
  intros Hn. unfold fat_size, MB. rewrite checked_add_lt by lia. cbn [mbind option_bind].
  rewrite checked_mul_lt by zlia. cbn [mbind option_bind]. rewrite checked_add_lt by zlia.
  exists ((n + 1024 * 64 - 1) / (1024 * 1024) + 2). split; [f_equal; lia|]. zlia.
Qed.

Section Boot.
Context {V F : Type} `{HF : PathFatSpec V F} (kernel temp : list Z) (json loader bytes : blob).

(** The builder with the kernel and the configuration, and the loader. *)
Definition boot_builder : DiskImageBuilder := set_file_source (builder_new kernel) CONFIG_FILE_NAME (SourceData json).
Definition boot_internal : DiskImageBuilder := [(UEFI_BOOT_FILENAME, SourceBytes loader)].

(** What the boot volume holds: the loader where the firmware looks for it, and the
    configuration and the kernel where the loader does. *)
Definition boot_contents (q : list str) : option fat_node :=
  if decide (q = [CONFIG_FILE_NAME]) then Some (FatFile (blob_bytes json))
  else if decide (q = [KERNEL_FILE_NAME]) then Some (FatFile (blob_bytes bytes))
  else if decide (q = [lit "efi"; lit "boot"; lit "bootx64.efi"]) then Some (FatFile (blob_bytes loader))
  else if decide (q = [] \/ q = [lit "efi"] \/ q = [lit "efi"; lit "boot"]) then Some FatDirectory
  else None.

Definition boot_volume (fat : blob) : Prop :=
  exists v b, pf_open fat = Some (v, b) /\ pf_mounted v b /\ forall q, pf_contents v b q = boot_contents q.

Definition boot_files : DiskImageBuilder :=
  [(CONFIG_FILE_NAME, SourceData json); (UEFI_BOOT_FILENAME, SourceBytes loader); (KERNEL_FILE_NAME, SourceFile kernel)].

Lemma merge_boot_files : merge_files boot_builder boot_internal = mret boot_files.
Proof. reflexivity. Qed.

Definition root_only (q : list str) : option fat_node := if decide (q = []) then Some FatDirectory else None.

Lemma boot_contents_added (q : list str) :
  with_node KERNEL_FILE_NAME (FatFile (blob_bytes bytes))
    (with_directories (directories_above KERNEL_FILE_NAME)
       (with_node UEFI_BOOT_FILENAME (FatFile (blob_bytes loader))
          (with_directories (directories_above UEFI_BOOT_FILENAME)
             (with_node CONFIG_FILE_NAME (FatFile (blob_bytes json))
                (with_directories (directories_above CONFIG_FILE_NAME) root_only))))) q = boot_contents q.
Proof.
  change (directories_above KERNEL_FILE_NAME) with (@nil (list Z)).
  change (directories_above CONFIG_FILE_NAME) with (@nil (list Z)).
  change (directories_above UEFI_BOOT_FILENAME) with [lit "efi"; lit "efi/boot"].
  unfold with_directories, with_node, boot_contents, root_only. cbn [foldl].
  change (path_parts KERNEL_FILE_NAME) with [KERNEL_FILE_NAME]. change (path_parts CONFIG_FILE_NAME) with [CONFIG_FILE_NAME].
  change (path_parts UEFI_BOOT_FILENAME) with [lit "efi"; lit "boot"; lit "bootx64.efi"].
  change (path_parts (from_utf8_lossy (lit "efi"))) with [lit "efi"].
  change (path_parts (from_utf8_lossy (lit "efi/boot"))) with [lit "efi"; lit "boot"].
  repeat case_decide; subst; try done; try tauto.
Qed.

(** The paths of the boot volume. *)
Definition boot_paths : list (list str) :=
  [[]; [CONFIG_FILE_NAME]; [KERNEL_FILE_NAME]; [lit "efi"]; [lit "efi"; lit "boot"]; [lit "efi"; lit "boot"; lit "bootx64.efi"]].

(** The crate fails while it fills the boot volume, which has at least a mebibyte
    more than its files. *)
Definition boot_refused : Prop :=
  exists size, fat_size (blob_len json + blob_len loader + blob_len bytes) = Some size /\
    crate_refuses V F size boot_paths [json; loader; bytes].

Hypothesis Hsizes : 0 <= blob_len json < 2 ^ 40 /\ 0 <= blob_len loader < 2 ^ 40 /\ 0 <= blob_len bytes < 2 ^ 40.

Lemma runs_needed_size (m : gmap (list Z) blob) Q (E : IoError -> Prop) :
  m !! kernel = Some bytes -> Q (blob_len json + blob_len loader + blob_len bytes) m ->
  runs (needed_size boot_files) m Q E.
Proof using Hsizes.
  intros Hk HQ. unfold needed_size, boot_files. cbn [for_each snd source_len].
  do 2 (apply runs_bind, runs_bind, runs_ret; eapply runs_checked; [apply checked_add_lt; lia|]).
  apply runs_bind, runs_bind. eapply runs_with_file; [exact Hk|done|]. cbn [from_option].
  eapply runs_checked; [apply checked_add_lt; lia|]. by apply runs_ret.
Qed.

(** A closed path fits. *)
Ltac fits_tac := split; [done|split; [done|by apply (bool_decide_unpack _)]].

Lemma attempts_boot_files (m : gmap (list Z) blob) (size : Z) (v : V) (m' : gmap (list Z) blob) Q :
  m !! kernel = Some bytes -> kernel <> temp -> shows_boot temp m size boot_paths [json; loader; bytes] root_only v m' ->
  (forall v1 m1, shows_boot temp m size boot_paths [json; loader; bytes] boot_contents v1 m1 -> Q v1 m1) ->
  attempts (add_files_to_image temp boot_files v) m' Q (crate_refuses V F size boot_paths [json; loader; bytes]).
Proof using Hsizes HF.
  intros Hk Hne Hshow HQ. unfold add_files_to_image, boot_files. cbn [for_each].
  assert (Hin : forall x, x = json \/ x = loader \/ x = bytes -> x ∈ [json; loader; bytes]).
  { intros x. rewrite !elem_of_cons. tauto. }
  apply attempts_bind. eapply (attempts_add_file temp m size boot_paths [json; loader; bytes] _ _ json);
    [exact Hshow|fits_tac|split; [lia|]; by split; [apply Hin; auto|]|]. intros v1 m1 Hs1.
  apply attempts_bind. eapply (attempts_add_file temp m size boot_paths [json; loader; bytes] _ _ loader);
    [exact Hs1|do 2 (split; [fits_tac|]); fits_tac|split; [lia|]; by split; [apply Hin; auto|]|]. intros v2 m2 Hs2.
  apply attempts_bind. eapply (attempts_add_file temp m size boot_paths [json; loader; bytes] _ _ bytes);
    [exact Hs2|fits_tac|split; [lia|]; by split; [apply Hin; auto|]|].
  intros v3 m3 (b & Hm & Hl & Hmounted & Hpart & Hc). apply attempts_ret, HQ. exists b. do 3 (split; [done|]).
  split; [intros q n; rewrite <- boot_contents_added; apply Hpart|]. intros q. rewrite Hc. apply boot_contents_added.
Qed.

Lemma attempts_boot_volume (m : gmap (list Z) blob) Q :
  m !! kernel = Some bytes -> kernel <> temp ->
  (forall fat n, blob_len fat = n * 512 -> 2048 <= n < 2 ^ 50 -> boot_volume fat -> Q tt (<[temp := fat]> m)) ->
  attempts (create_fat_filesystem_image boot_builder boot_internal temp) m Q boot_refused.
Proof using Hsizes HF.
  intros Hk Hne HQ. unfold create_fat_filesystem_image. rewrite merge_boot_files. apply attempts_bind, attempts_ret.
  apply attempts_bind. eapply (attempts_runs _ _ _ (fun _ => False)); [apply runs_create|done].
  apply attempts_dropping. unfold create_fat_filesystem. apply attempts_bind. eapply (attempts_runs _ _ _ (fun _ => False)); [|done].
  apply runs_needed_size; [by rewrite lookup_insert_ne|].
  apply attempts_bind, attempts_expect. eapply (attempts_runs _ _ _ (fun _ => False)); [apply runs_create|done].
  rewrite insert_insert_eq. set (need := blob_len json + blob_len loader + blob_len bytes).
  destruct (fat_size_spec need) as (k & Hsize & Hk0); [lia|]. apply attempts_bind.
  eapply (attempts_runs _ _ _ (fun _ => False)); [eapply runs_checked; [exact Hsize|]|done].
  apply attempts_bind, attempts_expect. eapply (attempts_runs _ _ _ (fun _ => False)); [|done].
  eapply runs_with_file; [apply lookup_insert_eq|done|]. cbn [from_option]. rewrite insert_insert_eq.
  apply attempts_bind. eapply attempts_device; [apply lookup_insert_eq|].
  destruct (pf_format _ _) as [b1|] eqn:Hformat; cbn [mbind option_bind]; [|].
  2: { exists (k * 2 ^ 20). split; [done|]. eapply refuses_format; [| |exact Hformat]; [apply volume_label_length|done]. }
  rewrite insert_insert_eq.
  apply attempts_bind. eapply attempts_device; [apply lookup_insert_eq|].
  destruct (pf_open b1) as [[v b2]|] eqn:Hopen; [|].
  2: { exists (k * 2 ^ 20). split; [done|]. eapply refuses_open; [| |exact Hformat|exact Hopen]; [apply volume_label_length|done]. }
  rewrite insert_insert_eq.
  destruct (pf_format_spec _ _ _ _ _ (volume_label_length boot_files) Hformat Hopen) as (_ & Hl2 & Hm2 & Hc2).
  apply attempts_bind. eapply (attempts_weaken_stop _ _ _ (crate_refuses V F (k * 2 ^ 20) boot_paths [json; loader; bytes]));
    [|by exists (k * 2 ^ 20)].
  eapply (attempts_boot_files m (k * 2 ^ 20)); [done|done| |].
  { exists b2. do 3 (split; [done|]). split; [|done]. intros q n. unfold root_only. case_decide; [|done].
    intros [= <-]. subst q. split; [by apply list_elem_of_here|done]. }
  intros v1 m1 (b & -> & Hl & Hm & _ & Hc). eapply attempts_device; [apply lookup_insert_eq|]. rewrite insert_insert_eq.
  destruct (pf_drop_spec v1 b Hm) as (Hld & v3 & b3 & Hopen3 & Hm3 & Hc3).
  apply (HQ _ (k * 2048)); [lia|lia|]. exists v3, b3. split; [done|]. split; [done|]. intros q. by rewrite Hc3.
Qed.
End Boot.
