(* ===== verification/BuildScript.v ===== *)
(** * BuildScript: the whole build

    Models [main] of [build.rs] and [create_uefi_image] of
    [vendor/bootloader/src/lib.rs]: the data volume, the boot loader's image, and
    the final image made of both.  The boot loader's executable, the JSON text of its
    configuration and the environment Cargo provides are parameters. *)

From S2P Require Import Prelude Str Console Launcher HostFs HostTree ImageBuilder BootImage DataVolume DiskImage.
From stdpp Require Import gmap.
#[local] Open Scope Z_scope.

(** [fs::create_dir_all], of which only the failure is seen. *)
Definition create_dir_all (p : list Z) : Build unit := syscall (fun fs => (Ok tt, fs)).

Section Script.
Context {Tb : Type} `{GptCrate Tb} {V D F : Type} `{FatCrate V D F} {Vb Fb : Type} `{PathFat Vb Fb} {R : Type}.
Context (listing : directories) (var_os : str -> option (list Z)) (default_config : BootConfig R).
(** [serde_json::to_vec_pretty], [UEFI_BOOTLOADER] and the path of the temporary file. *)
Context (to_json : BootConfig R -> option blob) (loader : blob) (temp : list Z).

Definition set_boot_config (builder : DiskImageBuilder) (config : BootConfig R) : Build DiskImageBuilder :=
  json ← checked (to_json config);
  mret (set_file_source builder CONFIG_FILE_NAME (SourceData json)).

Definition create_uefi_image (builder : DiskImageBuilder) (image_path : list Z) : Build unit :=
  let internal_files := [(UEFI_BOOT_FILENAME, SourceBytes loader)] in
  _ ← create_fat_filesystem_image (V := Vb) (F := Fb) builder internal_files temp;
  _ ← dropping temp (create_gpt_disk temp image_path);
  remove_file temp.

Definition boot_config : BootConfig R := {|
  minimum_framebuffer_width := Some 1024;
  minimum_framebuffer_height := Some 768;
  frame_buffer_logging := false;
  serial_logging := false;
  rest := rest default_config;
|}.

Definition env_lines : list str := [
  lit "cargo:rerun-if-env-changed=CARGO_FEATURE_FAULT_TEST_DOUBLE";
  lit "cargo:rerun-if-env-changed=CARGO_FEATURE_FAULT_TEST_GPF";
  lit "cargo:rerun-if-env-changed=CARGO_FEATURE_FAULT_TEST_PAGE"].

Definition image_lines (final_image : list Z) : list str := [
  lit "cargo:rustc-env=SOL_OS_IMAGE=" ++ from_utf8_lossy final_image;
  lit "cargo:warning=bootable image: " ++ from_utf8_lossy final_image].

Definition build_main (fuel : nat) : Build unit :=
  _ ← println_line (lit "cargo:rerun-if-env-changed=CARGO_FEATURE_FAULT_TEST_DOUBLE");
  _ ← println_line (lit "cargo:rerun-if-env-changed=CARGO_FEATURE_FAULT_TEST_GPF");
  _ ← println_line (lit "cargo:rerun-if-env-changed=CARGO_FEATURE_FAULT_TEST_PAGE");
  kernel ← checked (var_os (lit "CARGO_BIN_FILE_KERNEL_kernel"));
  out_dir ← checked (var_os (lit "OUT_DIR"));
  let base_image := Launcher.join out_dir (lit "bootloader-base.img") in
  let data_volume := Launcher.join out_dir (lit "sol-data.fat") in
  manifest_dir ← checked (var_os (lit "CARGO_MANIFEST_DIR"));
  let data_files := Launcher.join manifest_dir (lit "disk_files") in
  _ ← expect (watch_host_tree listing fuel data_files);
  _ ← expect (build_data_volume listing fuel data_volume data_files);
  let builder := builder_new kernel in
  builder ← set_boot_config builder boot_config;
  _ ← expect (create_uefi_image builder base_image);
  let build_dir := Launcher.join manifest_dir (lit "build") in
  _ ← expect (create_dir_all build_dir);
  let final_image := Launcher.join build_dir (lit "sol-os.img") in
  _ ← expect (assemble_two_partition_image base_image final_image data_volume);
  _ ← println_line (lit "cargo:rustc-env=SOL_OS_IMAGE=" ++ from_utf8_lossy final_image);
  println_line (lit "cargo:warning=bootable image: " ++ from_utf8_lossy final_image).
End Script.

(** ** Running to the end or stopping the build

    Like [prints], for a computation that turns errors into panics: it panics only
    after an injected fault or when [W] holds. *)
Definition delivers {A : Type} (c : Build A) (m : gmap (list Z) blob)
    (Q : A -> gmap (list Z) blob -> list str -> Prop) (W : Prop) : Prop :=
  forall fs, files fs = m ->
    match c fs with
    | (Ok a, fs') => faults fs' = faults fs /\ exists out, stdout fs' = stdout fs ++ out /\ Q a (files fs') out
    | (Err _, _) => False
    | (Panic, _) => (exists n code, faults fs n = Some code) \/ W
    end.

Section Rules.
Context {A B : Type}.
Implicit Types (m : gmap (list Z) blob) (W : Prop).

Lemma delivers_bind (c : Build A) (k : A -> Build B) m Q W :
  delivers c m (fun a m' out => delivers (k a) m' (fun b m'' out' => Q b m'' (out ++ out')) W) W ->
  delivers (c ≫= k) m Q W.
Proof.
  intros Hc fs Hfs. specialize (Hc fs Hfs). unfold mbind, Build_bind.
  destruct (c fs) as [[a|e|] fs']; [|done..]. destruct Hc as (Hf & out & Hout & Hk). specialize (Hk fs' eq_refl).
  destruct (k a fs') as [[b|e|] fs'']; [|done|by rewrite Hf in Hk].
  rewrite Hf in Hk. destruct Hk as (Hf' & out' & Hout' & HQ). split; [done|]. exists (out ++ out').
  by rewrite Hout', Hout, app_assoc.
Qed.

Lemma delivers_expect (c : Build A) m Q (E : IoError -> Prop) (Q' : A -> _ -> _ -> Prop) W :
  prints c m Q E -> (forall a m' out, Q a m' out -> Q' a m' out) -> (forall e, E e -> W) ->
  delivers (expect c) m Q' W.
Proof.
  intros Hc HQ HE fs Hfs. specialize (Hc fs Hfs). unfold expect. destruct (c fs) as [[a|e|] fs']; [| |done].
  - destruct Hc as (Hf & out & Hout & Ha). eauto 6.
  - destruct e; try (right; by eapply HE). left. destruct Hc as [n Hn]. eauto.
Qed.

Lemma delivers_runs (c : Build A) m Q (E : IoError -> Prop) (Q' : A -> _ -> _ -> Prop) W :
  runs c m Q E -> (forall a m', Q a m' -> Q' a m' []) -> (forall e, E e -> W) ->
  delivers (expect c) m Q' W.
Proof. intros Hc HQ HE. eapply delivers_expect; [exact Hc| |exact HE]. intros a m' out [-> Ha]. auto. Qed.

Lemma delivers_checked (o : option A) (a : A) m Q W : o = Some a -> Q a m [] -> delivers (checked o) m Q W.
Proof. intros -> HQ fs <-. split; [done|]. exists []. by rewrite app_nil_r. Qed.
End Rules.

Lemma delivers_ret {A : Type} (a : A) (m : gmap (list Z) blob) Q (W : Prop) : Q a m [] -> delivers (mret a) m Q W.
Proof. intros HQ fs <-. split; [done|]. exists []. by rewrite app_nil_r. Qed.

Lemma delivers_attempts {A : Type} (c : Build A) m Q (Q' : A -> _ -> _ -> Prop) (W W' : Prop) :
  attempts c m Q W -> (forall a m', Q a m' -> Q' a m' []) -> (W -> W') -> delivers (expect c) m Q' W'.
Proof.
  intros Hc HQ HW fs Hfs. specialize (Hc fs Hfs). unfold expect. destruct (c fs) as [[a|e|] fs'].
  - destruct Hc as (Hf & Hout & Ha). split; [done|]. exists []. rewrite app_nil_r. auto.
  - destruct Hc as [?|?]; auto.
  - destruct Hc as [?|?]; auto.
Qed.

Lemma delivers_line (line : str) (m : gmap (list Z) blob) Q (W : Prop) :
  Q tt m [line] -> delivers (println_line line) m Q W.
Proof. intros HQ fs <-. split; [done|]. by exists [line]. Qed.

(** ** The build is correct *)

Section Correct.
Context {Tb : Type} `{GptSpec Tb} {V D F : Type} `{FatSpec V D F} {Vb Fb : Type} `{PathFatSpec Vb Fb} {R : Type}.
Context (listing : directories) (var_os : str -> option (list Z)) (default_config : BootConfig R).
Context (to_json : BootConfig R -> option blob) (loader : blob) (temp : list Z).

Lemma runs_remove_file (p : list Z) (m : gmap (list Z) blob) Q (E : IoError -> Prop) :
  Q tt (delete p m) -> runs (remove_file p) m Q E.
Proof.
  intros HQ fs <-. unfold remove_file, syscall.
  destruct (faults fs (calls fs)) as [e|] eqn:Hfault; [by exists (calls fs)|].
  split; [done|]. exists []. by rewrite app_nil_r.
Qed.

Lemma runs_create_dir_all (p : list Z) (m : gmap (list Z) blob) Q (E : IoError -> Prop) :
  Q tt m -> runs (create_dir_all p) m Q E.
Proof.
  intros HQ fs <-. unfold create_dir_all, syscall.
  destruct (faults fs (calls fs)) as [e|] eqn:Hfault; [by exists (calls fs)|].
  split; [done|]. exists []. by rewrite app_nil_r.
Qed.

Lemma attempts_create_uefi_image (kernel image_path : list Z) (json bytes : blob) (m : gmap (list Z) blob) Q :
  0 <= blob_len json < 2 ^ 40 /\ 0 <= blob_len loader < 2 ^ 40 /\ 0 <= blob_len bytes < 2 ^ 40 ->
  m !! kernel = Some bytes -> kernel <> temp -> temp <> image_path ->
  (forall fat n image, boot_volume (V := Vb) (F := Fb) json loader bytes fat -> blob_len fat = n * 512 ->
     efi_partition image (efi_entry n) -> blob_holds image (34 * 512) fat ->
     Q tt (delete temp (<[image_path := image]> (<[temp := fat]> m)))) ->
  attempts (create_uefi_image (Vb := Vb) (Fb := Fb) loader temp (boot_builder kernel json) image_path) m Q (boot_refused (V := Vb) (F := Fb) json loader bytes).
Proof.
  intros Hsizes Hk Hkt Hne HQ. unfold create_uefi_image. apply attempts_bind.
  eapply (attempts_boot_volume kernel temp json loader bytes); [done|done|done|]. intros fat n Hlen Hn Hvolume.
  apply attempts_bind, attempts_dropping. eapply (attempts_runs _ _ _ (fun _ => False)); [|done].
  eapply runs_create_gpt_disk; [apply lookup_insert_eq|done|exact Hlen|done|].
  intros image (Hefi & _ & Hholds). eapply (attempts_runs _ _ _ (fun _ => False)); [|done]. apply runs_remove_file. by apply (HQ fat n image).
Qed.

(** The boot partition of the final image holds the boot loader's file system. *)
Lemma two_partitions_boot (image base fat volume : blob) (n : Z) :
  blob_holds base (34 * 512) fat -> blob_len fat = n * 512 ->
  two_partitions image (efi_bytes base (efi_entry n)) volume (blocks (efi_entry n)) ->
  two_partitions image fat volume n.
Proof.
  intros Hbase Hlen. replace (blocks (efi_entry n)) with n by (unfold blocks; cbn; lia).
  intros (Ht & Hl & Hboot & Hvol). split; [done|]. split; [done|]. split; [|done]. intros x Hx.
  rewrite (Hboot x); [exact (Hbase x Hx)|]. unfold efi_bytes, blocks. cbn. lia.
Qed.

Section Main.
Context (kernel out_dir manifest_dir : list Z) (bytes : blob) (n : node).

Definition base_path : list Z := Launcher.join out_dir (lit "bootloader-base.img").
Definition volume_path : list Z := Launcher.join out_dir (lit "sol-data.fat").
Definition tree_path : list Z := Launcher.join manifest_dir (lit "disk_files").
Definition image_path : list Z := Launcher.join (Launcher.join manifest_dir (lit "build")) (lit "sol-os.img").

(** The files of the boot volume are not absurdly large. *)
Definition boot_sizes : Prop :=
  0 <= blob_len loader < 2 ^ 40 /\ 0 <= blob_len bytes < 2 ^ 40 /\
  forall json, to_json (boot_config default_config) = Some json -> 0 <= blob_len json < 2 ^ 40.

(** Cargo's variables, the kernel and the host tree. *)
Definition build_inputs (m : gmap (list Z) blob) : Prop :=
  var_os (lit "CARGO_BIN_FILE_KERNEL_kernel") = Some kernel /\ var_os (lit "OUT_DIR") = Some out_dir /\
  var_os (lit "CARGO_MANIFEST_DIR") = Some manifest_dir /\ m !! kernel = Some bytes /\ boot_sizes /\
  kind n = IsDir /\ listed listing tree_path n /\ stored m volume_path tree_path n /\
  NoDup [kernel; base_path; volume_path; image_path; temp].

(** The files of a finished build. *)
Definition build_outputs (m m' : gmap (list Z) blob) : Prop :=
  exists volume image fat size json,
    m' !! volume_path = Some volume /\ volume_shows volume n /\
    to_json (boot_config default_config) = Some json /\ boot_volume (V := Vb) (F := Fb) json loader bytes fat /\
    m' !! image_path = Some image /\ two_partitions image fat volume size /\
    forall p, p ∉ [base_path; volume_path; image_path; temp] -> m' !! p = m !! p.

(** What can stop it, the operating system aside. *)
Definition build_blocked : Prop :=
  128000 < cost n \/ to_json (boot_config default_config) = None \/
  exists json, to_json (boot_config default_config) = Some json /\ boot_refused (V := Vb) (F := Fb) json loader bytes.

Lemma paths_apart :
  NoDup [kernel; base_path; volume_path; image_path; temp] ->
  volume_path <> kernel /\ base_path <> volume_path /\ image_path <> volume_path /\ temp <> volume_path /\
  temp <> base_path /\ kernel <> temp.
Proof.
  rewrite !NoDup_cons, !not_elem_of_cons. intros Hnd. destruct_and! Hnd. split_and!; done || by apply not_eq_sym.
Qed.

Lemma build_outputs_intro (m : gmap (list Z) blob) (volume fat0 base image fat json : blob) (size : Z) :
  NoDup [kernel; base_path; volume_path; image_path; temp] -> volume_shows volume n ->
  to_json (boot_config default_config) = Some json -> boot_volume (V := Vb) (F := Fb) json loader bytes fat -> two_partitions image fat volume size ->
  build_outputs m (<[image_path := image]> (delete temp (<[base_path := base]> (<[temp := fat0]> (<[volume_path := volume]> m))))).
Proof.
  intros (_ & Hb & Hi & Ht & _)%paths_apart Hshows Hjson Hfat Htwo.
  exists volume, image, fat, size, json. split; [|split_and!; try done].
  - by rewrite lookup_insert_ne, lookup_delete_ne, 2!lookup_insert_ne, lookup_insert_eq.
  - apply lookup_insert_eq.
  - intros p Hp. rewrite !not_elem_of_cons in Hp. destruct_and! Hp.
    by rewrite lookup_insert_ne, lookup_delete_ne, !lookup_insert_ne by congruence.
Qed.

Lemma build_delivers (fuel : nat) (m : gmap (list Z) blob) :
  build_inputs m -> (height n <= fuel)%nat ->
  delivers (build_main (Vb := Vb) (Fb := Fb) listing var_os default_config to_json loader temp fuel) m
    (fun _ m' out => build_outputs m m' /\ out = env_lines ++ watch_lines tree_path n ++ image_lines image_path)
    build_blocked.
Proof.
  intros (Hvk & Hvo & Hvm & Hk & (Hsl & Hsb & Hsj) & Hdir & HL & Hs & Hnd) Hfuel. unfold build_main.
  pose proof (paths_apart Hnd) as (Hvk' & Hbv & Hiv & Htv & Htb & Hkt).
  do 3 apply delivers_bind, delivers_line.
  apply delivers_bind. eapply delivers_checked; [exact Hvk|]. apply delivers_bind. eapply delivers_checked; [exact Hvo|].
  apply delivers_bind. eapply delivers_checked; [exact Hvm|].
  apply delivers_bind. eapply delivers_expect; [by apply (prints_watch listing n fuel tree_path m (fun _ => False))| |done].
  intros [] m0 out [-> ->].
  apply delivers_bind. eapply delivers_runs;
    [by apply (runs_build_data_volume listing m volume_path fuel tree_path n)| |by intros e [_ ?]; left].
  intros [] m1 (volume & -> & Hshows).
  apply delivers_bind. unfold set_boot_config. destruct (to_json (boot_config default_config)) as [json|] eqn:Hjson.
  2: { intros fs _. right. right. by left. }
  specialize (Hsj json eq_refl). apply delivers_bind. eapply delivers_checked; [done|].
  apply delivers_ret. apply delivers_bind.
  eapply (delivers_attempts _ _ (fun _ m' => exists fat0 fat size base,
    m' = delete temp (<[base_path := base]> (<[temp := fat0]> (<[volume_path := volume]> m))) /\
    boot_volume (V := Vb) (F := Fb) json loader bytes fat /\ blob_len fat = size * 512 /\
    efi_partition base (efi_entry size) /\ blob_holds base (34 * 512) fat)).
  { apply (attempts_create_uefi_image kernel base_path json bytes); [done|by rewrite lookup_insert_ne|done|done|].
    intros fat size base Hfat Hlen Hefi Hholds. by eexists fat, fat, size, base. }
  2: { intros Hr. right; right. by exists json. }
  intros [] m2 (fat0 & fat & size & base & -> & Hfat & Hlen & Hefi & Hholds).
  apply delivers_bind. eapply (delivers_runs _ _ (fun _ m' => m' = _) (fun _ => False)); [by apply runs_create_dir_all| |done].
  intros [] m3 ->. apply delivers_bind.
  eapply delivers_runs; [apply (runs_assemble base_path image_path volume_path base volume (efi_entry size))| |].
  - by rewrite lookup_delete_ne, lookup_insert_eq.
  - done.
  - by rewrite lookup_delete_ne, 2!lookup_insert_ne, lookup_insert_eq.
  - done.
  - intros [] m4 (_ & image & -> & Htwo). apply delivers_bind, delivers_line, delivers_line.
    split; [|cbn [app]; by rewrite <- ?app_assoc].
    eapply build_outputs_intro; [done|done|done|done|]. by eapply two_partitions_boot.
  - intros e [Hbad _]. by destruct Hshows.
Qed.

(** C14: What the build script makes.  Given Cargo's variables, the kernel and a host
    tree with 8.3 names, the script either stops the build, which happens only after
    an error of the operating system, for a tree that does not fit the volume or
    when the configuration or the boot loader's file system cannot be made; or it
    leaves the data volume with exactly the host tree in it and the final image.  The
    image's two partitions hold that volume and the boot loader's file system, in
    which the loader, the configuration and the kernel are, and nothing else.  The
    script has then printed the dependencies of the build and where the image is, and
    has changed no other file. *)
Theorem build_makes_image (fuel : nat) (fs : filesystem) :
  build_inputs (files fs) -> (height n <= fuel)%nat ->
  match build_main (Vb := Vb) (Fb := Fb) listing var_os default_config to_json loader temp fuel fs with
  | (Ok _, fs') => build_outputs (files fs) (files fs') /\
      stdout fs' = stdout fs ++ env_lines ++ watch_lines tree_path n ++ image_lines image_path
  | (Panic, _) => (exists k code, faults fs k = Some code) \/ build_blocked
  | (Err _, _) => False
  end.
Proof.
  intros Hin Hfuel. pose proof (build_delivers fuel (files fs) Hin Hfuel fs eq_refl) as Hr.
  destruct (build_main _ _ _ _ _ _ _ fs) as [[a|e|] fs']; [|done..].
  destruct Hr as (_ & out & Hout & Ho & ->). done.
Qed.
End Main.
End Correct.
