(* ===== verification/BuildDemo.v ===== *)
(** * BuildDemo: the build script run

    [build_makes_image] at the directory of [DataDemo], with the crates of
    [ImageDemo] and [DataDemo]. *)

From S2P Require Import Prelude Str Console Launcher HostFs HostTree ImageBuilder BootImage DataVolume DiskImage BuildScript.
From S2P Require Import ImageDemo DataDemo.
From stdpp Require Import gmap.
#[local] Open Scope Z_scope.

Definition demo_vars (name : str) : option (list Z) :=
  if decide (name = lit "CARGO_BIN_FILE_KERNEL_kernel") then Some (lit "kernel")
  else if decide (name = lit "OUT_DIR") then Some (lit "out")
  else if decide (name = lit "CARGO_MANIFEST_DIR") then Some []
  else None.

Definition demo_config : BootConfig unit := {|
  minimum_framebuffer_width := None; minimum_framebuffer_height := None;
  frame_buffer_logging := true; serial_logging := true; rest := tt;
|}.

(** ** The boot volume's file system

    Kept like the one of [DataDemo]. *)

Definition path_put (path : list str) (n : fat_node) (v : demo_fat) : demo_fat := (<[path := n]> v.1, v.2).

#[export] Instance demo_path_fat : PathFat demo_fat (list str) := {
  pf_format _ b := Some (demo_store ({[ [] := FatDirectory ]}, 0) b);
  pf_open := demo_mount;
  pf_create_dir v path b := Some (path_put (path_parts path) FatDirectory v, b);
  pf_create_file v path b := Some (path_parts path, path_put (path_parts path) (FatFile []) v, b);
  pf_truncate v f b := Some (f, path_put f (FatFile []) v, b);
  pf_write v f data b := Some (f, path_put f (FatFile (blob_bytes data)) v, b);
  pf_close v f b := (v, b);
  pf_drop v b := demo_store v b;
}.

#[export] Instance demo_path_view : PathView demo_fat (list str) := {
  pf_mounted _ _ := True;
  pf_contents v _ q := v.1 !! q;
  pf_at f := f;
}.

Lemma path_put_spec (path : list str) (n : fat_node) (v : demo_fat) (b : blob) : puts v b path n (path_put path n v) b.
Proof.
  split; [done|]. split; [done|]. intros q. cbn.
  case_decide as Hq; [subst q; apply lookup_insert_eq|by apply lookup_insert_ne].
Qed.

#[export] Program Instance demo_path_fat_spec : PathFatSpec demo_fat (list str).
Next Obligation.
  intros label b b1 v b2 _ [= <-]. unfold pf_open, demo_path_fat. rewrite demo_mount_store. intros [= <- <-].
  do 3 (split; [done|]). intros q. cbn. case_decide as Hq; [by subst q|by rewrite lookup_singleton_ne].
Qed.
Next Obligation. intros v path b v' b' _ [= <- <-]. apply path_put_spec. Qed.
Next Obligation. intros v path b f v' b' _ [= <- <- <-]. split; [done|apply path_put_spec]. Qed.
Next Obligation. intros v f b _ _. do 3 eexists. split; [done|]. split; [done|apply path_put_spec]. Qed.
Next Obligation. intros v f data b f' v' b' _ _ _ [= <- <- <-]. split; [done|apply path_put_spec]. Qed.
Next Obligation.
  intros v f b n v' b' _ Hn [= <- <-]. split; [done|]. split; [done|]. intros q. by case_decide as Hq; [subst q|].
Qed.
Next Obligation.
  intros v b _. split; [done|]. do 2 eexists. split; [apply demo_mount_store|]. done.
Qed.

(** It refuses nothing. *)
Lemma demo_never_refuses (json loader bytes : blob) : ~ boot_refused (V := demo_fat) (F := list str) json loader bytes.
Proof.
  intros (size & _ & [label b _ _ Hf|label b b1 _ _ Hf Ho|v path b _ Hd|v path b _ Hf|v f data b _ _ _ Hw]); [done| |done..].
  injection Hf as <-. unfold pf_open, demo_path_fat in Ho. by rewrite demo_mount_store in Ho.
Qed.

Definition demo_json (config : BootConfig unit) : option blob := Some (text_blob (lit "{}")).
Definition demo_loader : blob := text_blob (lit "the loader").

Definition script_host : filesystem := {|
  files := <[lit "kernel" := text_blob (lit "the kernel")]> (files data_host);
  stdout := []; calls := 0; faults := fun _ => None;
|}.

Definition demo_build : outcome IoError unit * filesystem :=
  build_main (Tb := demo_table) (V := demo_fat) (D := list str) (F := list str) (Vb := demo_fat) (Fb := list str)
    demo_listing demo_vars demo_config demo_json demo_loader (lit "/tmp/fat") 2 script_host.

Lemma demo_inputs :
  build_inputs demo_listing demo_vars demo_config demo_json demo_loader (lit "/tmp/fat") (lit "kernel") (lit "out") []
    (text_blob (lit "the kernel")) demo_tree (files script_host).
Proof.
  do 4 (split; [done|]). split; [split; [by cbn|]; split; [by cbn|]; by intros json [= <-]; cbn|].
  split; [done|]. split; [exact demo_listed|].
  split; [cbn [stored demo_tree foldr]; by split_and!|]. by apply (bool_decide_unpack _).
Qed.

(** The build ends, the image holds the volume and the lines name it. *)
Lemma build_makes_image_witness :
  demo_build.1 = Ok tt /\
  build_outputs (Vb := demo_fat) (Fb := list str) demo_config demo_json demo_loader (lit "/tmp/fat") (lit "out") []
    (text_blob (lit "the kernel")) demo_tree (files script_host) (files demo_build.2) /\
  last (stdout demo_build.2) = Some (lit "cargo:warning=bootable image: build/sol-os.img").
Proof.
  pose proof (build_makes_image (Tb := demo_table) (V := demo_fat) (D := list str) (F := list str) (Vb := demo_fat)
                (Fb := list str) demo_listing demo_vars demo_config demo_json demo_loader (lit "/tmp/fat") (lit "kernel")
                (lit "out") [] (text_blob (lit "the kernel")) demo_tree 2 script_host demo_inputs ltac:(cbn; lia)) as Hr.
  unfold demo_build. destruct (build_main _ _ _ _ _ _ _ script_host) as [[[]|e|] fs'].
  - destruct Hr as [Hout Hlines]. split; [reflexivity|]. split; [exact Hout|]. cbn [snd]. rewrite Hlines.
    vm_compute. reflexivity.
  - destruct Hr.
  - exfalso. destruct Hr as [(k & code & Hk)|[Hc|[Hf|(json & _ & Hr)]]];
      [discriminate Hk|vm_compute in Hc; discriminate Hc|discriminate Hf|by apply demo_never_refuses in Hr].
Defined.
