(* ===== verification/BootLoader.v ===== *)
(** * BootLoader: from the firmware to the kernel's entry

    Models [vendor/bootloader/uefi/src/main.rs] from [main_inner] to the jump to the
    kernel, with the data partition of [Loader.v] as one of its steps, and
    [memory_descriptor.rs]; [LoaderHandover.v] states what it achieves.  UEFI's boot services, the ELF and JSON parsers and the
    crate that switches to the kernel are classes.  The loader is built with the
    release profile, in which arithmetic wraps. *)

From S2P Require Import Prelude VirtAddr Storage Str Console Framebuffer Memory Loader DiskImage.
#[local] Open Scope Z_scope.

(** ** Memory descriptors *)

(** [MemoryType], by its number. *)
Definition LOADER_CODE : Z := 1.
Definition LOADER_DATA : Z := 2.
Definition BOOT_SERVICES_CODE : Z := 3.
Definition BOOT_SERVICES_DATA : Z := 4.
Definition RUNTIME_SERVICES_CODE : Z := 5.
Definition RUNTIME_SERVICES_DATA : Z := 6.
Definition CONVENTIONAL : Z := 7.

Record UefiMemoryDescriptor : Type := { ty : Z; phys_start : Z; page_count : Z }.

(** [PhysAddr::new] panics on an address of more than 52 bits. *)
Definition phys_new (address : Z) : option Z := if address <? 2 ^ 52 then Some address else None.

Definition descriptor_start (d : UefiMemoryDescriptor) : option Z := phys_new (phys_start d).
Definition descriptor_len (d : UefiMemoryDescriptor) : Z := wrap 64 (page_count d * PAGE_SIZE).

Definition descriptor_kind (d : UefiMemoryDescriptor) : MemoryRegionKind :=
  if ty d =? CONVENTIONAL then Usable else UnknownUefi (ty d).

Definition usable_after_bootloader_exit (d : UefiMemoryDescriptor) : bool :=
  if ty d =? CONVENTIONAL then true
  else if (ty d =? LOADER_CODE) || (ty d =? LOADER_DATA) || (ty d =? BOOT_SERVICES_CODE) || (ty d =? BOOT_SERVICES_DATA) then true
  else if (ty d =? RUNTIME_SERVICES_CODE) || (ty d =? RUNTIME_SERVICES_DATA) then false
  else false.

(** ** Firmware and crates *)

Inductive Protocol : Type := SimpleFileSystem | BaseCode.
Inductive UefiFileType : Type := RegularFile | Dir.
Inductive GopPixelFormat : Type := GopRgb | GopBgr | GopBitmask | GopBltOnly.

Record ModeInfo : Type := { resolution : Z * Z; gop_format : GopPixelFormat; gop_stride : Z }.

(** Boot services besides those of [Firmware]; [None] is an error status.  A read
    returns the bytes it puts into a buffer of the given size. *)
Class BootServices (U : Type) : Type := {
  loaded_image_device : U -> option Z;
  open_device_path : U -> Z -> option Z;
  locate_device_path : U -> Protocol -> Z -> option Z;
  open_exclusive : U -> Protocol -> Z -> bool;
  open_volume : U -> Z -> option Z;
  open_in_root : U -> Z -> str -> option Z;
  into_type : U -> Z -> option UefiFileType;
  file_size : U -> Z -> option Z;
  read_regular : U -> Z -> Z -> option (list Z);
  allocate_loader_pages : U -> Z -> option (Z * U);
  dhcp_ack_received : U -> Z -> bool;
  bootp_si_addr : U -> Z -> Z;
  tftp_get_file_size : U -> Z -> Z -> str -> option Z;
  tftp_read_file : U -> Z -> Z -> str -> Z -> option (list Z);
  graphics_output : U -> option Z;
  open_graphics : U -> Z -> bool;
  modes : U -> Z -> list ModeInfo;
  set_mode : U -> Z -> ModeInfo -> option U;
  current_mode_info : U -> Z -> ModeInfo;
  gop_frame_buffer : U -> Z -> Z * Z;
  exit_boot_services : U -> list UefiMemoryDescriptor * list (Z * Z);
}.

(** [Kernel::parse] with the configuration found in the kernel, and the JSON parser. *)
Class LoaderFiles (K R : Type) : Type := {
  parse_kernel : list Z -> option K;
  kernel_minimum_height : K -> option Z;
  kernel_minimum_width : K -> option Z;
  parse_config : list Z -> option (BootConfig R);
  config_default : BootConfig R;
}.

(** [MemoryMap::sort] and [LegacyFrameAllocator]. *)
Class LoaderFrames (F : Type) : Type := {
  sort_memory_map : list UefiMemoryDescriptor -> list UefiMemoryDescriptor;
  frames_of : list UefiMemoryDescriptor -> F;
  max_phys_addr : F -> Z;
  take_frame : F -> option (Z * F);
}.

(** A computation on the firmware's state and memory; [None] is a panic. *)
Definition Efi (U A : Type) : Type := U * (Z -> Z) -> option (A * (U * (Z -> Z))).

#[export] Instance Efi_ret {U : Type} : MRet (Efi U) := fun _ a s => Some (a, s).
#[export] Instance Efi_bind {U : Type} : MBind (Efi U) := fun _ _ k c s => '(a, s) ← c s; k a s.

(** [unwrap] and [expect] of what the state determines. *)
Definition unwrap {U A : Type} (f : U -> option A) : Efi U A := fun s => a ← f s.1; Some (a, s).
Definition ask {U A : Type} (f : U -> A) : Efi U A := fun s => Some (f s.1, s).
Definition lift {U A : Type} (o : option A) : Efi U A := unwrap (fun _ => o).
Definition panics {U A : Type} : Efi U A := fun _ => None.

Definition change {U : Type} (f : U -> option U) : Efi U unit := fun s => u ← f s.1; Some (tt, (u, s.2)).
Definition store {U : Type} (address : Z) (bytes : list Z) : Efi U unit := fun s => Some (tt, (s.1, store_bytes s.2 address bytes)).

Definition memory_now {U : Type} : Efi U (Z -> Z) := fun s => Some (s.2, s).

(** [ptr::write_bytes(address, 0, size)] *)
Definition zero_bytes (m : Z -> Z) (address size : Z) : Z -> Z :=
  fun x => if (address <=? x) && (x <? address + size) then 0 else m x.

Definition clear {U : Type} (address size : Z) : Efi U unit := fun s => Some (tt, (s.1, zero_bytes s.2 address size)).

(** A computation on memory alone. *)
Definition on_memory {U A : Type} (f : (Z -> Z) -> option (A * (Z -> Z))) : Efi U A := fun s =>
  '(a, m) ← f s.2; Some (a, (s.1, m)).

(** The bytes of a slice. *)
Definition slice_bytes (m : Z -> Z) (slice : Z * Z) : list Z := map m (seqZ slice.1 slice.2).

(** [if let Some(x) = o { k } else { return None }] *)
Definition or_none {U A B : Type} (o : Efi U (option A)) (k : A -> Efi U (option B)) : Efi U (option B) :=
  a ← o; match a with Some a => k a | None => mret None end.

(** [CStr16::from_str_with_buf] with a buffer of 256. *)
Definition cstr16 (s : str) : option str :=
  if (length s <? 256)%nat && forallb (fun c => (0 <? c) && (c <? 2 ^ 16)) s then Some s else None.

(** [CStr8::from_bytes_with_nul] *)
Definition cstr8 (s : str) : option str :=
  match rev s with
  | 0 :: r => if forallb (fun c => negb (c =? 0)) r then Some (rev r) else None
  | _ => None
  end.

(** ** Loading files *)

Section Files.
Context {U : Type} `{BootServices U}.

Definition open_device_path_protocol : Efi U (option Z) :=
  or_none (ask loaded_image_device) (fun device_handle => ask (fun u => open_device_path u device_handle)).

Definition locate_and_open_protocol (p : Protocol) : Efi U (option Z) :=
  or_none open_device_path_protocol (fun device_path =>
  or_none (ask (fun u => locate_device_path u p device_path)) (fun handle =>
  opened ← ask (fun u => open_exclusive u p handle);
  mret (if opened : bool then Some handle else None))).

(** [((size - 1) / 4096) + 1] in 64 bits. *)
Definition pages_for (size : Z) : Z := wrap 64 (wrap 64 (size - 1) / 4096 + 1).

Definition load_pages (size : Z) : Efi U Z := fun s =>
  '(ptr, u) ← allocate_loader_pages s.1 (pages_for size); Some (ptr, (u, s.2)).

Definition load_file_from_disk (name : str) : Efi U (option (Z * Z)) :=
  or_none (locate_and_open_protocol SimpleFileSystem) (fun file_system =>
  root ← unwrap (fun u => open_volume u file_system);
  if (256 <=? length name)%nat then panics else
  filename ← lift (cstr16 (trim_end_matches (fun c => c =? 0) name));
  or_none (ask (fun u => open_in_root u root filename)) (fun file =>
  type ← unwrap (fun u => into_type u file);
  match type with
  | Dir => panics
  | RegularFile =>
      size ← unwrap (fun u => file_size u file);
      file_ptr ← load_pages size;
      _ ← clear file_ptr size;
      bytes ← unwrap (fun u => read_regular u file size);
      _ ← store file_ptr bytes;
      mret (Some (file_ptr, size))
  end)).

Definition load_file_from_tftp_boot_server (name : str) : Efi U (option (Z * Z)) :=
  or_none (locate_and_open_protocol BaseCode) (fun base_code =>
  acknowledged ← ask (fun u => dhcp_ack_received u base_code);
  if negb acknowledged then panics else
  server_ip ← ask (fun u => bootp_si_addr u base_code);
  if (256 <=? length name)%nat then panics else
  filename ← lift (cstr8 name);
  or_none (ask (fun u => tftp_get_file_size u base_code server_ip filename)) (fun kernel_size =>
  ptr ← load_pages kernel_size;
  bytes ← unwrap (fun u => tftp_read_file u base_code server_ip filename kernel_size);
  _ ← store ptr bytes;
  mret (Some (ptr, kernel_size)))).

Definition load_file_from_boot_method (filename : str) (boot_mode : BootMode) : Efi U (option (Z * Z)) :=
  match boot_mode with
  | Disk => load_file_from_disk filename
  | Tftp => load_file_from_tftp_boot_server filename
  end.

Definition load_config_file (boot_mode : BootMode) : Efi U (option (Z * Z)) :=
  load_file_from_boot_method (lit "boot.json" ++ [0]) boot_mode.

Context {K R : Type} `{LoaderFiles K R}.

(** The bytes of a slice that was loaded. *)
Definition contents_of (slice : Z * Z) : Efi U (list Z) := fun s => Some (slice_bytes s.2 slice, s).

Definition load_kernel (boot_mode : BootMode) : Efi U (option K) :=
  or_none (load_file_from_boot_method (lit "kernel-x86_64" ++ [0]) boot_mode) (fun kernel_slice =>
  bytes ← contents_of kernel_slice;
  kernel ← lift (parse_kernel bytes);
  mret (Some kernel)).

(** ** The screen *)

Definition choose_mode (minimum_height minimum_width : option Z) (modes : list ModeInfo) : option ModeInfo :=
  match minimum_height, minimum_width with
  | Some height, Some width =>
      last (List.filter (fun m => (height <=? (resolution m).2) && (width <=? (resolution m).1)) modes)
  | Some height, None => last (List.filter (fun m => height <=? (resolution m).2) modes)
  | None, Some width => last (List.filter (fun m => width <=? (resolution m).1) modes)
  | None, None => None
  end.

Record RawFrameBufferInfo : Type := { fb_addr : Z; byte_len : Z; fb_info : FrameBufferInfo }.

Definition pixel_format_of (f : GopPixelFormat) : option PixelFormat :=
  match f with
  | GopRgb => Some Rgb
  | GopBgr => Some Bgr
  | GopBitmask | GopBltOnly => None
  end.

(** The logger itself, which is not part of the repository, shows nothing here. *)
Definition init_logger (config : BootConfig R) : Efi U (option RawFrameBufferInfo) :=
  or_none (ask graphics_output) (fun gop =>
  opened ← ask (fun u => open_graphics u gop);
  if negb opened then mret None else
  all_modes ← ask (fun u => modes u gop);
  let mode := choose_mode (minimum_framebuffer_height config) (minimum_framebuffer_width config) all_modes in
  _ ← match mode with Some mode => change (fun u => set_mode u gop mode) | None => mret tt end;
  mode_info ← ask (fun u => current_mode_info u gop);
  '(addr, size) ← ask (fun u => gop_frame_buffer u gop);
  format ← lift (pixel_format_of (gop_format mode_info));
  addr ← lift (phys_new addr);
  mret (Some {| fb_addr := addr; byte_len := size;
    fb_info := {| width := Z.to_nat (resolution mode_info).1; height := Z.to_nat (resolution mode_info).2;
                  pixel_format := format; bytes_per_pixel := 4; stride := Z.to_nat (gop_stride mode_info) |} |})).

(** ** Page tables *)

(** [VirtAddr::p4_index]: bits 39 to 47. *)
Definition p4_index (address : Z) : Z := address / 2 ^ 39 mod 512.

(** A level-4 table has 512 entries of eight bytes, in memory. *)
Definition TABLE_BYTES : Z := 4096.

(** [new_table[p4] = old_table[p4].clone()], for the tables at two addresses. *)
Definition copy_entry (old_table new_table p4 : Z) (m : Z -> Z) : Z -> Z :=
  store_bytes m (new_table + 8 * p4) (map m (seqZ (old_table + 8 * p4) 8)).

(** [for p4 in first..=last { new_table[p4] = old_table[p4].clone() }] *)
Definition copy_entries (old_table new_table first_index last_index : Z) (m : Z -> Z) : Z -> Z :=
  foldl (fun m p4 => copy_entry old_table new_table p4 m) m (seqZ first_index (last_index - first_index + 1)).

(** The tables by their addresses. *)
Record PageTables : Type := {
  bootloader_table : Z;
  kernel_table : Z;
  kernel_level_4_frame : Z;
}.

Context {F : Type} `{LoaderFrames F} `{VirtAddrs}.

(** [cr3] is the frame of the table in use when boot services end; the result has
    the frame loaded into CR3 after it.  The firmware maps memory one to one, and so
    does the copied table. *)
Definition create_page_tables (cr3 : Z) (frame_buffer : option RawFrameBufferInfo) (frame_allocator : F) (m : Z -> Z)
  : option (PageTables * Z * F * (Z -> Z)) :=
  phys_offset ← virt_new 0;
  let max_phys_addr := max_phys_addr frame_allocator in
  old_table ← virt_add phys_offset cr3;
  '(new_frame, frame_allocator) ← take_frame frame_allocator;
  new_table ← virt_add phys_offset new_frame;
  let m := zero_bytes m new_table TABLE_BYTES in
  end_addr ← virt_new (wrap 64 (max_phys_addr - 1));
  let m := copy_entries old_table new_table 0 (p4_index end_addr) m in
  m ←
    match frame_buffer with
    | None => Some m
    | Some frame_buffer =>
        start_addr ← virt_new (fb_addr frame_buffer);
        end_addr ← virt_add start_addr (byte_len frame_buffer);
        Some (copy_entries old_table new_table (p4_index start_addr) (p4_index end_addr) m)
    end;
  '(frame, frame_allocator) ← take_frame frame_allocator;
  level_4_table ← virt_add phys_offset frame;
  let m := zero_bytes m level_4_table TABLE_BYTES in
  Some ({| bootloader_table := new_table; kernel_table := level_4_table; kernel_level_4_frame := frame |},
        new_frame, frame_allocator, m).

(** ** The hand-over *)

(** [Iterator::find]: what it found, and what it has not looked at yet. *)
Fixpoint iter_find {A : Type} (f : A -> bool) (items : list A) : option A * list A :=
  match items with
  | [] => (None, [])
  | x :: items => if f x then (Some x, items) else iter_find f items
  end.

(** The GUIDs of the configuration table's entries, as numbers. *)
Definition ACPI2_GUID : Z := 0x8868e871e4f111d3bc220080c73c8881.
Definition ACPI_GUID : Z := 0xeb9d2d302d8811d39a160090273fc14d.

Definition find_rsdp (config_table : list (Z * Z)) : option (Z * Z) :=
  let '(acpi2_rsdp, config_entries) := iter_find (fun entry => entry.1 =? ACPI2_GUID) config_table in
  match acpi2_rsdp with
  | Some entry => Some entry
  | None => (iter_find (fun entry => entry.1 =? ACPI_GUID) config_entries).1
  end.

Definition rsdp_address (config_table : list (Z * Z)) : option (option Z) :=
  match find_rsdp config_table with
  | None => Some None
  | Some entry => address ← phys_new entry.2; Some (Some address)
  end.

Record LoaderSystemInfo : Type := {
  li_framebuffer : option RawFrameBufferInfo;
  rsdp_addr : option Z;
  li_ramdisk_addr : option Z;
  li_ramdisk_len : Z;
}.

(** The arguments of [load_and_switch_to_kernel], the table in CR3 and the memory at
    the call. *)
Record Handover : Type := {
  ho_mode : BootMode;
  ho_kernel : K;
  ho_config : BootConfig R;
  ho_frames : F;
  ho_tables : PageTables;
  ho_cr3 : Z;
  ho_info : LoaderSystemInfo;
  ho_memory : Z -> Z;
}.

Definition or_else (a b : option Z) : option Z := match a with None => b | Some _ => a end.

(** The file's configuration, or the default one when there is none or it cannot be
    parsed; the kernel's own values complete the minimum sizes. *)
Definition configure (kernel : K) (config_file : option (list Z)) : BootConfig R :=
  let config := default config_default (config_file ≫= parse_config) in
  {| minimum_framebuffer_width := or_else (minimum_framebuffer_width config) (kernel_minimum_width kernel);
     minimum_framebuffer_height := or_else (minimum_framebuffer_height config) (kernel_minimum_height kernel);
     frame_buffer_logging := frame_buffer_logging config; serial_logging := serial_logging config;
     rest := rest config |}.

Definition read_slice (slice : option (Z * Z)) : Efi U (option (list Z)) :=
  match slice with
  | None => mret None
  | Some slice => bytes ← contents_of slice; mret (Some bytes)
  end.

(** [load_kernel] from disk, then from the network. *)
Definition find_kernel : Efi U (BootMode * K) :=
  kernel ← load_kernel Disk;
  match kernel with
  | Some kernel => mret (Disk, kernel)
  | None =>
      kernel ← load_kernel Tftp;
      kernel ← lift kernel;
      mret (Tftp, kernel)
  end.

Context `{Firmware U}.

Definition load_ramdisk (boot_mode : BootMode) : Efi U (option (Z * Z)) := fun s =>
  let '(slice, m) := load_sol_data_partition s.1 boot_mode s.2 in Some (slice, (s.1, m)).

(** [cr3] is the frame of the level-4 table the firmware uses. *)
Definition main_inner (cr3 : Z) : Efi U Handover :=
  '(boot_mode, kernel) ← find_kernel;
  config_file ← load_config_file boot_mode;
  config_file ← read_slice config_file;
  let config := configure kernel config_file in
  framebuffer ← init_logger config;
  ramdisk ← load_ramdisk boot_mode;
  '(memory_map, config_table) ← ask exit_boot_services;
  let frame_allocator := frames_of (sort_memory_map memory_map) in
  '(page_tables, new_cr3, frame_allocator) ← on_memory (create_page_tables cr3 framebuffer frame_allocator);
  let '(ramdisk_addr, ramdisk_len) := ramdisk_fields ramdisk in
  rsdp_addr ← lift (rsdp_address config_table);
  memory ← memory_now;
  mret {| ho_mode := boot_mode; ho_kernel := kernel; ho_config := config; ho_frames := frame_allocator;
          ho_tables := page_tables; ho_cr3 := new_cr3;
          ho_info := {| li_framebuffer := framebuffer; rsdp_addr := rsdp_addr;
                        li_ramdisk_addr := ramdisk_addr; li_ramdisk_len := ramdisk_len |};
          ho_memory := memory |}.
End Files.

(** ** The screen mode *)

Definition meets (minimum : option Z) (actual : Z) : bool :=
  match minimum with Some n => n <=? actual | None => true end.

Definition suits (height width : option Z) (m : ModeInfo) : bool :=
  meets height (resolution m).2 && meets width (resolution m).1.

Lemma last_kept {A : Type} (f : A -> bool) (l : list A) (x : A) :
  last (List.filter f l) = Some x <->
  f x = true /\ exists before after, l = before ++ x :: after /\ Forall (fun y => f y = false) after.
Proof.
  induction l as [|y l IH] using rev_ind.
  - cbn. split; [done|]. by intros (_ & [|] & ? & ? & _).
  - rewrite List.filter_app. cbn [List.filter]. destruct (f y) eqn:Hy.
    + rewrite last_snoc. split.
      * intros [= <-]. split; [done|]. by exists l, [].
      * intros (Hx & before & after & Heq & Hall). destruct after as [|z after _] using rev_ind.
        -- apply app_inj_tail in Heq as [_ ->]. done.
        -- rewrite app_comm_cons, app_assoc in Heq. apply app_inj_tail in Heq as [_ ->].
           apply Forall_app in Hall as [_ Hz]. inversion Hz. congruence.
    + rewrite app_nil_r, IH. split; intros (Hx & before & after & Heq & Hall); (split; [done|]).
      * exists before, (after ++ [y]). subst l. rewrite <- app_assoc. split; [done|]. apply Forall_app. auto.
      * destruct after as [|z after _] using rev_ind.
        -- apply app_inj_tail in Heq as [_ ->]. congruence.
        -- rewrite app_comm_cons, app_assoc in Heq. apply app_inj_tail in Heq as [-> ->].
           apply Forall_app in Hall as [Ha _]. by exists before, after.
Qed.

(** A mode is set exactly if a minimum is given; it is the last one that is large
    enough. *)
Lemma choose_mode_spec (height width : option Z) (modes : list ModeInfo) (m : ModeInfo) :
  choose_mode height width modes = Some m <->
  (is_Some height \/ is_Some width) /\ suits height width m = true /\
  exists before after, modes = before ++ m :: after /\ Forall (fun x => suits height width x = false) after.
Proof.
  assert (Hf : choose_mode height width modes =
               match height, width with None, None => None | _, _ => last (List.filter (suits height width) modes) end).
  { destruct height, width; try done; cbn; f_equal; apply List.filter_ext; intros x; unfold suits; cbn; by rewrite ?andb_true_r. }
  rewrite Hf.
  destruct height as [h|], width as [w|]; rewrite ?last_kept; try (split; [intros ?; split; [by eauto|done]|by intros [_ ?]]).
  split; [done|]. by intros [[[? ?]|[? ?]] _].
Qed.

(** ** The hand-over *)

Lemma efi_bind_inv {U A B : Type} (c : Efi U A) (k : A -> Efi U B) s b s' :
  (c ≫= k) s = Some (b, s') -> exists a s1, c s = Some (a, s1) /\ k a s1 = Some (b, s').
Proof. unfold mbind, Efi_bind. intros Hs. destruct (c s) as [[a s1]|] eqn:Hc; [|done]. by exists a, s1. Qed.

Lemma efi_bind_eq {U A B : Type} (c : Efi U A) (k : A -> Efi U B) s a s1 : c s = Some (a, s1) -> (c ≫= k) s = k a s1.
Proof. intros Hc. unfold mbind, Efi_bind. by rewrite Hc. Qed.

Ltac efi_inv :=
  repeat match goal with
  | H : (_ ≫= _) _ = Some (_, _) |- _ => apply efi_bind_inv in H as (? & ? & ? & H)
  | H : ask _ _ = Some (_, _) |- _ => unfold ask in H; injection H as ? ?; subst
  | H : lift ?o _ = Some (_, _) |- _ =>
      unfold lift, unwrap in H; let E := fresh "E" in destruct o eqn:E; [cbn in H; injection H as ? ?; subst|discriminate H]
  | H : on_memory ?f _ = Some (_, _) |- _ =>
      unfold on_memory in H; cbn [fst snd] in H; apply bind_Some in H as ([? ?] & ? & [= ? ?]); subst
  | H : mret _ _ = Some (_, _) |- _ => unfold mret, Efi_ret in H; injection H as ? ?; subst
  | H : memory_now _ = Some (_, _) |- _ => unfold memory_now in H; injection H as ? ?; subst
  | p : (_ * _)%type |- _ => destruct p
  end.

Lemma iter_find_spec {A : Type} (f : A -> bool) (l : list A) :
  iter_find f l = match find f l with
                  | Some x => (Some x, (iter_find f l).2)
                  | None => (None, [])
                  end.
Proof. induction l as [|x l IH]; [done|]. cbn. by destruct (f x). Qed.

(** The search is one for ACPI 2.0 tables only. *)
Lemma find_rsdp_spec (config_table : list (Z * Z)) :
  find_rsdp config_table = find (fun entry => entry.1 =? ACPI2_GUID) config_table.
Proof. unfold find_rsdp. rewrite iter_find_spec. by destruct (find _ config_table). Qed.

Lemma rsdp_address_spec (config_table : list (Z * Z)) (r : option Z) :
  rsdp_address config_table = Some r -> r = snd <$> find (fun entry => entry.1 =? ACPI2_GUID) config_table.
Proof.
  unfold rsdp_address. rewrite find_rsdp_spec. destruct (find _ config_table) as [entry|]; cbn; [|by intros [= <-]].
  unfold phys_new. destruct (_ <? _); [|done]. by intros [= <-].
Qed.

(** C37: The search for the ACPI tables.  The second search of the configuration table
    continues the first one's iterator, which has run to its end: on a machine whose
    firmware lists only an ACPI 1.0 pointer, the kernel gets none, whatever the
    table. *)
Theorem acpi1_never_found (config_table : list (Z * Z)) :
  Forall (fun entry => entry.1 <> ACPI2_GUID) config_table -> rsdp_address config_table = Some None.
Proof.
  intros Hno. unfold rsdp_address. rewrite find_rsdp_spec. destruct (find _ config_table) as [entry|] eqn:Hf; [|done].
  apply find_some in Hf as [Hin He%Z.eqb_eq]. rewrite Forall_forall in Hno. by destruct (Hno entry); [apply list_elem_of_In|].
Qed.

(** A table with an ACPI 1.0 entry and another one. *)
Lemma acpi1_never_found_witness :
  let config_table := [(0x12, 0x1000); (ACPI_GUID, 0xf0000)] in
  find (fun entry => entry.1 =? ACPI_GUID) config_table = Some (ACPI_GUID, 0xf0000) /\
  rsdp_address config_table = Some None.
Proof. split; [reflexivity|]. apply acpi1_never_found. apply (bool_decide_unpack _). by vm_compute. Defined.

(** ** The memory map *)

(** The memory the kernel may use afterwards is the free memory and what the loader
    and the boot services held; never the firmware's runtime services.  A region's
    length is exact as long as it has an address space. *)
Lemma descriptor_usable (d : UefiMemoryDescriptor) :
  (usable_after_bootloader_exit d = true <-> 1 <= ty d <= 4 \/ ty d = 7) /\
  (descriptor_kind d = Usable <-> ty d = 7) /\
  (descriptor_kind d = Usable -> usable_after_bootloader_exit d = true) /\
  (0 <= page_count d < 2 ^ 52 -> descriptor_len d = 4096 * page_count d).
Proof.
  unfold usable_after_bootloader_exit, descriptor_kind, descriptor_len, wrap, PAGE_SIZE.
  unfold CONVENTIONAL, LOADER_CODE, LOADER_DATA, BOOT_SERVICES_CODE, BOOT_SERVICES_DATA, RUNTIME_SERVICES_CODE, RUNTIME_SERVICES_DATA.
  split_and!.
  - repeat case_match; to_prop; rewrite ?orb_true_iff, ?Z.eqb_eq in *; split; try done; lia.
  - destruct (Z.eqb_spec (ty d) 7); split; (done || lia).
  - by destruct (ty d =? 7).
  - intros Hp. rewrite Z.mod_small by lia. lia.
Qed.
