(* ===== verification/LoaderHandover.v ===== *)
(** * LoaderHandover: what the boot loader leaves for the kernel

    The steps of [BootLoader.main_inner] against a specification that does not use
    them: which file of which volume became the kernel and the configuration, what is
    in memory when the kernel is entered, and which page tables and screen it gets. *)

From S2P Require Import Prelude VirtAddr Storage Str Console Framebuffer Memory Loader DiskImage BootLoader.
#[local] Open Scope Z_scope.

(** ** Services over time *)

(** The protocols and files of two states are the same; memory and the screen mode
    may differ. *)
Record same_services {U : Type} `{BootServices U} (u u' : U) : Prop := {
  same_device : loaded_image_device u' = loaded_image_device u;
  same_path : forall d, open_device_path u' d = open_device_path u d;
  same_locate : forall p d, locate_device_path u' p d = locate_device_path u p d;
  same_open : forall p h, open_exclusive u' p h = open_exclusive u p h;
  same_volume : forall h, open_volume u' h = open_volume u h;
  same_root : forall r name, open_in_root u' r name = open_in_root u r name;
  same_type : forall f, into_type u' f = into_type u f;
  same_size : forall f, file_size u' f = file_size u f;
  same_read : forall f n, read_regular u' f n = read_regular u f n;
  same_server : forall b, bootp_si_addr u' b = bootp_si_addr u b;
  same_tftp_size : forall b ip name, tftp_get_file_size u' b ip name = tftp_get_file_size u b ip name;
  same_tftp_read : forall b ip name n, tftp_read_file u' b ip name n = tftp_read_file u b ip name n;
  same_graphics : graphics_output u' = graphics_output u;
  same_open_graphics : forall g, open_graphics u' g = open_graphics u g;
  same_modes : forall g, modes u' g = modes u g;
}.

#[export] Instance same_services_preorder {U : Type} `{BootServices U} : PreOrder (same_services (U := U)).
Proof.
  split; [by intros u|]. intros u1 u2 u3 H12 H23. destruct H12, H23. split; congruence.
Qed.

(** What UEFI documents of the calls that change the state, and that a read fits
    into its buffer. *)
Class BootServicesSpec (U : Type) `{BootServices U} : Prop := {
  allocate_keeps : forall u n p u', allocate_loader_pages u n = Some (p, u') -> same_services u u';
  set_mode_keeps : forall u g mode u', set_mode u g mode = Some u' -> same_services u u';
  set_mode_sets : forall u g mode u', mode ∈ modes u g -> set_mode u g mode = Some u' -> current_mode_info u' g = mode;
  read_fits : forall u f n bytes, read_regular u f n = Some bytes -> (length bytes <= Z.to_nat n)%nat;
  tftp_read_fits : forall u b ip name n bytes, tftp_read_file u b ip name n = Some bytes -> (length bytes <= Z.to_nat n)%nat;
}.

(** ** Memory at the end of boot services *)

(** An address in a region the memory map calls free. *)
Definition listed_free (memory_map : list UefiMemoryDescriptor) (x : Z) : Prop :=
  exists d, d ∈ memory_map /\ ty d = CONVENTIONAL /\ phys_start d <= x < phys_start d + descriptor_len d.

(** The frames of the loader's allocator: whole pages of free regions below the
    highest address, each given out once. *)
Class LoaderFramesSpec (F : Type) `{LoaderFrames F} : Type := {
  sort_permutes : forall l, sort_memory_map l ≡ₚ l;
  unused : F -> Z -> Prop;
  frames_of_unused : forall l f, unused (frames_of l) f ->
    0 <= f /\ f mod 4096 = 0 /\ f + 4096 <= max_phys_addr (frames_of l) /\ forall x, f <= x < f + 4096 -> listed_free l x;
  take_frame_spec : forall fa f fa', take_frame fa = Some (f, fa') ->
    unused fa f /\ ~ unused fa' f /\ forall g, unused fa' g -> unused fa g;
}.

(** The pages that took the data partition do not count as free afterwards. *)
Class BootMemorySpec (U : Type) `{BootServices U} `{Firmware U} : Prop := {
  data_pages_kept : forall u ptr x, allocate_pages u 16384 = Some ptr -> ptr <= x < ptr + 64 * 2 ^ 20 ->
    ~ listed_free (exit_boot_services u).1 x;
}.

Lemma listed_free_permuted (l l' : list UefiMemoryDescriptor) (x : Z) : l ≡ₚ l' -> listed_free l x -> listed_free l' x.
Proof. intros Hp (d & Hd & Hrest). exists d. by rewrite <- Hp. Qed.

(** ** Memory operations *)

Lemma zero_bytes_spec (m : Z -> Z) (address size x : Z) :
  zero_bytes m address size x = if decide (address <= x < address + size) then 0 else m x.
Proof.
  unfold zero_bytes. destruct (Z.leb_spec address x), (Z.ltb_spec x (address + size)); cbn; case_decide; (done || lia).
Qed.

Lemma nth_slice (m : Z -> Z) (a n i : Z) : 0 <= i < n -> nth (Z.to_nat i) (map m (seqZ a n)) 0 = m (a + i).
Proof.
  intros Hi. rewrite (nth_lookup_Some _ _ _ (m (a + i))); [done|]. rewrite list_lookup_fmap, lookup_seqZ_lt by lia. cbn.
  do 2 f_equal. lia.
Qed.

Lemma copy_entry_spec (old_table new_table p4 : Z) (m : Z -> Z) (x : Z) :
  copy_entry old_table new_table p4 m x =
  if decide (new_table + 8 * p4 <= x < new_table + 8 * p4 + 8) then m (old_table + (x - new_table)) else m x.
Proof.
  unfold copy_entry. rewrite store_bytes_spec, length_map, length_seqZ. change (Z.of_nat (Z.to_nat 8)) with 8.
  case_decide; [|done]. rewrite nth_slice by lia. f_equal. lia.
Qed.

(** The entries from one index to another are those of the old table; a table at
    some distance is not disturbed. *)
Lemma copy_entries_spec (old_table new_table first_index last_index : Z) (m : Z -> Z) (x : Z) :
  0 <= first_index -> last_index <= 511 -> old_table + 4096 <= new_table \/ new_table + 4096 <= old_table ->
  copy_entries old_table new_table first_index last_index m x =
  if decide (new_table + 8 * first_index <= x < new_table + 8 * (last_index + 1)) then m (old_table + (x - new_table)) else m x.
Proof.
  intros Hfirst Hlast Hfar. unfold copy_entries. revert x.
  destruct (decide (last_index < first_index)) as [Hempty|Hn].
  { intros x. rewrite seqZ_nil by lia. cbn. rewrite decide_False by lia. done. }
  remember (Z.to_nat (last_index - first_index + 1)) as n eqn:En.
  replace (last_index - first_index + 1) with (Z.of_nat n) by lia.
  assert (Hend : first_index + Z.of_nat n = last_index + 1) by lia. rewrite <- Hend. clear En Hn. assert (Hle : first_index + Z.of_nat n <= 512) by lia.
  clear Hend Hlast. induction n as [|n IH]; intros x; [rewrite decide_False by lia; done|].
  rewrite seqZ_S, foldl_app. cbn [foldl]. rewrite copy_entry_spec, !IH by lia.
  repeat case_decide; (done || lia).
Qed.

(** Only the new table changes. *)
Lemma copy_entries_elsewhere (old_table new_table first_index last_index : Z) (m : Z -> Z) (x : Z) :
  0 <= first_index -> last_index <= 511 -> ~ new_table <= x < new_table + 4096 ->
  copy_entries old_table new_table first_index last_index m x = m x.
Proof.
  intros Hfirst Hlast Hx. unfold copy_entries.
  assert (Hall : Forall (fun p4 => 0 <= p4 <= 511) (seqZ first_index (last_index - first_index + 1)))
    by (apply Forall_forall; intros p4 Hp%elem_of_seqZ; lia).
  revert m. induction Hall as [|p4 l Hp _ IH]; intros m; [done|]. cbn [foldl]. rewrite IH, copy_entry_spec, decide_False by lia. done.
Qed.

Lemma p4_index_mono (a b : Z) : 0 <= a <= b -> b < 2 ^ 48 -> 0 <= p4_index a <= p4_index b.
Proof.
  intros Hab Hb. unfold p4_index. rewrite !Z.mod_small by (split; [apply Z.div_pos; lia|apply Z.div_lt_upper_bound; lia]).
  split; [apply Z.div_pos; lia|apply Z.div_le_mono; lia].
Qed.

Lemma p4_index_range (a : Z) : 0 <= p4_index a <= 511.
Proof. unfold p4_index. pose proof (Z.mod_pos_bound (a / 2 ^ 39) 512). lia. Qed.

(** ** Page tables *)

Section Tables.
Context {F : Type} `{LoaderFramesSpec F} `{VirtAddrs} `{!VirtAddrsExact}.
Implicit Types (frame_buffer : option RawFrameBufferInfo) (t : PageTables) (m : Z -> Z).

(** An address the frame buffer takes. *)
Definition in_frame_buffer frame_buffer (a : Z) : Prop :=
  exists fb, frame_buffer = Some fb /\ fb_addr fb <= a < fb_addr fb + byte_len fb.

(** The frame buffer lies in the lower half of the address space. *)
Definition frame_buffer_ok frame_buffer : Prop :=
  forall fb, frame_buffer = Some fb -> 0 <= fb_addr fb /\ 0 <= byte_len fb /\ fb_addr fb + byte_len fb < 2 ^ 47.

(** The level-4 entries the loader copies: those of memory below [limit] and those of
    the frame buffer. *)
Definition entries_copied (old_table new_table limit : Z) frame_buffer m : Z -> Z :=
  let m := copy_entries old_table new_table 0 (p4_index (wrap 64 (limit - 1))) (zero_bytes m new_table 4096) in
  match frame_buffer with
  | None => m
  | Some fb => copy_entries old_table new_table (p4_index (fb_addr fb)) (p4_index (fb_addr fb + byte_len fb)) m
  end.

Lemma create_page_tables_steps (cr3 cr3' : Z) frame_buffer (fa fa' : F) t m m' :
  create_page_tables cr3 frame_buffer fa m = Some (t, cr3', fa', m') ->
  exists fa1, take_frame fa = Some (cr3', fa1) /\ take_frame fa1 = Some (kernel_level_4_frame t, fa') /\
    bootloader_table t = cr3' /\ kernel_table t = kernel_level_4_frame t /\
    m' = zero_bytes (entries_copied cr3 cr3' (max_phys_addr fa) frame_buffer m) (kernel_level_4_frame t) 4096.
Proof.
  unfold create_page_tables. intros Ht.
  apply bind_Some in Ht as (zero & ->%virt_new_exact & Ht). apply bind_Some in Ht as (old & Hold%virt_add_exact & Ht).
  apply bind_Some in Ht as ([f1 fa1] & Hf1 & Ht). apply bind_Some in Ht as (new & Hnew%virt_add_exact & Ht).
  apply bind_Some in Ht as (end_addr & ->%virt_new_exact & Ht). apply bind_Some in Ht as (m1 & Hm1 & Ht).
  apply bind_Some in Ht as ([f2 fa2] & Hf2 & Ht). apply bind_Some in Ht as (table & Htable%virt_add_exact & [= <- <- <- <-]).
  rewrite Z.add_0_l in *. subst old new table. cbn [bootloader_table kernel_table kernel_level_4_frame].
  exists fa1. do 4 (split; [done|]). f_equal. unfold entries_copied. destruct frame_buffer as [fb|]; [|by injection Hm1].
  apply bind_Some in Hm1 as (start & ->%virt_new_exact & Hm1). by apply bind_Some in Hm1 as (e & ->%virt_add_exact & [= <-]).
Qed.

Lemma entries_copied_elsewhere (old_table new_table limit : Z) frame_buffer m (x : Z) :
  ~ new_table <= x < new_table + 4096 -> entries_copied old_table new_table limit frame_buffer m x = m x.
Proof.
  intros Hx. unfold entries_copied.
  destruct frame_buffer as [fb|]; rewrite !copy_entries_elsewhere by (done || apply p4_index_range);
    by rewrite zero_bytes_spec, decide_False.
Qed.

(** Every entry is the old one or empty, and those of the memory and of the frame
    buffer are the old ones. *)
Lemma entries_copied_spec (old_table new_table limit : Z) frame_buffer m (a k : Z) :
  old_table + 4096 <= new_table \/ new_table + 4096 <= old_table -> 1 <= limit <= 2 ^ 47 -> frame_buffer_ok frame_buffer ->
  0 <= a < limit \/ in_frame_buffer frame_buffer a -> 0 <= k < 8 ->
  entries_copied old_table new_table limit frame_buffer m (new_table + 8 * p4_index a + k) = m (old_table + 8 * p4_index a + k).
Proof.
  intros Hfar Hlimit Hfb Ha Hk. unfold entries_copied, wrap. rewrite (Z.mod_small (limit - 1)) by lia.
  pose proof (p4_index_range a) as Hra.
  assert (Hlow : forall b, 0 <= a < limit -> copy_entries old_table new_table 0 (p4_index (limit - 1)) (zero_bytes m new_table 4096)
            (new_table + 8 * p4_index a + k) = b -> m (old_table + 8 * p4_index a + k) = b).
  { intros b Hlo <-. pose proof (p4_index_mono a (limit - 1) ltac:(lia) ltac:(lia)).
    rewrite copy_entries_spec, decide_True by (apply p4_index_range || lia). rewrite zero_bytes_spec, decide_False by lia. f_equal. lia. }
  destruct frame_buffer as [fb|]; [|destruct Ha as [Ha|(? & ? & _)]; [symmetry; by apply Hlow|done]].
  destruct (Hfb fb eq_refl) as (Hlo & Hl & Hend).
  rewrite copy_entries_spec by (apply p4_index_range || done). case_decide as Hin.
  - rewrite copy_entries_elsewhere by (apply p4_index_range || lia). rewrite zero_bytes_spec, decide_False by lia. f_equal. lia.
  - destruct Ha as [Ha|(fb' & [= <-] & Ha)]; [symmetry; by apply Hlow|]. destruct Hin.
    pose proof (p4_index_mono (fb_addr fb) a ltac:(lia) ltac:(lia)).
    pose proof (p4_index_mono a (fb_addr fb + byte_len fb) ltac:(lia) ltac:(lia)). lia.
Qed.

(** The frames of the two tables: different pages of free memory. *)
Lemma page_table_frames (cr3 cr3' : Z) frame_buffer (memory_map : list UefiMemoryDescriptor) (fa' : F) t m m' :
  let fa := frames_of (sort_memory_map memory_map) in
  create_page_tables cr3 frame_buffer fa m = Some (t, cr3', fa', m') ->
  (forall x, cr3' <= x < cr3' + 4096 \/ kernel_table t <= x < kernel_table t + 4096 -> listed_free memory_map x) /\
  (cr3' + 4096 <= kernel_table t \/ kernel_table t + 4096 <= cr3') /\
  0 <= cr3' /\ 0 <= kernel_table t /\ cr3' mod 4096 = 0 /\ kernel_table t mod 4096 = 0 /\
  cr3' + 4096 <= max_phys_addr fa /\ kernel_table t + 4096 <= max_phys_addr fa.
Proof.
  intros fa (fa1 & Ht1 & Ht2 & _ & -> & _)%create_page_tables_steps.
  apply take_frame_spec in Ht1 as (Hu1 & Hnot & Hsub). apply take_frame_spec in Ht2 as (Hu2 & _ & _).
  assert (Hne : cr3' <> kernel_level_4_frame t) by (intros Heq; by rewrite <- Heq in Hu2).
  apply Hsub in Hu2. apply frames_of_unused in Hu1 as (? & ? & ? & Hf1), Hu2 as (? & ? & ? & Hf2).
  split; [|split_and!; (done || zlia)].
  intros x [Hx|Hx]; eapply listed_free_permuted; [apply sort_permutes|by apply Hf1|apply sort_permutes|by apply Hf2].
Qed.

(** Memory that is not free stays as it was. *)
Lemma create_page_tables_keeps (cr3 cr3' : Z) frame_buffer (memory_map : list UefiMemoryDescriptor) (fa' : F) t m m' (x : Z) :
  create_page_tables cr3 frame_buffer (frames_of (sort_memory_map memory_map)) m = Some (t, cr3', fa', m') ->
  ~ listed_free memory_map x -> m' x = m x.
Proof.
  intros Ht Hx. destruct (page_table_frames _ _ _ _ _ _ _ _ Ht) as (Hfree & _).
  apply create_page_tables_steps in Ht as (fa1 & _ & _ & _ & Hk & ->). rewrite <- Hk.
  rewrite zero_bytes_spec, decide_False by (intros Hin; by apply Hx, Hfree; right).
  apply entries_copied_elsewhere. intros Hin. by apply Hx, Hfree; left.
Qed.

(** The table at [table] has the entries of the one at [old] for the memory below
    [limit] and for the frame buffer. *)
Definition keeps_mappings m (old table limit : Z) frame_buffer : Prop :=
  forall a k, 0 <= a < limit \/ in_frame_buffer frame_buffer a -> 0 <= k < 8 ->
    m (table + 8 * p4_index a + k) = m (old + 8 * p4_index a + k).

Lemma create_page_tables_spec (cr3 cr3' : Z) frame_buffer (memory_map : list UefiMemoryDescriptor) (fa' : F) t m m' :
  let fa := frames_of (sort_memory_map memory_map) in
  create_page_tables cr3 frame_buffer fa m = Some (t, cr3', fa', m') ->
  (forall x, kernel_table t <= x < kernel_table t + 4096 -> m' x = 0) /\
  (max_phys_addr fa <= 2 ^ 47 -> frame_buffer_ok frame_buffer -> cr3 mod 4096 = 0 ->
   (forall x, cr3 <= x < cr3 + 4096 -> ~ listed_free memory_map x) ->
   keeps_mappings m' cr3 cr3' (max_phys_addr fa) frame_buffer).
Proof.
  intros fa Ht. destruct (page_table_frames _ _ _ _ _ _ _ _ Ht) as (Hfree & Hfar & Hp & Hp' & Hal & Hal' & Hmax & Hmax').
  assert (Hkeeps : forall x, ~ listed_free memory_map x -> m' x = m x) by (intros x; by eapply create_page_tables_keeps).
  apply create_page_tables_steps in Ht as (fa1 & _ & _ & _ & Hk & Hm). rewrite <- Hk in Hm. split.
  - intros x Hx. by rewrite Hm, zero_bytes_spec, decide_True.
  - intros Hlimit Hfb Halign Hold a k Ha Hk'. pose proof (p4_index_range a).
    rewrite (Hkeeps (cr3 + _ + _)) by (apply Hold; lia). rewrite Hm, zero_bytes_spec, decide_False by lia.
    apply entries_copied_spec; [|subst fa; lia|done..].
    assert (cr3 <> cr3'). { intros <-. apply (Hold cr3); [lia|]. apply Hfree. left. lia. }
    zlia.
Qed.
End Tables.

Lemma create_page_tables_succeeds {F : Type} `{LoaderFrames F} `{VirtAddrs} `{!VirtAddrsSpec} (cr3 : Z)
    (frame_buffer : option RawFrameBufferInfo) (frames rest1 rest2 : F) (f1 f2 : Z) (m : Z -> Z) :
  1 <= max_phys_addr frames <= 2 ^ 47 -> frame_buffer_ok frame_buffer -> 0 <= cr3 < 2 ^ 47 ->
  take_frame frames = Some (f1, rest1) -> take_frame rest1 = Some (f2, rest2) -> 0 <= f1 < 2 ^ 47 -> 0 <= f2 < 2 ^ 47 ->
  exists t m', create_page_tables cr3 frame_buffer frames m = Some (t, f1, rest2, m').
Proof.
  intros Hmax Hfb Hcr3 Hf1 Hf2 Hc1 Hc2. unfold create_page_tables.
  rewrite (virt_new_canonical 0) by (left; lia). cbn [mbind option_bind].
  rewrite (virt_add_canonical 0 cr3) by (lia || left; lia). cbn [mbind option_bind]. rewrite Hf1. cbn [mbind option_bind].
  rewrite (virt_add_canonical 0 f1) by (lia || left; lia). cbn [mbind option_bind]. unfold wrap. rewrite (Z.mod_small (_ - 1)) by lia.
  rewrite (virt_new_canonical (_ - 1)) by (left; lia). cbn [mbind option_bind].
  destruct frame_buffer as [fb|]; cbn [mbind option_bind].
  - destruct (Hfb fb eq_refl) as (? & ? & ?). rewrite (virt_new_canonical (fb_addr fb)) by (left; lia). cbn [mbind option_bind].
    rewrite virt_add_canonical by (lia || left; lia). cbn [mbind option_bind]. rewrite Hf2. cbn [mbind option_bind].
    rewrite (virt_add_canonical 0 f2) by (lia || left; lia). cbn [mbind option_bind]. by do 2 eexists.
  - rewrite Hf2. cbn [mbind option_bind]. rewrite (virt_add_canonical 0 f2) by (lia || left; lia). cbn [mbind option_bind].
    by do 2 eexists.
Qed.

(** ** Files *)

(** The pages of a file hold it, and the last one is needed. *)
Lemma pages_for_spec (size : Z) : 1 <= size < 2 ^ 63 -> size <= 4096 * pages_for size < size + 4096.
Proof. intros Hs. unfold pages_for, wrap. rewrite (Z.mod_small (size - 1)) by lia. rewrite Z.mod_small by zlia. zlia. Qed.

Section Files.
Context {U : Type} `{HB : BootServices U} `{!BootServicesSpec U}.
Implicit Types (u : U) (m : Z -> Z).

(** The handle of a protocol on the device the loader was started from. *)
Definition protocol_at u (p : Protocol) (handle : Z) : Prop :=
  exists device path, loaded_image_device u = Some device /\ open_device_path u device = Some path /\
    locate_device_path u p path = Some handle /\ open_exclusive u p handle = true.

(** The root directory of the volume the loader was started from. *)
Definition boot_root u (root : Z) : Prop := exists handle, protocol_at u SimpleFileSystem handle /\ open_volume u handle = Some root.

(** A file of this name is in the root directory, or is known to the boot server. *)
Definition file_found u (mode : BootMode) (name : str) : Prop :=
  match mode with
  | Disk => exists root file, boot_root u root /\ open_in_root u root name = Some file
  | Tftp => exists server size, protocol_at u BaseCode server /\
      tftp_get_file_size u server (bootp_si_addr u server) name = Some size
  end.

(** What is in it.  A read from disk that ends early leaves zeros up to the file's
    size, one from the network leaves what was there. *)
Definition file_content u (mode : BootMode) (name : str) (content : list Z) : Prop :=
  match mode with
  | Disk => exists root file size bytes, boot_root u root /\ open_in_root u root name = Some file /\
      file_size u file = Some size /\ read_regular u file size = Some bytes /\
      content = bytes ++ replicate (Z.to_nat (size - Z.of_nat (length bytes))) 0
  | Tftp => exists server size bytes, protocol_at u BaseCode server /\
      tftp_get_file_size u server (bootp_si_addr u server) name = Some size /\
      tftp_read_file u server (bootp_si_addr u server) name size = Some bytes /\
      length content = Z.to_nat size /\ bytes `prefix_of` content
  end.

Lemma protocol_at_unique u (p : Protocol) (h h' : Z) : protocol_at u p h -> protocol_at u p h' -> h = h'.
Proof. intros (? & ? & ? & ? & ? & ?) (? & ? & ? & ? & ? & ?). congruence. Qed.

Lemma boot_root_unique u (r r' : Z) : boot_root u r -> boot_root u r' -> r = r'.
Proof. intros (h & Hp & ?) (h' & Hp' & ?). rewrite (protocol_at_unique _ _ _ _ Hp' Hp) in *. congruence. Qed.

Lemma protocol_at_same u u' (p : Protocol) (h : Z) : same_services u u' -> protocol_at u p h -> protocol_at u' p h.
Proof. intros [] (device & path & ? & ? & ? & ?). exists device, path. by split_and!; congruence. Qed.

Lemma boot_root_same u u' (root : Z) : same_services u u' -> boot_root u root -> boot_root u' root.
Proof. intros Hs (h & Hp & Hv). exists h. split; [by eapply protocol_at_same|]. by rewrite (same_volume _ _ Hs). Qed.

Lemma same_services_sym u u' : same_services u u' -> same_services u' u.
Proof. intros []. by split; intros; symmetry. Qed.

(** Files stay what they are. *)
Lemma file_found_same u u' (mode : BootMode) (name : str) : same_services u u' -> file_found u mode name -> file_found u' mode name.
Proof.
  intros Hs. destruct mode; cbn.
  - intros (root & file & Hr & Ho). exists root, file. split; [by eapply boot_root_same|]. by rewrite (same_root _ _ Hs).
  - intros (server & size & Hp & Hz). exists server, size. split; [by eapply protocol_at_same|].
    by rewrite (same_server _ _ Hs), (same_tftp_size _ _ Hs).
Qed.

Lemma file_content_same u u' (mode : BootMode) (name : str) (content : list Z) :
  same_services u u' -> file_content u mode name content -> file_content u' mode name content.
Proof.
  intros Hs. destruct mode; cbn.
  - intros (root & file & size & bytes & Hr & Ho & Hz & Hb & ->). exists root, file, size, bytes.
    split; [by eapply boot_root_same|]. by rewrite (same_root _ _ Hs), (same_size _ _ Hs), (same_read _ _ Hs).
  - intros (server & size & bytes & Hp & Hz & Hb & Hrest). exists server, size, bytes. split; [by eapply protocol_at_same|].
    by rewrite (same_server _ _ Hs), (same_tftp_size _ _ Hs), (same_tftp_read _ _ Hs).
Qed.

Lemma or_none_cases {A B : Type} (o : Efi U (option A)) (k : A -> Efi U (option B)) s r s' :
  or_none o k s = Some (r, s') -> exists a s1, o s = Some (a, s1) /\
    match a with Some a => k a s1 = Some (r, s') | None => r = None /\ s' = s1 end.
Proof. unfold or_none. intros ([a|] & s1 & Ho & Hk)%efi_bind_inv; exists (Some a), s1 || exists None, s1; (split; [done|]); [done|]. by injection Hk. Qed.

Lemma unwrap_inv {A : Type} (f : U -> option A) s a s' : unwrap f s = Some (a, s') -> s' = s /\ f s.1 = Some a.
Proof. unfold unwrap. destruct (f s.1); [|done]. by intros [= <- <-]. Qed.

Lemma lift_inv {A : Type} (o : option A) (s : U * (Z -> Z)) a s' : lift o s = Some (a, s') -> s' = s /\ o = Some a.
Proof. apply unwrap_inv. Qed.

Lemma locate_result (p : Protocol) u m :
  exists r, locate_and_open_protocol p (u, m) = Some (r, (u, m)) /\
    match r with Some h => protocol_at u p h | None => forall h, ~ protocol_at u p h end.
Proof.
  unfold locate_and_open_protocol, open_device_path_protocol, or_none, ask, mbind, Efi_bind, mret, Efi_ret. cbn [fst mbind option_bind].
  destruct (loaded_image_device u) as [device|] eqn:Hd; cbn [mbind option_bind fst].
  2: { eexists. split; [reflexivity|]. intros h (? & ? & ? & _). congruence. }
  destruct (open_device_path u device) as [path|] eqn:Hp; cbn [mbind option_bind fst].
  2: { eexists. split; [reflexivity|]. intros h (? & ? & ? & ? & _). congruence. }
  destruct (locate_device_path u p path) as [handle|] eqn:Hl; cbn [mbind option_bind fst].
  2: { eexists. split; [reflexivity|]. intros h (? & ? & ? & ? & ? & _). congruence. }
  eexists. split; [reflexivity|]. destruct (open_exclusive u p handle) eqn:Ho; [by exists device, path|].
  intros h (? & ? & ? & ? & ? & ?). congruence.
Qed.

Lemma load_pages_inv (size ptr : Z) u u' m m' :
  load_pages size (u, m) = Some (ptr, (u', m')) -> m' = m /\ allocate_loader_pages u (pages_for size) = Some (ptr, u').
Proof.
  unfold load_pages. cbn [fst snd]. destruct (allocate_loader_pages u _) as [[p u1]|]; [|done]. by intros [= <- <- <-].
Qed.

Lemma slice_cleared m (ptr size : Z) (bytes : list Z) :
  (length bytes <= Z.to_nat size)%nat ->
  slice_bytes (store_bytes (zero_bytes m ptr size) ptr bytes) (ptr, size) =
    bytes ++ replicate (Z.to_nat (size - Z.of_nat (length bytes))) 0.
Proof.
  intros Hlen. unfold slice_bytes. cbn [fst snd]. apply list_eq. intros i. rewrite list_lookup_fmap.
  destruct (decide (i < Z.to_nat size)%nat) as [Hi|Hi].
  2: { rewrite lookup_seqZ_ge by lia. cbn. symmetry. apply lookup_ge_None. rewrite length_app, length_replicate. lia. }
  rewrite lookup_seqZ_lt by lia. cbn. rewrite store_bytes_spec. case_decide as Hin.
  - rewrite lookup_app_l by lia. destruct (lookup_lt_is_Some_2 bytes i ltac:(lia)) as [b Hb]. rewrite Hb. f_equal.
    replace (Z.to_nat (ptr + Z.of_nat i - ptr)) with i by lia. by apply nth_lookup_Some.
  - rewrite zero_bytes_spec, decide_True by lia. rewrite lookup_app_r by lia. symmetry. apply lookup_replicate. lia.
Qed.

Lemma slice_stored_prefix m (ptr size : Z) (bytes : list Z) :
  (length bytes <= Z.to_nat size)%nat -> bytes `prefix_of` slice_bytes (store_bytes m ptr bytes) (ptr, size).
Proof.
  intros Hlen. exists (slice_bytes m (ptr + Z.of_nat (length bytes), size - Z.of_nat (length bytes))).
  unfold slice_bytes. cbn [fst snd]. apply list_eq. intros i. rewrite list_lookup_fmap.
  destruct (decide (i < Z.to_nat size)%nat) as [Hi|Hi].
  2: { rewrite lookup_seqZ_ge by lia. cbn. symmetry. apply lookup_ge_None. rewrite length_app, length_map, length_seqZ. lia. }
  rewrite lookup_seqZ_lt by lia. cbn. rewrite store_bytes_spec. case_decide as Hin.
  - rewrite lookup_app_l by lia. destruct (lookup_lt_is_Some_2 bytes i ltac:(lia)) as [b Hb]. rewrite Hb. f_equal.
    replace (Z.to_nat (ptr + Z.of_nat i - ptr)) with i by lia. by apply nth_lookup_Some.
  - rewrite lookup_app_r, list_lookup_fmap, lookup_seqZ_lt by lia. cbn. do 2 f_equal. lia.
Qed.

(** A file of the volume is loaded when the directory has it, with its bytes, and not
    otherwise. *)
Lemma load_file_from_disk_spec (raw name : str) u u' m m' (r : option (Z * Z)) :
  cstr16 (trim_end_matches (fun c => c =? 0) raw) = Some name ->
  load_file_from_disk raw (u, m) = Some (r, (u', m')) ->
  same_services u u' /\
  match r with
  | None => ~ file_found u Disk name
  | Some slice => file_found u Disk name /\ file_content u Disk name (slice_bytes m' slice) /\
      allocate_loader_pages u (pages_for slice.2) = Some (slice.1, u') /\
      forall x, ~ slice.1 <= x < slice.1 + slice.2 -> m' x = m x
  end.
Proof.
  intros Hname Hload. unfold load_file_from_disk in Hload.
  destruct (locate_result SimpleFileSystem u m) as (fs & Hloc & Hat).
  apply or_none_cases in Hload as (fs' & s1 & Hloc' & Hload). rewrite Hloc in Hloc'. injection Hloc' as <- <-.
  destruct fs as [fs|].
  2: { destruct Hload as [-> [= -> ->]]. split; [reflexivity|]. by intros (root & file & (h & Hp & _) & _); destruct (Hat h). }
  apply efi_bind_inv in Hload as (root & s2 & [-> Hvol]%unwrap_inv & Hload).
  assert (Hroot : boot_root u root) by by exists fs.
  destruct (256 <=? length raw)%nat; [done|]. apply efi_bind_inv in Hload as (filename & s3 & [-> Hn]%lift_inv & Hload).
  rewrite Hname in Hn. injection Hn as <-.
  apply or_none_cases in Hload as (file & s4 & [= Hopen <-] & Hload). destruct file as [file|].
  2: { destruct Hload as [-> [= -> ->]]. split; [reflexivity|]. intros (root' & file & Hr' & Ho). rewrite (boot_root_unique _ _ _ Hr' Hroot) in Ho. cbn in *. congruence. }
  apply efi_bind_inv in Hload as ([] & s5 & [-> _]%unwrap_inv & Hload); [|done].
  apply efi_bind_inv in Hload as (size & s6 & [-> Hsize]%unwrap_inv & Hload).
  apply efi_bind_inv in Hload as (ptr & [u1 m1] & [-> Hpages]%load_pages_inv & Hload). pose proof (allocate_keeps _ _ _ _ Hpages) as Hsame.
  apply efi_bind_inv in Hload as ([] & s8 & [= <-] & Hload). cbn [fst snd] in *.
  apply efi_bind_inv in Hload as (bytes & s9 & [-> Hread]%unwrap_inv & Hload). cbn [fst] in Hread.
  apply efi_bind_inv in Hload as ([] & s10 & [= <-] & [= <- <- <-]). cbn [fst snd] in *. split; [done|].
  pose proof (read_fits _ _ _ _ Hread) as Hfits. rewrite (same_read _ _ Hsame) in Hread.
  split; [by exists root, file|]. split; [|split; [done|]].
  - exists root, file, size, bytes. do 4 (split; [done|]). by apply slice_cleared.
  - intros x Hx. rewrite store_bytes_spec, decide_False by lia. by rewrite zero_bytes_spec, decide_False by lia.
Qed.

Lemma load_file_from_tftp_spec (raw name : str) u u' m m' (r : option (Z * Z)) :
  cstr8 raw = Some name ->
  load_file_from_tftp_boot_server raw (u, m) = Some (r, (u', m')) ->
  same_services u u' /\
  match r with
  | None => ~ file_found u Tftp name
  | Some slice => file_found u Tftp name /\ file_content u Tftp name (slice_bytes m' slice)
  end.
Proof.
  intros Hname Hload. unfold load_file_from_tftp_boot_server in Hload.
  destruct (locate_result BaseCode u m) as (server & Hloc & Hat).
  apply or_none_cases in Hload as (server' & s1 & Hloc' & Hload). rewrite Hloc in Hloc'. injection Hloc' as <- <-.
  destruct server as [server|].
  2: { destruct Hload as [-> [= -> ->]]. split; [reflexivity|]. by intros (h & size & Hp & _); destruct (Hat h). }
  apply efi_bind_inv in Hload as (ack & s2 & [= _ <-] & Hload). destruct (negb ack); [done|].
  apply efi_bind_inv in Hload as (ip & s3 & [= <- <-] & Hload). cbn [fst] in *.
  destruct (256 <=? length raw)%nat; [done|]. apply efi_bind_inv in Hload as (filename & s4 & [-> Hn]%lift_inv & Hload).
  rewrite Hname in Hn. injection Hn as <-.
  apply or_none_cases in Hload as (size & s5 & [= Hsize <-] & Hload). destruct size as [size|]; cbn [fst] in *.
  2: { destruct Hload as [-> [= -> ->]]. split; [reflexivity|]. intros (h & size & Hp & Hz). rewrite (protocol_at_unique _ _ _ _ Hp Hat) in Hz. congruence. }
  apply efi_bind_inv in Hload as (ptr & [u1 m1] & [-> Hpages]%load_pages_inv & Hload). pose proof (allocate_keeps _ _ _ _ Hpages) as Hsame.
  apply efi_bind_inv in Hload as (bytes & s9 & [-> Hread]%unwrap_inv & Hload). cbn [fst] in Hread.
  apply efi_bind_inv in Hload as ([] & s10 & [= <-] & [= <- <- <-]). cbn [fst snd] in *. split; [done|].
  pose proof (tftp_read_fits _ _ _ _ _ _ Hread) as Hfits. rewrite (same_tftp_read _ _ Hsame) in Hread.
  split; [by exists server, size|]. exists server, size, bytes. do 3 (split; [done|]). split; [|by apply slice_stored_prefix].
  unfold slice_bytes. by rewrite length_map, length_seqZ.
Qed.

(** Both of the loader's files, by either way. *)
Lemma load_file_spec (mode : BootMode) (raw name : str) u u' m m' (r : option (Z * Z)) :
  cstr16 (trim_end_matches (fun c => c =? 0) raw) = Some name -> cstr8 raw = Some name ->
  load_file_from_boot_method raw mode (u, m) = Some (r, (u', m')) ->
  same_services u u' /\
  match r with
  | None => ~ file_found u mode name
  | Some slice => file_found u mode name /\ file_content u mode name (slice_bytes m' slice)
  end.
Proof.
  intros H16 H8. destruct mode; cbn [load_file_from_boot_method]; intros Hload.
  - apply (load_file_from_disk_spec raw name) in Hload as [Hs Hr]; [|done]. split; [done|]. by destruct r as [slice|]; [destruct Hr as (? & ? & _)|].
  - by apply (load_file_from_tftp_spec raw name) in Hload.
Qed.

(** A file of no bytes asks for 2^52 pages; the firmware has none, and the loader
    panics, also on an empty configuration file. *)
Lemma empty_file_panics (raw name : str) u u' m m' (slice : Z * Z) :
  cstr16 (trim_end_matches (fun c => c =? 0) raw) = Some name ->
  pages_for 0 = 2 ^ 52 /\
  ((forall u, allocate_loader_pages u (2 ^ 52) = None) -> load_file_from_disk raw (u, m) = Some (Some slice, (u', m')) -> slice.2 <> 0).
Proof.
  intros Hname. split; [done|]. intros Hno Hload Hzero. apply (load_file_from_disk_spec raw name) in Hload as (_ & _ & _ & Ha & _); [|done].
  rewrite Hzero in Ha. change (pages_for 0) with (2 ^ 52) in Ha. by rewrite Hno in Ha.
Qed.
End Files.

(** ** The kernel, its configuration and the screen *)

Section Started.
Context {U : Type} `{HB : BootServices U} `{!BootServicesSpec U} {K R : Type} `{LoaderFiles K R}.
Implicit Types (u : U) (m : Z -> Z).

Lemma load_kernel_spec (mode : BootMode) u u' m m' (r : option K) :
  load_kernel mode (u, m) = Some (r, (u', m')) ->
  same_services u u' /\
  match r with
  | None => ~ file_found u mode (lit "kernel-x86_64")
  | Some k => file_found u mode (lit "kernel-x86_64") /\
      exists content, file_content u mode (lit "kernel-x86_64") content /\ parse_kernel content = Some k
  end.
Proof.
  intros Hload. unfold load_kernel in Hload. apply or_none_cases in Hload as (slice & [u1 m1] & Hfile & Hload).
  apply (load_file_spec mode _ (lit "kernel-x86_64")) in Hfile as [Hsame Hfile]; [|done..].
  destruct slice as [slice|]; [|by destruct Hload as [-> [= -> ->]]].
  apply efi_bind_inv in Hload as (bytes & s2 & [= <- <-] & Hload). cbn [snd] in Hload.
  apply efi_bind_inv in Hload as (k & s3 & [-> Hk]%lift_inv & [= <- <- <-]). split; [done|].
  destruct Hfile as [Hfound Hcontent]. split; [done|]. by exists (slice_bytes m1 slice).
Qed.

(** The kernel comes from the disk if it is there, and from the network otherwise. *)
Lemma find_kernel_spec (mode : BootMode) (k : K) u u' m m' :
  find_kernel (u, m) = Some (mode, k, (u', m')) ->
  same_services u u' /\ (mode = Disk <-> file_found u Disk (lit "kernel-x86_64")) /\
  exists content, file_content u mode (lit "kernel-x86_64") content /\ parse_kernel content = Some k.
Proof.
  intros Hfind. unfold find_kernel in Hfind. apply efi_bind_inv in Hfind as (disk & [u1 m1] & Hdisk & Hfind).
  apply load_kernel_spec in Hdisk as [Hs1 Hdisk]. destruct disk as [k1|].
  - injection Hfind as <- <- <- <-. destruct Hdisk as [Hfound Hcontent]. by split_and!.
  - apply efi_bind_inv in Hfind as (net & [u2 m2] & Hnet & Hfind). apply load_kernel_spec in Hnet as [Hs2 Hnet].
    apply efi_bind_inv in Hfind as (k2 & s3 & [-> ->]%lift_inv & [= <- <- <- <-]).
    destruct Hnet as (_ & content & Hcontent & Hk). split; [by transitivity u1|]. split; [by split|].
    exists content. split; [|done]. eapply file_content_same; [|done]. by apply same_services_sym.
Qed.

(** The fields of the configuration made from the contents of its file, if there is
    one: the parsed ones or the default ones, and minimum sizes left open by these are
    the kernel's. *)
Definition config_from (file : option (list Z)) (k : K) (config : BootConfig R) : Prop :=
  let base := match file with
              | Some content => match parse_config content with Some parsed => parsed | None => config_default end
              | None => config_default
              end in
  minimum_framebuffer_width config =
    match minimum_framebuffer_width base with Some width => Some width | None => kernel_minimum_width k end /\
  minimum_framebuffer_height config =
    match minimum_framebuffer_height base with Some height => Some height | None => kernel_minimum_height k end /\
  frame_buffer_logging config = frame_buffer_logging base /\ serial_logging config = serial_logging base /\
  rest config = rest base.

Lemma configure_fields (file : option (list Z)) (k : K) : config_from file k (configure k file).
Proof.
  assert (Helse : forall a b, or_else a b = match a with Some x => Some x | None => b end) by (by intros [] b).
  unfold config_from, configure. rewrite !Helse. destruct file as [content|]; cbn; [|done]. by destruct (parse_config content).
Qed.

(** The file it is made from is the loader's other file. *)
Definition configured u (mode : BootMode) (k : K) (config : BootConfig R) : Prop :=
  exists file : option (list Z),
    match file with
    | Some content => file_content u mode (lit "boot.json") content
    | None => ~ file_found u mode (lit "boot.json")
    end /\
    config_from file k config.

Lemma config_file_spec (mode : BootMode) (k : K) u u1 u2 m m1 m2 (slice : option (Z * Z)) (file : option (list Z)) s :
  same_services u u1 -> load_config_file mode (u1, m1) = Some (slice, (u2, m2)) -> read_slice slice (u2, m2) = Some (file, s) ->
  same_services u u2 /\ s = (u2, m2) /\ configured u mode k (configure k file).
Proof.
  intros Hs Hload Hslice. unfold load_config_file in Hload.
  apply (load_file_spec mode _ (lit "boot.json")) in Hload as [Hs2 Hfile]; [|done..].
  split; [by transitivity u1|]. destruct slice as [slice|].
  - unfold read_slice in Hslice. apply efi_bind_inv in Hslice as (bytes & s2 & [= <- <-] & [= <- <-]). split; [done|].
    exists (Some (slice_bytes m2 slice)). split; [|by apply configure_fields].
    eapply file_content_same; [by apply same_services_sym|]. by destruct Hfile.
  - injection Hslice as <- <-. split; [done|]. exists None. split; [|by apply configure_fields]. intros Hf. apply Hfile. by eapply file_found_same.
Qed.

(** A screen that can be opened is handed over as it is described after the mode was
    set: the last of its modes that is large enough, if a minimum is wanted. *)
Definition screen_given u u' (config : BootConfig R) (frame_buffer : option RawFrameBufferInfo) : Prop :=
  match frame_buffer with
  | None => forall gop, graphics_output u = Some gop -> open_graphics u gop = false
  | Some fb => exists gop, graphics_output u = Some gop /\ open_graphics u gop = true /\
      let mode := current_mode_info u' gop in
      let enough := suits (minimum_framebuffer_height config) (minimum_framebuffer_width config) in
      gop_frame_buffer u' gop = (fb_addr fb, byte_len fb) /\
      width (fb_info fb) = Z.to_nat (resolution mode).1 /\ height (fb_info fb) = Z.to_nat (resolution mode).2 /\
      stride (fb_info fb) = Z.to_nat (gop_stride mode) /\ bytes_per_pixel (fb_info fb) = 4%nat /\
      match gop_format mode with
      | GopRgb => pixel_format (fb_info fb) = Rgb
      | GopBgr => pixel_format (fb_info fb) = Bgr
      | GopBitmask | GopBltOnly => False
      end /\
      forall before wanted after, modes u gop = before ++ wanted :: after ->
        is_Some (minimum_framebuffer_height config) \/ is_Some (minimum_framebuffer_width config) ->
        enough wanted = true -> Forall (fun x => enough x = false) after -> mode = wanted
  end.

Lemma screen_given_same u u0 u' (config : BootConfig R) (frame_buffer : option RawFrameBufferInfo) :
  same_services u u0 -> screen_given u0 u' config frame_buffer -> screen_given u u' config frame_buffer.
Proof.
  intros Hs. unfold screen_given. rewrite (same_graphics _ _ Hs). destruct frame_buffer as [fb|].
  - intros (gop & Hg & Ho & Hrest). exists gop. rewrite (same_open_graphics _ _ Hs) in Ho. by rewrite (same_modes _ _ Hs) in Hrest.
  - intros Hno gop Hg. rewrite <- (same_open_graphics _ _ Hs). by apply Hno.
Qed.

Lemma init_logger_spec (config : BootConfig R) u u' m m' (frame_buffer : option RawFrameBufferInfo) :
  init_logger config (u, m) = Some (frame_buffer, (u', m')) ->
  m' = m /\ same_services u u' /\ screen_given u u' config frame_buffer.
Proof.
  intros Hinit. unfold init_logger in Hinit. apply or_none_cases in Hinit as (gop & s1 & [= Hgop <-] & Hinit). cbn [fst] in *.
  destruct gop as [gop|].
  2: { destruct Hinit as [-> [= -> ->]]. split; [done|]. split; [reflexivity|]. intros gop Hg. congruence. }
  apply efi_bind_inv in Hinit as (opened & s2 & [= Hopen <-] & Hinit). cbn [fst] in *.
  destruct opened; cbn [negb] in Hinit.
  2: { injection Hinit as <- <- <-. split; [done|]. split; [reflexivity|]. intros gop' Hg. congruence. }
  apply efi_bind_inv in Hinit as (l & s3 & [= <- <-] & Hinit). apply efi_bind_inv in Hinit as ([] & [u1 m1] & Hset & Hinit). cbn [fst] in *.
  assert (Hmode : m1 = m /\ same_services u u1 /\ forall mode,
            choose_mode (minimum_framebuffer_height config) (minimum_framebuffer_width config) (modes u gop) = Some mode ->
            current_mode_info u1 gop = mode).
  { destruct (choose_mode _ _ _) as [mode|] eqn:Hc.
    - unfold change in Hset. cbn [fst snd] in Hset. destruct (set_mode u gop mode) as [u2|] eqn:Hm; [|done]. injection Hset as <- <-.
      split; [done|]. split; [by eapply set_mode_keeps|]. intros mode' [= <-]. eapply set_mode_sets; [|done].
      apply choose_mode_spec in Hc as (_ & _ & before & after & -> & _). apply elem_of_app. right. by left.
    - injection Hset as <- <-. split; [done|]. split; [reflexivity|done]. }
  destruct Hmode as (-> & Hsame & Hwanted).
  apply efi_bind_inv in Hinit as (info & s4 & [= <- <-] & Hinit). cbn [fst] in *.
  apply efi_bind_inv in Hinit as ([addr size] & s5 & [= Hfb <-] & Hinit). cbn [fst] in *.
  apply efi_bind_inv in Hinit as (format & s6 & [-> Hformat]%lift_inv & Hinit).
  apply efi_bind_inv in Hinit as (addr' & s7 & [-> Haddr]%lift_inv & [= <- <- <-]).
  unfold phys_new in Haddr. destruct (addr <? 2 ^ 52); [injection Haddr as <-|done].
  split; [done|]. split; [done|]. exists gop. do 2 (split; [done|]). cbn. do 5 (split; [done|]).
  split; [by destruct (gop_format _); cbn in Hformat; simplify_eq|].
  intros before wanted after Hmodes Hmin Henough Hafter. apply Hwanted, choose_mode_spec. eauto 8.
Qed.
End Started.

(** ** The hand-over *)

Section Handover.
Context {U : Type} `{HB : BootServices U} `{FirmwareSpec U} {K R : Type} `{LoaderFiles K R}.
Context {F : Type} `{LoaderFramesSpec F} `{VirtAddrs}.
Implicit Types (h : Handover (K := K) (R := R) (F := F)) (u : U) (m : Z -> Z).

(** The steps of a loader that reaches its end. *)
Lemma main_inner_steps (cr3 : Z) u u' m m' h :
  main_inner cr3 (u, m) = Some (h, (u', m')) ->
  exists u1 m1 slice u2 m2 file s m3 ramdisk m4 memory_map config_table,
    find_kernel (u, m) = Some (ho_mode h, ho_kernel h, (u1, m1)) /\
    load_config_file (ho_mode h) (u1, m1) = Some (slice, (u2, m2)) /\ read_slice slice (u2, m2) = Some (file, s) /\
    ho_config h = configure (ho_kernel h) file /\
    init_logger (ho_config h) s = Some (li_framebuffer (ho_info h), (u', m3)) /\
    load_sol_data_partition u' (ho_mode h) m3 = (ramdisk, m4) /\
    (li_ramdisk_addr (ho_info h), li_ramdisk_len (ho_info h)) = ramdisk_fields ramdisk /\
    exit_boot_services u' = (memory_map, config_table) /\
    create_page_tables cr3 (li_framebuffer (ho_info h)) (frames_of (sort_memory_map memory_map)) m4 =
      Some (ho_tables h, ho_cr3 h, ho_frames h, m') /\
    rsdp_address config_table = Some (rsdp_addr (ho_info h)) /\ ho_memory h = m'.
Proof.
  intros Hmain. unfold main_inner in Hmain. apply efi_bind_inv in Hmain as ([mode k] & [u1 m1] & Hfind & Hmain).
  apply efi_bind_inv in Hmain as (slice & [u2 m2] & Hload & Hmain). apply efi_bind_inv in Hmain as (file & s & Hslice & Hmain).
  apply efi_bind_inv in Hmain as (fb & [u3 m3] & Hinit & Hmain). apply efi_bind_inv in Hmain as (ramdisk & s4 & Hram & Hmain).
  unfold load_ramdisk in Hram. cbn [fst snd] in Hram. destruct (load_sol_data_partition u3 mode m3) as [slice' m4] eqn:Hpart.
  injection Hram as -> <-. apply efi_bind_inv in Hmain as ([memory_map config_table] & s5 & [= Hexit <-] & Hmain). cbn [fst] in *.
  apply efi_bind_inv in Hmain as ([[t cr3'] fa'] & s6 & Htables & Hmain).
  unfold on_memory in Htables. cbn [fst snd] in Htables. apply bind_Some in Htables as ([r m5] & Htables & [= -> <-]).
  destruct (ramdisk_fields ramdisk) as [addr len] eqn:Hfields.
  apply efi_bind_inv in Hmain as (rsdp & s7 & [-> Hrsdp]%lift_inv & Hmain).
  apply efi_bind_inv in Hmain as (memory & s8 & [= <- <-] & [= <- <- <-]). cbn [snd].
  exists u1, m1, slice, u2, m2, file, s, m3, ramdisk, m4, memory_map, config_table. by split_and!.
Qed.

(** Nothing comes from a network. *)
Lemma loader_fields (cr3 : Z) u u' m m' h :
  main_inner cr3 (u, m) = Some (h, (u', m')) -> ho_mode h = Tftp ->
  li_ramdisk_addr (ho_info h) = None /\ li_ramdisk_len (ho_info h) = 0.
Proof.
  intros (u1 & m1 & slice & u2 & m2 & file & s & m3 & ramdisk & m4 & map & config & _ & _ & _ & _ & _ & Hram & Hfields & _)%main_inner_steps Hmode.
  rewrite Hmode in Hram. injection Hram as <- _. by injection Hfields.
Qed.

Lemma ramdisk_handed_over (mode : BootMode) u (m0 m' : Z -> Z) (slice : option (Z * Z)) (addr : option Z) (len : Z) :
  load_sol_data_partition u mode m0 = (slice, m') -> (addr, len) = ramdisk_fields slice ->
  match mode with
  | Disk =>
      (forall ptr, addr = Some ptr <-> exists handle, chosen u handle /\ readable u handle ptr) /\
      (forall ptr handle, addr = Some ptr -> chosen u handle ->
         len = 64 * 2 ^ 20 /\ forall i, 0 <= i < 64 * 2 ^ 20 -> m' (ptr + i) = medium u handle i)
  | Tftp => addr = None /\ len = 0
  end.
Proof.
  intros Hload Hfields. destruct mode; [|by injection Hload as <- <-; injection Hfields as -> ->].
  pose proof (load_from_disk_unfold u m0) as Hdisk. rewrite Hload in Hdisk. destruct slice as [[ptr0 len0]|].
  - destruct Hdisk as (h & Hc & Hpart). pose proof (load_partition_result u h m0) as Hres. rewrite Hpart in Hres.
    destruct Hres as (Hread & -> & Hm). injection Hfields as -> ->. split.
    + intros ptr. split; [intros [= <-]; by exists h|]. intros (h' & Hc' & Hread').
      rewrite (chosen_unique u h' h Hc' Hc) in Hread'. f_equal. by eapply readable_unique.
    + intros ptr h' [= <-] Hc'. rewrite (chosen_unique u h' h Hc' Hc). split; [done|]. intros i Hi.
      rewrite Hm, decide_True by (unfold SOL_DATA_BYTES; lia). f_equal. lia.
  - injection Hfields as -> ->. split; [|done]. intros ptr. split; [done|].
    intros (h & Hc & Hread). by destruct (Hdisk h ptr Hc).
Qed.

Context `{!BootServicesSpec U} `{!BootMemorySpec U} `{!VirtAddrsExact}.

(** The page tables leave the pages of the data partition alone. *)
Lemma ramdisk_survives (cr3 : Z) u u' m m' h :
  main_inner cr3 (u, m) = Some (h, (u', m')) ->
  exists m0 slice m1, load_sol_data_partition u' (ho_mode h) m0 = (slice, m1) /\
    (li_ramdisk_addr (ho_info h), li_ramdisk_len (ho_info h)) = ramdisk_fields slice /\
    forall handle ptr i, readable u' handle ptr -> 0 <= i < 64 * 2 ^ 20 -> m' (ptr + i) = m1 (ptr + i).
Proof.
  intros (u1 & m1 & slice & u2 & m2 & file & s & m3 & ramdisk & m4 & map & config & _ & _ & _ & _ & _ & Hram & Hfields & Hexit & Ht & _)%main_inner_steps.
  exists m3, ramdisk, m4. do 2 (split; [done|]). intros handle ptr i (media & _ & _ & Hpages & _) Hi.
  eapply create_page_tables_keeps; [done|].
  pose proof (data_pages_kept u' ptr (ptr + i) Hpages ltac:(lia)) as Hkept. by rewrite Hexit in Hkept.
Qed.

(** The two tables: fresh pages of free memory, the kernel's without an entry. *)
Record tables_made (memory_map : list UefiMemoryDescriptor) (t : PageTables) (fa' : F) m : Prop := {
  tables_aligned : bootloader_table t mod 4096 = 0 /\ kernel_table t mod 4096 = 0;
  tables_apart : bootloader_table t <> kernel_table t;
  tables_free : forall x, bootloader_table t <= x < bootloader_table t + 4096 \/ kernel_table t <= x < kernel_table t + 4096 ->
    listed_free memory_map x;
  tables_taken : ~ unused fa' (bootloader_table t) /\ ~ unused fa' (kernel_table t);
  kernel_frame : kernel_level_4_frame t = kernel_table t;
  kernel_empty : forall x, kernel_table t <= x < kernel_table t + 4096 -> m x = 0;
}.

Lemma tables_made_by (cr3 cr3' : Z) (frame_buffer : option RawFrameBufferInfo) (memory_map : list UefiMemoryDescriptor) (fa' : F) t m m' :
  create_page_tables cr3 frame_buffer (frames_of (sort_memory_map memory_map)) m = Some (t, cr3', fa', m') ->
  cr3' = bootloader_table t /\ tables_made memory_map t fa' m'.
Proof.
  intros Ht. destruct (page_table_frames _ _ _ _ _ _ _ _ Ht) as (Hfree & Hfar & _ & _ & Hal & Hal' & _).
  destruct (create_page_tables_spec _ _ _ _ _ _ _ _ Ht) as [Hempty _].
  apply create_page_tables_steps in Ht as (fa1 & Hf1 & Hf2 & <- & Hk & _). split; [done|].
  apply take_frame_spec in Hf1 as (_ & Hnot1 & _), Hf2 as (_ & Hnot2 & Hsub). rewrite <- Hk in Hnot2.
  split; try done; [lia|]. split; [|done]. by intros Hu%Hsub.
Qed.

(** C18: What the boot loader hands to the kernel.  A loader that does not panic has
    taken the kernel from the file kernel-x86_64 in the root directory of the volume
    it was started from, or, if that has no such file, from the file of that name on
    the boot server, and parsed the bytes read from it.  The configuration is that of
    boot.json from the same place, or the default one, with the kernel's minimum
    sizes where it has none; the screen is described as the firmware describes it
    in the mode this configuration asks for.  When the kernel is entered, the ramdisk
    is: after a start from disk, the 64 MiB of the first sol-data partition, byte for
    byte in memory, if that partition is readable, and nothing otherwise; after a
    start from the network, nothing.  Two pages of free memory, which the allocator
    does not give out again, have become page tables: the kernel's is empty, and the
    one in CR3 has, for all physical memory and the frame buffer, the entries of the
    firmware's table.  The ACPI pointer is the first ACPI 2.0 entry's. *)
Theorem loader_hands_over (cr3 : Z) u u' m m' h :
  main_inner cr3 (u, m) = Some (h, (u', m')) ->
  let info := ho_info h in
  let memory_map := (exit_boot_services u').1 in
  let limit := max_phys_addr (frames_of (F := F) (sort_memory_map memory_map)) in
  (ho_mode h = Disk <-> file_found u Disk (lit "kernel-x86_64")) /\
  (exists content, file_content u (ho_mode h) (lit "kernel-x86_64") content /\ parse_kernel content = Some (ho_kernel h)) /\
  configured u (ho_mode h) (ho_kernel h) (ho_config h) /\
  screen_given u u' (ho_config h) (li_framebuffer info) /\
  match ho_mode h with
  | Disk =>
      (forall ptr, li_ramdisk_addr info = Some ptr <-> exists handle, chosen u' handle /\ readable u' handle ptr) /\
      (forall ptr handle, li_ramdisk_addr info = Some ptr -> chosen u' handle ->
         li_ramdisk_len info = 64 * 2 ^ 20 /\
         forall i, 0 <= i < 64 * 2 ^ 20 -> m' (ptr + i) = medium u' handle i)
  | Tftp => li_ramdisk_addr info = None /\ li_ramdisk_len info = 0
  end /\
  ho_memory h = m' /\ ho_cr3 h = bootloader_table (ho_tables h) /\ tables_made memory_map (ho_tables h) (ho_frames h) m' /\
  (limit <= 2 ^ 47 -> frame_buffer_ok (li_framebuffer info) ->
     cr3 mod 4096 = 0 -> (forall x, cr3 <= x < cr3 + 4096 -> ~ listed_free memory_map x) ->
     keeps_mappings m' cr3 (ho_cr3 h) limit (li_framebuffer info)) /\
  rsdp_addr info = snd <$> find (fun entry => entry.1 =? ACPI2_GUID) (exit_boot_services u').2.
Proof.
  intros Hmain info memory_map limit. destruct (ramdisk_survives _ _ _ _ _ _ Hmain) as (m0 & slice & m1 & Hram & Hfields & Hkeep).
  destruct (main_inner_steps _ _ _ _ _ _ Hmain) as (u1 & m1' & slice' & u2 & m2 & file & s & m3 & ramdisk & m4 & map & config &
    Hfind & Hload & Hslice & Hconfig & Hinit & _ & _ & Hexit & Ht & Hrsdp & Hmemory).
  apply find_kernel_spec in Hfind as (Hs1 & Hmode & Hkernel). subst memory_map limit. rewrite Hexit. cbn [fst snd].
  destruct (config_file_spec _ (ho_kernel h) u u1 u2 m m1' m2 slice' file s Hs1 Hload Hslice) as (Hs2 & -> & Hconfigured).
  rewrite <- Hconfig in Hconfigured. apply init_logger_spec in Hinit as (-> & Hs3 & Hscreen).
  destruct (tables_made_by _ _ _ _ _ _ _ _ Ht) as [Hcr3 Hmade].
  split; [done|]. split; [done|]. split; [done|]. split; [by eapply screen_given_same|]. split; [|split_and!; try done].
  - pose proof (ramdisk_handed_over _ _ _ _ _ _ _ Hram Hfields) as Hover. destruct (ho_mode h); [|done].
    destruct Hover as [Hiff Hbytes]. split; [done|]. intros ptr handle Ha Hc. destruct (Hbytes ptr handle Ha Hc) as [Hlen Hm].
    split; [done|]. intros i Hi. apply Hiff in Ha as (handle' & _ & Hread). by rewrite (Hkeep _ _ _ Hread Hi), Hm.
  - intros Hlimit Hfb Hal Hnot. by apply (create_page_tables_spec _ _ _ _ _ _ _ _ Ht).
  - by apply rsdp_address_spec.
Qed.
End Handover.

(** ** A start *)

(** Services of a machine whose boot volume holds the kernel, with one screen mode
    of 1280 by 800, and crates to go with them. *)
#[export] Instance demo_services {U : Type} : BootServices U := {
  loaded_image_device _ := Some 1;
  open_device_path _ _ := Some 2;
  locate_device_path _ p _ := match p with SimpleFileSystem => Some 3 | BaseCode => None end;
  open_exclusive _ _ _ := true;
  open_volume _ _ := Some 4;
  open_in_root _ _ name := if decide (name = lit "kernel-x86_64") then Some 5 else None;
  into_type _ _ := Some RegularFile;
  file_size _ _ := Some 4;
  read_regular _ _ n := Some (take (Z.to_nat n) [0x7f; 0x45; 0x4c; 0x46]);
  allocate_loader_pages u n := if n <? 2 ^ 20 then Some (0x800000, u) else None;
  dhcp_ack_received _ _ := false;
  bootp_si_addr _ _ := 0;
  tftp_get_file_size _ _ _ _ := None;
  tftp_read_file _ _ _ _ _ := None;
  graphics_output _ := Some 6;
  open_graphics _ _ := true;
  modes _ _ := [{| resolution := (1280, 800); gop_format := GopBgr; gop_stride := 1280 |}];
  set_mode u _ _ := Some u;
  current_mode_info _ _ := {| resolution := (1280, 800); gop_format := GopBgr; gop_stride := 1280 |};
  gop_frame_buffer _ _ := (0x80000000, 4096000);
  exit_boot_services _ := ([{| ty := CONVENTIONAL; phys_start := 0x10000000; page_count := 0x7f00 |}], [(ACPI2_GUID, 0xf0000)]);
}.

#[export] Instance demo_loader_files : LoaderFiles (list Z) unit := {
  parse_kernel bytes := if decide (bytes = [0x7f; 0x45; 0x4c; 0x46]) then Some bytes else None;
  kernel_minimum_height _ := None;
  kernel_minimum_width _ := None;
  parse_config _ := None;
  config_default := {| minimum_framebuffer_width := None; minimum_framebuffer_height := None;
                       frame_buffer_logging := true; serial_logging := true; rest := tt |};
}.

(** The pages of the first region, if it is free; [next] and [end]. *)
#[export] Instance demo_loader_frames : LoaderFrames (Z * Z) := {
  sort_memory_map l := l;
  frames_of l := match l with
                 | d :: _ => if ty d =? CONVENTIONAL then (phys_start d, phys_start d + descriptor_len d) else (0, 0)
                 | [] => (0, 0)
                 end;
  max_phys_addr fa := Z.max (2 ^ 32) fa.2;
  take_frame fa := if (0 <=? fa.1) && (fa.1 mod 4096 =? 0) && (fa.1 + 4096 <=? fa.2)
                   then Some (fa.1, (fa.1 + 4096, fa.2)) else None;
}.

#[export] Instance demo_loader_frames_spec : LoaderFramesSpec (Z * Z).
Proof.
  refine {| unused := fun fa f => 0 <= fa.1 <= f /\ f mod 4096 = 0 /\ f + 4096 <= fa.2 |}.
  - done.
  - intros l f (Hf & Hal & Hend). split; [lia|]. split; [done|]. split; [cbn; cbn in Hend; lia|]. intros x Hx. cbn in Hf, Hend.
    destruct l as [|d l]; [cbn in Hend; lia|]. destruct (Z.eqb_spec (ty d) CONVENTIONAL); [|cbn in Hend; lia]. cbn [fst snd] in *.
    exists d. split; [by left|]. split; [done|lia].
  - intros [next end_] f fa'. cbn [take_frame demo_loader_frames fst snd].
    destruct (Z.leb_spec 0 next), (Z.eqb_spec (next mod 4096) 0), (Z.leb_spec (next + 4096) end_); cbn [andb]; try done.
    intros [= <- <-]. cbn [fst snd]. split; [lia|]. split; [lia|]. intros g (? & ? & ?). lia.
Defined.

Definition demo_screen : RawFrameBufferInfo := {|
  fb_addr := 0x80000000; byte_len := 4096000;
  fb_info := {| width := Z.to_nat 1280; height := Z.to_nat 800; pixel_format := Bgr; bytes_per_pixel := 4; stride := Z.to_nat 1280 |};
|}.

#[export] Instance demo_services_spec {U : Type} : BootServicesSpec U.
Proof.
  split.
  - intros u n p u'. cbn. destruct (n <? 2 ^ 20); [|done]. by intros [= <- <-].
  - intros u g mode u' [= <-]. reflexivity.
  - intros u g mode u' Hin _. cbn in Hin |- *. by apply list_elem_of_singleton in Hin.
  - intros u f n bytes [= <-]. rewrite length_take. lia.
  - done.
Qed.

(** The free memory of these services starts above the pages of the data. *)
Lemma demo_memory_spec {U : Type} `{Firmware U} :
  (forall u ptr, allocate_pages u 16384 = Some ptr -> ptr = 0x1000000) -> BootMemorySpec U.
Proof.
  intros Hptr. split. intros u ptr x ->%Hptr Hx (d & Hd%list_elem_of_singleton & _ & Hfree). subst d. cbn in Hfree. lia.
Qed.

Lemma demo_main_inner {U : Type} `{Firmware U} (u : U) (m : Z -> Z) :
  exists h m', main_inner (K := list Z) (R := unit) (F := Z * Z) 0x3000 (u, m) = Some (h, (u, m')) /\ ho_mode h = Disk.
Proof.
  assert (Hkernel : exists m1, load_kernel (K := list Z) (R := unit) Disk (u, m) = Some (Some [0x7f; 0x45; 0x4c; 0x46], (u, m1))).
  { eexists. reflexivity. }
  destruct Hkernel as [m1 Hk].
  destruct (load_sol_data_partition u Disk m1) as [slice m2] eqn:Hload.
  destruct (create_page_tables_succeeds (F := Z * Z) 0x3000 (Some demo_screen) (0x10000000, 0x17f00000)
              (0x10001000, 0x17f00000) (0x10002000, 0x17f00000) 0x10000000 0x10001000 m2) as (t & m' & Ht);
    [cbn; lia|intros fb [= <-]; cbn; lia|lia|done|done|lia|lia|].
  unfold main_inner. rewrite (efi_bind_eq find_kernel _ _ (Disk, [0x7f; 0x45; 0x4c; 0x46]) (u, m1))
    by (unfold find_kernel; by rewrite (efi_bind_eq _ _ _ _ _ Hk)).
  rewrite (efi_bind_eq (load_config_file Disk) _ _ None (u, m1)) by reflexivity.
  rewrite (efi_bind_eq (read_slice None) _ _ None (u, m1)) by reflexivity.
  rewrite (efi_bind_eq (init_logger _) _ _ (Some demo_screen) (u, m1)) by reflexivity.
  rewrite (efi_bind_eq (load_ramdisk Disk) _ _ slice (u, m2)) by (unfold load_ramdisk; cbn [fst snd]; by rewrite Hload).
  rewrite (efi_bind_eq (ask exit_boot_services) _ _
    ([{| ty := CONVENTIONAL; phys_start := 0x10000000; page_count := 0x7f00 |}], [(ACPI2_GUID, 0xf0000)]) (u, m2)) by done.
  cbv beta iota zeta.
  rewrite (efi_bind_eq (on_memory _) _ _ (t, 0x10000000, (0x10002000, 0x17f00000)) (u, m'))
    by (unfold on_memory; cbn [snd]; change (frames_of _) with (0x10000000, 0x17f00000); by rewrite Ht).
  destruct slice as [[ptr len]|]; do 2 eexists; split; reflexivity.
Qed.

#[export] Instance demo_firmware_memory : BootMemorySpec demo_firmware.
Proof. apply demo_memory_spec. intros u ptr. cbn. congruence. Qed.

(** The kernel and the demo firmware's data partition are handed over, with a page
    table that has the firmware's first entry. *)
Lemma loader_hands_over_witness :
  exists h m', main_inner (K := list Z) (R := unit) (F := Z * Z) 0x3000 (DemoFirmware, fun _ => 0) = Some (h, (DemoFirmware, m')) /\
    ho_kernel h = [0x7f; 0x45; 0x4c; 0x46] /\ ho_config h = config_default /\
    li_ramdisk_addr (ho_info h) = Some 0x1000000 /\ li_ramdisk_len (ho_info h) = 64 * 2 ^ 20 /\
    m' (0x1000000 + 5000) = 5000 mod 256 /\ rsdp_addr (ho_info h) = Some 0xf0000 /\
    forall k, 0 <= k < 8 -> m' (ho_cr3 h + k) = m' (0x3000 + k).
Proof.
  destruct (demo_main_inner DemoFirmware (fun _ => 0)) as (h & m' & Hmain & Hmode). exists h, m'.
  destruct (loader_hands_over 0x3000 DemoFirmware DemoFirmware (fun _ => 0) m' h Hmain)
    as (_ & (content & Hcontent & Hkernel) & (file & Hfile & Hconfig) & Hscreen & Hramdisk & _ & _ & _ & Hmaps & Hrsdp).
  rewrite Hmode in *. destruct Hramdisk as [Hiff Hbytes]. split; [exact Hmain|].
  split. { clear -Hkernel. cbn in Hkernel. by case_decide; simplify_eq. }
  split. { clear -Hconfig. destruct file; destruct Hconfig as (Hw & Hh & Hf & Hs & Hr); cbn in Hw, Hh, Hf, Hs, Hr;
           destruct (ho_config h); cbn in *; by subst. }
  assert (Haddr : li_ramdisk_addr (ho_info h) = Some 0x1000000).
  { apply Hiff. exists 2. split; [exact demo_chosen|exact demo_readable]. }
  destruct (Hbytes 0x1000000 2 Haddr demo_chosen) as [Hlen Hm].
  split; [exact Haddr|]. split; [exact Hlen|]. split; [exact (Hm 5000 ltac:(lia))|]. split; [exact Hrsdp|].
  intros k Hk. clear -Hk Hmaps Hscreen. specialize (Hmaps ltac:(by vm_compute)). refine (_ (Hmaps _ ltac:(done) _ 0 k (or_introl _) Hk)).
  - intros Hmap. change (8 * p4_index 0) with 0 in Hmap. by rewrite !Z.add_0_r in Hmap.
  - intros fb Hfb. rewrite Hfb in Hscreen. destruct Hscreen as (gop & _ & _ & Hbuffer & _). injection Hbuffer as <- <-. lia.
  - intros x Hx (d & Hd%list_elem_of_singleton & _ & Hfree). subst d. cbn in Hfree. lia.
  - cbn. lia.
Defined.
