(* ===== verification/BootStart.v ===== *)
(** * BootStart: the boot loader on the volume the build made

    Composes [DiskImage], the configuration of [BuildScript] and [BootLoader]: the
    files the build puts on the boot volume are the files the boot loader looks for,
    and with them it reaches the kernel. *)

From S2P Require Import Prelude VirtAddr Storage Str Console Framebuffer Memory Loader.
From S2P Require Import HostFs DataVolume DiskImage BuildScript BootLoader LoaderHandover.
#[local] Open Scope Z_scope.

Section Start.
Context {U : Type} `{HB : BootServices U} `{!BootServicesSpec U} {K R : Type} `{LoaderFiles K R}.
Context {F : Type} `{LoaderFrames F} `{VirtAddrs} `{!VirtAddrsSpec} `{Firmware U}.
Implicit Types (u : U) (m : Z -> Z).

(** ** The boot volume as the firmware shows it *)

Definition holds_file u (root : Z) (name : str) (content : list Z) : Prop :=
  exists file, open_in_root u root name = Some file /\ into_type u file = Some RegularFile /\
    file_size u file = Some (Z.of_nat (length content)) /\ read_regular u file (Z.of_nat (length content)) = Some content.

(** The files in the root directory are those of [c]. *)
Definition shows_files u (root : Z) (c : list str -> option fat_node) : Prop :=
  forall name content, c [name] = Some (FatFile content) -> holds_file u root name content.

Lemma holds_file_same u u' root name content : same_services u u' -> holds_file u root name content -> holds_file u' root name content.
Proof. intros [] (file & ? & ? & ? & ?). exists file. by split_and!; congruence. Qed.

Lemma boot_root_opens u m root :
  boot_root u root -> exists handle, locate_and_open_protocol SimpleFileSystem (u, m) = Some (Some handle, (u, m)) /\
    open_volume u handle = Some root.
Proof.
  intros (handle & Hp & Hv). destruct (locate_result SimpleFileSystem u m) as ([handle'|] & Hloc & Hat).
  - rewrite (protocol_at_unique _ _ _ _ Hat Hp) in Hloc. by exists handle.
  - by destruct (Hat handle).
Qed.

Lemma slice_stored m (p : Z) (content : list Z) :
  slice_bytes (store_bytes m p content) (p, Z.of_nat (length content)) = content.
Proof.
  unfold slice_bytes. cbn [fst snd]. apply list_eq. intros i. rewrite list_lookup_fmap.
  destruct (decide (i < length content)%nat) as [Hi|Hi].
  - rewrite lookup_seqZ_lt by lia. cbn. rewrite store_bytes_spec, decide_True by lia.
    replace (Z.to_nat (p + Z.of_nat i - p)) with i by lia.
    destruct (nth_lookup_or_length content i 0) as [Heq|Hlen]; [by rewrite Heq|lia].
  - rewrite lookup_seqZ_ge by lia. cbn. symmetry. apply lookup_ge_None. lia.
Qed.

(** A file on the volume is loaded. *)
Lemma load_file_found (raw name : str) u u1 m root (content : list Z) (p : Z) :
  boot_root u root -> holds_file u root name content ->
  (length raw < 256)%nat -> cstr16 (trim_end_matches (fun c => c =? 0) raw) = Some name ->
  allocate_loader_pages u (pages_for (Z.of_nat (length content))) = Some (p, u1) ->
  exists m1, load_file_from_disk raw (u, m) = Some (Some (p, Z.of_nat (length content)), (u1, m1)) /\
    slice_bytes m1 (p, Z.of_nat (length content)) = content.
Proof.
  intros Hroot (file & Ho & Ht & Hs & Hr) Hraw Hname Ha. pose proof (allocate_keeps _ _ _ _ Ha) as Hsame.
  destruct (boot_root_opens u m root Hroot) as (handle & Hloc & Hvol). eexists. split; [|apply slice_stored].
  unfold load_file_from_disk. unfold or_none at 1. rewrite (efi_bind_eq _ _ _ _ _ Hloc).
  rewrite (efi_bind_eq _ _ _ root (u, m)) by (unfold unwrap; cbn [fst]; by rewrite Hvol).
  rewrite (proj2 (Nat.leb_gt _ _) Hraw).
  rewrite (efi_bind_eq _ _ _ name (u, m)) by (unfold lift, unwrap; by rewrite Hname).
  unfold or_none. rewrite (efi_bind_eq _ _ _ (Some file) (u, m)) by (unfold ask; cbn [fst]; by rewrite Ho).
  rewrite (efi_bind_eq _ _ _ RegularFile (u, m)) by (unfold unwrap; cbn [fst]; by rewrite Ht).
  rewrite (efi_bind_eq _ _ _ (Z.of_nat (length content)) (u, m)) by (unfold unwrap; cbn [fst]; by rewrite Hs).
  rewrite (efi_bind_eq _ _ _ p (u1, m)) by (unfold load_pages; cbn [fst snd]; by rewrite Ha).
  unfold clear. unfold mbind at 1, Efi_bind at 1. cbn [mbind option_bind fst snd].
  rewrite (efi_bind_eq _ _ _ content (u1, _)) by (unfold unwrap; cbn [fst]; by rewrite (same_read _ _ Hsame), Hr).
  reflexivity.
Qed.

(** ** The screen *)

(** Modes can be set, their formats are supported, and the frame buffer lies in the
    lower half of the address space. *)
Definition screen_ready u : Prop :=
  forall gop u', graphics_output u = Some gop -> same_services u u' ->
    (forall mode, mode ∈ modes u gop -> is_Some (set_mode u' gop mode)) /\
    is_Some (pixel_format_of (gop_format (current_mode_info u' gop))) /\
    let '(addr, size) := gop_frame_buffer u' gop in 0 <= addr /\ 0 <= size /\ addr + size < 2 ^ 47.

(** A screen that can be opened has the requested size when one of its modes has. *)
Definition screen_shown u (config : BootConfig R) (frame_buffer : option RawFrameBufferInfo) : Prop :=
  match frame_buffer with
  | None => forall gop, graphics_output u = Some gop -> open_graphics u gop = false
  | Some fb => exists gop mode, graphics_output u = Some gop /\
      width (fb_info fb) = Z.to_nat (resolution mode).1 /\ height (fb_info fb) = Z.to_nat (resolution mode).2 /\
      (is_Some (minimum_framebuffer_height config) \/ is_Some (minimum_framebuffer_width config) ->
       (exists mode', mode' ∈ modes u gop /\
          suits (minimum_framebuffer_height config) (minimum_framebuffer_width config) mode' = true) ->
       suits (minimum_framebuffer_height config) (minimum_framebuffer_width config) mode = true)
  end.

Lemma choose_mode_none (height width : option Z) (l : list ModeInfo) (mode : ModeInfo) :
  is_Some height \/ is_Some width -> mode ∈ l -> suits height width mode = true -> choose_mode height width l <> None.
Proof.
  intros Hmin Hin Hsuits Hnone.
  assert (Hfilter : forall f, mode ∈ l -> f mode = true -> last (List.filter f l) <> None).
  { intros f Hl Hf Hlast%last_None. assert (Hm : In mode (List.filter f l)) by (apply filter_In; by rewrite <- list_elem_of_In).
    by rewrite Hlast in Hm. }
  unfold suits, meets in Hsuits. unfold choose_mode in Hnone.
  destruct height, width; rewrite ?andb_true_r, ?andb_true_l in Hsuits; [by eapply Hfilter in Hnone..|].
  by destruct Hmin as [[? ?]|[? ?]].
Qed.

(** The mode after the one asked for has been set. *)
Lemma mode_applied (config : BootConfig R) u m gop :
  screen_ready u -> graphics_output u = Some gop ->
  exists u', (match choose_mode (minimum_framebuffer_height config) (minimum_framebuffer_width config) (modes u gop) with
              | Some mode => change (fun u => set_mode u gop mode)
              | None => mret tt
              end) (u, m) = Some (tt, (u', m)) /\ same_services u u' /\
    forall mode, choose_mode (minimum_framebuffer_height config) (minimum_framebuffer_width config) (modes u gop) = Some mode ->
      current_mode_info u' gop = mode.
Proof.
  intros Hready Hgop. destruct (choose_mode _ _ _) as [mode|] eqn:Hc; [|by exists u].
  pose proof Hc as (_ & _ & before & after & Hmodes & _)%choose_mode_spec.
  assert (Hin : mode ∈ modes u gop) by (rewrite Hmodes; apply elem_of_app; right; by left).
  destruct (Hready gop u Hgop ltac:(reflexivity)) as (Hset & _). destruct (Hset mode Hin) as [u' Hu'].
  exists u'. split; [unfold change; cbn [fst snd]; by rewrite Hu'|]. split; [by eapply set_mode_keeps|].
  intros mode' [= <-]. by eapply set_mode_sets.
Qed.

Lemma init_logger_shows (config : BootConfig R) u m :
  screen_ready u -> exists frame_buffer u', init_logger config (u, m) = Some (frame_buffer, (u', m)) /\ same_services u u' /\
    frame_buffer_ok frame_buffer /\ screen_shown u config frame_buffer.
Proof.
  intros Hready. unfold init_logger, or_none. destruct (graphics_output u) as [gop|] eqn:Hgop.
  2: { exists None, u. split; [unfold ask, mbind, Efi_bind; cbn [fst]; by rewrite Hgop|]. split; [reflexivity|]. split; [done|]. intros gop Hg. congruence. }
  rewrite (efi_bind_eq _ _ _ (Some gop) (u, m)) by (unfold ask; cbn [fst]; by rewrite Hgop).
  rewrite (efi_bind_eq _ _ _ (open_graphics u gop) (u, m)) by done.
  destruct (open_graphics u gop) eqn:Hopen; cbn [negb].
  2: { exists None, u. split; [done|]. split; [reflexivity|]. split; [done|]. intros gop' Hgop'. congruence. }
  rewrite (efi_bind_eq _ _ _ (modes u gop) (u, m)) by done.
  destruct (mode_applied config u m gop Hready Hgop) as (u' & Hset & Hsame & Hcurrent).
  rewrite (efi_bind_eq _ _ _ tt (u', m)) by exact Hset. destruct (Hready gop u' Hgop Hsame) as (_ & [format Hformat] & Hfb).
  rewrite (efi_bind_eq _ _ _ (current_mode_info u' gop) (u', m)) by done.
  destruct (gop_frame_buffer u' gop) as [addr size] eqn:Hbuffer. destruct Hfb as (Ha & Hsize & Hend).
  rewrite (efi_bind_eq _ _ _ (addr, size) (u', m)) by (unfold ask; cbn [fst]; by rewrite Hbuffer).
  rewrite (efi_bind_eq _ _ _ format (u', m)) by (unfold lift, unwrap; by rewrite Hformat).
  rewrite (efi_bind_eq _ _ _ addr (u', m)) by (unfold lift, unwrap, phys_new; by decide_tests).
  do 2 eexists. split; [reflexivity|]. split; [done|]. split; [by intros fb [= <-]|].
  exists gop, (current_mode_info u' gop). do 3 (split; [done|]). intros Hmin (mode & Hin & Hsuits).
  pose proof (choose_mode_none _ _ _ _ Hmin Hin Hsuits) as Hsome. destruct (choose_mode _ _ _) as [chosen|] eqn:Hc; [|done].
  rewrite (Hcurrent chosen eq_refl). by apply choose_mode_spec in Hc as (_ & ? & _).
Qed.

Lemma screen_ready_same u u' : same_services u u' -> screen_ready u -> screen_ready u'.
Proof.
  intros Hsame Hready gop u2 Hgop Hsame2. rewrite (same_graphics _ _ Hsame) in Hgop.
  destruct (Hready gop u2 Hgop ltac:(by transitivity u')) as (Hset & Hrest). split; [|done].
  intros mode. rewrite (same_modes _ _ Hsame). apply Hset.
Qed.

Lemma screen_shown_same u u' config fb : same_services u u' -> screen_shown u' config fb -> screen_shown u config fb.
Proof.
  intros Hsame. unfold screen_shown. destruct fb as [fb|].
  - intros (gop & mode & Hgop & Hw & Hh & Hsuits). exists gop, mode.
    rewrite (same_modes _ _ Hsame) in Hsuits. rewrite (same_graphics _ _ Hsame) in Hgop. done.
  - intros Hnone gop Hgop. rewrite <- (same_open_graphics _ _ Hsame). apply Hnone. by rewrite (same_graphics _ _ Hsame).
Qed.

(** ** Memory *)

(** Two frames for page tables, and addresses that fit. *)
Definition memory_ready u : Prop :=
  forall u', same_services u u' ->
    let frames := frames_of (F := F) (sort_memory_map (exit_boot_services u').1) in
    1 <= max_phys_addr frames <= 2 ^ 47 /\
    (exists f1 rest1 f2 rest2, take_frame frames = Some (f1, rest1) /\ take_frame rest1 = Some (f2, rest2) /\
       0 <= f1 < 2 ^ 47 /\ 0 <= f2 < 2 ^ 47) /\
    Forall (fun entry => entry.2 < 2 ^ 52) (exit_boot_services u').2.

Lemma rsdp_address_succeeds (config_table : list (Z * Z)) :
  Forall (fun entry => entry.2 < 2 ^ 52) config_table -> is_Some (rsdp_address config_table).
Proof.
  intros Hall. unfold rsdp_address. rewrite find_rsdp_spec. destruct (find _ _) as [entry|] eqn:Hf; [|done].
  apply find_some in Hf as [Hin%list_elem_of_In _]. rewrite Forall_forall in Hall. specialize (Hall entry Hin).
  unfold phys_new. by rewrite (proj2 (Z.ltb_lt _ _) Hall).
Qed.
(** ** The start *)

Section Volume.
Context (default_config : BootConfig R) (json loader bytes : blob).

(** The firmware shows the boot volume, whose files are not empty, and has pages for
    the two of them that are loaded. *)
Definition volume_ready u : Prop :=
  exists root p1 u1 p2 u2, boot_root u root /\ shows_files u root (boot_contents json loader bytes) /\
    0 < blob_len bytes /\ 0 < blob_len json /\
    allocate_loader_pages u (pages_for (blob_len bytes)) = Some (p1, u1) /\
    allocate_loader_pages u1 (pages_for (blob_len json)) = Some (p2, u2).

(** The kernel and the configuration are read back. *)
Lemma volume_files_found (k : K) u m :
  volume_ready u -> parse_kernel (blob_bytes bytes) = Some k ->
  exists u1 m1 slice u2 m2, find_kernel (K := K) (R := R) (u, m) = Some (Disk, k, (u1, m1)) /\
    load_config_file Disk (u1, m1) = Some (Some slice, (u2, m2)) /\
    read_slice (Some slice) (u2, m2) = Some (Some (blob_bytes json), (u2, m2)) /\ same_services u u2.
Proof.
  intros (root & p1 & u1 & p2 & u2 & Hroot & Hfiles & Hb & Hj & Ha1 & Ha2) Hparse.
  pose proof (allocate_keeps _ _ _ _ Ha1) as Hs1. pose proof (allocate_keeps _ _ _ _ Ha2) as Hs2.
  assert (Hlen : forall b, 0 < blob_len b -> blob_len b = Z.of_nat (length (blob_bytes b)))
    by (intros b Hpos; rewrite length_blob_bytes; lia).
  rewrite (Hlen _ Hb) in Ha1. rewrite (Hlen _ Hj) in Ha2.
  destruct (load_file_found (lit "kernel-x86_64" ++ [0]) KERNEL_FILE_NAME u u1 m root (blob_bytes bytes) p1) as (m1 & Hk & Hkb);
    [done|by apply Hfiles|by apply Nat.ltb_lt|done|done|].
  destruct (load_file_found (lit "boot.json" ++ [0]) CONFIG_FILE_NAME u1 u2 m1 root (blob_bytes json) p2) as (m2 & Hc & Hcb);
    [by eapply boot_root_same|by eapply holds_file_same, Hfiles|by apply Nat.ltb_lt|done|done|].
  exists u1, m1, (p2, Z.of_nat (length (blob_bytes json))), u2, m2. split; [|split; [exact Hc|split]].
  - unfold find_kernel, load_kernel. unfold mbind at 1, Efi_bind at 1. unfold or_none, load_file_from_boot_method.
    rewrite (efi_bind_eq _ _ _ _ _ Hk). unfold contents_of, lift, unwrap, mbind, Efi_bind, mret, Efi_ret. cbn [fst snd].
    cbn. rewrite Hkb. cbn. by rewrite Hparse.
  - unfold read_slice, contents_of, mbind, Efi_bind, mret, Efi_ret. cbn [fst snd]. cbn. by rewrite Hcb.
  - by transitivity u1.
Qed.

(** The configuration of the file has both minimum sizes. *)
Lemma configure_boot (k : K) :
  parse_config (blob_bytes json) = Some (boot_config default_config) ->
  configure k (Some (blob_bytes json)) = boot_config default_config.
Proof. intros Hparse. unfold configure. cbn [mbind option_bind]. by rewrite Hparse. Qed.

(** C19: The boot loader starts the kernel from the volume the build made.  Let the
    firmware show the boot volume's files, have room for them, and let the JSON text
    of the configuration and the kernel be parsed as what they were made from.  Then
    the boot loader does not panic: it finds the kernel and the configuration under
    the names the build gave them, and hands over that kernel, started from disk, and
    exactly the configuration of the build script.  The kernel gets a screen unless
    none can be opened, and whenever the screen has a mode of at least 1024 by 768,
    the one in use has that size. *)
Theorem boot_volume_starts (k : K) (cr3 : Z) u m :
  0 <= cr3 < 2 ^ 47 -> volume_ready u -> screen_ready u -> memory_ready u ->
  parse_kernel (blob_bytes bytes) = Some k -> parse_config (blob_bytes json) = Some (boot_config default_config) ->
  exists h s, main_inner (F := F) cr3 (u, m) = Some (h, s) /\
    ho_mode h = Disk /\ ho_kernel h = k /\ ho_config h = boot_config default_config /\
    match li_framebuffer (ho_info h) with
    | None => forall gop, graphics_output u = Some gop -> open_graphics u gop = false
    | Some fb => exists gop, graphics_output u = Some gop /\
        ((exists mode, mode ∈ modes u gop /\ 1024 <= (resolution mode).1 /\ 768 <= (resolution mode).2) ->
         (1024 <= width (fb_info fb))%nat /\ (768 <= height (fb_info fb))%nat)
    end.
Proof.
  intros Hcr3 Hvolume Hscreen Hmemory Hkernel Hconfig.
  destruct (volume_files_found k u m Hvolume Hkernel) as (u1 & m1 & slice & u2 & m2 & Hfind & Hload & Hslice & Hsame).
  unfold main_inner. rewrite (efi_bind_eq _ _ _ _ _ Hfind), (efi_bind_eq _ _ _ _ _ Hload), (efi_bind_eq _ _ _ _ _ Hslice).
  rewrite (configure_boot k Hconfig).
  destruct (init_logger_shows (boot_config default_config) u2 m2 (screen_ready_same _ _ Hsame Hscreen))
    as (fb & u3 & Hlogger & Hsame3 & Hfb & Hshown%(screen_shown_same u)); [|done].
  rewrite (efi_bind_eq _ _ _ _ _ Hlogger).
  destruct (load_sol_data_partition u3 Disk m2) as [ramdisk m3] eqn:Hramdisk.
  rewrite (efi_bind_eq (load_ramdisk Disk) _ _ ramdisk (u3, m3)) by (unfold load_ramdisk; cbn [fst snd]; by rewrite Hramdisk).
  destruct (Hmemory u3 ltac:(by transitivity u2)) as (Hmax & (f1 & rest1 & f2 & rest2 & Hf1 & Hf2 & Hc1 & Hc2) & Hentries).
  destruct (create_page_tables_succeeds cr3 fb _ rest1 rest2 f1 f2 m3 Hmax Hfb Hcr3 Hf1 Hf2 Hc1 Hc2) as (t & m4 & Ht).
  destruct (rsdp_address_succeeds _ Hentries) as [rsdp Hrsdp].
  destruct (exit_boot_services u3) as [memory_map config_table] eqn:Hexit. cbn [fst snd] in Ht, Hrsdp.
  rewrite (efi_bind_eq _ _ _ (memory_map, config_table) (u3, m3)) by (unfold ask; cbn [fst]; by rewrite Hexit).
  rewrite (efi_bind_eq _ _ _ (t, f1, rest2) (u3, m4)) by (unfold on_memory; cbn [fst snd]; by rewrite Ht).
  destruct (ramdisk_fields ramdisk) as [addr len].
  rewrite (efi_bind_eq _ _ _ rsdp (u3, m4)) by (unfold lift, unwrap; cbn [fst]; by rewrite Hrsdp).
  do 2 eexists. split; [reflexivity|]. do 3 (split; [done|]). cbn [ho_info li_framebuffer].
  destruct fb as [fb|]; [|done]. destruct Hshown as (gop & mode & Hgop & Hw & Hh & Hsuits). exists gop. split; [done|].
  intros (mode' & Hin & Hw' & Hh'). rewrite Hw, Hh.
  assert (Hs : suits (Some 768) (Some 1024) mode = true).
  { apply Hsuits; [by left|]. exists mode'. split; [done|]. unfold suits. cbn. by rewrite !(proj2 (Z.leb_le _ _)). }
  unfold suits in Hs. cbn [meets] in Hs. apply andb_true_iff in Hs as [Hh2%Z.leb_le Hw2%Z.leb_le]. lia.
Qed.
End Volume.
End Start.

(** ** A machine that starts

    Its boot volume holds a kernel and a configuration, its screen has two modes, and
    the state of its services is whether the larger one is in use. *)

Definition small_mode : ModeInfo := {| resolution := (800, 600); gop_format := GopBgr; gop_stride := 800 |}.
Definition large_mode : ModeInfo := {| resolution := (1920, 1080); gop_format := GopBgr; gop_stride := 1920 |}.

Definition start_kernel : list Z := [0x7f; 0x45; 0x4c; 0x46].
Definition start_json : list Z := lit "{}".

(** A file's number is its place on the volume. *)
Definition start_file (file : Z) : list Z := if file =? 5 then start_kernel else start_json.

#[export] Instance start_services : BootServices bool := {
  loaded_image_device _ := Some 1;
  open_device_path _ _ := Some 2;
  locate_device_path _ p _ := match p with SimpleFileSystem => Some 3 | BaseCode => None end;
  open_exclusive _ _ _ := true;
  open_volume _ _ := Some 4;
  open_in_root _ _ name :=
    if decide (name = KERNEL_FILE_NAME) then Some 5 else if decide (name = CONFIG_FILE_NAME) then Some 6 else None;
  into_type _ _ := Some RegularFile;
  file_size _ file := Some (Z.of_nat (length (start_file file)));
  read_regular _ file n := Some (take (Z.to_nat n) (start_file file));
  allocate_loader_pages u n := if n <? 2 ^ 20 then Some (0x800000, u) else None;
  dhcp_ack_received _ _ := false;
  bootp_si_addr _ _ := 0;
  tftp_get_file_size _ _ _ _ := None;
  tftp_read_file _ _ _ _ _ := None;
  graphics_output _ := Some 7;
  open_graphics _ _ := true;
  modes _ _ := [small_mode; large_mode];
  set_mode _ _ mode := Some ((resolution mode).1 =? 1920);
  current_mode_info large _ := if large : bool then large_mode else small_mode;
  gop_frame_buffer _ _ := (0x80000000, 8294400);
  exit_boot_services _ := ([{| ty := CONVENTIONAL; phys_start := 0x10000000; page_count := 0x7f00 |}], [(ACPI2_GUID, 0xf0000)]);
}.

#[export] Instance start_services_spec : BootServicesSpec bool.
Proof.
  split.
  - intros u n p u'. cbn. destruct (n <? 2 ^ 20); [|done]. by intros [= <- <-].
  - intros u g mode u' _. by split.
  - intros u g mode u' Hin [= <-]. cbn in Hin |- *. by apply elem_of_cons in Hin as [->|[->|Hin%elem_of_nil]%elem_of_cons].
  - intros u f n bytes [= <-]. rewrite length_take. lia.
  - done.
Qed.

(** It has no data partition. *)
#[export] Instance start_firmware : Firmware bool := {
  locate_partition_handles _ := Some [];
  open_partition_info _ _ := None;
  open_block_io _ _ := None;
  allocate_pages _ _ := None;
  read_blocks _ _ _ _ _ := None;
}.

Definition start_default : BootConfig unit := {|
  minimum_framebuffer_width := None; minimum_framebuffer_height := None;
  frame_buffer_logging := true; serial_logging := true; rest := tt;
|}.

#[export] Instance start_files : LoaderFiles (list Z) unit := {
  parse_kernel file := if decide (file = start_kernel) then Some file else None;
  kernel_minimum_height _ := None;
  kernel_minimum_width _ := None;
  parse_config file := if decide (file = start_json) then Some (boot_config start_default) else None;
  config_default := start_default;
}.

Definition list_blob (l : list Z) : blob := {| blob_len := Z.of_nat (length l); blob_at := fun x => nth (Z.to_nat x) l 0 |}.

Lemma start_volume_ready (loader : blob) : volume_ready (list_blob start_json) loader (list_blob start_kernel) false.
Proof.
  exists 4, 0x800000, false, 0x800000, false. split; [by exists 3; split; [by exists 1, 2|]|]. split; [|done].
  intros name content. unfold boot_contents.
  case_decide as Hq; [intros Hc; injection Hc as <-; injection Hq as ->; by exists 6|].
  case_decide as Hq'; [intros Hc; injection Hc as <-; injection Hq' as ->; by exists 5|].
  by repeat case_decide.
Qed.

(** The kernel is started with the larger mode. *)
Lemma boot_volume_starts_witness :
  exists h s, main_inner (U := bool) (K := list Z) (R := unit) (F := Z * Z) 0x3000 (false, fun _ => 0) = Some (h, s) /\
    ho_kernel h = start_kernel /\ ho_config h = boot_config start_default /\
    exists fb, li_framebuffer (ho_info h) = Some fb /\ (1024 <= width (fb_info fb))%nat.
Proof.
  destruct (boot_volume_starts (U := bool) (K := list Z) (R := unit) (F := Z * Z) start_default (list_blob start_json)
    (list_blob []) (list_blob start_kernel) start_kernel 0x3000 false (fun _ => 0))
    as (h & s & Hmain & _ & Hk & Hc & Hscreen).
  - lia.
  - exact (start_volume_ready _).
  - intros gop u' _ _. cbn. split; [by eexists|]. split; [by destruct u'; eexists|lia].
  - intros u' _. cbn. split; [by split; vm_compute|]. split; [by do 4 eexists; split_and!|]. by repeat constructor.
  - reflexivity.
  - reflexivity.
  - exists h, s. split; [exact Hmain|]. split; [exact Hk|]. split; [exact Hc|].
    destruct (li_framebuffer (ho_info h)) as [fb|]; [|by specialize (Hscreen 7 eq_refl)].
    exists fb. split; [reflexivity|]. destruct Hscreen as (gop & _ & Hsize). apply Hsize. exists large_mode. cbn.
    split; [by right; left|lia].
Defined.
