(* ===== verification/EndToEnd.v ===== *)
(** * EndToEnd: from the files of the host to the shell

    Composes the image builder, the boot loader's hand-off, the kernel's start and
    its file system: the files of a FAT32 volume that the build puts into the image
    are the files the shell shows. *)

From S2P Require Import Gdt.
From S2P Require Import Prelude VirtAddr Storage Str Fat32 Fat32Geometry Fat32Files Ports Keyboard Console.
From S2P Require Import Allocator Memory Timer Pic Serial Framebuffer FramebufferPixels FramebufferText Terminal.
From S2P Require Import Interrupts Shell ShellCommands Boot.
From S2P Require Import Loader Launcher HostFs HostTree ImageBuilder ImageBoot DataVolume FatFormat.
From S2P Require Import DiskImage BootLoader LoaderHandover.
From stdpp Require Import gmap.
#[local] Open Scope Z_scope.

(** ** What the shell shows of a file *)

Section Shell.
Context {D : Type} `{HBD : BlockDevice D}.

(** [cat] prints a text file of the tree. *)
Lemma cat_shows (fs : Fat32.Fat32 D) (n : node) (path : str) (content : list Z) :
  kernel_shows fs n path -> shown_at n (fat_path path) = Some (FatFile content) -> ascii_str content ->
  exists acts, cat fs [path] = Some acts /\ Str.encode (shown_all acts) = content ++ [0x0a].
Proof.
  unfold kernel_shows. intros Hshows Hfile Hascii. rewrite Hfile in Hshows. destruct Hshows as [Hread _].
  destruct (Hread _ (fun chunk acts => acts ++ print_file_chunk chunk) []) as (chunks & Hrun & Hcat & _).
  unfold cat. rewrite Hrun. eexists. split; [done|]. rewrite shown_all_app, encode_app, deliver_prints.
  - cbn [app]. by rewrite Hcat.
  - rewrite <- Hcat in Hascii. unfold ascii_str in Hascii. rewrite Forall_concat in Hascii.
    eapply Forall_impl; [exact Hascii|]. intros c Hc. by rewrite from_utf8_ascii.
Qed.
End Shell.

(** ** The whole way *)

Section Boot.
Context {Tb : Type} `{GptSpec Tb} {U : Type} `{FirmwareSpec U} (st : U).
Context `{HB : BootServices U} `{!BootServicesSpec U} `{!BootMemorySpec U} {K R : Type} `{LoaderFiles K R} {Fr : Type} `{LoaderFramesSpec Fr}.
Context `{VirtAddrs} `{Font} {M : Type} `{Hardware M} {PT : Type} (containing_frame : Z -> option Z) `{Mapper PT}.
Context {T D G : Type} `{SegmentTables T D G}.
Context `{!VirtAddrsSpec} `{!VirtAddrsExact} `{!FontSpec} `{!MapperSpec containing_frame PT} `{!SegmentTablesSpec T D G}.
Hypothesis containing_frame_spec :
  forall a, 0 <= a < 2 ^ 52 -> containing_frame a = Some (a / FRAME_SIZE * FRAME_SIZE).
Variables (cr3 : Z) (offset_page_table : Z -> Z -> PT) (instruction_pointer : str).
Variables (stack_address : Z) (cpu : segments G) (early : readings) (early_dropped : Z).

(** What the boot loader guarantees of the memory map, of the addresses and of the
    framebuffer. *)
Definition handed_over (boot_info : BootInfo) : Prop :=
  regions_wf (boot_memory_regions boot_info) /\ 0 <= cr3 /\
  (forall offset, physical_memory_offset boot_info = Some offset -> canonical offset /\ canonical (offset + cr3)) /\
  (forall pixels info, framebuffer boot_info = Some (pixels, info) -> screen_usable pixels info) /\
  canonical stack_address /\ canonical (stack_address + DOUBLE_FAULT_STACK_SIZE).

(** The messages that have nothing to do with the volume. *)
Definition other_failures : list str :=
  [lit "UEFI did not provide a framebuffer"; lit "bootloader did not map physical memory"; lit "heap mapping failed"].

Lemma fat32_volume_root (volume : blob) (n : node) : fat32_volume volume n -> shown_at n [] = Some FatDirectory.
Proof. intros (L & es & _ & _ & _ & Heq). by rewrite <- Heq. Qed.

(** A start from a RAM disk with the tree on it. *)
Lemma kernel_main_shows (ram : Z -> Z) (boot_info : BootInfo) (m : machine M) (d : RamDiskBlockDevice)
    (volume : blob) (n : node) (greeting : list Z) :
  handed_over boot_info -> 0 <= ramdisk_len boot_info ->
  from_boot_info ram (ramdisk_addr boot_info) (ramdisk_len boot_info) = Ok d ->
  device_shows d volume -> fat32_volume volume n -> shown_at n [lit "HELLO.TXT"] = Some (FatFile greeting) ->
  match kernel_main (T := T) containing_frame ram cr3 offset_page_table instruction_pointer stack_address cpu early
          early_dropped boot_info m with
  | Ok b => forall path, kernel_shows (boot_fs b) n path
  | Err message => message ∈ other_failures
  | Panic => False
  end.
Proof.
  intros (Hreg & Hcr3 & Hmap & Hscreen & Hst1 & Hst2) Hlen Hd Hshows Hvolume Hhello.
  pose proof (kernel_main_result (T := T) containing_frame ram cr3 offset_page_table instruction_pointer stack_address cpu
                early early_dropped containing_frame_spec boot_info m Hreg Hlen Hcr3 Hmap Hscreen Hst1 Hst2) as Hr.
  destruct (volume_mounts d volume n Hshows Hvolume) as (fs & Hfs).
  pose proof (fun path => mounted_shows d volume n fs path Hshows Hvolume Hfs) as Hall.
  destruct (kernel_main _ _ _ _ _ _ _ _ _ boot_info m) as [b|message|]; [| |done].
  - destruct Hr as ((d' & Hd' & Hmount) & _). intros path. by assert (boot_fs b = fs) as -> by congruence.
  - unfold other_failures. destruct Hr as [| | |e He|d' e Hd' He|d' fs' t e Hd' Hfs' He|d' fs' t e Hd' Hfs' He];
      [repeat constructor..|congruence|congruence| |]; assert (d' = d) as -> by congruence; assert (fs' = fs) as -> by congruence.
    + pose proof (Hall (lit "/")) as Hroot. unfold kernel_shows in Hroot. change (fat_path (lit "/")) with (@nil str) in Hroot.
      rewrite (fat32_volume_root volume) in Hroot by done. destruct Hroot as (_ & entries & _ & Hlist).
      by rewrite Hlist in He.
    + pose proof (Hall (lit "HELLO.TXT")) as Hfile. unfold kernel_shows in Hfile.
      change (fat_path (lit "HELLO.TXT")) with [lit "HELLO.TXT"] in Hfile. rewrite Hhello in Hfile.
      destruct Hfile as [Hread _]. destruct (Hread _ boot_read_visitor (Some t)) as (chunks & Hrun & _). by rewrite Hrun in He.
Qed.

(** C2: The whole way of a file from the build to the screen.  Let the builder have
    assembled an image around a FAT32 volume that holds a tree with HELLO.TXT in it,
    and the boot loader, started from disk on firmware that presents the partitions
    of that image, have run to its end.  It has chosen the sol-data partition, and if
    that is readable it hands over 64 MiB.  Started with these bytes mapped as its
    RAM disk, the kernel does not panic, and the volume never stops it: it can fail
    for want of a framebuffer, of the map of physical memory or of a heap only.
    Otherwise the file system it gives to the shell shows the tree, at every path,
    and [cat] prints every ASCII file of the tree byte for byte. *)
Theorem files_reach_shell (fs fs' : filesystem) (base_image output_image data_volume : list Z)
    (base volume image : blob) (p : Partition) (n : node) (greeting : list Z)
    (firmware_cr3 : Z) (start : U * (Z -> Z)) (h : Handover (K := K) (R := R) (F := Fr)) (memory : Z -> Z) :
  files fs !! base_image = Some base -> efi_partition base p -> files fs !! data_volume = Some volume ->
  output_image <> data_volume ->
  fat32_volume volume n -> shown_at n [lit "HELLO.TXT"] = Some (FatFile greeting) ->
  assemble_two_partition_image base_image output_image data_volume fs = (Ok tt, fs') ->
  files fs' !! output_image = Some image -> presents st image ->
  main_inner firmware_cr3 start = Some (h, (st, memory)) -> ho_mode h = Disk ->
  exists handle, chosen st handle /\ forall ptr, readable st handle ptr ->
    li_ramdisk_addr (ho_info h) = Some ptr /\ li_ramdisk_len (ho_info h) = 64 * 2 ^ 20 /\
    forall ram address boot_info m,
      (forall i, 0 <= i < 64 * 2 ^ 20 -> ram (address + i) = memory (ptr + i)) ->
      ramdisk_addr boot_info = Some address -> ramdisk_len boot_info = li_ramdisk_len (ho_info h) ->
      handed_over boot_info ->
      match kernel_main (T := T) containing_frame ram cr3 offset_page_table instruction_pointer stack_address cpu early
              early_dropped boot_info m with
      | Ok b =>
          (forall path, kernel_shows (boot_fs b) n path) /\
          (forall path content, shown_at n (fat_path path) = Some (FatFile content) -> ascii_str content ->
             exists acts, cat (boot_fs b) [path] = Some acts /\ Str.encode (shown_all acts) = content ++ [0x0a])
      | Err message => message ∈ other_failures
      | Panic => False
      end.
Proof.
  intros Hbase Hefi Hvolume Hne Hfat Hhello Hrun Himage Hpresents Hmain Hmode.
  destruct start as [u0 m00]. destruct (ramdisk_survives _ _ _ _ _ _ Hmain) as (m0 & slice & m1 & Hslice & Hfields & Hkeep). rewrite Hmode in Hslice.
  destruct (volume_reaches_kernel st fs fs' base_image output_image data_volume base volume image p m0
              Hbase Hefi Hvolume Hne Hrun Himage Hpresents) as (Hlen & handle & Hc & Hload).
  exists handle. split; [done|]. intros ptr Hread. destruct (Hload ptr Hread) as (memory' & Hl & Hdev).
  rewrite Hslice in Hl. injection Hl as -> ->. cbn [ramdisk_fields] in Hfields. injection Hfields as Haddr Hrlen.
  rewrite Haddr, Hrlen. split; [done|]. split; [done|].
  intros ram address boot_info m Hram Ha Hl Hhand. specialize (Hdev ram address ltac:(intros i Hi; rewrite Hram by done; by eapply Hkeep)).
  cbn [ramdisk_fields] in Hdev. destruct Hdev as (d & Hd & Hok & Hcount & Hsec). rewrite <- Ha, <- Hl in Hd.
  assert (Hshows : device_shows d volume) by (split; [done|]; rewrite Hcount, Hlen; done).
  pose proof (kernel_main_shows ram boot_info m d volume n greeting Hhand ltac:(by rewrite Hl) Hd Hshows Hfat Hhello) as Hstart.
  destruct (kernel_main _ _ _ _ _ _ _ _ _ boot_info m) as [b|message|]; [|done..]. split; [done|].
  intros path content Hfile Hascii. by apply (cat_shows (boot_fs b) n).
Qed.

(** C38: A start from the network ends without a shell.  When the boot loader found
    its kernel on a TFTP server, it hands over no RAM disk, and the kernel stops with
    a message: that the RAM disk is missing, if it gets so far. *)
Theorem network_start_has_no_files (firmware_cr3 : Z) (start : U * (Z -> Z)) (h : Handover (K := K) (R := R) (F := Fr))
    (memory ram : Z -> Z) (boot_info : BootInfo) (m : machine M) :
  main_inner firmware_cr3 start = Some (h, (st, memory)) -> ho_mode h = Tftp ->
  ramdisk_addr boot_info = li_ramdisk_addr (ho_info h) -> ramdisk_len boot_info = li_ramdisk_len (ho_info h) ->
  handed_over boot_info ->
  exists message,
    kernel_main (T := T) containing_frame ram cr3 offset_page_table instruction_pointer stack_address cpu early
      early_dropped boot_info m = Err message /\
    message ∈ lit "bootloader did not provide the FAT32 ramdisk" :: other_failures.
Proof.
  intros Hmain Hmode Ha Hl (Hreg & Hcr3 & Hmap & Hscreen & Hst1 & Hst2).
  destruct start as [u0 m0]. destruct (loader_fields _ _ _ _ _ _ Hmain Hmode) as [Haddr Hlen]. rewrite Haddr in Ha. rewrite Hlen in Hl.
  pose proof (kernel_main_result (T := T) containing_frame ram cr3 offset_page_table instruction_pointer stack_address cpu
                early early_dropped containing_frame_spec boot_info m Hreg ltac:(by rewrite Hl) Hcr3 Hmap Hscreen Hst1 Hst2) as Hr.
  assert (Hmissing : from_boot_info ram (ramdisk_addr boot_info) (ramdisk_len boot_info) = Err MissingRamdisk) by by rewrite Ha.
  destruct (kernel_main _ _ _ _ _ _ _ _ _ boot_info m) as [b|message|]; [|exists message; split; [done|]|done].
  - destruct Hr as ((d & Hd & _) & _). congruence.
  - unfold other_failures. destruct Hr; first [congruence|repeat constructor].
Qed.
End Boot.
