(* ===== verification/EndToEndDemo.v ===== *)
(** * EndToEndDemo: a volume that goes the whole way

    A FAT32 volume of 64 MiB, with two tables and the host tree of [DataDemo] in it;
    the kernel's reader on it, and its way through the image and the boot loader to
    the shell. *)

From S2P Require Import Gdt.
From S2P Require Import Prelude VirtAddr Storage Str DemoVolume Fat32 Fat32Geometry Fat32Dir Fat32Files Fat32Demo Ports Keyboard.
From S2P Require Import KeyboardController Console Allocator Memory Timer Pic Serial Framebuffer FramebufferPixels FramebufferText Terminal Interrupts Shell ShellCommands ShellDemo.
From S2P Require Import Boot KernelDemo.
From S2P Require Import Loader Launcher HostFs HostTree ImageBuilder ImageBoot ImageDemo DataVolume DataDemo FatFormat.
From S2P Require Import BootLoader LoaderHandover EndToEnd.
From stdpp Require Import gmap.
#[local] Open Scope Z_scope.

(** ** The volume *)

Definition fat_boot_sector : list Z :=
  pad_to 510
    ([0xeb; 0x58; 0x90] ++ replicate 8 0x20 ++ le2 512 ++ [1] ++ le2 32 ++ [2] ++ le2 0 ++ le2 0 ++ [0xf8] ++ le2 0 ++
     replicate 8 0 ++ le4 131072 ++ le4 1009 ++ replicate 4 0 ++ le4 2)
  ++ [0x55; 0xaa].

(** HELLO.TXT has two clusters, the others one. *)
Definition fat_table : list Z :=
  concat (map le4 [0x0ffffff8; 0x0fffffff; 0x0fffffff; 0x0fffffff; 6; 0x0ffffff8; 0x0fffffff]).

Definition fat_root : list Z :=
  demo_record (lit "SOL_DATA   ") 0x08 0 0 ++ demo_record (lit "DOCS       ") 0x10 3 0 ++
  demo_record (0xe5 :: lit "IPE       ") 0x20 0 0 ++ demo_record (lit "HELLO   TXT") 0x20 4 30.

Definition fat_docs : list Z :=
  demo_record (lit ".          ") 0x10 3 0 ++ demo_record (lit "..         ") 0x10 0 0 ++
  demo_record (lit "ABOUT   TXT") 0x20 5 23.

Definition fat_sector (lba : Z) : list Z :=
  match lba with
  | 0 => fat_boot_sector
  | 32 => fat_table
  | 1041 => fat_table
  | 2050 => fat_root
  | 2051 => fat_docs
  | 2052 => lit "Hello from the data partition!"
  | 2053 => lit "Sol OS reads this file."
  | _ => []
  end.

Definition fat_volume : blob := {|
  blob_len := 64 * 2 ^ 20;
  blob_at := fun x => nth (Z.to_nat (x mod 512)) (fat_sector (x / 512)) 0;
|}.

Definition fat_layout : layout :=
  {| per_cluster := 1; reserved := 32; fats := 2; per_fat := 1009; all_sectors := 131072; root := 2 |}.

Lemma fat_sector_bytes (lba : Z) : Forall (is_uint 8) (fat_sector lba).
Proof.
  unfold fat_sector. repeat case_match; try (by constructor); apply (bool_decide_unpack _); by vm_compute.
Qed.

Lemma fat_volume_bytes : byte_blob fat_volume.
Proof.
  intros x _. cbn. pose proof (fat_sector_bytes (x / 512)) as Hall. rewrite Forall_forall in Hall.
  destruct (nth_in_or_default (Z.to_nat (x mod 512)) (fat_sector (x / 512)) 0) as [Hin|Hz]; [|lia].
  apply list_elem_of_In, Hall in Hin. exact Hin.
Qed.

Lemma fat_boot_record : boot_record fat_volume fat_layout.
Proof. unfold boot_record. split_and!; vm_compute; reflexivity. Qed.

Lemma fat_layout_ok : layout_ok fat_volume fat_layout.
Proof.
  unfold layout_ok, data_cluster, clusters, data_start. cbn [per_cluster reserved fats per_fat all_sectors root fat_layout blob_len fat_volume].
  split; [by left|]. repeat (split; [by vm_compute|]). by vm_compute.
Qed.

Lemma fat_docs_at : directory_at fat_volume fat_layout 3 [(lit "ABOUT.TXT", Regular about)].
Proof.
  exists [3]. split; [apply chain_last; by vm_compute|]. split; [by apply (bool_decide_unpack _)|].
  assert (Hes : entries_of (chunks_exact 32 (chain_bytes fat_volume fat_layout [3])) = [demo_record (lit "ABOUT   TXT") 0x20 5 23])
    by (vm_compute; reflexivity).
  rewrite Hes. constructor; [|constructor].
  apply (describes_file _ _ _ _ about [5]); [split; by vm_compute|by vm_compute..|intros _|apply Nat.leb_le; by vm_compute|by vm_compute].
  apply chain_last; by vm_compute.
Qed.

Lemma fat_root_at :
  directory_at fat_volume fat_layout 2
    [(lit "DOCS", Directory [(lit "ABOUT.TXT", Regular about)]); (lit "HELLO.TXT", Regular hello)].
Proof.
  exists [2]. split; [apply chain_last; by vm_compute|]. split; [by apply (bool_decide_unpack _)|].
  assert (Hes : entries_of (chunks_exact 32 (chain_bytes fat_volume fat_layout [2])) =
                [demo_record (lit "DOCS       ") 0x10 3 0; demo_record (lit "HELLO   TXT") 0x20 4 30])
    by (vm_compute; reflexivity).
  rewrite Hes. constructor; [|constructor; [|constructor]].
  - destruct fat_docs_at as (cs & Hc & Hnd & Hes').
    apply (describes_directory _ _ _ _ _ cs); [split; by vm_compute|by vm_compute|exact Hc|exact Hnd|exact Hes'].
  - apply (describes_file _ _ _ _ hello [4; 6]); [split; by vm_compute|by vm_compute..|intros _|apply Nat.leb_le; by vm_compute|by vm_compute].
    apply chain_next; [by vm_compute..|]. change (chain fat_volume fat_layout 6 [6]). apply chain_last; by vm_compute.
Qed.

Lemma assoc_cons (x y : list Z) (c : node) (es : list (list Z * node)) :
  DataVolume.assoc x ((y, c) :: es) = if decide (y = x) then Some c else DataVolume.assoc x es.
Proof.
  unfold DataVolume.assoc. cbn [find fst]. case_decide as Hy; [by rewrite bool_decide_eq_true_2|by rewrite bool_decide_eq_false_2].
Qed.

Lemma fat_volume_holds : fat32_volume fat_volume demo_tree.
Proof.
  exists fat_layout, [(lit "DOCS", Directory [(lit "ABOUT.TXT", Regular about)]); (lit "HELLO.TXT", Regular hello)].
  split; [exact fat_boot_record|]. split; [exact fat_layout_ok|]. split; [exact fat_root_at|].
  intros [|x q]; [done|]. unfold shown_at, demo_tree. cbn [node_at].
  rewrite !assoc_cons. repeat case_decide; subst; try done. by destruct q.
Qed.

(** ** Reading it *)

Definition fat_ram (x : Z) : Z := blob_at fat_volume (x - 0x1000000).

Definition fat_disk : RamDiskBlockDevice :=
  {| bytes := {| ptr := 0x1000000; len := 64 * 2 ^ 20; mem := fat_ram |} |}.

Lemma fat_disk_shows : device_shows fat_disk fat_volume.
Proof.
  assert (Hok : ramdisk_ok fat_disk) by by vm_compute.
  split; [exact Hok|]. split; [done|]. intros lba Hlba. change (sector_count fat_disk) with 131072 in Hlba.
  change (read_sector fat_disk lba) with (ramdisk_read_sector fat_disk lba).
  rewrite ramdisk_sector_bytes by (done || cbn [bytes len fat_disk]; lia). f_equal. apply map_ext_in.
  intros i Hi%list_elem_of_In%elem_of_seqZ. cbn [bytes mem Storage.ptr fat_disk]. unfold load8, wrap, fat_ram.
  rewrite Z.add_simpl_l. apply Z.mod_small. change (2 ^ 8) with 256. apply fat_volume_bytes. cbn [blob_len fat_volume]. lia.
Qed.

(** The files are found under any spelling, and the directory's listing is the tree's. *)
Lemma kernel_reads_tree_witness :
  exists fs, mount fat_disk = Ok fs /\
    (exists chunks, read_file fs (lit "/docs//About.txt") (fun chunk acc => acc ++ [chunk]) [] = (Ok 23, chunks) /\
       concat chunks = lit "Sol OS reads this file.") /\
    (exists entries, map entry_name entries ≡ₚ [lit "HELLO.TXT"; lit "DOCS"] /\
       list_dir fs (lit "/") (fun e names => (true, names ++ [entry_name e])) [] = (Ok tt, map entry_name entries)) /\
    (read_file fs (lit "HELLO.TXT/X") (fun _ n => n) tt).1 = Err NotDirectory /\
    (read_file fs (lit "PIPE") (fun _ n => n) tt).1 = Err Fat32.NotFound.
Proof.
  destruct (kernel_reads_tree fat_disk fat_volume demo_tree fat_disk_shows fat_volume_holds) as (fs & Hfs & Hall).
  exists fs. split; [exact Hfs|]. split; [|split; [|split]].
  - destruct (Hall (lit "/docs//About.txt")) as [Hread _].
    destruct (Hread _ (fun chunk acc => acc ++ [chunk]) []) as (chunks & Hrun & Hcat & _).
    exists chunks. split; [|exact Hcat]. rewrite Hrun. f_equal. clear.
    assert (Hd : forall acc, deliver (fun chunk acc => acc ++ [chunk]) chunks acc = acc ++ chunks).
    { induction chunks as [|c chunks IH]; intros acc; [by rewrite app_nil_r|]. unfold deliver in *. cbn [foldl].
      by rewrite IH, <- app_assoc. }
    apply (Hd []).
  - destruct (Hall (lit "/")) as (_ & entries & (Hnd & Hin & _) & Hlist). exists entries. split.
    + apply NoDup_Permutation; [exact Hnd|by apply (bool_decide_unpack _)|]. intros x. rewrite Hin.
      change (fat_path (lit "/") ++ [x]) with [x]. unfold shown_at, demo_tree. cbn [node_at]. rewrite !assoc_cons.
      rewrite !elem_of_cons, elem_of_nil. split.
      * repeat case_decide; subst; intros Hs; try (by destruct Hs); [by left|by right; left].
      * by intros [->|[->|[]]].
    + rewrite Hlist. f_equal. clear.
      assert (Hd : forall acc, (visit_list (fun e names => (true, names ++ [entry_name e])) entries acc).2 = acc ++ map entry_name entries).
      { induction entries as [|e entries IH]; intros acc; [by rewrite app_nil_r|]. cbn. by rewrite IH, <- app_assoc. }
      apply (Hd []).
  - destruct (Hall (lit "HELLO.TXT/X")) as [Hread _]. by rewrite Hread.
  - destruct (Hall (lit "PIPE")) as [Hread _]. by rewrite Hread.
Defined.

(** ** The whole way *)

Definition fat_boot_info : BootInfo := {|
  framebuffer := framebuffer demo_boot_info;
  ramdisk_addr := Some 0x1000000;
  ramdisk_len := 64 * 2 ^ 20;
  physical_memory_offset := Some 0;
  boot_memory_regions := demo_regions;
|}.

#[local] Abbreviation fat_kernel_main ram :=
  (kernel_main (PT := Z -> option (Z * Z)) (T := list Z) (D := demo_descriptor) demo_containing_frame ram 0x2000 (fun _ _ _ => None)
    (lit "VirtAddr(0x8000000000)") 0x8000012340 demo_cpu demo_readings 0 fat_boot_info demo_machine).

Lemma fat_handed_over : handed_over 0x2000 0x8000012340 fat_boot_info.
Proof.
  split; [exact demo_regions_wf|]. split; [done|]. split; [intros ? [= <-]; split; left; lia|].
  split; [exact demo_screen_usable|]. unfold DOUBLE_FAULT_STACK_SIZE. split; left; lia.
Qed.

(** With a framebuffer, the map of physical memory and room for the heap, the start
    fails for the volume or not at all. *)
Lemma fat_start_succeeds (ram : Z -> Z) (message : str) :
  boot_failure (M := board) (PT := Z -> option (Z * Z)) demo_containing_frame ram 0x2000 (fun _ _ _ => None) fat_boot_info message ->
  message ∉ other_failures.
Proof.
  intros [Hfb|Hoff|offset e Hoff He|e He|d e Hd He|d fs t e Hd Hfs He|d fs t e Hd Hfs He] Hin;
    [discriminate Hfb|discriminate Hoff|injection Hoff as <-; vm_compute in He; discriminate He|..]; clear -Hin;
    unfold other_failures in Hin; rewrite !elem_of_cons, elem_of_nil in Hin; by destruct Hin as [|[|[|]]].
Qed.

Lemma fat_start_reported (ram : Z -> Z) :
  match fat_kernel_main ram with Err message => message ∉ other_failures | _ => True end.
Proof.
  destruct fat_handed_over as (Hreg & Hcr3 & Hmap & Hscreen & Hst1 & Hst2).
  assert (Hlen : 0 <= ramdisk_len fat_boot_info) by (cbn; lia).
  pose proof (kernel_main_result (T := list Z) (D := demo_descriptor) demo_containing_frame ram 0x2000 (fun _ _ _ => None)
    (lit "VirtAddr(0x8000000000)") 0x8000012340 demo_cpu demo_readings 0 demo_containing_frame_spec fat_boot_info demo_machine
    Hreg Hlen Hcr3 Hmap Hscreen Hst1 Hst2) as Hr.
  destruct (fat_kernel_main ram) as [b|message|]; [exact I| |exact I]. by apply (fat_start_succeeds ram).
Qed.


#[export] Instance image_memory : BootMemorySpec blob.
Proof. apply demo_memory_spec. intros u ptr. cbn. congruence. Qed.

(** The files of the demo directory, printed by the shell of the booted kernel. *)
Lemma files_reach_shell_witness :
  exists fs' image h memory b,
    demo_assemble fat_volume (fun _ => None) = (Ok tt, fs') /\ files fs' !! lit "out.img" = Some image /\
    main_inner (K := list Z) (R := unit) (F := Z * Z) 0x3000 (image, fun _ => 0) = Some (h, (image, memory)) /\
    li_ramdisk_addr (ho_info h) = Some 0x1000000 /\ fat_kernel_main memory = Ok b /\
    (exists acts, cat (boot_fs b) [lit "hello.txt"] = Some acts /\
       Str.encode (shown_all acts) = lit "Hello from the data partition!" ++ [0x0a]) /\
    (exists acts, cat (boot_fs b) [lit "/DOCS/ABOUT.TXT"] = Some acts /\
       Str.encode (shown_all acts) = lit "Sol OS reads this file." ++ [0x0a]).
Proof.
  pose proof (runs_assemble (lit "base.img") (lit "out.img") (lit "sol-data.fat") demo_boot_image fat_volume demo_efi
                (files (demo_files fat_volume (fun _ => None))) ltac:(reflexivity) demo_boot_image_efi ltac:(reflexivity)
                ltac:(done) (demo_files fat_volume (fun _ => None)) eq_refl) as Hrun.
  assert (Hdone : (demo_assemble fat_volume (fun _ => None)).1 = Ok tt) by (vm_compute; reflexivity).
  unfold demo_assemble in *.
  destruct (assemble_two_partition_image _ _ _ (demo_files fat_volume (fun _ => None))) as [r fs'] eqn:Hassemble.
  cbn [fst] in Hdone. subst r. destruct Hrun as (_ & out & _ & _ & _ & image & Hfiles & Htwo).
  destruct (demo_main_inner image (fun _ => 0)) as (h & memory & Hmain & Hmode).
  destruct (files_reach_shell image (M := board) (PT := Z -> option (Z * Z)) (T := list Z) (D := demo_descriptor)
              demo_containing_frame demo_containing_frame_spec 0x2000 (fun _ _ _ => None)
              (lit "VirtAddr(0x8000000000)") 0x8000012340 demo_cpu demo_readings 0
              (demo_files fat_volume (fun _ => None)) fs' (lit "base.img") (lit "out.img") (lit "sol-data.fat")
              demo_boot_image fat_volume image demo_efi demo_tree (lit "Hello from the data partition!")
              0x3000 (image, fun _ => 0) h memory
              ltac:(reflexivity) demo_boot_image_efi ltac:(reflexivity)
              ltac:(done) fat_volume_holds ltac:(vm_compute; reflexivity) Hassemble ltac:(by rewrite Hfiles, lookup_insert_eq)
              (image_presents _ _ _ _ Htwo demo_efi_bytes fat_volume_bytes ltac:(reflexivity) ltac:(reflexivity))
              Hmain Hmode)
    as (handle & Hc & Hload).
  destruct (Hload 0x1000000 (image_readable _ _ _ _ _ Htwo Hc)) as (Haddr & Hlen & Hstart).
  specialize (Hstart memory 0x1000000 fat_boot_info demo_machine ltac:(done) eq_refl ltac:(by rewrite Hlen) fat_handed_over).
  pose proof (fat_start_reported memory) as Hboot.
  destruct (fat_kernel_main memory) as [b|message|] eqn:Hk; [|destruct (Hboot Hstart)|destruct Hstart].
  destruct Hstart as [_ Hcat]. exists fs', image, h, memory, b. split; [reflexivity|].
  split; [by rewrite Hfiles, lookup_insert_eq|]. split; [exact Hmain|]. split; [exact Haddr|]. split; [exact Hk|]. split.
  - apply (Hcat (lit "hello.txt")); [vm_compute; reflexivity|apply (bool_decide_unpack _); by vm_compute].
  - apply (Hcat (lit "/DOCS/ABOUT.TXT")); [vm_compute; reflexivity|apply (bool_decide_unpack _); by vm_compute].
Defined.

(** ** A start from the network *)

(** A machine without disks, and a server with the kernel. *)
Inductive net_machine : Type := NetMachine.

#[export] Instance net_firmware : Firmware net_machine := {
  locate_partition_handles _ := None;
  open_partition_info _ _ := None;
  open_block_io _ _ := None;
  allocate_pages _ _ := None;
  read_blocks _ _ _ _ _ := None;
}.

#[export] Instance net_services : BootServices net_machine := {
  loaded_image_device _ := Some 1;
  open_device_path _ _ := Some 2;
  locate_device_path _ p _ := match p with SimpleFileSystem => None | BaseCode => Some 3 end;
  open_exclusive _ _ _ := true;
  open_volume _ _ := None;
  open_in_root _ _ _ := None;
  into_type _ _ := None;
  file_size _ _ := None;
  read_regular _ _ _ := None;
  allocate_loader_pages u n := if n <? 2 ^ 20 then Some (0x800000, u) else None;
  dhcp_ack_received _ _ := true;
  bootp_si_addr _ _ := 0x0a000001;
  tftp_get_file_size _ _ _ name := if decide (name = lit "kernel-x86_64") then Some 4 else None;
  tftp_read_file _ _ _ _ n := Some (take (Z.to_nat n) [0x7f; 0x45; 0x4c; 0x46]);
  graphics_output _ := None;
  open_graphics _ _ := false;
  modes _ _ := [];
  set_mode u _ _ := None;
  current_mode_info _ _ := {| resolution := (0, 0); gop_format := GopBgr; gop_stride := 0 |};
  gop_frame_buffer _ _ := (0, 0);
  exit_boot_services _ := ([{| ty := CONVENTIONAL; phys_start := 0x10000000; page_count := 0x7f00 |}], []);
}.

Definition net_boot_info : BootInfo := {|
  framebuffer := framebuffer demo_boot_info; ramdisk_addr := None; ramdisk_len := 0;
  physical_memory_offset := Some 0; boot_memory_regions := demo_regions;
|}.

Lemma net_main_inner :
  exists h memory, main_inner (K := list Z) (R := unit) (F := Z * Z) 0x3000 (NetMachine, fun _ => 0) =
    Some (h, (NetMachine, memory)) /\ ho_mode h = Tftp.
Proof.
  assert (Hrun : match main_inner (K := list Z) (R := unit) (F := Z * Z) 0x3000 (NetMachine, fun _ => 0) with
                 | Some (h, _) => ho_mode h = Tftp
                 | None => False
                 end) by (vm_compute; reflexivity).
  destruct (main_inner _ _) as [[h [[] memory]]|]; [by exists h, memory|done].
Qed.

Lemma net_handed_over : handed_over 0x2000 0x8000012340 net_boot_info.
Proof. exact fat_handed_over. Qed.

Lemma network_start_has_no_files_witness :
  exists h memory message,
    main_inner (K := list Z) (R := unit) (F := Z * Z) 0x3000 (NetMachine, fun _ => 0) = Some (h, (NetMachine, memory)) /\
    kernel_main (PT := Z -> option (Z * Z)) (T := list Z) (D := demo_descriptor) demo_containing_frame memory 0x2000
      (fun _ _ _ => None) (lit "VirtAddr(0x8000000000)") 0x8000012340 demo_cpu demo_readings 0 net_boot_info demo_machine =
      Err message /\ message ∈ lit "bootloader did not provide the FAT32 ramdisk" :: other_failures.
Proof.
  destruct net_main_inner as (h & memory & Hmain & Hmode).
  destruct (loader_fields _ _ _ _ _ _ Hmain Hmode) as [Haddr Hlen].
  destruct (network_start_has_no_files NetMachine (M := board) (PT := Z -> option (Z * Z)) (T := list Z) (D := demo_descriptor)
              demo_containing_frame demo_containing_frame_spec 0x2000 (fun _ _ _ => None)
              (lit "VirtAddr(0x8000000000)") 0x8000012340 demo_cpu demo_readings 0 0x3000 (NetMachine, fun _ => 0)
              h memory memory net_boot_info demo_machine Hmain Hmode ltac:(by rewrite Haddr) ltac:(by rewrite Hlen) net_handed_over)
    as (message & Hk & Hin).
  exists h, memory, message. split; [exact Hmain|]. split; [exact Hk|exact Hin].
Defined.
